(** * botwartiket: the interaction engine of [bot.js] and [utils/selectors.js]

    The bot drives a browser through Playwright.  Every [await page.X(...)] of
    the source is an interaction with the browser, so the asynchronous
    functions are embedded as interaction trees over one event type
    ([pageE]); what the browser answers is left to the environment.  Pure
    helpers ([isWaitingRoom], [isLikelyVA], the regular expressions) are
    plain functions on strings. *)

From Stdlib Require Import String Ascii List Bool Arith ZArith QArith Qabs Lia.
From Stdlib Require Import DecimalString SpecFloat.
From ITree Require Import ITree Eq.Shallow Props.Leaf Props.Finite.
Import ListNotations.

Local Close Scope Q_scope.
Local Open Scope string_scope.
Local Open Scope list_scope.
Local Open Scope nat_scope.

Set Implicit Arguments.
Set Default Proof Using "Type".

(* ===================================================================== *)
(** ** JavaScript strings *)
(* ===================================================================== *)

(** Strings are sequences of 8-bit characters.  The strings the engine
    lower-cases are URLs as [page.url()] serialises them and text it compares
    with ASCII keywords; [toLowerCase] is the ASCII case mapping, which is
    JavaScript's on strings of ASCII characters.  A statement that depends on
    the case of other characters is made for ASCII strings. *)
Module JSString.

Definition isUpper (c : ascii) : bool :=
let n := nat_of_ascii c in (65 <=? n) && (n <=? 90).

Definition lowerChar (c : ascii) : ascii :=
if isUpper c then ascii_of_nat (nat_of_ascii c + 32) else c.

Definition isLower (c : ascii) : bool :=
let n := nat_of_ascii c in (97 <=? n) && (n <=? 122).

Definition upperChar (c : ascii) : ascii :=
if isLower c then ascii_of_nat (nat_of_ascii c - 32) else c.

(** [s.toLowerCase()] *)
Fixpoint toLowerCase (s : string) : string :=
match s with
| EmptyString => EmptyString
| String c s' => String (lowerChar c) (toLowerCase s')
end.

(** [s.toUpperCase()] *)
Fixpoint toUpperCase (s : string) : string :=
match s with
| EmptyString => EmptyString
| String c s' => String (upperChar c) (toUpperCase s')
end.

(** [s.startsWith(p)] *)
Fixpoint startsWith (s p : string) {struct p} : bool :=
match p, s with
| EmptyString, _ => true
| String _ _, EmptyString => false
| String a p', String b s' => Ascii.eqb a b && startsWith s' p'
end.

(** [s.includes(p)]: [p] occurs at some offset of [s]. *)
Fixpoint includes (s p : string) : bool :=
startsWith s p ||
match s with
| EmptyString => false
| String _ s' => includes s' p
end.

(** [arr.includes(x)] on an array of strings. *)
Fixpoint arrayIncludes (arr : list string) (x : string) : bool :=
match arr with
| [] => false
| y :: arr' => String.eqb y x || arrayIncludes arr' x
end.

(** [s.replace(/^0/, '')]: one leading zero, when there is one, is dropped. *)
Definition stripLeadingZero (s : string) : string :=
match s with
| String "0"%char s' => s'
| _ => s
end.

(** White space on 8-bit characters: tab, line feed, vertical tab, form
feed, carriage return, space and the no-break space. *)
Definition isWhiteSpace (a : ascii) : bool :=
let n := nat_of_ascii a in
((9 <=? n) && (n <=? 13)) || (n =? 32) || (n =? 160).

Fixpoint trimStart (s : string) : string :=
match s with
| EmptyString => EmptyString
| String a s' => if isWhiteSpace a then trimStart s' else s
end.

Fixpoint trimEnd (s : string) : string :=
match s with
| EmptyString => EmptyString
| String a s' =>
  match trimEnd s' with
  | EmptyString => if isWhiteSpace a then EmptyString else String a EmptyString
  | t => String a t
  end
end.

(** [s.trim()] *)
Definition trim (s : string) : string := trimEnd (trimStart s).

(** [String(n)] for a natural number. *)
Definition ofNat (n : nat) : string := NilEmpty.string_of_uint (Nat.to_uint n).

(** [s.substring(0, n)] *)
Fixpoint substring0 (n : nat) (s : string) : string :=
match n, s with
| O, _ => EmptyString
| S _, EmptyString => EmptyString
| S n', String c s' => String c (substring0 n' s')
end.

End JSString.
Import JSString.

(* ===================================================================== *)
(** ** JavaScript regular expressions *)
(* ===================================================================== *)

(** The fragment of regular expressions the engine uses, with the
    backtracking semantics of JavaScript: alternatives are tried left to
    right, quantifiers are greedy and give back one repetition at a time.
    Quantifiers only occur on character classes. *)
Module RegExp.

Inductive charClass : Type :=
| Lit (c : ascii)                  (* the character itself *)
| Digit                            (* \d *)
| Space                            (* \s *)
| Either (c1 c2 : charClass).      (* [c1c2] *)

Inductive regex : Type :=
| Chr (c : charClass)
| Seq (r1 r2 : regex)
| Alt (r1 r2 : regex)
| Star (c : charClass)             (* c* *)
| Opt (c : charClass)              (* c? *)
| Repeat (c : charClass) (lo hi : nat)   (* c{lo,hi} *)
| WordBoundary.                    (* \b *)

Definition isDigit (a : ascii) : bool :=
let n := nat_of_ascii a in (48 <=? n) && (n <=? 57).

(** [\s] *)
Definition isSpace (a : ascii) : bool := isWhiteSpace a.

(** [\w] *)
Definition isWord (a : ascii) : bool :=
isDigit a || isUpper a || isLower a || (nat_of_ascii a =? 95).

(** [ignoreCase] is the [i] flag. *)
Fixpoint inClass (ignoreCase : bool) (c : charClass) (a : ascii) : bool :=
match c with
| Lit b =>
  if ignoreCase then Ascii.eqb (lowerChar b) (lowerChar a) else Ascii.eqb b a
| Digit => isDigit a
| Space => isSpace a
| Either c1 c2 => inClass ignoreCase c1 a || inClass ignoreCase c2 a
end.

(** [\b] holds between [prev] and the head of [s] when exactly one of them
is a word character. *)
Definition atBoundary (prev : option ascii) (s : string) : bool :=
let before := match prev with Some a => isWord a | None => false end in
let after := match s with String a _ => isWord a | EmptyString => false end in
xorb before after.

Section Match.

Variable ignoreCase : bool.
Variable A : Type.

(** [c{lo,hi}] followed by [k]: as many repetitions as possible first. *)
Fixpoint repeatClass (c : charClass) (lo hi : nat) (prev : option ascii)
 (s : string) (k : option ascii -> string -> option A) : option A :=
let stop := if lo =? 0 then k prev s else None in
match hi with
| O => stop
| S hi' =>
match s with
| String a s' =>
  if inClass ignoreCase c a then
    match repeatClass c (lo - 1) hi' (Some a) s' k with
    | Some x => Some x
    | None => stop
    end
  else stop
| EmptyString => stop
end
end.

(** [r] matched at the head of [s], then [k] on what is left; [prev] is the
character before [s]. *)
Fixpoint matchHere (r : regex) (prev : option ascii) (s : string)
 (k : option ascii -> string -> option A) : option A :=
match r with
| Chr c =>
match s with
| String a s' => if inClass ignoreCase c a then k (Some a) s' else None
| EmptyString => None
end
| Seq r1 r2 => matchHere r1 prev s (fun prev' s' => matchHere r2 prev' s' k)
| Alt r1 r2 =>
match matchHere r1 prev s k with
| Some x => Some x
| None => matchHere r2 prev s k
end
| Star c => repeatClass c 0 (String.length s) prev s k
| Opt c => repeatClass c 0 1 prev s k
| Repeat c lo hi => repeatClass c lo hi prev s k
| WordBoundary => if atBoundary prev s then k prev s else None
end.

End Match.

(** The text of a match of [r] at the head of [s], if there is one. *)
Definition matchAt (ignoreCase : bool) (r : regex) (prev : option ascii)
       (s : string) : option string :=
match matchHere ignoreCase r prev s (fun _ rest => Some rest) with
| Some rest => Some (substring0 (String.length s - String.length rest) s)
| None => None
end.

(** [s.match(r)] with the [g] flag: the matches from left to right, each
search resuming where the last match ended (one character further after
an empty match).  [skip] characters are still covered by the last match.
The empty list stands for [null]. *)
Fixpoint scanFrom (ignoreCase : bool) (r : regex) (prev : option ascii)
     (s : string) (skip : nat) : list string :=
match skip with
| S skip' =>
  match s with
  | String a s' => scanFrom ignoreCase r (Some a) s' skip'
  | EmptyString => []
  end
| O =>
  match matchAt ignoreCase r prev s with
  | Some m =>
      m :: match s with
           | String a s' =>
               scanFrom ignoreCase r (Some a) s' (String.length m - 1)
           | EmptyString => []
           end
  | None =>
      match s with
      | String a s' => scanFrom ignoreCase r (Some a) s' 0
      | EmptyString => []
      end
  end
end.

Definition matchAll (ignoreCase : bool) (r : regex) (s : string) : list string :=
scanFrom ignoreCase r None s 0.

(** [s.match(r)] without the [g] flag: the leftmost match. *)
Fixpoint searchFrom (ignoreCase : bool) (r : regex) (prev : option ascii)
     (s : string) : option string :=
match matchAt ignoreCase r prev s with
| Some m => Some m
| None =>
  match s with
  | String a s' => searchFrom ignoreCase r (Some a) s'
  | EmptyString => None
  end
end.

Definition matchFirst (ignoreCase : bool) (r : regex) (s : string)
: option string :=
searchFrom ignoreCase r None s.

(** The characters of a literal word, in sequence. *)
Fixpoint word (w : string) : regex :=
match w with
| EmptyString => Repeat Digit 0 0
| String a EmptyString => Chr (Lit a)
| String a w' => Seq (Chr (Lit a)) (word w')
end.

End RegExp.
Import RegExp.

(* ===================================================================== *)
(** ** [utils/selectors.js]: the selector tables *)
(* ===================================================================== *)

(** Selectors are opaque to the engine: it hands them to the browser.  The
    double quotes inside the source's selector literals are written as single
    quotes here. *)

Module selectors.

Module event.
Definition buyButton : list string :=
[ "button:has-text('Beli Tiket')";
"a:has-text('Beli Tiket')";
"[class*='buy']:has-text('Beli')";
".btn-buy-ticket";
"button:has-text('Buy Ticket')";
"[data-action='buy-ticket']" ].
End event.

Module waitingRoom.
Definition urlPatterns : list string :=
[ "waiting-room"; "queue"; "antrean"; "antrian" ].
End waitingRoom.

Module checkout.
Definition nextButton : list string :=
[ "button:has-text('Lanjutkan')";
"button:has-text('Selanjutnya')";
"button:has-text('Next')";
"button:has-text('Continue')";
".btn-next";
".btn-continue";
"[class*='next']";
"button[type='submit']" ].

Definition payButton : list string :=
[ "button:has-text('Bayar')";
"button:has-text('Bayar Sekarang')";
"button:has-text('Pay')";
"button:has-text('Pay Now')";
".btn-pay";
"[class*='pay']" ].
End checkout.

End selectors.

(* ===================================================================== *)
(** ** [bot.js]: the queue gate *)
(* ===================================================================== *)

(** [selectors.waitingRoom.urlPatterns.some(p => url.toLowerCase().includes(p))] *)
Definition isWaitingRoom (url : string) : bool :=
  existsb (fun pattern => includes (toLowerCase url) pattern)
          selectors.waitingRoom.urlPatterns.


(* ===================================================================== *)
(** ** JavaScript numbers *)
(* ===================================================================== *)

(** A JavaScript number is an IEEE 754 binary64 value.  The engine computes
    with one number only: [findElement] divides its timeout by the number of
    candidates.  The operations are those of the binary64 format (53 bits of
    precision, round to nearest, ties to even). *)
Module JSNumber.
Definition t : Type := spec_float.

Definition prec : Z := 53.
Definition emax : Z := 1024.

(** The number nearest to [m * 2 ^ e]. *)
Definition make (m e : Z) : t := binary_normalize prec emax m e false.

(** An integer written in the source; the [length] of an array. *)
Definition ofZ (z : Z) : t := make z 0.
Definition ofNat (n : nat) : t := ofZ (Z.of_nat n).

(** [x / y] *)
Definition div (x y : t) : t := SFdiv prec emax x y.

(** The rational a number stands for, when it is one. *)
Definition toQ (x : t) : option Q :=
  match x with
  | S754_zero _ => Some 0%Q
  | S754_finite s m e =>
      Some ((if s then -1 else 1) * inject_Z (Zpos m) * Qpower 2 e)%Q
  | S754_infinity _ => None
  | S754_nan => None
  end.
End JSNumber.

(* ===================================================================== *)
(** ** The browser as an environment *)
(* ===================================================================== *)

(** A JavaScript exception: [e.message]. *)
Inductive JSError : Type := Error (message : string).

(** How an awaited promise settles. *)
Inductive outcome (T : Type) : Type :=
| Fulfilled (v : T)
| Rejected (e : JSError).
Arguments Fulfilled {T} v.
Arguments Rejected {T} e.

(** What the engine holds on to: an [ElementHandle] the browser returned, or
    a [Locator] it built itself ([page.locator(sel)], [.first()], [.last()]);
    [locator.all()] is answered by the browser. *)
Inductive handle : Type :=
| Element (id : nat)
| Locator (sel : string)
| First (l : handle)
| Last (l : handle).

(** [boundingBox()] *)
Record box : Type :=
  { box_x : Q; box_y : Q; box_width : Q; box_height : Q }.

(** A text node under [document.body] as the tree walker of
    [navigateToPayment] sees it: its parent element (if any) with the tag name
    and the computed [display] and [visibility], and its text. *)
Record element : Type :=
  { tagName : string; display : string; visibility : string }.
Record textNode : Type :=
  { parentElement : option element; nodeText : string }.

(** [utils/logger.js]: the levels of the logging collaborator. *)
Module logger.
Inductive level : Type := info | success | warn | error | war | queue | debug.
End logger.

(** A piece of a logged template literal. *)
Inductive piece : Type :=
| Str (s : string)
| Num (n : nat)
| Rat (q : Q)
| Flag (b : bool).

(** The timeouts, delays and coordinates the source writes out or hands
    through are rationals; the timeout [findElement] computes is a
    JavaScript number. *)
Variant pageE : Type -> Type :=
(* page *)
| Url : pageE string
| Goto (url : string) (timeout : Q) : pageE (outcome unit)
| Reload : pageE (outcome unit)
| WaitForTimeout (ms : Q) : pageE (outcome unit)
| WaitForSelector (sel : string) (timeout : JSNumber.t) (state : string)
  : pageE (outcome (option handle))
| Query (scope : option handle) (sel : string) : pageE (outcome (option handle))
| QueryAll (sel : string) : pageE (outcome (list handle))
| PageClick (sel : string) : pageE (outcome unit)
| MouseClick (px py : Q) : pageE (outcome unit)
| EvaluateClickSelect : pageE (outcome bool)
| EvaluateBodyTextNodes : pageE (outcome (list textNode))
(* element handles and locators *)
| LocatorAll (l : handle) : pageE (outcome (list handle))
| LocatorCount (l : handle) : pageE (outcome nat)
| IsVisible (h : handle) (timeout : option Q) : pageE (outcome bool)
| IsDisabled (h : handle) : pageE (outcome bool)
| IsChecked (h : handle) : pageE (outcome bool)
| BoundingBox (h : handle) : pageE (outcome (option box))
| Click (h : handle) (timeout : option Q) : pageE (outcome unit)
| Fill (h : handle) (value : string) : pageE (outcome unit)
| TypeText (h : handle) (text : string) (delay : Q) : pageE (outcome unit)
| TextContent (h : handle) : pageE (outcome (option string))
| GetAttribute (h : handle) (name : string) : pageE (outcome (option string))
| InputValue (h : handle) : pageE (outcome string)
(* collaborators *)
| Log (lvl : logger.level) (msg : list piece) : pageE unit
| Now : pageE string
| WriteFile (file : string) (content : list piece) : pageE (outcome unit).

(** One interaction: the call and what came back. *)
Inductive entry : Type := Ev : forall X : Type, pageE X -> X -> entry.
Arguments Ev {X} e x.

Definition trace : Type := list entry.

Import ITreeNotations.
Local Open Scope itree_scope.

(** An asynchronous function: it interacts with the browser and settles. *)
Definition async (A : Type) : Type := itree pageE (outcome A).

(** [return a] *)
Definition ret {A} (a : A) : async A := Ret (Fulfilled a).

(** [throw e] *)
Definition throw {A} (e : JSError) : async A := Ret (Rejected e).

(** [await] of a call that may reject. *)
Definition await {A} (e : pageE (outcome A)) : async A := ITree.trigger e.

(** A call that cannot reject ([page.url()], the logger). *)
Definition perform {A} (e : pageE A) : async A :=
  a <- ITree.trigger e ;; Ret (Fulfilled a).

(** Sequencing: a rejection skips the rest. *)
Definition andThen {A B} (m : async A) (k : A -> async B) : async B :=
  r <- m ;;
  match r with
  | Fulfilled a => k a
  | Rejected e => Ret (Rejected e)
  end.

(** [try { m } catch (e) { h e }] *)
Definition tryCatch {A} (m : async A) (h : JSError -> async A) : async A :=
  r <- m ;;
  match r with
  | Fulfilled a => Ret (Fulfilled a)
  | Rejected e => h e
  end.

(** [promise.catch(() => d)] *)
Definition orElse {A} (m : async A) (d : A) : async A :=
  tryCatch m (fun _ => ret d).

Notation "x <~ m ;;; k" := (andThen m (fun x => k))
  (at level 61, m at next level, right associativity) : itree_scope.
Notation "m ;;; k" := (andThen m (fun _ => k))
  (at level 61, right associativity) : itree_scope.

(** [when c m]: [if (c) { m }] *)
Definition when (c : bool) (m : async unit) : async unit :=
  if c then m else ret tt.

(** *** Executions *)

(** [runs t tr r]: [t] can run to completion, interacting as [tr] records,
    and settle with [r]. *)
Inductive runs {R : Type} : itree pageE R -> trace -> R -> Prop :=
| runs_ret t r :
    observe t = RetF r -> runs t [] r
| runs_tau t u tr r :
    observe t = TauF u -> runs u tr r -> runs t tr r
| runs_vis t X (e : pageE X) k a tr r :
    observe t = VisF e k -> runs (k a) tr r -> runs t (Ev e a :: tr) r.

(** [partial t tr]: [tr] is the beginning of an execution of [t], finished
    or not. *)
Inductive partial {R : Type} : itree pageE R -> trace -> Prop :=
| partial_nil t : partial t []
| partial_tau t u tr :
    observe t = TauF u -> partial u tr -> partial t tr
| partial_vis t X (e : pageE X) k a tr :
    observe t = VisF e k -> partial (k a) tr -> partial t (Ev e a :: tr).

(** A deterministic browser with state [W]. *)
Definition browser (W : Type) : Type := forall X, pageE X -> W -> X * W.

(** Running a program against a browser, for at most [fuel] steps. *)
Fixpoint exec {W R} (b : browser W) (fuel : nat) (t : itree pageE R) (w : W)
  : option (trace * R * W) :=
  match fuel with
  | O => None
  | S fuel' =>
      match observe t with
      | RetF r => Some ([], r, w)
      | TauF u => exec b fuel' u w
      | VisF e k =>
          let '(a, w') := b _ e w in
          match exec b fuel' (k a) w' with
          | Some (tr, r, w'') => Some (Ev e a :: tr, r, w'')
          | None => None
          end
      end
  end.


(* ===================================================================== *)
(** ** [bot.js]: the control flow of loops *)
(* ===================================================================== *)

(** How one turn of a [while] loop ends: the next turn with the new loop
    variables, [break], or [return a] out of the enclosing function. *)
Inductive control (S A : Type) : Type :=
| Continue (s : S)
| Break
| Return (a : A).
Arguments Continue {S A} s.
Arguments Break {S A}.
Arguments Return {S A} a.

(** [while (...) { turn }]: [Some a] when the loop was left by [return a],
    [None] when control goes on after the loop. *)
Definition while {S A} (turn : S -> async (control S A)) (s : S)
  : async (option A) :=
  ITree.iter
    (fun s =>
       r <- turn s ;;
       match r with
       | Fulfilled (Continue s') => Ret (inl s')
       | Fulfilled Break => Ret (inr (Fulfilled None))
       | Fulfilled (Return a) => Ret (inr (Fulfilled (Some a)))
       | Rejected e => Ret (inr (Rejected e))
       end) s.

(* ===================================================================== *)
(** ** [utils/selectors.js]: the locator resolver *)
(* ===================================================================== *)

(** The [selectorArray] argument: one selector string or an array of them. *)
Inductive selectorArg : Type :=
| One (selector : string)
| Many (selectors : list string).

(** [Array.isArray(selectorArray) ? selectorArray : [selectorArray]] *)
Definition toArray (selectorArray : selectorArg) : list string :=
  match selectorArray with
  | Many l => l
  | One s => [s]
  end.

(** The [options] argument of [findElement]; an absent field is [None]. *)
Record findOptions : Type :=
  { timeout : option JSNumber.t; state : option string }.

Definition noOptions : findOptions := {| timeout := None; state := None |}.

Definition orDefault {A} (o : option A) (d : A) : A :=
  match o with Some a => a | None => d end.

(** The [for] loop of [findElement]; [perCandidate] is
    [timeout / selectors.length]. *)
Fixpoint findElement_for (perCandidate : JSNumber.t) (state : string)
         (selectors : list string) : async (option handle) :=
  match selectors with
  | [] => ret None
  | selector :: rest =>
      r <- ITree.trigger (WaitForSelector selector perCandidate state) ;;
      match r with
      | Fulfilled (Some element) => ret (Some element)
      | Fulfilled None => findElement_for perCandidate state rest
      | Rejected _ => findElement_for perCandidate state rest
      end
  end.

Definition findElement (selectorArray : selectorArg) (options : findOptions)
  : async (option handle) :=
  let timeout := orDefault options.(timeout) (JSNumber.ofZ 5000) in
  let state := orDefault options.(state) "visible" in
  let selectors := toArray selectorArray in
  findElement_for (JSNumber.div timeout (JSNumber.ofNat (length selectors))) state
                  selectors.

(** The [for] loop of [elementExists]. *)
Fixpoint elementExists_for (selectors : list string) : async bool :=
  match selectors with
  | [] => ret false
  | selector :: rest =>
      r <- ITree.trigger (Query None selector) ;;
      match r with
      | Fulfilled (Some _) => ret true
      | Fulfilled None => elementExists_for rest
      | Rejected _ => elementExists_for rest
      end
  end.

Definition elementExists (selectorArray : selectorArg) : async bool :=
  elementExists_for (toArray selectorArray).

(* ===================================================================== *)
(** ** [bot.js]: the availability poller *)
(* ===================================================================== *)

(** The inner [for] loop of [waitForBuyButton] over
    [selectors.event.buyButton]; [Some button] is the [return button]. *)
Fixpoint scanBuyButton (iterations : nat) (selectors : list string)
  : async (option handle) :=
  match selectors with
  | [] => ret None
  | selector :: rest =>
      r <- (button <~ await (Query None selector) ;;;
            match button with
            | Some button =>
                isDisabled <~ await (IsDisabled button) ;;;
                isVisible <~ await (IsVisible button None) ;;;
                if isVisible && negb isDisabled then
                  perform (Log logger.success
                    [Str "Buy button found after "; Num iterations;
                     Str " iterations!"]) ;;;
                  ret (Some button)
                else ret None
            | None => ret None
            end) ;;
      match r with
      | Fulfilled (Some button) => ret (Some button)
      | Fulfilled None => scanBuyButton iterations rest
      | Rejected _ => scanBuyButton iterations rest
      end
  end.

(** One turn of [while (!found)]; the loop state is [(found, iterations)].
    [inl] goes round again, [inr] leaves the function.  [found] is only set
    right before [return button], so the loop is never left through its
    condition; if it were, the function would return [undefined] ([None]). *)
Definition waitForBuyButton_body (pollInterval : Q) (st : bool * nat)
  : itree pageE (bool * nat + outcome (option handle)) :=
  let '(found, iterations) := st in
  if found then Ret (inr (Fulfilled None)) else
  let iterations := iterations + 1 in
  currentUrl <- ITree.trigger Url ;;
  if isWaitingRoom currentUrl then
    (if iterations mod 50 =? 1
     then ITree.trigger (Log logger.queue
            [Str "In waiting room - staying patient, NOT refreshing..."])
     else Ret tt) ;;
    r <- ITree.trigger (WaitForTimeout pollInterval) ;;
    match r with
    | Fulfilled _ => Ret (inl (found, iterations))
    | Rejected e => Ret (inr (Rejected e))
    end
  else
    b <- scanBuyButton iterations selectors.event.buyButton ;;
    match b with
    | Fulfilled (Some button) => Ret (inr (Fulfilled (Some button)))
    | Rejected e => Ret (inr (Rejected e))
    | Fulfilled None =>
        (if iterations mod 100 =? 0
         then ITree.trigger (Log logger.info
                [Str "Still scanning... (";
                 Rat (inject_Z (Z.of_nat iterations) * pollInterval / (1000 # 1))%Q;
                 Str "s elapsed)"])
         else Ret tt) ;;
        r <- ITree.trigger (WaitForTimeout pollInterval) ;;
        match r with
        | Fulfilled _ => Ret (inl (found, iterations))
        | Rejected e => Ret (inr (Rejected e))
        end
    end.

Definition waitForBuyButton (pollInterval : Q) : async (option handle) :=
  ITree.trigger (Log logger.war
    [Str "WAR MODE ACTIVATED - Scanning for ticket button..."]) ;;
  ITree.iter (waitForBuyButton_body pollInterval) (false, 0).

(* ===================================================================== *)
(** ** [bot.js]: [setQuantity] and [selectCategory] *)
(* ===================================================================== *)

(** [for (let i = 1; i < amount; i++)]: [times] presses of the plus button. *)
Fixpoint pressPlus (plusButton : handle) (times : nat) : async unit :=
  match times with
  | O => ret tt
  | S times' =>
      await (Click plusButton None) ;;;
      await (WaitForTimeout (100 # 1)) ;;;
      pressPlus plusButton times'
  end.

Definition setQuantity (amount : nat) : async unit :=
  perform (Log logger.info [Str "Setting quantity to "; Num amount; Str "..."]) ;;;
  tryCatch
    (quantityInput <~
       await (Query None
         "input[type='number'], .quantity-input, [class*='quantity'] input, input[name*='qty']") ;;;
     match quantityInput with
     | Some quantityInput =>
         await (Fill quantityInput "") ;;;
         await (Fill quantityInput (ofNat amount)) ;;;
         perform (Log logger.success [Str "Quantity set to "; Num amount])
     | None =>
         plusButton <~
           await (Query None
             ".qty-plus, .btn-plus, [class*='plus'], button:has-text('+')") ;;;
         match plusButton with
         | Some plusButton =>
             pressPlus plusButton (amount - 1) ;;;
             perform (Log logger.success
               [Str "Quantity set to "; Num amount; Str " using plus button"])
         | None =>
             perform (Log logger.warn
               [Str "Could not find quantity selector, proceeding with default quantity"])
         end
     end)
    (fun e =>
       perform (Log logger.warn [Str "Error setting quantity: ";
                                 Str (let 'Error m := e in m)])).

(** The debug listing of the first ten buttons. *)
Fixpoint listButtons (i : nat) (buttons : list handle) : async unit :=
  match buttons with
  | [] => ret tt
  | button :: rest =>
      _ <- (btnText <~ await (TextContent button) ;;;
            btnVisible <~ await (IsVisible button None) ;;;
            perform (Log logger.info
              [Str "  Button "; Num (i + 1); Str ": '";
               Str (match btnText with
                    | Some t => substring0 30 (trim t)
                    | None => "undefined"
                    end);
               Str "' (visible: "; Flag btnVisible; Str ")"])) ;;
      listButtons (i + 1) rest
  end.

Definition selectButtonSelectors : list string :=
  [ "button:has-text('Select')";
    "button:has-text('Pilih')";
    "[role='button']:has-text('Select')";
    "div[class*='select']:has-text('Select')";
    "button.bg-blue-500";
    "button.btn-primary";
    "button[class*='primary']";
    "button[class*='select']" ].

Definition qtySelectors (qtyText : string) : list string :=
  [ ("text='" ++ qtyText ++ "'")%string;
    ("div:has-text('" ++ qtyText ++ "'):not(:has(*:has-text('" ++ qtyText ++ "')))")%string;
    ("span:text-is('" ++ qtyText ++ "')")%string;
    ("li >> text='" ++ qtyText ++ "'")%string;
    ("[role='option']:has-text('" ++ qtyText ++ "')")%string;
    ("div:text-is('" ++ qtyText ++ "')")%string;
    ("p:text-is('" ++ qtyText ++ "')")%string;
    "ul li:first-child";
    "[role='listbox'] [role='option']:first-child";
    "div.visible:has-text('1')" ].

Definition proceedSelectors : list string :=
  [ "button:has-text('Order Now')";
    "button:has-text('Order')";
    "button:has-text('Continue')";
    "button:has-text('Proceed')";
    "button:has-text('Checkout')";
    "button:has-text('Lanjutkan')";
    "button:has-text('Pesan')";
    "button[type='submit']:visible" ].

(** The [for] loop over [qtySelectors]; the result is [qtyClicked]. *)
Fixpoint clickQuantity (qtyText : string) (sels : list string) : async bool :=
  match sels with
  | [] => ret false
  | qtySel :: rest =>
      let qtyEl := First (Locator qtySel) in
      r <- (isVis <~ orElse (await (IsVisible qtyEl (Some (300 # 1)%Q))) false ;;;
            if isVis then
              perform (Log logger.info [Str "Found quantity option: "; Str qtySel]) ;;;
              await (Click qtyEl None) ;;;
              perform (Log logger.success [Str "Selected quantity: "; Str qtyText]) ;;;
              ret true
            else ret false) ;;
      match r with
      | Fulfilled true => ret true
      | Fulfilled false => clickQuantity qtyText rest
      | Rejected _ => clickQuantity qtyText rest
      end
  end.

(** The [for] loop over [proceedSelectors]. *)
Fixpoint clickProceed (sels : list string) : async unit :=
  match sels with
  | [] => ret tt
  | procSel :: rest =>
      let procBtn := First (Locator procSel) in
      r <- (isVis <~ orElse (await (IsVisible procBtn (Some (500 # 1)%Q))) false ;;;
            if isVis then
              perform (Log logger.info [Str "Found proceed button: "; Str procSel]) ;;;
              await (Click procBtn None) ;;;
              perform (Log logger.success [Str "Clicked proceed button!"]) ;;;
              await (WaitForTimeout (2000 # 1)) ;;;
              ret true
            else ret false) ;;
      match r with
      | Fulfilled true => ret tt
      | Fulfilled false => clickProceed rest
      | Rejected _ => clickProceed rest
      end
  end.

(** What strategy 1 does once a Select button was clicked, up to the [break]
    of its loop. *)
Definition afterSelectClick (box : box) (ticketAmount : nat) : async unit :=
  await (WaitForTimeout (500 # 1)) ;;;
  newUrl <~ perform Url ;;;
  perform (Log logger.info [Str "After click URL: "; Str newUrl]) ;;;
  allVis <~
    await (LocatorCount
             (Locator "button:visible, [role='button']:visible, a:visible")) ;;;
  perform (Log logger.info
    [Str "Visible interactive elements after click: "; Num allVis]) ;;;
  perform (Log logger.info [Str "Looking for quantity dropdown options..."]) ;;;
  let qtyText := ofNat ticketAmount in
  qtyClicked <~ clickQuantity qtyText (qtySelectors qtyText) ;;;
  when (negb qtyClicked)
       (perform (Log logger.info
          [Str "Trying to click first dropdown option by position..."]) ;;;
        await (MouseClick (box.(box_x) + box.(box_width) / (2 # 1))%Q
                          (box.(box_y) + box.(box_height) + (20 # 1))%Q) ;;;
        perform (Log logger.info [Str "Clicked on estimated dropdown position"])) ;;;
  await (WaitForTimeout (400 # 1)) ;;;
  clickProceed proceedSelectors.

(** Strategy 1, the [for] loop over [selectButtonSelectors]: the first
    visible button with a bounding box is clicked, whatever category it
    belongs to.  The [try] of one turn is split at the assignment
    [clicked = true]: the flag stays set when a later call of the same [try]
    throws and the loop goes on. *)
Fixpoint clickSelect (ticketAmount : nat) (clicked : bool) (sels : list string)
  : async bool :=
  match sels with
  | [] => ret clicked
  | selector :: rest =>
      let btn := First (Locator selector) in
      r <- tryCatch
             (isVis <~ orElse (await (IsVisible btn (Some (500 # 1)%Q))) false ;;;
              if isVis then
                perform (Log logger.info
                  [Str "Found visible button with selector: "; Str selector]) ;;;
                box <~ await (BoundingBox btn) ;;;
                match box with
                | Some box =>
                    perform (Log logger.info
                      [Str "Button position: x="; Rat box.(box_x);
                       Str ", y="; Rat box.(box_y);
                       Str ", w="; Rat box.(box_width);
                       Str ", h="; Rat box.(box_height)]) ;;;
                    await (Click btn (Some (5000 # 1)%Q)) ;;;
                    perform (Log logger.success [Str "Clicked on Select button!"]) ;;;
                    tryCatch (afterSelectClick box ticketAmount ;;; ret (true, true))
                             (fun _ => ret (true, false))
                | None => ret (clicked, false)
                end
              else ret (clicked, false))
             (fun _ => ret (clicked, false)) ;;
      match r with
      | Fulfilled (clicked', true) => ret clicked'
      | Fulfilled (clicked', false) => clickSelect ticketAmount clicked' rest
      | Rejected _ => clickSelect ticketAmount clicked rest
      end
  end.

(** Strategy 1 as a whole (the first [try] of [selectCategory]): [Some true]
    is its [return true], [None] falls through to the next strategy. *)
Definition selectDirectly (ticketAmount : nat) : async (option bool) :=
  tryCatch
    (await (WaitForTimeout (300 # 1)) ;;;
     perform (Log logger.info [Str "Looking for Select button..."]) ;;;
     clicked <~ clickSelect ticketAmount false selectButtonSelectors ;;;
     clicked <~ (if negb clicked then
                   perform (Log logger.info
                     [Str "Trying JavaScript click approach..."]) ;;;
                   jsClicked <~ await EvaluateClickSelect ;;;
                   if jsClicked then
                     perform (Log logger.success [Str "Clicked via JavaScript!"]) ;;;
                     await (WaitForTimeout (2000 # 1)) ;;;
                     ret true
                   else ret clicked
                 else ret clicked) ;;;
     if clicked then
       setQuantity ticketAmount ;;;
       ret (Some true)
     else ret None)
    (fun e =>
       perform (Log logger.debug [Str "Select button approach failed: ";
                                  Str (let 'Error m := e in m)]) ;;;
       ret None).

Definition ticketSectionsSelector : string :=
  "[class*='ticket'], [class*='category'], .card, .ticket-row, div:has(button:has-text('Select'))".

(** Strategy 2, the [for] loop over [ticketSections] for one keyword. *)
Fixpoint trySections (keyword : string) (ticketAmount : nat)
         (ticketSections : list handle) : async (option bool) :=
  match ticketSections with
  | [] => ret None
  | section :: rest =>
      text <~ await (TextContent section) ;;;
      match text with
      | Some text =>
          if negb (String.eqb text "")
             && includes (toLowerCase text) (toLowerCase keyword)
          then
            if includes (toLowerCase text) "sold out"
               || includes (toLowerCase text) "habis"
            then
              perform (Log logger.warn
                [Str "Category '"; Str keyword; Str "' is SOLD OUT, trying next..."]) ;;;
              trySections keyword ticketAmount rest
            else
              perform (Log logger.success
                [Str "Found available category: '"; Str keyword; Str "'"]) ;;;
              selectBtn <~
                await (Query (Some section)
                         "button:has-text('Select'), button:has-text('Pilih')") ;;;
              match selectBtn with
              | Some selectBtn =>
                  await (Click selectBtn None) ;;;
                  perform (Log logger.success [Str "Clicked Select button!"]) ;;;
                  await (WaitForTimeout (1000 # 1)) ;;;
                  setQuantity ticketAmount ;;;
                  ret (Some true)
              | None => trySections keyword ticketAmount rest
              end
          else trySections keyword ticketAmount rest
      | None => trySections keyword ticketAmount rest
      end
  end.

(** Strategy 2, the [for] loop over [categoryKeywords]. *)
Fixpoint tryKeywords (ticketAmount : nat) (categoryKeywords : list string)
  : async (option bool) :=
  match categoryKeywords with
  | [] => ret None
  | keyword :: rest =>
      perform (Log logger.info
        [Str "Searching for category: '"; Str keyword; Str "'"]) ;;;
      ticketSections <~ await (QueryAll ticketSectionsSelector) ;;;
      r <~ trySections keyword ticketAmount ticketSections ;;;
      match r with
      | Some result => ret (Some result)
      | None => tryKeywords ticketAmount rest
      end
  end.

(** Strategy 2 as a whole (the second [try] of [selectCategory]). *)
Definition selectByKeyword (categoryKeywords : list string) (ticketAmount : nat)
  : async (option bool) :=
  tryCatch
    (selectButtons <~
       await (QueryAll
         "button:has-text('Select'), button:has-text('Pilih'), [class*='select'] button, .btn-select") ;;;
     if 0 <? length selectButtons then
       perform (Log logger.info
         [Str "Found "; Num (length selectButtons); Str " Select button(s)"]) ;;;
       r <~ tryKeywords ticketAmount categoryKeywords ;;;
       match r with
       | Some result => ret (Some result)
       | None =>
           perform (Log logger.warn
             [Str "Keyword not matched, clicking first available Select button..."]) ;;;
           match selectButtons with
           | firstSelect :: _ =>
               isVisible <~ await (IsVisible firstSelect None) ;;;
               if isVisible then
                 await (Click firstSelect None) ;;;
                 perform (Log logger.success
                   [Str "Clicked first available Select button!"]) ;;;
                 await (WaitForTimeout (1000 # 1)) ;;;
                 setQuantity ticketAmount ;;;
                 ret (Some true)
               else ret None
           | [] => ret None
           end
       end
     else ret None)
    (fun e =>
       perform (Log logger.debug [Str "Error with Select button approach: ";
                                  Str (let 'Error m := e in m)]) ;;;
       ret None).

Definition fallbackSelectors : list string :=
  [ "button:has-text('Select')";
    "button:has-text('Pilih')";
    ".btn-primary:has-text('Select')";
    "[class*='select']:not([disabled])";
    "button[class*='select']";
    ".ticket-item button";
    ".card button" ].

(** The last [for] loop of [selectCategory], over [fallbackSelectors]. *)
Fixpoint tryFallback (ticketAmount : nat) (sels : list string)
  : async (option bool) :=
  match sels with
  | [] => ret None
  | selector :: rest =>
      r <- (btn <~ await (Query None selector) ;;;
            match btn with
            | Some btn =>
                isVisible <~ await (IsVisible btn None) ;;;
                if isVisible then
                  await (Click btn None) ;;;
                  perform (Log logger.success
                    [Str "Clicked button with selector: "; Str selector]) ;;;
                  await (WaitForTimeout (1000 # 1)) ;;;
                  setQuantity ticketAmount ;;;
                  ret (Some true)
                else ret None
            | None => ret None
            end) ;;
      match r with
      | Fulfilled (Some result) => ret (Some result)
      | Fulfilled None => tryFallback ticketAmount rest
      | Rejected _ => tryFallback ticketAmount rest
      end
  end.

Definition selectCategory (categoryKeywords : list string) (ticketAmount : nat)
  : async bool :=
  perform (Log logger.info [Str "Looking for ticket categories..."]) ;;;
  await (WaitForTimeout (2000 # 1)) ;;;
  currentUrl <~ perform Url ;;;
  perform (Log logger.info [Str "Current URL: "; Str currentUrl]) ;;;
  allButtons <~ await (QueryAll "button") ;;;
  perform (Log logger.info
    [Str "Found "; Num (length allButtons); Str " total buttons on page"]) ;;;
  listButtons 0 (firstn 10 allButtons) ;;;
  direct <~ selectDirectly ticketAmount ;;;
  match direct with
  | Some result => ret result
  | None =>
      byKeyword <~ selectByKeyword categoryKeywords ticketAmount ;;;
      match byKeyword with
      | Some result => ret result
      | None =>
          perform (Log logger.info [Str "Trying fallback selectors..."]) ;;;
          fallback <~ tryFallback ticketAmount fallbackSelectors ;;;
          match fallback with
          | Some result => ret result
          | None =>
              perform (Log logger.error
                [Str "No available ticket categories found!"]) ;;;
              ret false
          end
      end
  end.

(* ===================================================================== *)
(** ** [bot.js]: [fillForm], the phone field filled by position *)
(* ===================================================================== *)

(** [!s] for a string or [null]. *)
Definition falsy (s : option string) : bool :=
  match s with
  | None => true
  | Some s => String.eqb s ""
  end.

(** The [for] loop over [allTextInputs] of the block
    [// Fill Phone by position] of [fillForm]: the first visible text input
    without a name and without a value gets the phone number typed in, and
    the loop is left. *)
Fixpoint fillPhone_for (phone : string) (i : nat) (allTextInputs : list handle)
  : async unit :=
  match allTextInputs with
  | [] => ret tt
  | inp :: rest =>
      nameAttr <~ await (GetAttribute inp "name") ;;;
      currentValue <~ await (InputValue inp) ;;;
      if falsy nameAttr && (falsy (Some currentValue) || String.eqb currentValue "")
      then
        await (Click inp None) ;;;
        await (WaitForTimeout (100 # 1)) ;;;
        await (Fill inp "") ;;;
        await (WaitForTimeout (50 # 1)) ;;;
        await (TypeText inp phone (30 # 1)) ;;;
        await (WaitForTimeout (100 # 1)) ;;;
        newValue <~ await (InputValue inp) ;;;
        if String.eqb newValue phone || String.eqb newValue (stripLeadingZero phone)
        then
          perform (Log logger.success
            [Str "Filled Phone (input "; Num (i + 1); Str "): ";
             Str (substring0 8 newValue); Str "..."])
        else
          perform (Log logger.warn [Str "Phone value after type: "; Str newValue])
      else fillPhone_for phone (i + 1) rest
  end.

(** The block [// Fill Phone by position] of [fillForm] (the [try]/[catch]
    after the field mappings), for [personalData.phone = phone]. *)
Definition fillPhoneByPosition (phone : string) : async unit :=
  tryCatch
    (allTextInputs <~ await (LocatorAll (Locator "input[type='text']:visible")) ;;;
     perform (Log logger.info
       [Str "Found "; Num (length allTextInputs);
        Str " visible text inputs for phone check"]) ;;;
     fillPhone_for phone 0 allTextInputs)
    (fun e =>
       perform (Log logger.warn [Str "Phone position fill error: ";
                                 Str (let 'Error m := e in m)])).

(* ===================================================================== *)
(** ** [bot.js]: [navigateToPayment] *)
(* ===================================================================== *)

(** The pictographs in the source's log messages are left out. *)

Definition paymentSurface : string :=
  ".payment-method, [class*='payment-option'], [class*='payment-method']".

(** The two [for] loops over [selectors.checkout.nextButton] and
    [selectors.checkout.payButton]; the result is [clicked]. *)
Fixpoint clickButton (clickedMsg : string) (selectors : list string)
  : async bool :=
  match selectors with
  | [] => ret false
  | selector :: rest =>
      r <- (button <~ await (Query None selector) ;;;
            match button with
            | Some button =>
                isVisible <~ await (IsVisible button None) ;;;
                if isVisible then
                  isDisabled <~ await (IsDisabled button) ;;;
                  if negb isDisabled then
                    await (Click button None) ;;;
                    perform (Log logger.info [Str clickedMsg]) ;;;
                    ret true
                  else ret false
                else ret false
            | None => ret false
            end) ;;
      match r with
      | Fulfilled true => ret true
      | Fulfilled false => clickButton clickedMsg rest
      | Rejected _ => clickButton clickedMsg rest
      end
  end.

Definition maxClicks : nat := 5.

(** One turn of [while (clickCount < maxClicks)]. *)
Definition checkout_turn (clickCount : nat) : async (control nat bool) :=
  if negb (clickCount <? maxClicks) then ret Break else
  await (WaitForTimeout (1000 # 1)) ;;;
  paymentMethods <~ await (Query None paymentSurface) ;;;
  match paymentMethods with
  | Some _ =>
      perform (Log logger.success
        [Str "REACHED PAYMENT PAGE! Please select your payment method manually."]) ;;;
      ret (Return true)
  | None =>
      clicked <~ clickButton "Clicked continue/next button"
                             selectors.checkout.nextButton ;;;
      clicked <~ (if negb clicked
                  then clickButton "Clicked pay button"
                                   selectors.checkout.payButton
                  else ret clicked) ;;;
      if negb clicked then
        perform (Log logger.warn
          [Str "No clickable buttons found, checking if on payment page..."]) ;;;
        ret Break
      else ret (Continue (clickCount + 1))
  end.

Definition checkoutLoop : async (option bool) := while checkout_turn 0.

Definition vaSelectors : list string :=
  [ "div:has(> div:has-text('Virtual Account'))";
    "div[class*='accordion']:has-text('Virtual Account')";
    "div[class*='payment']:has-text('Virtual Account')";
    "div[class*='card']:has-text('Virtual Account')";
    "div:has-text('Virtual Account') svg";
    "div:has-text('Virtual Account') [class*='chevron']";
    "div:has-text('Virtual Account') [class*='arrow']";
    "text='Virtual Account'" ].

Definition bcaSelectors : list string :=
  [ "text='Virtual Account BCA'";
    "div:has-text('Virtual Account BCA')";
    "span:has-text('Virtual Account BCA')";
    "input[type='radio'] + *:has-text('BCA')";
    "label:has-text('Virtual Account BCA')";
    "label:has-text('BCA')";
    "div:has(img[alt*='BCA'])";
    "img[alt*='BCA']";
    "img[src*='bca']";
    "img[src*='BCA']" ].

(** The [for] loops over [vaSelectors] and [bcaSelectors]: the first visible
    option with a bounding box is clicked in its centre.  [clicked] is the
    flag ([vaClicked], [bcaClicked]); it is set before the settle wait, so it
    stays set when that wait throws and the loop goes on. *)
Fixpoint clickCentre (foundMsg clickedMsg : string) (settle : Q)
         (clicked : bool) (sels : list string) : async bool :=
  match sels with
  | [] => ret clicked
  | sel :: rest =>
      let option := First (Locator sel) in
      r <- (isVisible <~ orElse (await (IsVisible option (Some (1000 # 1)%Q))) false ;;;
            if isVisible then
              perform (Log logger.info [Str foundMsg; Str sel]) ;;;
              box <~ await (BoundingBox option) ;;;
              match box with
              | Some box =>
                  await (MouseClick (box.(box_x) + box.(box_width) / (2 # 1))%Q
                                    (box.(box_y) + box.(box_height) / (2 # 1))%Q) ;;;
                  perform (Log logger.success [Str clickedMsg]) ;;;
                  w <- await (WaitForTimeout settle) ;;
                  match w with
                  | Fulfilled _ => ret (true, true)
                  | Rejected _ => ret (true, false)
                  end
              | None => ret (clicked, false)
              end
            else ret (clicked, false)) ;;
      match r with
      | Fulfilled (clicked', true) => ret clicked'
      | Fulfilled (clicked', false) =>
          clickCentre foundMsg clickedMsg settle clicked' rest
      | Rejected _ => clickCentre foundMsg clickedMsg settle clicked rest
      end
  end.

(** [if (!vaClicked) { try { await page.click(...) ... } catch ... }] *)
Definition clickVAText (vaClicked : bool) : async bool :=
  if negb vaClicked then
    c <- await (PageClick "text='Virtual Account'") ;;
    match c with
    | Fulfilled _ =>
        perform (Log logger.success [Str "Clicked on Virtual Account text"]) ;;;
        w <- await (WaitForTimeout (1500 # 1)) ;;
        match w with
        | Fulfilled _ => ret true
        | Rejected _ =>
            perform (Log logger.warn [Str "Could not find Virtual Account option"]) ;;;
            ret true
        end
    | Rejected _ =>
        perform (Log logger.warn [Str "Could not find Virtual Account option"]) ;;;
        ret vaClicked
    end
  else ret vaClicked.

(** [if (!bcaClicked) { try { radios ... radios[1].click() } catch ... }] *)
Definition clickBCARadio (bcaClicked : bool) : async bool :=
  if negb bcaClicked then
    r <- (radios <~ await (LocatorAll (Locator "input[type='radio']:visible")) ;;;
          if 2 <=? length radios then
            match nth_error radios 1 with
            | Some radio =>
                await (Click radio None) ;;;
                perform (Log logger.success [Str "Clicked BCA radio by position"]) ;;;
                ret true
            | None => ret bcaClicked
            end
          else ret bcaClicked) ;;
    match r with
    | Fulfilled b => ret b
    | Rejected _ =>
        perform (Log logger.warn [Str "Could not find BCA option"]) ;;;
        ret bcaClicked
    end
  else ret bcaClicked.

(** The block [=== SELECT VA BCA PAYMENT ===]; the result is
    [(vaClicked, bcaClicked)].  Every call of the block sits in a [try] of
    its own, so the outer [catch] has nothing to catch. *)
Definition selectPaymentMethod : async (bool * bool) :=
  tryCatch
    (vaClicked <~ clickCentre "Found VA element with: "
                              "Clicked on Virtual Account header"
                              (1500 # 1) false vaSelectors ;;;
     vaClicked <~ clickVAText vaClicked ;;;
     bcaClicked <~ clickCentre "Found BCA element with: "
                               "Clicked on Virtual Account BCA"
                               (1000 # 1) false bcaSelectors ;;;
     bcaClicked <~ clickBCARadio bcaClicked ;;;
     ret (vaClicked, bcaClicked))
    (fun e =>
       perform (Log logger.warn [Str "Payment selection error: ";
                                 Str (let 'Error m := e in m)]) ;;;
       ret (false, false)).

(** The [for] loop over the visible checkboxes. *)
Fixpoint checkAll (i : nat) (checkboxes : list handle) : async unit :=
  match checkboxes with
  | [] => ret tt
  | checkbox :: rest =>
      _ <- (isChecked <~ await (IsChecked checkbox) ;;;
            if negb isChecked then
              await (Click checkbox None) ;;;
              perform (Log logger.success [Str "Checked checkbox "; Num (i + 1)]) ;;;
              await (WaitForTimeout (200 # 1))
            else ret tt) ;;
      checkAll (i + 1) rest
  end.

(** The block [=== STEP 3: CHECK ALL CHECKBOXES ===]. *)
Definition checkCheckboxes : async unit :=
  perform (Log logger.info [Str "Looking for checkboxes to check..."]) ;;;
  tryCatch
    (checkboxes <~ await (LocatorAll (Locator "input[type='checkbox']:visible")) ;;;
     perform (Log logger.info
       [Str "Found "; Num (length checkboxes); Str " visible checkboxes"]) ;;;
     checkAll 0 checkboxes)
    (fun e =>
       perform (Log logger.warn [Str "Checkbox error: ";
                                 Str (let 'Error m := e in m)])).

Definition payNowSelectors : list string :=
  [ "button:has-text('Pay Now')";
    "button:has-text('Bayar Sekarang')";
    "button:has-text('Bayar')";
    "button:has-text('Process Payment')";
    "button:has-text('Confirm')";
    "button:has-text('Konfirmasi')";
    "button[type='submit']:visible";
    "button.btn-primary:visible";
    "button[class*='pay']:visible";
    "button[class*='submit']:visible" ].

(** The [for] loop over [payNowSelectors]; the result is [payNowClicked]. *)
Fixpoint clickPayNow (payNowClicked : bool) (sels : list string) : async bool :=
  match sels with
  | [] => ret payNowClicked
  | sel :: rest =>
      let payBtn := First (Locator sel) in
      r <- (isVisible <~ orElse (await (IsVisible payBtn (Some (1000 # 1)%Q))) false ;;;
            if isVisible then
              isDisabled <~ orElse (await (IsDisabled payBtn)) false ;;;
              if negb isDisabled then
                perform (Log logger.info [Str "Found Pay button: "; Str sel]) ;;;
                await (Click payBtn None) ;;;
                perform (Log logger.success [Str "Clicked Pay Now button!"]) ;;;
                w <- await (WaitForTimeout (3000 # 1)) ;;
                match w with
                | Fulfilled _ => ret (true, true)
                | Rejected _ => ret (true, false)
                end
              else ret (payNowClicked, false)
            else ret (payNowClicked, false)) ;;
      match r with
      | Fulfilled (clicked', true) => ret clicked'
      | Fulfilled (clicked', false) => clickPayNow clicked' rest
      | Rejected _ => clickPayNow payNowClicked rest
      end
  end.

(** *** Reference extraction *)

(** Known tracking IDs to filter out. *)
Definition TRACKING_IDS : list string :=
  [ "835386638306873"; "1234567890123456" ].

Definition isTrackingId (num : string) : bool :=
  if arrayIncludes TRACKING_IDS num then true else false.

Definition isLikelyVA (num : string) : bool :=
  if startsWith num "62" || startsWith num "08" || startsWith num "021"
  then false
  else if isTrackingId num then false
  else true.

(** [/\b(\d{lo,hi})\b/g] *)
Definition digitToken (lo hi : nat) : regex :=
  Seq WordBoundary (Seq (Repeat Digit lo hi) WordBoundary).

(** [/(\d{10,16})/] *)
Definition digits10to16 : regex := Repeat Digit 10 16.

(** [/(?:virtual\s*account|va\s*bca|nomor\s*va|no\.?\s*va|rekening)[:\s]*(\d{10,16})/gi] *)
Definition vaContextPattern : regex :=
  Seq (Alt (Seq (word "virtual") (Seq (Star Space) (word "account")))
      (Alt (Seq (word "va") (Seq (Star Space) (word "bca")))
      (Alt (Seq (word "nomor") (Seq (Star Space) (word "va")))
      (Alt (Seq (word "no")
                (Seq (Opt (Lit "."%char)) (Seq (Star Space) (word "va"))))
           (word "rekening")))))
      (Seq (Star (Either (Lit ":"%char) Space)) digits10to16).

(** [for (const num of matches) { if (isLikelyVA(num)) { vaNumber = num; break; } }] *)
Fixpoint firstLikelyVA (matches : list string) : option string :=
  match matches with
  | [] => None
  | num :: rest => if isLikelyVA num then Some num else firstLikelyVA rest
  end.

(** The loop over [contextMatches]: [numMatch[1]] of the first match that is
    likely a VA. *)
Fixpoint firstContextVA (contextMatches : list string) : option string :=
  match contextMatches with
  | [] => None
  | m :: rest =>
      match matchFirst false digits10to16 m with
      | Some num => if isLikelyVA num then Some num else firstContextVA rest
      | None => firstContextVA rest
      end
  end.

Definition vaLabelSelectors : list string :=
  [ "div:has-text('Virtual Account') >> xpath=following-sibling::*[1]";
    "span:has-text('Virtual Account') >> xpath=following-sibling::*[1]";
    "label:has-text('Virtual Account') >> xpath=following-sibling::*[1]";
    "p:has-text('Nomor VA')";
    "div:has-text('Nomor VA')";
    "span:has-text('No. Virtual Account')";
    "[class*='copy']:visible";
    "button:has-text('Copy'):visible";
    "[class*='payment-detail']:visible";
    "[class*='account-number']:visible";
    "[class*='va-number']:visible" ].

Definition visibleContainersSelector : string :=
  "main:visible, article:visible, section:visible, [role='main']:visible, .content:visible".

(** [text.match(...)] on a [textContent()] that is [null] throws. *)
Definition nullMatch : JSError :=
  Error "Cannot read properties of null (reading 'match')".

(** Step 1: the [for] loop over [vaLabelSelectors]. *)
Fixpoint scanLabels (sels : list string) : async (option string) :=
  match sels with
  | [] => ret None
  | sel :: rest =>
      let el := First (Locator sel) in
      r <- (isVisible <~ orElse (await (IsVisible el (Some (500 # 1)%Q))) false ;;;
            if isVisible then
              text <~ await (TextContent el) ;;;
              match text with
              | Some text =>
                  match firstLikelyVA (matchAll false (digitToken 10 16) text) with
                  | Some num =>
                      perform (Log logger.info
                        [Str "Found potential VA from label: "; Str num]) ;;;
                      ret (Some num)
                  | None => ret None
                  end
              | None => throw nullMatch
              end
            else ret None) ;;
      match r with
      | Fulfilled (Some num) => ret (Some num)
      | Fulfilled None => scanLabels rest
      | Rejected _ => scanLabels rest
      end
  end.

(** The payment-related keywords a container must contain. *)
Definition hasPaymentKeyword (text : string) : bool :=
  includes (toLowerCase text) "virtual account" ||
  includes (toLowerCase text) "va " ||
  includes (toLowerCase text) "bca" ||
  includes (toLowerCase text) "pembayaran".

(** Step 2: the [for] loop over the visible containers. *)
Fixpoint scanContainers (containers : list handle) : async (option string) :=
  match containers with
  | [] => ret None
  | container :: rest =>
      r <- (text <~ await (TextContent container) ;;;
            match text with
            | Some text =>
                if hasPaymentKeyword text then
                  match firstLikelyVA (matchAll false (digitToken 12 16) text) with
                  | Some num =>
                      perform (Log logger.info
                        [Str "Found potential VA from container: "; Str num]) ;;;
                      ret (Some num)
                  | None => ret None
                  end
                else ret None
            | None => throw nullMatch
            end) ;;
      match r with
      | Fulfilled (Some num) => ret (Some num)
      | Fulfilled None => scanContainers rest
      | Rejected _ => scanContainers rest
      end
  end.

(** The [acceptNode] filter of the tree walker. *)
Definition acceptNode (node : textNode) : bool :=
  match node.(parentElement) with
  | None => false
  | Some parent =>
      let tagName := toLowerCase parent.(tagName) in
      if String.eqb tagName "script" || String.eqb tagName "style"
         || String.eqb tagName "noscript"
      then false
      else if String.eqb parent.(display) "none"
              || String.eqb parent.(visibility) "hidden"
      then false
      else true
  end.

(** The closure given to [page.evaluate]: the text of the accepted text
    nodes, each followed by a space.  The browser supplies the text nodes
    under [document.body] in document order ([EvaluateBodyTextNodes]). *)
Fixpoint visibleText (nodes : list textNode) : string :=
  match nodes with
  | [] => ""
  | node :: rest =>
      if acceptNode node
      then (node.(nodeText) ++ " " ++ visibleText rest)%string
      else visibleText rest
  end.

(** Step 3: the body text near a VA keyword. *)
Definition scanBodyText : async (option string) :=
  perform (Log logger.info [Str "Searching in body text with strict filtering..."]) ;;;
  nodes <~ await EvaluateBodyTextNodes ;;;
  let visibleText := visibleText nodes in
  let contextMatches := matchAll true vaContextPattern visibleText in
  match firstContextVA contextMatches with
  | Some num =>
      perform (Log logger.info [Str "Found VA near keyword: "; Str num]) ;;;
      ret (Some num)
  | None => ret None
  end.

(** The block [=== STEP 5: EXTRACT VA NUMBER ===] from [let vaNumber = null]
    to the end of its [try]/[catch]; the result is [vaNumber]. *)
Definition extractVA : async (option string) :=
  tryCatch
    (vaNumber <~ scanLabels vaLabelSelectors ;;;
     vaNumber <~ match vaNumber with
                 | Some _ => ret vaNumber
                 | None =>
                     perform (Log logger.info
                       [Str "Looking for VA in visible containers..."]) ;;;
                     visibleContainers <~
                       await (LocatorAll (Locator visibleContainersSelector)) ;;;
                     scanContainers visibleContainers
                 end ;;;
     match vaNumber with
     | Some _ => ret vaNumber
     | None => scanBodyText
     end)
    (fun e =>
       perform (Log logger.warn [Str "VA extraction error: ";
                                 Str (let 'Error m := e in m)]) ;;;
       ret None).

(** ['='.repeat(60)] *)
Fixpoint repeatString (s : string) (n : nat) : string :=
  match n with
  | O => ""
  | S n' => (s ++ repeatString s n')%string
  end.

Definition newline : string := String (ascii_of_nat 10) "".

(** [path.join(__dirname, 'last_va_number.txt')], relative to the script. *)
Definition resultFile : string := "last_va_number.txt".

(** The block [=== FINAL RESULT ===]. *)
Definition report (vaNumber : option string) (vaClicked bcaClicked : bool)
  : async unit :=
  match vaNumber with
  | Some vaNumber =>
      perform (Log logger.success [Str (repeatString "=" 60)]) ;;;
      perform (Log logger.success [Str "PAYMENT READY!"]) ;;;
      perform (Log logger.success [Str "VA BCA NUMBER: "; Str vaNumber]) ;;;
      perform (Log logger.success [Str (repeatString "=" 60)]) ;;;
      now <~ perform Now ;;;
      url <~ perform Url ;;;
      await (WriteFile resultFile
               [Str "VA BCA: "; Str vaNumber; Str newline;
                Str "Time: "; Str now; Str newline;
                Str "Event: "; Str url]) ;;;
      perform (Log logger.info [Str "VA number saved to: "; Str resultFile])
  | None =>
      if vaClicked && bcaClicked then
        perform (Log logger.success
          [Str "VA BCA selected! Check browser for VA number."]) ;;;
        perform (Log logger.info
          [Str "Bot could not auto-extract VA. Please check the browser window."])
      else
        perform (Log logger.warn
          [Str "Payment flow may not be complete. Please check browser."])
  end.

(** What follows the checkout loop when it was left without [return]. *)
Definition afterCheckout : async bool :=
  perform (Log logger.info [Str "Waiting for payment page to load..."]) ;;;
  await (WaitForTimeout (3000 # 1)) ;;;
  currentUrl <~ perform Url ;;;
  perform (Log logger.info [Str "Current URL: "; Str currentUrl]) ;;;
  tryCatch
    (paymentTexts <~
       await (LocatorAll (Locator "text=/Payment|Virtual|Account|BCA/i")) ;;;
     perform (Log logger.info
       [Str "Found "; Num (length paymentTexts);
        Str " payment-related text elements"]))
    (fun _ => ret tt) ;;;
  perform (Log logger.info [Str "Looking for payment method selection..."]) ;;;
  clicked <~ selectPaymentMethod ;;;
  let '(vaClicked, bcaClicked) := clicked in
  await (WaitForTimeout (2000 # 1)) ;;;
  checkCheckboxes ;;;
  await (WaitForTimeout (500 # 1)) ;;;
  perform (Log logger.info [Str "Looking for Pay Now button..."]) ;;;
  payNowClicked <~ clickPayNow false payNowSelectors ;;;
  when (negb payNowClicked)
       (perform (Log logger.warn
          [Str "Could not find Pay Now button - may need to check checkboxes first"])) ;;;
  perform (Log logger.info [Str "Waiting for VA number to appear..."]) ;;;
  await (WaitForTimeout (3000 # 1)) ;;;
  vaNumber <~ extractVA ;;;
  report vaNumber vaClicked bcaClicked ;;;
  ret true.

Definition navigateToPayment : async bool :=
  perform (Log logger.info [Str "Navigating to payment page..."]) ;;;
  returned <~ checkoutLoop ;;;
  match returned with
  | Some result => ret result
  | None => afterCheckout
  end.

(* ===================================================================== *)
(** ** [bot.js]: [fillForm], the fields filled by selector and the gender *)
(* ===================================================================== *)

(** [config.personalData]; an absent optional field is [None]. *)
Module personalData.
Record t : Type :=
  { name : string;
    nik : string;
    email : string;
    phone : string;
    domisili : option string;
    gender : option string;
    dob : option string }.
End personalData.

(** An entry of [fieldMappings]. *)
Module fieldMapping.
Record t : Type :=
  { name : string;
    value : string;
    selectors : list string }.
End fieldMapping.

Definition fieldMappings (data : personalData.t) : list fieldMapping.t :=
  [ {| fieldMapping.name := "Name";
       fieldMapping.value := data.(personalData.name);
       fieldMapping.selectors :=
         [ "input[name='firstname']";
           "input[name='name']";
           "input[name='fullname']";
           "input[name='full_name']";
           "input[name*='nama']";
           "input[placeholder*='Nama']";
           "input[placeholder*='Name']";
           "input[id*='name']";
           "input[id*='nama']" ] |};
    {| fieldMapping.name := "NIK";
       fieldMapping.value := data.(personalData.nik);
       fieldMapping.selectors :=
         [ "input[name='identity_id']";
           "input[name='nik']";
           "input[name*='identity']";
           "input[name*='nik']";
           "input[name*='ktp']";
           "input[placeholder*='NIK']";
           "input[placeholder*='KTP']";
           "input[placeholder*='Identitas']";
           "input[id*='nik']";
           "input[id*='identity']" ] |};
    {| fieldMapping.name := "Email";
       fieldMapping.value := data.(personalData.email);
       fieldMapping.selectors :=
         [ "input[name='email']";
           "input[type='email']";
           "input[id='email']";
           "input[name*='email']";
           "input[placeholder*='Email']";
           "input[id*='email']" ] |};
    {| fieldMapping.name := "Phone";
       fieldMapping.value := data.(personalData.phone);
       fieldMapping.selectors :=
         [ "input[name='phone']";
           "input[name='phoneNumber']";
           "input[name*='phone']";
           "input[type='tel']" ] |} ].

(** The [for] loop over [mapping.selectors]; the result is [filled]. *)
Fixpoint fillField (mapping : fieldMapping.t) (sels : list string) : async bool :=
  match sels with
  | [] => ret false
  | selector :: rest =>
      let field := First (Locator selector) in
      r <- (isVisible <~ orElse (await (IsVisible field (Some (500 # 1)%Q))) false ;;;
            if isVisible then
              await (Fill field mapping.(fieldMapping.value)) ;;;
              perform (Log logger.success
                [Str "Filled "; Str mapping.(fieldMapping.name); Str ": ";
                 Str (substring0 10 mapping.(fieldMapping.value)); Str "..."]) ;;;
              ret true
            else ret false) ;;
      match r with
      | Fulfilled true => ret true
      | Fulfilled false => fillField mapping rest
      | Rejected _ => fillField mapping rest
      end
  end.

(** The [for] loop over [fieldMappings]. *)
Fixpoint fillFields (mappings : list fieldMapping.t) : async unit :=
  match mappings with
  | [] => ret tt
  | mapping :: rest =>
      filled <~ fillField mapping mapping.(fieldMapping.selectors) ;;;
      when (negb filled)
           (perform (Log logger.warn
              [Str "Could not find field for: "; Str mapping.(fieldMapping.name)])) ;;;
      fillFields rest
  end.

Definition genderSelectors (genderValue : string) : list string :=
  let male := String.eqb genderValue "male" in
  [ ("input[type='radio'][value='" ++ genderValue ++ "']")%string;
    ("input[type='radio'][value='" ++ (if male then "L" else "P") ++ "']")%string;
    ("input[type='radio'][value='" ++ (if male then "M" else "F") ++ "']")%string;
    ("input[type='radio'][value='"
       ++ (if male then "laki-laki" else "perempuan") ++ "']")%string;
    ("input[type='radio'][value='" ++ (if male then "pria" else "wanita") ++ "']")%string;
    ("label:has-text('" ++ (if male then "Laki" else "Perempuan") ++ "')")%string;
    ("label:has-text('" ++ (if male then "Male" else "Female") ++ "')")%string;
    ("label:has-text('" ++ (if male then "Pria" else "Wanita") ++ "')")%string;
    ("div:has-text('" ++ (if male then "Laki" else "Perempuan")
       ++ "') input[type='radio']")%string ].

(** The [for] loop over [genderSelectors]; the result is [genderSet]. *)
Fixpoint clickGender (genderValue : string) (sels : list string) : async bool :=
  match sels with
  | [] => ret false
  | sel :: rest =>
      let radio := First (Locator sel) in
      r <- (isVisible <~ orElse (await (IsVisible radio (Some (300 # 1)%Q))) false ;;;
            if isVisible then
              await (Click radio None) ;;;
              perform (Log logger.success
                [Str "Selected Gender: "; Str genderValue; Str " using "; Str sel]) ;;;
              ret true
            else ret false) ;;
      match r with
      | Fulfilled true => ret true
      | Fulfilled false => clickGender genderValue rest
      | Rejected _ => clickGender genderValue rest
      end
  end.

(** The block [// Handle Gender (radio buttons)] of [fillForm]. *)
Definition fillGender (gender : option string) : async unit :=
  if falsy gender then ret tt else
  tryCatch
    (let genderValue := toLowerCase (orDefault gender "") in
     perform (Log logger.info
       [Str "Looking for Gender field ("; Str genderValue; Str ")..."]) ;;;
     allRadios <~ await (LocatorAll (Locator "input[type='radio']:visible")) ;;;
     perform (Log logger.info
       [Str "Found "; Num (length allRadios); Str " visible radio buttons"]) ;;;
     genderSet <~ clickGender genderValue (genderSelectors genderValue) ;;;
     genderSet <~
       (if negb genderSet && (2 <=? length allRadios) then
          let idx := if String.eqb genderValue "male" then 0 else 1 in
          perform (Log logger.info
            [Str "Trying gender by position: radio "; Num (idx + 1);
             Str " of "; Num (length allRadios)]) ;;;
          match nth_error allRadios idx with
          | Some radio =>
              await (Click radio None) ;;;
              perform (Log logger.success
                [Str "Selected Gender by position: "; Str genderValue]) ;;;
              ret true
          | None => ret genderSet
          end
        else ret genderSet) ;;;
     when (negb genderSet)
          (perform (Log logger.warn
             [Str "Could not set Gender - no visible radio buttons found"])))
    (fun e =>
       perform (Log logger.warn [Str "Gender error: ";
                                 Str (let 'Error m := e in m)])).

(* ===================================================================== *)
(** ** [auth.js]: waiting for the manual login *)
(* ===================================================================== *)

Definition userIndicators : list string :=
  [ ".user-avatar";
    ".profile-avatar";
    "[class*='avatar']";
    ".user-menu";
    "[class*='user-dropdown']";
    "a[href*='logout']";
    "button:has-text('Logout')";
    ".navbar-user" ].

Definition maxAttempts : nat := 600.

(** The [for] loop over [userIndicators]; the result is [isLoggedIn].  A
    [page.$] that throws leaves the loop and the [try] around it. *)
Fixpoint findIndicator (isLoggedIn : bool) (sels : list string) : async bool :=
  match sels with
  | [] => ret isLoggedIn
  | selector :: rest =>
      element <~ await (Query None selector) ;;;
      match element with
      | Some _ => ret true
      | None => findIndicator isLoggedIn rest
      end
  end.

(** The [try] of one turn: the indicators, then the check of the URL.  The
    flag set by the loop over the indicators stays set when the sleep that
    follows throws. *)
Definition detectLogin (currentUrl : string) (isLoggedIn : bool) : async bool :=
  r <- findIndicator isLoggedIn userIndicators ;;
  match r with
  | Fulfilled isLoggedIn =>
      if includes currentUrl "loket.com"
         && negb (includes currentUrl "login")
         && negb (includes currentUrl "register")
      then
        w <- await (WaitForTimeout (2000 # 1)) ;;
        match w with
        | Fulfilled _ => ret true
        | Rejected _ => ret isLoggedIn
        end
      else ret isLoggedIn
  | Rejected _ => ret isLoggedIn
  end.

(** One turn of [while (!isLoggedIn && attempts < maxAttempts)]; the loop
    variables are [(isLoggedIn, attempts)]. *)
Definition loginTurn (st : bool * nat) : async (bool * nat) :=
  let '(isLoggedIn, attempts) := st in
  await (WaitForTimeout (500 # 1)) ;;;
  let attempts := attempts + 1 in
  currentUrl <~ perform Url ;;;
  isLoggedIn <~
    (if negb (includes currentUrl "/auth/login")
        && negb (includes currentUrl "/login")
     then detectLogin currentUrl isLoggedIn
     else ret isLoggedIn) ;;;
  when (attempts mod 20 =? 0)
       (perform (Log logger.queue
          [Str "Waiting for login... ("; Num (attempts / 2); Str "s elapsed)"])) ;;;
  ret (isLoggedIn, attempts).

Definition loginLoop (st : bool * nat)
  : itree pageE (bool * nat + outcome bool) :=
  if negb (fst st) && (snd st <? maxAttempts) then
    r <- loginTurn st ;;
    match r with
    | Fulfilled st' => Ret (inl st')
    | Rejected e => Ret (inr (Rejected e))
    end
  else Ret (inr (Fulfilled (fst st))).

(** The loop of [main] in [auth.js]; the result is [isLoggedIn] as the loop
    leaves it. *)
Definition waitForLogin : async bool := ITree.iter loginLoop (false, 0).

(* ===================================================================== *)
(** ** Vocabulary of the statements *)
(* ===================================================================== *)

(** An answer of the browser that is not a match: no element, or the call
    threw. *)
Definition isMiss (a : outcome (option handle)) : Prop :=
  match a with
  | Fulfilled (Some _) => False
  | _ => True
  end.

(** The calls [waitForSelector(sel, {timeout: perCandidate, state})], one per
    selector and in the order of the selectors, with their answers. *)
Definition waits (perCandidate : JSNumber.t) (state : string)
           (sels : list string) (answers : list (outcome (option handle)))
  : trace :=
  map (fun sa => Ev (WaitForSelector (fst sa) perCandidate state) (snd sa))
      (combine sels answers).

(** The number [budget / n] is the rational quotient up to the rounding of
    the format: it is off by at most one part in [2 ^ 53]. *)
Definition nearQuotient (budget : Z) (n : nat) : bool :=
  match JSNumber.toQ (JSNumber.div (JSNumber.ofZ budget) (JSNumber.ofNat n)) with
  | Some share =>
      let exact := (inject_Z budget / inject_Z (Z.of_nat n))%Q in
      Qle_bool (Qabs (share - exact)) (Qabs exact * (1 # 9007199254740992))
  | None => false
  end.

(** What a finished run of the blocking resolver looks like: misses on a
    prefix of the candidates, then either the list is exhausted (null) or
    the next candidate matches and its element is returned. *)
Definition resolved (perCandidate : JSNumber.t) (state : string) (sels : list string)
           (tr : trace) (r : outcome (option handle)) : Prop :=
  exists misses : list (outcome (option handle)),
    Forall isMiss misses /\
    ((length misses = length sels /\
      tr = waits perCandidate state sels misses /\
      r = Fulfilled None)
     \/
     (exists sel element,
         nth_error sels (length misses) = Some sel /\
         tr = waits perCandidate state sels misses ++
              [Ev (WaitForSelector sel perCandidate state)
                  (Fulfilled (Some element))] /\
         r = Fulfilled (Some element))).

(** The URL a [page.url()] interaction returned. *)
Definition urlOf (en : entry) : option string :=
  match en with
  | Ev e a =>
      match e in pageE X return X -> option string with
      | Url => fun u => Some u
      | _ => fun _ => None
      end a
  end.

(** The interaction is not a reading of the URL. *)
Definition notUrl (en : entry) : Prop := urlOf en = None.

(** Every interaction of every execution of [t], finished or not, is in [P]. *)
Definition uses {R} (P : entry -> Prop) (t : itree pageE R) : Prop :=
  forall tr, partial t tr -> Forall P tr.

(** Finished executions of a loop [ITree.iter body i]: turns that go round
    again ([inl]) followed by one that leaves ([inr]). *)
Inductive loops {I R} (body : I -> itree pageE (I + R))
  : I -> trace -> R -> Prop :=
| loops_exit i tr r :
    runs (body i) tr (inr r) -> loops body i tr r
| loops_again i tr1 i' tr2 r :
    runs (body i) tr1 (inl i') -> loops body i' tr2 r ->
    loops body i (tr1 ++ tr2) r.

(** Beginnings of executions of a loop: finished turns that go round again,
    followed by the beginning of a turn. *)
Inductive loops_partial {I R} (body : I -> itree pageE (I + R))
  : I -> trace -> Prop :=
| loops_partial_turn i tr :
    partial (body i) tr -> loops_partial body i tr
| loops_partial_again i tr1 i' tr2 :
    runs (body i) tr1 (inl i') -> loops_partial body i' tr2 ->
    loops_partial body i (tr1 ++ tr2).

(** At most one message, and that one at the [queue] level. *)
Definition queueLogs (logs : trace) : Prop :=
  logs = [] \/ exists msg, logs = [Ev (Log logger.queue msg) tt].

(** The number of times the URL was read: the poll ticks begun. *)
Definition ticks (tr : trace) : nat :=
  length (filter (fun en => match urlOf en with Some _ => true | None => false end)
                 tr).

(** Every finished run of [m] settles in [Q]. *)
Definition settles {A} (Q : outcome A -> Prop) (m : async A) : Prop :=
  forall tr r, runs m tr r -> Q r.

(** [true], or an exception. *)
Definition trueOrThrown (r : outcome bool) : Prop :=
  r = Fulfilled true \/ exists e, r = Rejected e.

(** The interaction is a [click()] on a handle that went through. *)
Definition isClick (en : entry) : bool :=
  match en with
  | Ev e a =>
      match e in pageE X return X -> bool with
      | Click _ _ => fun r => match r with Fulfilled _ => true | Rejected _ => false end
      | _ => fun _ => false
      end a
  end.

(** The number of clicks that went through. *)
Definition clicks (tr : trace) : nat := length (filter isClick tr).

(** The characters of [s] are all decimal digits. *)
Fixpoint allDigits (s : string) : Prop :=
  match s with
  | EmptyString => True
  | String a s' => isDigit a = true /\ allDigits s'
  end.

(** The exclusion list: the known tracking identifiers and the numbers with
    a phone-number prefix. *)
Definition excluded (num : string) : Prop :=
  In num TRACKING_IDS \/
  startsWith num "62" = true \/ startsWith num "08" = true \/
  startsWith num "021" = true.

(** Where an extracted reference [num] can come from in an execution [tr]:
    a digit token in the text of a visible element found by a VA label
    selector, a digit token in the text of a visible container that mentions
    a payment keyword, or the digits of a keyword match in the visible body
    text. *)
Definition fromLabel (tr : trace) (num : string) : Prop :=
  exists sel text pre post,
    In sel vaLabelSelectors /\
    In (Ev (IsVisible (First (Locator sel)) (Some (500 # 1)%Q)) (Fulfilled true)) tr /\
    In (Ev (TextContent (First (Locator sel))) (Fulfilled (Some text))) tr /\
    In num (matchAll false (digitToken 10 16) text) /\
    text = (pre ++ num ++ post)%string.

Definition fromContainer (tr : trace) (num : string) : Prop :=
  exists containers container text pre post,
    In (Ev (LocatorAll (Locator visibleContainersSelector)) (Fulfilled containers)) tr /\
    In container containers /\
    In (Ev (TextContent container) (Fulfilled (Some text))) tr /\
    hasPaymentKeyword text = true /\
    In num (matchAll false (digitToken 12 16) text) /\
    text = (pre ++ num ++ post)%string.

Definition fromBodyText (tr : trace) (num : string) : Prop :=
  exists nodes m,
    In (Ev EvaluateBodyTextNodes (Fulfilled nodes)) tr /\
    In m (matchAll true vaContextPattern (visibleText nodes)) /\
    matchFirst false digits10to16 m = Some num.

(** The interaction is a [type()] that went through. *)
Definition typedOk (en : entry) : bool :=
  match en with
  | Ev e a =>
      match e in pageE X return X -> bool with
      | TypeText _ _ _ =>
          fun r => match r with Fulfilled _ => true | Rejected _ => false end
      | _ => fun _ => false
      end a
  end.

(** The interaction is a sleep that went through. *)
Definition sleptOk (en : entry) : bool :=
  match en with
  | Ev e a =>
      match e in pageE X return X -> bool with
      | WaitForTimeout _ =>
          fun r => match r with Fulfilled _ => true | Rejected _ => false end
      | _ => fun _ => false
      end a
  end.

(** The value an [inputValue()] returned. *)
Definition valueRead (en : entry) : option string :=
  match en with
  | Ev e a =>
      match e in pageE X return X -> option string with
      | InputValue _ =>
          fun r => match r with Fulfilled v => Some v | Rejected _ => None end
      | _ => fun _ => None
      end a
  end.

(** The interaction is a message at the [success] level. *)
Definition isSuccessLog (en : entry) : bool :=
  match en with
  | Ev e a =>
      match e in pageE X return X -> bool with
      | Log logger.success _ => fun _ => true
      | _ => fun _ => false
      end a
  end.

(** No success is reported. *)
Definition quiet (tr : trace) : bool :=
  forallb (fun en => negb (isSuccessLog en)) tr.

(** The stored value read back after typing: the value of the first
    [inputValue()] that comes right after a [type()] and the sleep that
    follows it, all three having gone through. *)
Fixpoint typedValue (tr : trace) : option string :=
  match tr with
  | [] => None
  | en :: rest =>
      if typedOk en then
        match rest with
        | en2 :: en3 :: _ =>
            if sleptOk en2 then
              match valueRead en3 with
              | Some v => Some v
              | None => typedValue rest
              end
            else typedValue rest
        | _ => typedValue rest
        end
      else typedValue rest
  end.

(** The message that closes the phone block once the stored value was read
    back: success when it is the phone number or the phone number without
    its leading zero, a warning with the value otherwise. *)
Definition verdictOf (phone : string) (i : nat) (newValue : string) : entry :=
  if String.eqb newValue phone || String.eqb newValue (stripLeadingZero phone)
  then Ev (Log logger.success
              [Str "Filled Phone (input "; Num (i + 1); Str "): ";
               Str (substring0 8 newValue); Str "..."]) tt
  else Ev (Log logger.warn [Str "Phone value after type: "; Str newValue]) tt.

(* ===================================================================== *)
(** ** Pages and executions used in the examples *)
(* ===================================================================== *)

(** An execution on a page that shows two buttons labelled Select, a
    quantity option and an order button: what the browser is asked and what
    it answers. *)
Definition selectBox : box :=
  {| box_x := 100 # 1; box_y := 200 # 1; box_width := 80 # 1; box_height := 40 # 1 |}.

Definition firstSelectButton : handle := First (Locator "button:has-text('Select')").

Definition directClickTrace : trace :=
  [ Ev (Log logger.info [Str "Looking for ticket categories..."]) tt;
    Ev (WaitForTimeout (2000 # 1)) (Fulfilled tt);
    Ev Url "https://widget.loket.com/widget/konser";
    Ev (Log logger.info
           [Str "Current URL: "; Str "https://widget.loket.com/widget/konser"]) tt;
    Ev (QueryAll "button") (Fulfilled [Element 1; Element 2]);
    Ev (Log logger.info [Str "Found "; Num 2; Str " total buttons on page"]) tt;
    Ev (TextContent (Element 1)) (Fulfilled (Some "Select"));
    Ev (IsVisible (Element 1) None) (Fulfilled true);
    Ev (Log logger.info
           [Str "  Button "; Num 1; Str ": '"; Str "Select";
            Str "' (visible: "; Flag true; Str ")"]) tt;
    Ev (TextContent (Element 2)) (Fulfilled (Some "Select"));
    Ev (IsVisible (Element 2) None) (Fulfilled true);
    Ev (Log logger.info
           [Str "  Button "; Num 2; Str ": '"; Str "Select";
            Str "' (visible: "; Flag true; Str ")"]) tt;
    Ev (WaitForTimeout (300 # 1)) (Fulfilled tt);
    Ev (Log logger.info [Str "Looking for Select button..."]) tt;
    Ev (IsVisible firstSelectButton (Some (500 # 1)%Q)) (Fulfilled true);
    Ev (Log logger.info
           [Str "Found visible button with selector: ";
            Str "button:has-text('Select')"]) tt;
    Ev (BoundingBox firstSelectButton) (Fulfilled (Some selectBox));
    Ev (Log logger.info
           [Str "Button position: x="; Rat (100 # 1); Str ", y="; Rat (200 # 1);
            Str ", w="; Rat (80 # 1); Str ", h="; Rat (40 # 1)]) tt;
    Ev (Click firstSelectButton (Some (5000 # 1)%Q)) (Fulfilled tt);
    Ev (Log logger.success [Str "Clicked on Select button!"]) tt;
    Ev (WaitForTimeout (500 # 1)) (Fulfilled tt);
    Ev Url "https://widget.loket.com/widget/konser";
    Ev (Log logger.info
           [Str "After click URL: "; Str "https://widget.loket.com/widget/konser"]) tt;
    Ev (LocatorCount (Locator "button:visible, [role='button']:visible, a:visible"))
       (Fulfilled 5);
    Ev (Log logger.info
           [Str "Visible interactive elements after click: "; Num 5]) tt;
    Ev (Log logger.info [Str "Looking for quantity dropdown options..."]) tt;
    Ev (IsVisible (First (Locator "text='1'")) (Some (300 # 1)%Q)) (Fulfilled true);
    Ev (Log logger.info [Str "Found quantity option: "; Str "text='1'"]) tt;
    Ev (Click (First (Locator "text='1'")) None) (Fulfilled tt);
    Ev (Log logger.success [Str "Selected quantity: "; Str "1"]) tt;
    Ev (WaitForTimeout (400 # 1)) (Fulfilled tt);
    Ev (IsVisible (First (Locator "button:has-text('Order Now')")) (Some (500 # 1)%Q))
       (Fulfilled true);
    Ev (Log logger.info
           [Str "Found proceed button: "; Str "button:has-text('Order Now')"]) tt;
    Ev (Click (First (Locator "button:has-text('Order Now')")) None) (Fulfilled tt);
    Ev (Log logger.success [Str "Clicked proceed button!"]) tt;
    Ev (WaitForTimeout (2000 # 1)) (Fulfilled tt);
    Ev (Log logger.info [Str "Setting quantity to "; Num 1; Str "..."]) tt;
    Ev (Query None
          "input[type='number'], .quantity-input, [class*='quantity'] input, input[name*='qty']")
       (Fulfilled None);
    Ev (Query None ".qty-plus, .btn-plus, [class*='plus'], button:has-text('+')")
       (Fulfilled None);
    Ev (Log logger.warn
           [Str "Could not find quantity selector, proceeding with default quantity"])
       tt ].

(** The interaction reads the text of an element or queries the ticket
    sections: the only ways [selectCategory] looks at category names. *)
Definition readsCategories (en : entry) : bool :=
  match en with
  | Ev e a =>
      match e in pageE X return X -> bool with
      | QueryAll sel => fun _ => String.eqb sel ticketSectionsSelector
      | Query (Some _) _ => fun _ => true
      | _ => fun _ => false
      end a
  end.

(** A page with nothing on it: no element matches any selector, clicks on
    selectors time out, sleeps go through. *)
Definition timedOut : JSError := Error "Timeout exceeded.".

Definition blankPage : browser unit :=
  fun X e w =>
    match e in pageE X return X * unit with
    | Url => ("about:blank", w)
    | Goto _ _ => (Fulfilled tt, w)
    | Reload => (Fulfilled tt, w)
    | WaitForTimeout _ => (Fulfilled tt, w)
    | WaitForSelector _ _ _ => (Rejected timedOut, w)
    | Query _ _ => (Fulfilled None, w)
    | QueryAll _ => (Fulfilled [], w)
    | PageClick _ => (Rejected timedOut, w)
    | MouseClick _ _ => (Fulfilled tt, w)
    | EvaluateClickSelect => (Fulfilled false, w)
    | EvaluateBodyTextNodes => (Fulfilled [], w)
    | LocatorAll _ => (Fulfilled [], w)
    | LocatorCount _ => (Fulfilled 0, w)
    | IsVisible _ _ => (Fulfilled false, w)
    | IsDisabled _ => (Rejected timedOut, w)
    | IsChecked _ => (Rejected timedOut, w)
    | BoundingBox _ => (Fulfilled None, w)
    | Click _ _ => (Rejected timedOut, w)
    | Fill _ _ => (Rejected timedOut, w)
    | TypeText _ _ _ => (Rejected timedOut, w)
    | TextContent _ => (Fulfilled None, w)
    | GetAttribute _ _ => (Fulfilled None, w)
    | InputValue _ => (Rejected timedOut, w)
    | Log _ _ => (tt, w)
    | Now => ("2026-01-01T00:00:00.000Z", w)
    | WriteFile _ _ => (Fulfilled tt, w)
    end.

(** The result of a run against a browser, without the trace. *)
Definition resultOf {W R} (b : browser W) (fuel : nat) (t : itree pageE R) (w : W)
  : option R :=
  match exec b fuel t w with
  | Some (_, r, _) => Some r
  | None => None
  end.

Fixpoint handle_eqb (h1 h2 : handle) : bool :=
  match h1, h2 with
  | Element a, Element b => a =? b
  | Locator a, Locator b => String.eqb a b
  | First a, First b => handle_eqb a b
  | Last a, Last b => handle_eqb a b
  | _, _ => false
  end.

(** A ticket page with two categories on sale, SILVER listed first and GOLD
    second.  Elements 11 and 12 are the two sections, elements 1 and 2 their
    Select buttons; [button:has-text('Select')] resolves first to the SILVER
    button.  After a click on a Select button a quantity option and an
    order button are visible.  The state of the page is the category whose
    Select button was clicked last. *)
Definition silverSection : handle := Element 11.
Definition goldSection : handle := Element 12.
Definition silverButton : handle := Element 1.
Definition goldButton : handle := Element 2.

Definition selectButtonsSelector : string :=
  "button:has-text('Select'), button:has-text('Pilih'), [class*='select'] button, .btn-select".

Definition ticketPage : browser (option string) :=
  fun X e w =>
    match e in pageE X return X * option string with
    | Url => ("https://widget.loket.com/widget/konser", w)
    | WaitForTimeout _ => (Fulfilled tt, w)
    | QueryAll sel =>
        (Fulfilled
           (if String.eqb sel ticketSectionsSelector
            then [silverSection; goldSection]
            else if String.eqb sel "button" || String.eqb sel selectButtonsSelector
            then [silverButton; goldButton]
            else []), w)
    | Query (Some section) _ =>
        (Fulfilled
           (if handle_eqb section silverSection then Some silverButton
            else if handle_eqb section goldSection then Some goldButton
            else None), w)
    | TextContent h =>
        (Fulfilled
           (if handle_eqb h silverSection then Some "SILVER Rp 350.000 Select"
            else if handle_eqb h goldSection then Some "GOLD Rp 750.000 Select"
            else if handle_eqb h silverButton || handle_eqb h goldButton
            then Some "Select"
            else None), w)
    | IsVisible h _ =>
        (Fulfilled
           (handle_eqb h silverButton || handle_eqb h goldButton
            || handle_eqb h firstSelectButton
            || handle_eqb h (First (Locator "text='1'"))
            || handle_eqb h (First (Locator "button:has-text('Order Now')"))), w)
    | BoundingBox h =>
        (Fulfilled (if handle_eqb h firstSelectButton then Some selectBox else None), w)
    | Click h _ =>
        if handle_eqb h firstSelectButton || handle_eqb h silverButton
        then (Fulfilled tt, Some "SILVER")
        else if handle_eqb h goldButton
        then (Fulfilled tt, Some "GOLD")
        else if handle_eqb h (First (Locator "text='1'"))
                || handle_eqb h (First (Locator "button:has-text('Order Now')"))
        then (Fulfilled tt, w)
        else (Rejected timedOut, w)
    | LocatorCount _ => (Fulfilled 5, w)
    | e' => let '(a, _) := blankPage e' tt in (a, w)
    end.

(** The text nodes of a payment page: a tracking identifier after the word
    rekening, a number inside a script, and the VA number after its label. *)
Definition paymentNodes : list textNode :=
  [ {| parentElement := Some {| tagName := "DIV"; display := "block"; visibility := "visible" |};
       nodeText := "Rekening 1234567890123456" |};
    {| parentElement := Some {| tagName := "SCRIPT"; display := "block"; visibility := "visible" |};
       nodeText := "Virtual Account 99887766554433" |};
    {| parentElement := Some {| tagName := "SPAN"; display := "none"; visibility := "visible" |};
       nodeText := "Virtual Account 55443322110099" |};
    {| parentElement := Some {| tagName := "P"; display := "block"; visibility := "visible" |};
       nodeText := "Virtual Account: 88700123456789" |} ].

Definition bodyTextTrace : trace :=
  map (fun sel => Ev (IsVisible (First (Locator sel)) (Some (500 # 1)%Q))
                     (Fulfilled false))
      vaLabelSelectors
  ++ [ Ev (Log logger.info [Str "Looking for VA in visible containers..."]) tt;
       Ev (LocatorAll (Locator visibleContainersSelector)) (Fulfilled []);
       Ev (Log logger.info
              [Str "Searching in body text with strict filtering..."]) tt;
       Ev EvaluateBodyTextNodes (Fulfilled paymentNodes);
       Ev (Log logger.info [Str "Found VA near keyword: "; Str "88700123456789"]) tt ].

(** [Node.textContent] of an element, from the text nodes under it in
    document order: the text of every one of them, those under script and
    hidden elements included. *)
Fixpoint textContentOf (nodes : list textNode) : string :=
  match nodes with
  | [] => ""
  | node :: rest => (node.(nodeText) ++ textContentOf rest)%string
  end.

(** The text nodes of a payment page on which no reference is shown yet: a
    heading, and an inline script that holds an identifier. *)
Definition scriptedNodes : list textNode :=
  [ {| parentElement := Some {| tagName := "H2"; display := "block"; visibility := "visible" |};
       nodeText := "Pembayaran Virtual Account BCA" |};
    {| parentElement := Some {| tagName := "SCRIPT"; display := "none"; visibility := "visible" |};
       nodeText := "fbq('init', '9988776655443322');" |} ].

(** The page of [scriptedNodes]: its one visible container, [main], holds
    all of them; no element of the label selectors is visible. *)
Definition scriptedPage : browser unit :=
  fun X e w =>
    match e in pageE X return X * unit with
    | LocatorAll l =>
        (Fulfilled
           (if handle_eqb l (Locator visibleContainersSelector)
            then [Element 41]
            else []), w)
    | TextContent h =>
        (Fulfilled
           (if handle_eqb h (Element 41)
            then Some (textContentOf scriptedNodes)
            else None), w)
    | EvaluateBodyTextNodes => (Fulfilled scriptedNodes, w)
    | e' => blankPage e' w
    end.

Definition scriptedTrace : trace :=
  map (fun sel => Ev (IsVisible (First (Locator sel)) (Some (500 # 1)%Q))
                     (Fulfilled false))
      vaLabelSelectors
  ++ [ Ev (Log logger.info [Str "Looking for VA in visible containers..."]) tt;
       Ev (LocatorAll (Locator visibleContainersSelector)) (Fulfilled [Element 41]);
       Ev (TextContent (Element 41))
          (Fulfilled
             (Some "Pembayaran Virtual Account BCAfbq('init', '9988776655443322');"));
       Ev (Log logger.info
              [Str "Found potential VA from container: "; Str "9988776655443322"]) tt ].

(** A page that shows a run of twenty digits after the word rekening, in no
    container and under no label. *)
Definition longRunNodes : list textNode :=
  [ {| parentElement := Some {| tagName := "P"; display := "block"; visibility := "visible" |};
       nodeText := "Rekening 98765432109876543210" |} ].

Definition longRunPage : browser unit :=
  fun X e w =>
    match e in pageE X return X * unit with
    | EvaluateBodyTextNodes => (Fulfilled longRunNodes, w)
    | e' => blankPage e' w
    end.

(** A payment page behind a checkout that offers no button: the Virtual
    Account row is visible and boxed, two radio buttons and two checkboxes
    are visible, the first box checked, the button [Bayar Sekarang] is
    visible and enabled, and the text nodes are those of [paymentNodes]. *)
Definition checkoutPage : browser unit :=
  fun X e w =>
    match e in pageE X return X * unit with
    | IsVisible h _ =>
        (Fulfilled
           (handle_eqb h (First (Locator "text='Virtual Account'"))
            || handle_eqb h (First (Locator "button:has-text('Bayar Sekarang')"))), w)
    | BoundingBox h =>
        (Fulfilled
           (if handle_eqb h (First (Locator "text='Virtual Account'"))
            then Some selectBox else None), w)
    | LocatorAll l =>
        (Fulfilled
           (if handle_eqb l (Locator "input[type='radio']:visible")
            then [Element 31; Element 32]
            else if handle_eqb l (Locator "input[type='checkbox']:visible")
            then [Element 21; Element 22]
            else []), w)
    | IsChecked h => (Fulfilled (handle_eqb h (Element 21)), w)
    | IsDisabled _ => (Fulfilled false, w)
    | Click h _ =>
        (if handle_eqb h (Element 32) || handle_eqb h (Element 22)
            || handle_eqb h (First (Locator "button:has-text('Bayar Sekarang')"))
         then Fulfilled tt
         else Rejected timedOut, w)
    | EvaluateBodyTextNodes => (Fulfilled paymentNodes, w)
    | e' => blankPage e' w
    end.

(* ===================================================================== *)
(** ** Vocabulary of the further properties *)
(* ===================================================================== *)

(** The calls [page.$(sel)], one per selector and in the order of the
    selectors, with their answers. *)
Definition probes (sels : list string) (answers : list (outcome (option handle)))
  : trace :=
  map (fun sa => Ev (Query None (fst sa)) (snd sa)) (combine sels answers).

(** What a finished run of the probing resolver looks like: misses on a
    prefix of the candidates, then either the list is exhausted (false) or
    the next candidate resolves to an element (true). *)
Definition probed (sels : list string) (tr : trace) (r : outcome bool) : Prop :=
  exists misses : list (outcome (option handle)),
    Forall isMiss misses /\
    ((length misses = length sels /\
      tr = probes sels misses /\
      r = Fulfilled false)
     \/
     (exists sel element,
         nth_error sels (length misses) = Some sel /\
         tr = probes sels misses ++
              [Ev (Query None sel) (Fulfilled (Some element))] /\
         r = Fulfilled true)).

(** What the poller may do: read the URL, look up one of the buy-button
    selectors, ask an element whether it is disabled or visible, log, and
    sleep for the poll interval. *)
Definition observes (pollInterval : Q) (en : entry) : Prop :=
  match en with
  | Ev e _ =>
      match e with
      | Url => True
      | Query None sel => In sel selectors.event.buyButton
      | IsDisabled _ => True
      | IsVisible _ None => True
      | Log _ _ => True
      | WaitForTimeout ms => ms = pollInterval
      | _ => False
      end
  end.

(** [times] presses of the plus button, each followed by its sleep, all
    gone through. *)
Fixpoint presses (plusButton : handle) (times : nat) : trace :=
  match times with
  | O => []
  | S times' =>
      Ev (Click plusButton None) (Fulfilled tt)
      :: Ev (WaitForTimeout (100 # 1)) (Fulfilled tt)
      :: presses plusButton times'
  end.

Definition quantityInputSelector : string :=
  "input[type='number'], .quantity-input, [class*='quantity'] input, input[name*='qty']".

Definition plusButtonSelector : string :=
  ".qty-plus, .btn-plus, [class*='plus'], button:has-text('+')".

(** What a finished run of [setQuantity] looks like after its first
    message. *)
Definition quantitySet (amount : nat) (rest : trace) : Prop :=
  (exists quantityInput,
      rest = [ Ev (Query None quantityInputSelector) (Fulfilled (Some quantityInput));
               Ev (Fill quantityInput "") (Fulfilled tt);
               Ev (Fill quantityInput (ofNat amount)) (Fulfilled tt);
               Ev (Log logger.success [Str "Quantity set to "; Num amount]) tt ])
  \/
  (exists plusButton,
      rest = Ev (Query None quantityInputSelector) (Fulfilled None)
             :: Ev (Query None plusButtonSelector) (Fulfilled (Some plusButton))
             :: presses plusButton (amount - 1)
             ++ [ Ev (Log logger.success
                        [Str "Quantity set to "; Num amount;
                         Str " using plus button"]) tt ])
  \/
  rest = [ Ev (Query None quantityInputSelector) (Fulfilled None);
           Ev (Query None plusButtonSelector) (Fulfilled None);
           Ev (Log logger.warn
                  [Str "Could not find quantity selector, proceeding with default quantity"])
              tt ]
  \/
  (exists pre message,
      rest = pre ++ [ Ev (Log logger.warn
                            [Str "Error setting quantity: "; Str message]) tt ] /\
      quiet pre = true /\
      clicks pre <= amount - 1).

(** The interaction activated a control: a [click()] that went through, or
    the in-page JavaScript click reporting that it clicked. *)
Definition activated (en : entry) : bool :=
  match en with
  | Ev e a =>
      match e in pageE X return X -> bool with
      | Click _ _ =>
          fun r => match r with Fulfilled _ => true | Rejected _ => false end
      | EvaluateClickSelect =>
          fun r => match r with Fulfilled b => b | Rejected _ => false end
      | _ => fun _ => false
      end a
  end.

Definition noCategoriesFound : entry :=
  Ev (Log logger.error [Str "No available ticket categories found!"]) tt.

(** How a finished run of [selectCategory] ends. *)
Definition categoryOutcome (tr : trace) (r : outcome bool) : Prop :=
  match r with
  | Fulfilled true => existsb activated tr = true
  | Fulfilled false => exists pre, tr = pre ++ [noCategoriesFound]
  | Rejected e =>
      tr = [ Ev (Log logger.info [Str "Looking for ticket categories..."]) tt;
             Ev (WaitForTimeout (2000 # 1)) (Rejected e) ]
      \/
      exists currentUrl,
        tr = [ Ev (Log logger.info [Str "Looking for ticket categories..."]) tt;
               Ev (WaitForTimeout (2000 # 1)) (Fulfilled tt);
               Ev Url currentUrl;
               Ev (Log logger.info [Str "Current URL: "; Str currentUrl]) tt;
               Ev (QueryAll "button") (Rejected e) ]
  end.

(** Every interaction of [tr] is in [P], which may look at what came before
    it in [tr]. *)
Definition always (P : trace -> entry -> Prop) (tr : trace) : Prop :=
  forall pre en post, tr = pre ++ en :: post -> P pre en.

(** The Select button of a ticket section is looked up right after the text
    of that section was read and found to mention the keyword being searched
    and no sold-out marker. *)
Definition opensAvailable (categoryKeywords : list string)
           (before : trace) (en : entry) : Prop :=
  match en with
  | Ev e _ =>
      match e with
      | Query (Some section) _ =>
          exists pre keyword text,
            before = pre ++
                     [ Ev (TextContent section) (Fulfilled (Some text));
                       Ev (Log logger.success
                              [Str "Found available category: '"; Str keyword;
                               Str "'"]) tt ] /\
            In keyword categoryKeywords /\
            includes (toLowerCase text) (toLowerCase keyword) = true /\
            includes (toLowerCase text) "sold out" = false /\
            includes (toLowerCase text) "habis" = false
      | _ => True
      end
  end.

(** The string is made of ASCII characters only.  On such strings
    [toLowerCase] is JavaScript's. *)
Fixpoint isAscii (s : string) : bool :=
  match s with
  | EmptyString => true
  | String a rest => (nat_of_ascii a <? 128) && isAscii rest
  end.

(** The text an interaction read, if it is a [textContent()] that gave one,
    is ASCII. *)
Definition readsAscii (en : entry) : bool :=
  match en with
  | Ev e a =>
      match e in pageE X return X -> bool with
      | TextContent _ =>
          fun r =>
            match r with
            | Fulfilled (Some text) => isAscii text
            | _ => true
            end
      | _ => fun _ => true
      end a
  end.

(** The keyword a message [Searching for category: '...'] announces. *)
Definition searchedKeyword (en : entry) : option string :=
  match en with
  | Ev e _ =>
      match e with
      | Log logger.info [Str s1; Str keyword; Str s2] =>
          if String.eqb s1 "Searching for category: '" && String.eqb s2 "'"
          then Some keyword
          else None
      | _ => None
      end
  end.

(** The keywords searched in an execution, in the order of the searches. *)
Fixpoint searched (tr : trace) : list string :=
  match tr with
  | [] => []
  | en :: rest =>
      match searchedKeyword en with
      | Some keyword => keyword :: searched rest
      | None => searched rest
      end
  end.

(** The message that announces the click on the first Select button of the
    page, whatever its category. *)
Definition announcesFirstAvailable (en : entry) : bool :=
  match en with
  | Ev e _ =>
      match e with
      | Log logger.warn [Str s] =>
          String.eqb s "Keyword not matched, clicking first available Select button..."
      | _ => false
      end
  end.

(** The interaction is a lookup inside an element ([element.$(...)]). *)
Definition scopedQuery (en : entry) : bool :=
  match en with
  | Ev e _ =>
      match e with
      | Query (Some _) _ => true
      | _ => false
      end
  end.

(** The interactions [setQuantity] may make. *)
Definition quantityStep (en : entry) : bool :=
  match en with
  | Ev e _ =>
      match e with
      | Click _ None => true
      | WaitForTimeout _ => true
      | Query None _ => true
      | Fill _ _ => true
      | Log logger.info [Str _; Num _; Str _] => true
      | Log logger.success _ => true
      | Log logger.warn [Str s; Str _] => String.eqb s "Error setting quantity: "
      | Log logger.warn [Str s] =>
          String.eqb s "Could not find quantity selector, proceeding with default quantity"
      | _ => false
      end
  end.

(** An execution that searches no keyword, does not announce the
    first-available click and looks into no section, as those of
    [setQuantity] are. *)
Definition plain (tr : trace) : Prop :=
  searched tr = [] /\ existsb announcesFirstAvailable tr = false /\
  Forall (fun en => scopedQuery en = false) tr.

(** How a strategy ends: it falls through, or it returns true after a
    control was activated. *)
Definition fellThroughOrClicked (tr : trace) (r : outcome (option bool)) : Prop :=
  r = Fulfilled None \/
  (r = Fulfilled (Some true) /\ existsb activated tr = true).

(** What a finished run of a keyword search is: how it ends, and what it
    keeps. *)
Definition searchedFor (kws : list string) (tr : trace) (r : outcome (option bool))
  : Prop :=
  (r = Fulfilled None \/
   (r = Fulfilled (Some true) /\ existsb activated tr = true) \/
   exists e, r = Rejected e) /\
  always (opensAvailable kws) tr /\
  existsb announcesFirstAvailable tr = false.

(** What a finished run of strategy 2 is. *)
Definition keywordStrategy (kws : list string) (tr : trace)
           (r : outcome (option bool)) : Prop :=
  (r = Fulfilled None \/
   (r = Fulfilled (Some true) /\ existsb activated tr = true)) /\
  always (opensAvailable kws) tr /\
  (exists k, searched tr = firstn k kws) /\
  (existsb announcesFirstAvailable tr = true -> searched tr = kws).

(** A checkbox is clicked right after it answered that it is not checked. *)
Definition checksUnchecked (before : trace) (en : entry) : Prop :=
  match en with
  | Ev e _ =>
      match e with
      | Click checkbox _ =>
          exists pre, before = pre ++ [Ev (IsChecked checkbox) (Fulfilled false)]
      | _ => True
      end
  end.

(** A pay button is clicked right after it was seen visible and was not
    reported disabled. *)
Definition paysEnabled (before : trace) (en : entry) : Prop :=
  match en with
  | Ev e _ =>
      match e with
      | Click payBtn _ =>
          exists pre sel isDisabled,
            payBtn = First (Locator sel) /\
            In sel payNowSelectors /\
            before = pre ++
                     [ Ev (IsVisible payBtn (Some (1000 # 1)%Q)) (Fulfilled true);
                       Ev (IsDisabled payBtn) isDisabled;
                       Ev (Log logger.info [Str "Found Pay button: "; Str sel]) tt ] /\
            isDisabled <> Fulfilled true
      | _ => True
      end
  end.

(** The interaction writes a file. *)
Definition isWrite (en : entry) : bool :=
  match en with
  | Ev e _ =>
      match e with
      | WriteFile _ _ => true
      | _ => false
      end
  end.

(** The only file written is the result file, and what is written to it is
    a reference that passed the filter, with the time and the URL. *)
Definition savesReference (en : entry) : Prop :=
  match en with
  | Ev e _ =>
      match e with
      | WriteFile file content =>
          file = resultFile /\
          exists vaNumber now url,
            content = [ Str "VA BCA: "; Str vaNumber; Str newline;
                        Str "Time: "; Str now; Str newline;
                        Str "Event: "; Str url ] /\
            ~ excluded vaNumber /\
            allDigits vaNumber /\
            10 <= String.length vaNumber <= 16
      | _ => True
      end
  end.

(** A payment page: two visible checkboxes of which the first is checked, a
    visible and enabled button [Bayar Sekarang], and the text nodes of
    [paymentNodes]; nothing else is on the page. *)
Definition payNowButton : handle := First (Locator "button:has-text('Bayar Sekarang')").

Definition paymentPage : browser unit :=
  fun X e w =>
    match e in pageE X return X * unit with
    | LocatorAll l =>
        (Fulfilled
           (if handle_eqb l (Locator "input[type='checkbox']:visible")
            then [Element 21; Element 22]
            else []), w)
    | IsChecked h => (Fulfilled (handle_eqb h (Element 21)), w)
    | IsVisible h _ => (Fulfilled (handle_eqb h payNowButton), w)
    | IsDisabled _ => (Fulfilled false, w)
    | Click h _ =>
        (if handle_eqb h (Element 22) || handle_eqb h payNowButton
         then Fulfilled tt
         else Rejected timedOut, w)
    | EvaluateBodyTextNodes => (Fulfilled paymentNodes, w)
    | e' => blankPage e' w
    end.

(** The trace of a program run against a browser. *)
Definition traceOn {W R} (b : browser W) (w : W) (t : itree pageE R) : trace :=
  match exec b 3000 t w with
  | Some (tr, _, _) => tr
  | None => []
  end.

Definition onPaymentPage {R} (t : itree pageE R) : trace := traceOn paymentPage tt t.

(** The execution of the keyword strategy on the ticket page, for the
    preferences VIP, then GOLD. *)
Definition keywordTrace : trace :=
  traceOn ticketPage None (selectByKeyword ["VIP"; "GOLD"] 1).

(** The interaction is a poll of the login loop: its sleep of 500 ms. *)
Definition isPoll (en : entry) : bool :=
  match en with
  | Ev e _ =>
      match e with
      | WaitForTimeout ms => Qeq_bool ms (500 # 1)
      | _ => false
      end
  end.

(** The number of polls. *)
Definition polls (tr : trace) : nat := length (filter isPoll tr).

(** What shows in an execution that the user is logged in: a URL read that
    is off the login page, and with it a user element found on the page, or
    that URL being on loket.com and mentioning neither login nor register. *)
Definition loginSeen (tr : trace) : Prop :=
  exists currentUrl,
    In (Ev Url currentUrl) tr /\
    includes currentUrl "/login" = false /\
    ((exists selector element,
         In selector userIndicators /\
         In (Ev (Query None selector) (Fulfilled (Some element))) tr)
     \/
     (includes currentUrl "loket.com" = true /\
      includes currentUrl "login" = false /\
      includes currentUrl "register" = false)).

(** The run in which the page is on [currentUrl] and shows no user element. *)
Definition noIndicatorTrace (currentUrl : string) : trace :=
  Ev (WaitForTimeout (500 # 1)) (Fulfilled tt)
  :: Ev Url currentUrl
  :: map (fun selector => Ev (Query None selector) (Fulfilled None)) userIndicators
  ++ [ Ev (WaitForTimeout (2000 # 1)) (Fulfilled tt) ].

(** The interaction is a [fill()] that went through. *)
Definition isFill (en : entry) : bool :=
  match en with
  | Ev e a =>
      match e in pageE X return X -> bool with
      | Fill _ _ =>
          fun r => match r with Fulfilled _ => true | Rejected _ => false end
      | _ => fun _ => false
      end a
  end.

(** The number of fills that went through. *)
Definition fills (tr : trace) : nat := length (filter isFill tr).

(** How the loop deals with one field: after attempts that filled nothing
    and reported no success, either the field found by one of the mapping's
    selectors is filled with the mapping's value and the success is
    reported, or the warning that no field was found is logged. *)
Definition fieldDone (mapping : fieldMapping.t) (tr : trace) : Prop :=
  exists pre,
    fills pre = 0 /\ quiet pre = true /\
    ((exists selector,
         In selector mapping.(fieldMapping.selectors) /\
         tr = pre ++
              [ Ev (Fill (First (Locator selector)) mapping.(fieldMapping.value))
                   (Fulfilled tt);
                Ev (Log logger.success
                       [Str "Filled "; Str mapping.(fieldMapping.name); Str ": ";
                        Str (substring0 10 mapping.(fieldMapping.value));
                        Str "..."]) tt ])
     \/
     tr = pre ++
          [ Ev (Log logger.warn
                   [Str "Could not find field for: ";
                    Str mapping.(fieldMapping.name)]) tt ]).

(** A form page: the first-name and the e-mail input and the label of the
    female radio button are visible; fills and clicks go through. *)
Definition formPage : browser unit :=
  fun X e w =>
    match e in pageE X return X * unit with
    | IsVisible h _ =>
        (Fulfilled
           (handle_eqb h (First (Locator "input[name='firstname']"))
            || handle_eqb h (First (Locator "input[type='email']"))
            || handle_eqb h (First (Locator "label:has-text('Perempuan')"))), w)
    | Fill _ _ => (Fulfilled tt, w)
    | Click _ _ => (Fulfilled tt, w)
    | e' => blankPage e' w
    end.

Definition sampleData : personalData.t :=
  {| personalData.name := "Siti Rahma";
     personalData.nik := "3173000000000001";
     personalData.email := "siti@example.com";
     personalData.phone := "08123456789";
     personalData.domisili := None;
     personalData.gender := Some "Female";
     personalData.dob := None |}.

(** The last character of [pre], or [prev] when [pre] is empty. *)
Fixpoint lastChar (prev : option ascii) (pre : string) : option ascii :=
  match pre with
  | EmptyString => prev
  | String a pre' => lastChar (Some a) pre'
  end.

(** [pre] ends in a word character ([\w]); [post] begins with one. *)
Definition endsInWord (pre : string) : bool :=
  match lastChar None pre with
  | Some a => isWord a
  | None => false
  end.

Definition beginsWithWord (post : string) : bool :=
  match post with
  | String a _ => isWord a
  | EmptyString => false
  end.

(** [num] is a whole token of [lo] to 16 digits of a text that a
    [textContent()] of the execution returned. *)
Definition wholeTokenRead (lo : nat) (tr : trace) (num : string) : Prop :=
  exists el text pre post,
    In (Ev (TextContent el) (Fulfilled (Some text))) tr /\
    text = (pre ++ num ++ post)%string /\
    endsInWord pre = false /\ beginsWithWord post = false /\
    allDigits num /\ lo <= String.length num <= 16.


(** The interaction is a [type()], gone through or not. *)
Definition isType (en : entry) : bool :=
  match en with
  | Ev e _ =>
      match e with
      | TypeText _ _ _ => true
      | _ => false
      end
  end.

(** The number of [type()] calls. *)
Definition typings (tr : trace) : nat := length (filter isType tr).

(** The phone number is typed, with a delay of 30 ms, into an input that
    was just seen without a name and with an empty value, then clicked and
    cleared. *)
Definition typesIntoEmpty (phone : string) (before : trace) (en : entry) : Prop :=
  match en with
  | Ev e _ =>
      match e with
      | TypeText inp text delay =>
          text = phone /\ delay = (30 # 1)%Q /\
          exists pre nameAttr,
            falsy nameAttr = true /\
            before = pre ++
                     [ Ev (GetAttribute inp "name") (Fulfilled nameAttr);
                       Ev (InputValue inp) (Fulfilled "");
                       Ev (Click inp None) (Fulfilled tt);
                       Ev (WaitForTimeout (100 # 1)) (Fulfilled tt);
                       Ev (Fill inp "") (Fulfilled tt);
                       Ev (WaitForTimeout (50 # 1)) (Fulfilled tt) ]
      | _ => True
      end
  end.

(** The interaction is a click that went through: on a handle, at a
    position, or on a selector. *)
Definition isPointer (en : entry) : bool :=
  match en with
  | Ev e a =>
      match e in pageE X return X -> bool with
      | Click _ _ =>
          fun r => match r with Fulfilled _ => true | Rejected _ => false end
      | MouseClick _ _ =>
          fun r => match r with Fulfilled _ => true | Rejected _ => false end
      | PageClick _ =>
          fun r => match r with Fulfilled _ => true | Rejected _ => false end
      | _ => fun _ => false
      end a
  end.

(** The number of clicks of any kind that went through. *)
Definition pointers (tr : trace) : nat := length (filter isPointer tr).

(** The interactions of a loop that clicks the centre of the first visible
    option among [sels]: probes of visibility and of the bounding box of the
    options of [sels], mouse clicks, messages and sleeps. *)
Definition centreStep (sels : list string) (en : entry) : Prop :=
  match en with
  | Ev e _ =>
      match e with
      | IsVisible option _ => exists sel, In sel sels /\ option = First (Locator sel)
      | BoundingBox option => exists sel, In sel sels /\ option = First (Locator sel)
      | MouseClick _ _ => True
      | Log _ _ => True
      | WaitForTimeout _ => True
      | _ => False
      end
  end.

(** The interactions of the Virtual Account part of the payment selection:
    those of the loop over [vaSelectors], and the click on the text. *)
Definition vaStep (en : entry) : Prop :=
  centreStep vaSelectors en \/
  exists a, en = Ev (PageClick "text='Virtual Account'") a.

(** The interactions of the BCA part: those of the loop over
    [bcaSelectors], the listing of the visible radio buttons and the click on
    one of them. *)
Definition bcaStep (en : entry) : Prop :=
  centreStep bcaSelectors en \/
  (exists a, en = Ev (LocatorAll (Locator "input[type='radio']:visible")) a) \/
  (exists radio a, en = Ev (Click radio None) a).

(** Step 1 of the payment selection: the Virtual Account row is clicked,
    by the loop over [vaSelectors] or else by its text; the result is
    [vaClicked]. *)
Definition selectVA : async bool :=
  vaClicked <~ clickCentre "Found VA element with: "
                           "Clicked on Virtual Account header"
                           (1500 # 1) false vaSelectors ;;;
  clickVAText vaClicked.

(** Step 2: the BCA option is clicked, by the loop over [bcaSelectors] or
    else as the second radio button; the result is [bcaClicked]. *)
Definition selectBCA : async bool :=
  bcaClicked <~ clickCentre "Found BCA element with: "
                            "Clicked on Virtual Account BCA"
                            (1000 # 1) false bcaSelectors ;;;
  clickBCARadio bcaClicked.

(** A page on which the second visible text input has no name and no value;
    what is typed into it is stored without its leading zero.  The state of
    the page is the value of that input. *)
Definition phonePage : browser string :=
  fun X e w =>
    match e in pageE X return X * string with
    | LocatorAll _ => (Fulfilled [Element 1; Element 2], w)
    | GetAttribute h _ =>
        (Fulfilled (if handle_eqb h (Element 1) then Some "firstname" else None), w)
    | InputValue h => (Fulfilled (if handle_eqb h (Element 1) then "Budi" else w), w)
    | Click _ _ => (Fulfilled tt, w)
    | Fill h value => (Fulfilled tt, if handle_eqb h (Element 2) then value else w)
    | TypeText h text _ =>
        (Fulfilled tt, if handle_eqb h (Element 2) then stripLeadingZero text else w)
    | e' => let '(a, _) := blankPage e' tt in (a, w)
    end.

(** A payment page whose Virtual Account row is visible and boxed, and
    which shows two radio buttons; no BCA row is visible. *)
Definition methodPage : browser unit :=
  fun X e w =>
    match e in pageE X return X * unit with
    | IsVisible h _ =>
        (Fulfilled (handle_eqb h (First (Locator "text='Virtual Account'"))), w)
    | BoundingBox h =>
        (Fulfilled
           (if handle_eqb h (First (Locator "text='Virtual Account'"))
            then Some selectBox else None), w)
    | LocatorAll l =>
        (Fulfilled
           (if handle_eqb l (Locator "input[type='radio']:visible")
            then [Element 31; Element 32]
            else []), w)
    | Click h _ =>
        (if handle_eqb h (Element 32) then Fulfilled tt else Rejected timedOut, w)
    | e' => blankPage e' w
    end.

(* ===================================================================== *)
(** ** Facts about strings *)
(* ===================================================================== *)

Section StringFacts.

Lemma startsWith_spec (s p : string) :
startsWith s p = true <-> exists t, s = (p ++ t)%string.
Proof.
revert s; induction p as [|a p IH]; intros s; simpl.
- split; [intros _; now exists s | reflexivity].
- destruct s as [|b s]; simpl.
+ split; [discriminate | intros [t Ht]; discriminate].
+ rewrite andb_true_iff, Ascii.eqb_eq, IH. split.
  * intros [-> [t ->]]. now exists t.
  * intros [t Ht]. injection Ht as -> ->. split; [reflexivity | now exists t].
Qed.

Lemma includes_spec (s p : string) :
includes s p = true <-> exists pre post, s = (pre ++ p ++ post)%string.
Proof.
induction s as [|c s IH]; simpl.
- rewrite orb_false_r, startsWith_spec. split.
+ intros [t Ht]. now exists EmptyString, t.
+ intros [pre [post H]]. destruct pre; simpl in H; [now exists post | discriminate].
- rewrite orb_true_iff, startsWith_spec, IH. split.
+ intros [[t Ht] | [pre [post H]]].
  * now exists EmptyString, t.
  * exists (String c pre), post. simpl. now rewrite H.
+ intros [pre [post H]]. destruct pre as [|d pre]; simpl in H.
  * left. now exists post.
  * right. injection H as _ H. now exists pre, post.
Qed.

Lemma lowerChar_upperChar (c : ascii) : lowerChar (upperChar c) = lowerChar c.
Proof.
destruct c as [[] [] [] [] [] [] [] []]; reflexivity.
Qed.

Lemma toLowerCase_toUpperCase (s : string) :
toLowerCase (toUpperCase s) = toLowerCase s.
Proof.
induction s as [|c s IH]; simpl; [reflexivity|].
now rewrite lowerChar_upperChar, IH.
Qed.

Lemma lowerChar_idem (c : ascii) : lowerChar (lowerChar c) = lowerChar c.
Proof.
destruct c as [[] [] [] [] [] [] [] []]; reflexivity.
Qed.

Lemma toLowerCase_idem (s : string) : toLowerCase (toLowerCase s) = toLowerCase s.
Proof.
induction s as [|c s IH]; simpl; [reflexivity|].
now rewrite lowerChar_idem, IH.
Qed.

End StringFacts.

(* ===================================================================== *)
(** ** The queue gate is a function of the lower-cased URL *)
(* ===================================================================== *)

Example isWaitingRoom_queue :
  isWaitingRoom "https://www.loket.com/QUEUE/abc" = true.
Proof. reflexivity. Qed.

Example isWaitingRoom_event :
  isWaitingRoom "https://www.loket.com/event/konser" = false.
Proof. reflexivity. Qed.

(** C3: [isWaitingRoom url] holds exactly when the lower-cased URL contains one
    of the four fixed markers as a substring; it is therefore the same for two
    URLs that differ only in letter case (the upper-cased and the lower-cased
    URL are classified like the URL itself). *)
Theorem isWaitingRoom_spec :
  forall url : string,
    (isWaitingRoom url = true <->
     exists pattern pre post,
       In pattern ["waiting-room"; "queue"; "antrean"; "antrian"] /\
       toLowerCase url = (pre ++ pattern ++ post)%string) /\
    isWaitingRoom (toUpperCase url) = isWaitingRoom url /\
    isWaitingRoom (toLowerCase url) = isWaitingRoom url.
Proof.
  intros url. split; [|split].
  - unfold isWaitingRoom. rewrite existsb_exists. split.
    + intros [p [Hin Hinc]]. apply includes_spec in Hinc as [pre [post H]].
      exists p, pre, post. split; [exact Hin | exact H].
    + intros [p [pre [post [Hin H]]]]. exists p. split; [exact Hin|].
      apply includes_spec. now exists pre, post.
  - unfold isWaitingRoom. now rewrite toLowerCase_toUpperCase.
  - unfold isWaitingRoom. now rewrite toLowerCase_idem.
Qed.

(* ===================================================================== *)
(** ** Executions of interaction trees *)
(* ===================================================================== *)

Section Executions.

(** Two [Vis] nodes that are equal interact alike: no axiom is needed to
carry an answer from one to the other. *)
Lemma VisF_eq_answer {R X1 X2} (e1 : pageE X1) (e2 : pageE X2)
  (k1 : X1 -> itree pageE R) (k2 : X2 -> itree pageE R) (a : X1) :
@VisF pageE R (itree pageE R) X1 e1 k1 = VisF e2 k2 ->
exists a' : X2, Ev e1 a = Ev e2 a' /\ k1 a = k2 a'.
Proof.
intros H.
set (P := fun o : itree' pageE R =>
          match o with
          | VisF e k => exists a', Ev e1 a = Ev e a' /\ k1 a = k a'
          | _ => True
          end).
change (P (VisF e2 k2)). rewrite <- H. exists a. split; reflexivity.
Qed.

Lemma runs_inv {R} (t : itree pageE R) tr r :
runs t tr r ->
match observe t with
| RetF r' => tr = [] /\ r = r'
| TauF u => runs u tr r
| VisF e k => exists a tr', tr = Ev e a :: tr' /\ runs (k a) tr' r
end.
Proof.
intros H; destruct H as [t r H | t u tr r H H' | t X e k a tr r H H'];
rewrite H; eauto.
Qed.

Lemma partial_inv {R} (t : itree pageE R) tr :
partial t tr ->
tr = [] \/
match observe t with
| RetF _ => False
| TauF u => partial u tr
| VisF e k => exists a tr', tr = Ev e a :: tr' /\ partial (k a) tr'
end.
Proof.
intros H; destruct H as [t | t u tr H H' | t X e k a tr H H'];
[now left | right; rewrite H; eauto ..].
Qed.

(** Executions only look at [observe]. *)
Lemma runs_observe {R} (t u : itree pageE R) tr r :
observe t = observe u -> runs t tr r -> runs u tr r.
Proof.
intros E H.
destruct H as [t r H | t v tr r H H' | t X e k a tr r H H'];
rewrite E in H.
- now apply runs_ret.
- now apply runs_tau with v.
- now apply runs_vis with k.
Qed.

Lemma partial_observe {R} (t u : itree pageE R) tr :
observe t = observe u -> partial t tr -> partial u tr.
Proof.
intros E H.
destruct H as [t | t v tr H H' | t X e k a tr H H'];
[constructor | rewrite E in H ..].
- now apply partial_tau with v.
- now apply partial_vis with k.
Qed.

Lemma runs_partial {R} (t : itree pageE R) tr r : runs t tr r -> partial t tr.
Proof.
induction 1 as [t r H | t u tr r H H' IH | t X e k a tr r H H' IH].
- constructor.
- now apply partial_tau with u.
- now apply partial_vis with k.
Qed.

Lemma runs_Ret {R} (v : R) tr r :
runs (Ret v : itree pageE R) tr r <-> tr = [] /\ r = v.
Proof.
split.
- intros H. apply runs_inv in H. exact H.
- intros [-> ->]. now constructor.
Qed.

Lemma runs_Tau {R} (t : itree pageE R) tr r :
runs (Tau t) tr r <-> runs t tr r.
Proof.
split.
- intros H. apply runs_inv in H. exact H.
- intros H. eapply runs_tau; [reflexivity | exact H].
Qed.

Lemma runs_Vis {R X} (e : pageE X) (k : X -> itree pageE R) tr r :
runs (Vis e k) tr r <->
exists a tr', tr = Ev e a :: tr' /\ runs (k a) tr' r.
Proof.
split.
- intros H. apply runs_inv in H. exact H.
- intros [a [tr' [-> H]]]. eapply runs_vis; [reflexivity | exact H].
Qed.

(** *** Sequencing *)

Lemma runs_bind_intro {A R} (t : itree pageE A) (k : A -> itree pageE R)
  tr1 a tr2 r :
runs t tr1 a -> runs (k a) tr2 r -> runs (ITree.bind t k) (tr1 ++ tr2) r.
Proof.
intros H K. induction H as [t a H | t u tr a H H' IH | t X e h x tr a H H' IH].
- simpl. eapply runs_observe; [|exact K].
rewrite observe_bind, H. reflexivity.
- eapply runs_tau; [|exact (IH K)].
rewrite observe_bind, H. reflexivity.
- simpl. apply runs_vis with (k := fun x => ITree.bind (h x) k);
  [|exact (IH K)].
rewrite observe_bind, H. reflexivity.
Qed.

Lemma runs_bind_elim {A R} (k : A -> itree pageE R) (u : itree pageE R) tr r :
runs u tr r ->
forall t : itree pageE A,
observe u = observe (ITree.bind t k) ->
exists tr1 a tr2,
  runs t tr1 a /\ runs (k a) tr2 r /\ tr = tr1 ++ tr2.
Proof.
induction 1 as [u r H | u v tr r H H' IH | u X e h x tr r H H' IH];
intros t E; rewrite observe_bind in E; rewrite H in E;
destruct (observe t) as [a | t' | Y e' h'] eqn:Ot; cbn in E;
try discriminate.
- exists [], a, []. repeat split; [now constructor | now constructor].
- exists [], a, tr. repeat split; [now constructor |].
eapply runs_tau; [symmetry; exact E | exact H'].
- injection E as E. destruct (IH t') as (tr1 & a & tr2 & R1 & R2 & ->).
{ now rewrite E. }
exists tr1, a, tr2. repeat split; [|exact R2].
eapply runs_tau; eauto.
- exists [], a, (Ev e x :: tr). repeat split; [now constructor |].
eapply runs_vis; [symmetry; exact E | exact H'].
- destruct (VisF_eq_answer x E) as (x' & Ex & Ek).
destruct (IH (h' x')) as (tr1 & a & tr2 & R1 & R2 & ->).
{ now rewrite Ek. }
exists (Ev e' x' :: tr1), a, tr2. rewrite Ex. repeat split; [|exact R2].
eapply runs_vis; eauto.
Qed.

Lemma runs_bind {A R} (t : itree pageE A) (k : A -> itree pageE R) tr r :
runs (ITree.bind t k) tr r <->
exists tr1 a tr2, runs t tr1 a /\ runs (k a) tr2 r /\ tr = tr1 ++ tr2.
Proof.
split.
- intros H. eapply runs_bind_elim; [exact H | reflexivity].
- intros (tr1 & a & tr2 & R1 & R2 & ->). eapply runs_bind_intro; eauto.
Qed.

Lemma runs_trigger {X} (e : pageE X) tr r :
runs (ITree.trigger e) tr r <-> tr = [Ev e r].
Proof.
unfold ITree.trigger. rewrite runs_Vis. split.
- intros (a & tr' & -> & H). apply runs_Ret in H as [-> ->]. reflexivity.
- intros ->. exists r, []. split; [reflexivity | now apply runs_Ret].
Qed.

Lemma runs_trigger_bind {X R} (e : pageE X) (k : X -> itree pageE R) tr r :
runs (ITree.bind (ITree.trigger e) k) tr r <->
exists a tr', tr = Ev e a :: tr' /\ runs (k a) tr' r.
Proof.
rewrite runs_bind. split.
- intros (tr1 & a & tr2 & R1 & R2 & ->). apply runs_trigger in R1 as ->.
now exists a, tr2.
- intros (a & tr' & -> & H). exists [Ev e a], a, tr'.
split; [now apply runs_trigger | now split].
Qed.

End Executions.

(* ===================================================================== *)
(** ** The locator resolver *)
(* ===================================================================== *)

Section Resolver.

Lemma findElement_for_resolved per state sels tr r :
runs (findElement_for per state sels) tr r <-> resolved per state sels tr r.
Proof.
revert tr r. induction sels as [|sel rest IH]; intros tr r; simpl.
- unfold ret. rewrite runs_Ret. split.
+ intros [-> ->]. exists []. split; [constructor|]. left. now repeat split.
+ intros (misses & _ & [(L & -> & ->) | (s & el & N & _)]).
  * destruct misses; [now split | discriminate].
  * destruct (length misses); discriminate.
- rewrite runs_trigger_bind. split.
+ intros (a & tr' & -> & H).
  destruct a as [[el|]|e].
  * apply runs_Ret in H as [-> ->]. exists []. split; [constructor|].
    right. exists sel, el. now repeat split.
  * apply IH in H as (misses & F & D).
    exists (Fulfilled None :: misses). split; [constructor; [exact I|exact F]|].
    destruct D as [(L & -> & ->) | (s & el & N & -> & ->)].
    -- left. simpl. now rewrite L.
    -- right. exists s, el. now repeat split.
  * apply IH in H as (misses & F & D).
    exists (Rejected e :: misses). split; [constructor; [exact I|exact F]|].
    destruct D as [(L & -> & ->) | (s & el & N & -> & ->)].
    -- left. simpl. now rewrite L.
    -- right. exists s, el. now repeat split.
+ intros (misses & F & D). destruct misses as [|a misses].
  * destruct D as [(L & _) | (s & el & N & -> & ->)]; [discriminate|].
    injection N as <-. exists (Fulfilled (Some el)), []. split; [reflexivity|].
    now apply runs_Ret.
  * inversion F as [|? ? Ma F']; subst.
    assert (K : runs (findElement_for per state rest)
                     (tl tr) r).
    { apply IH. exists misses. split; [exact F'|].
      destruct D as [(L & -> & ->) | (s & el & N & -> & ->)].
      - left. injection L as L. now repeat split.
      - right. exists s, el. now repeat split. }
    exists a, (tl tr). split.
    -- destruct D as [(_ & -> & _) | (s & el & _ & -> & _)]; reflexivity.
    -- destruct a as [[el|]|e]; [destruct Ma | exact K | exact K].
Qed.

Lemma elementExists_for_nil tr r :
runs (elementExists_for []) tr r <-> tr = [] /\ r = Fulfilled false.
Proof. simpl. unfold ret. apply runs_Ret. Qed.

End Resolver.

Lemma resolved_tries_first per state sels tr r :
  sels <> [] -> resolved per state sels tr r -> tr <> [].
Proof.
  intros Hne (misses & _ & [(L & -> & _) | (sel & el & _ & -> & _)]).
  - destruct sels as [|s0 sels]; [congruence|].
    destruct misses as [|m misses]; discriminate.
  - intros E. now apply app_eq_nil in E as [_ E].
Qed.

(** The quotient of 5000 by 3 is the number JavaScript prints as
    [1666.6666666666667], and that of 9000 by 3 is 3000.  For the default
    budget, and for one of 10000, the share of each of up to 64 candidates
    is the rational quotient up to the rounding of the format. *)
Example perCandidate_examples :
  JSNumber.div (JSNumber.ofZ 5000) (JSNumber.ofNat 3)
  = JSNumber.make 7330077518506667 (-42) /\
  JSNumber.toQ (JSNumber.div (JSNumber.ofZ 5000) (JSNumber.ofNat 3))
  = Some ((7330077518506667 # 1) * (1 # 4398046511104))%Q /\
  JSNumber.div (JSNumber.ofZ 9000) (JSNumber.ofNat 3) = JSNumber.ofZ 3000 /\
  forallb (nearQuotient 5000) (seq 1 64) = true /\
  forallb (nearQuotient 10000) (seq 1 64) = true.
Proof. repeat split; vm_compute; reflexivity. Qed.

(** C2: for a non-empty candidate list (or a single selector) and any
    options, a finished run of [findElement] calls [waitForSelector] on the
    candidates in list order, beginning with the first, every call with the
    timeout [timeout / n], where [timeout] is the one of the options, or
    5000 when they give none, [n] is the number of candidates and the
    quotient is JavaScript's, and with the state of the options, or
    [visible]; the calls stop at the first candidate that yields an
    element, which is the result; a candidate that yields nothing or throws
    is passed over; when every candidate is passed over the result is null,
    and no run is rejected. *)
Theorem findElement_first_match :
  forall (selectorArray : selectorArg) (options : findOptions),
    toArray selectorArray <> [] ->
    let sels := toArray selectorArray in
    let budget := match options.(timeout) with
                  | Some timeout => timeout
                  | None => JSNumber.ofZ 5000
                  end in
    let state := match options.(state) with
                 | Some state => state
                 | None => "visible"
                 end in
    let share := JSNumber.div budget (JSNumber.ofNat (length sels)) in
    (forall tr r,
        runs (findElement selectorArray options) tr r <->
        resolved share state sels tr r) /\
    (forall tr r,
        runs (findElement selectorArray options) tr r ->
        tr <> [] /\
        (r = Fulfilled None \/ exists element, r = Fulfilled (Some element))).
Proof.
  intros sa opts Hne sels budget state share.
  assert (E : forall tr r,
             runs (findElement sa opts) tr r <-> resolved share state sels tr r).
  { intros tr r. unfold findElement. subst share budget state sels.
    destruct opts as [[t|] [st|]]; apply findElement_for_resolved. }
  split; [exact E|].
  intros tr r H. apply E in H. split.
  - now apply resolved_tries_first with share state sels r.
  - destruct H as (misses & _ & [(_ & _ & ->) | (s & el & _ & _ & ->)]).
    + now left.
    + right. now exists el.
Qed.

Lemma findElement_first_match_witness :
  toArray (Many [".btn-select"; "button:has-text('Pilih')"; "button"]) <> [] /\
  runs (findElement (Many [".btn-select"; "button:has-text('Pilih')"; "button"])
                    {| timeout := Some (JSNumber.ofZ 9000);
                       state := Some "attached" |})
       [ Ev (WaitForSelector ".btn-select" (JSNumber.ofZ 3000) "attached")
            (Rejected (Error "Timeout 3000ms exceeded."));
         Ev (WaitForSelector "button:has-text('Pilih')" (JSNumber.ofZ 3000) "attached")
            (Fulfilled (Some (Element 7))) ]
       (Fulfilled (Some (Element 7))) /\
  runs (findElement (Many [".btn-select"; "button:has-text('Pilih')"; "button"])
                    noOptions)
       [ Ev (WaitForSelector ".btn-select"
                             (JSNumber.make 7330077518506667 (-42)) "visible")
            (Fulfilled None);
         Ev (WaitForSelector "button:has-text('Pilih')"
                             (JSNumber.make 7330077518506667 (-42)) "visible")
            (Rejected (Error "Timeout 1666.6666666666667ms exceeded."));
         Ev (WaitForSelector "button"
                             (JSNumber.make 7330077518506667 (-42)) "visible")
            (Fulfilled None) ]
       (Fulfilled None).
Proof.
  assert (Hne : toArray (Many [".btn-select"; "button:has-text('Pilih')"; "button"])
                <> [])
    by discriminate.
  assert (S1 : JSNumber.ofZ 3000
               = JSNumber.div (JSNumber.ofZ 9000) (JSNumber.ofNat 3))
    by (vm_compute; reflexivity).
  assert (S2 : JSNumber.make 7330077518506667 (-42)
               = JSNumber.div (JSNumber.ofZ 5000) (JSNumber.ofNat 3))
    by (vm_compute; reflexivity).
  split; [exact Hne|]. split.
  - rewrite S1.
    apply (proj1 (@findElement_first_match
                    (Many [".btn-select"; "button:has-text('Pilih')"; "button"])
                    {| timeout := Some (JSNumber.ofZ 9000);
                       state := Some "attached" |} Hne)).
    exists [Rejected (Error "Timeout 3000ms exceeded.")].
    split; [repeat constructor|].
    right. exists "button:has-text('Pilih')", (Element 7). now repeat split.
  - rewrite S2.
    apply (proj1 (@findElement_first_match
                    (Many [".btn-select"; "button:has-text('Pilih')"; "button"])
                    noOptions Hne)).
    exists [Fulfilled None;
            Rejected (Error "Timeout 1666.6666666666667ms exceeded.");
            Fulfilled None].
    split; [repeat constructor|].
    left. now repeat split.
Defined.

(** C9: with an empty candidate list [findElement] makes no call to the
    browser at all and returns null, and [elementExists] likewise makes no
    call and returns false; neither is rejected. *)
Theorem resolvers_on_empty_list :
  forall (options : findOptions) (tr : trace),
    (forall r, runs (findElement (Many []) options) tr r <->
               tr = [] /\ r = Fulfilled None) /\
    (forall r, runs (elementExists (Many [])) tr r <->
               tr = [] /\ r = Fulfilled false).
Proof.
  intros opts tr. split; intros r.
  - unfold findElement. simpl. unfold ret. apply runs_Ret.
  - unfold elementExists. simpl. apply elementExists_for_nil.
Qed.

(* ===================================================================== *)
(** ** Unfinished executions and loops *)
(* ===================================================================== *)

Section Loops.

Lemma partial_Ret {R} (v : R) tr :
partial (Ret v : itree pageE R) tr <-> tr = [].
Proof.
split.
- intros H. apply partial_inv in H as [H|[]]. exact H.
- intros ->. constructor.
Qed.

Lemma partial_Tau {R} (t : itree pageE R) tr :
partial (Tau t) tr <-> partial t tr.
Proof.
split.
- intros H. apply partial_inv in H as [->|H]; [constructor | exact H].
- intros H. eapply partial_tau; [reflexivity | exact H].
Qed.

Lemma partial_Vis {R X} (e : pageE X) (k : X -> itree pageE R) tr :
partial (Vis e k) tr <->
tr = [] \/ exists a tr', tr = Ev e a :: tr' /\ partial (k a) tr'.
Proof.
split.
- intros H. apply partial_inv in H as [->|H]; [now left | now right].
- intros [-> | (a & tr' & -> & H)]; [constructor|].
eapply partial_vis; [reflexivity | exact H].
Qed.

Lemma partial_bind_elim {A R} (k : A -> itree pageE R) (u : itree pageE R) tr :
partial u tr ->
forall t : itree pageE A,
observe u = observe (ITree.bind t k) ->
partial t tr \/
exists tr1 a tr2, runs t tr1 a /\ partial (k a) tr2 /\ tr = tr1 ++ tr2.
Proof.
induction 1 as [u | u v tr H H' IH | u X e h x tr H H' IH]; intros t E.
- left. constructor.
- rewrite observe_bind in E; rewrite H in E.
destruct (observe t) as [a | t' | Y e' h'] eqn:Ot; cbn in E;
  try discriminate.
+ right. exists [], a, tr. repeat split; [now constructor|].
  eapply partial_tau; [symmetry; exact E | exact H'].
+ injection E as E. destruct (IH t') as [P | (tr1 & a & tr2 & R1 & R2 & ->)].
  { now rewrite E. }
  * left. now apply partial_tau with t'.
  * right. exists tr1, a, tr2. repeat split; [|exact R2].
    now apply runs_tau with t'.
- rewrite observe_bind in E; rewrite H in E.
destruct (observe t) as [a | t' | Y e' h'] eqn:Ot; cbn in E;
  try discriminate.
+ right. exists [], a, (Ev e x :: tr). repeat split; [now constructor|].
  eapply partial_vis; [symmetry; exact E | exact H'].
+ destruct (VisF_eq_answer x E) as (x' & Ex & Ek).
  destruct (IH (h' x')) as [P | (tr1 & a & tr2 & R1 & R2 & ->)].
  { now rewrite Ek. }
  * left. rewrite Ex. now apply partial_vis with h'.
  * right. exists (Ev e' x' :: tr1), a, tr2. rewrite Ex.
    repeat split; [|exact R2]. now apply runs_vis with h'.
Qed.

Lemma partial_bind_left {A R} (t : itree pageE A) (k : A -> itree pageE R) tr :
partial t tr -> partial (ITree.bind t k) tr.
Proof.
induction 1 as [t | t u tr H H' IH | t X e h x tr H H' IH].
- constructor.
- eapply partial_tau; [|exact IH]. rewrite observe_bind, H. reflexivity.
- apply partial_vis with (k := fun x => ITree.bind (h x) k); [|exact IH].
rewrite observe_bind, H. reflexivity.
Qed.

Lemma partial_bind_right {A R} (t : itree pageE A) (k : A -> itree pageE R)
  tr1 a tr2 :
runs t tr1 a -> partial (k a) tr2 -> partial (ITree.bind t k) (tr1 ++ tr2).
Proof.
intros H K. induction H as [t a H | t u tr a H H' IH | t X e h x tr a H H' IH].
- simpl. eapply partial_observe; [|exact K].
rewrite observe_bind, H. reflexivity.
- eapply partial_tau; [|exact (IH K)].
rewrite observe_bind, H. reflexivity.
- simpl. apply partial_vis with (k := fun x => ITree.bind (h x) k);
  [|exact (IH K)].
rewrite observe_bind, H. reflexivity.
Qed.

Lemma partial_bind {A R} (t : itree pageE A) (k : A -> itree pageE R) tr :
partial (ITree.bind t k) tr <->
partial t tr \/
exists tr1 a tr2, runs t tr1 a /\ partial (k a) tr2 /\ tr = tr1 ++ tr2.
Proof.
split.
- intros H. eapply partial_bind_elim; [exact H | reflexivity].
- intros [H | (tr1 & a & tr2 & R1 & R2 & ->)].
+ now apply partial_bind_left.
+ eapply partial_bind_right; eauto.
Qed.

Lemma partial_trigger_bind {X R} (e : pageE X) (k : X -> itree pageE R) tr :
partial (ITree.bind (ITree.trigger e) k) tr <->
tr = [] \/ exists a tr', tr = Ev e a :: tr' /\ partial (k a) tr'.
Proof.
rewrite partial_bind. unfold ITree.trigger at 1. rewrite partial_Vis. split.
- intros [[-> | (a & tr' & -> & H)] | (tr1 & a & tr2 & R1 & R2 & ->)].
+ now left.
+ apply partial_Ret in H as ->. right. exists a, []. split; [reflexivity|constructor].
+ apply runs_trigger in R1 as ->. right. now exists a, tr2.
- intros [-> | (a & tr' & -> & H)].
+ left. now left.
+ right. exists [Ev e a], a, tr'. split; [now apply runs_trigger | now split].
Qed.

(** *** [ITree.iter] *)

Section Iter.
Context {I R : Type} (body : I -> itree pageE (I + R)).

Let next (lr : I + R) : itree pageE R :=
match lr with
| inl l => Tau (ITree.iter body l)
| inr r => Ret r
end.

Lemma observe_iter (i : I) :
observe (ITree.iter body i) = observe (ITree.bind (body i) next).
Proof. reflexivity. Qed.

Lemma loops_of_turn (t : itree pageE (I + R)) tr r i :
observe t = observe (body i) ->
(exists tr1 lr tr2,
runs t tr1 lr /\ tr = tr1 ++ tr2 /\
match lr with
| inr r' => tr2 = [] /\ r = r'
| inl i' => loops body i' tr2 r
end) ->
loops body i tr r.
Proof.
intros E (tr1 & lr & tr2 & R1 & -> & K).
eapply runs_observe in R1; [|exact E]. destruct lr as [i'|r'].
- now apply loops_again with i'.
- destruct K as [-> ->]. rewrite app_nil_r. now apply loops_exit.
Qed.

Lemma runs_iter_elim (u : itree pageE R) tr r :
runs u tr r ->
forall t : itree pageE (I + R),
observe u = observe (ITree.bind t next) ->
exists tr1 lr tr2,
runs t tr1 lr /\ tr = tr1 ++ tr2 /\
match lr with
| inr r' => tr2 = [] /\ r = r'
| inl i' => loops body i' tr2 r
end.
Proof.
induction 1 as [u r H | u v tr r H H' IH | u X e h x tr r H H' IH];
intros t E; rewrite observe_bind in E; rewrite H in E;
destruct (observe t) as [[l|r'] | t' | Y e' h'] eqn:Ot; cbn in E;
try discriminate.
- injection E as ->. exists [], (inr r'), []. repeat split. now constructor.
- injection E as ->. exists [], (inl l), tr. repeat split; [now constructor|].
apply loops_of_turn with (t := body l); [reflexivity|].
apply IH. apply observe_iter.
- injection E as ->.
destruct (IH t' eq_refl) as (tr1 & lr & tr2 & R1 & -> & K).
exists tr1, lr, tr2. repeat split; [|exact K]. now apply runs_tau with t'.
- destruct (VisF_eq_answer x E) as (x' & Ex & Ek).
destruct (IH (h' x')) as (tr1 & lr & tr2 & R1 & -> & K).
{ now rewrite Ek. }
exists (Ev e' x' :: tr1), lr, tr2. rewrite Ex.
repeat split; [|exact K]. now apply runs_vis with h'.
Qed.

Lemma runs_iter (i : I) tr r :
runs (ITree.iter body i) tr r <-> loops body i tr r.
Proof.
split.
- intros H. apply loops_of_turn with (t := body i); [reflexivity|].
eapply runs_iter_elim; [exact H | apply observe_iter].
- induction 1 as [i tr r H | i tr1 i' tr2 r H H' IH].
+ apply runs_observe with (t := ITree.bind (body i) next);
[symmetry; apply observe_iter|].
rewrite <- (app_nil_r tr). eapply runs_bind_intro; [exact H|].
now constructor.
+ apply runs_observe with (t := ITree.bind (body i) next);
[symmetry; apply observe_iter|].
eapply runs_bind_intro; [exact H|]. simpl. now apply runs_Tau.
Qed.

Lemma loops_partial_of_turn (t : itree pageE (I + R)) tr i :
observe t = observe (body i) ->
(partial t tr \/
exists tr1 lr tr2,
runs t tr1 lr /\ tr = tr1 ++ tr2 /\
match lr with
| inr _ => tr2 = []
| inl i' => loops_partial body i' tr2
end) ->
loops_partial body i tr.
Proof.
intros E [P | (tr1 & lr & tr2 & R1 & -> & K)].
- apply loops_partial_turn. eapply partial_observe; [exact E | exact P].
- eapply runs_observe in R1; [|exact E]. destruct lr as [i'|r'].
+ now apply loops_partial_again with i'.
+ subst tr2. rewrite app_nil_r. apply loops_partial_turn.
now apply runs_partial with (inr r').
Qed.

Lemma partial_iter_elim (u : itree pageE R) tr :
partial u tr ->
forall t : itree pageE (I + R),
observe u = observe (ITree.bind t next) ->
partial t tr \/
exists tr1 lr tr2,
runs t tr1 lr /\ tr = tr1 ++ tr2 /\
match lr with
| inr _ => tr2 = []
| inl i' => loops_partial body i' tr2
end.
Proof.
induction 1 as [u | u v tr H H' IH | u X e h x tr H H' IH]; intros t E.
- left. constructor.
- rewrite observe_bind in E; rewrite H in E.
destruct (observe t) as [[l|r'] | t' | Y e' h'] eqn:Ot; cbn in E;
try discriminate.
+ injection E as ->. right. exists [], (inl l), tr.
repeat split; [now constructor|].
apply loops_partial_of_turn with (t := body l); [reflexivity|].
apply IH. apply observe_iter.
+ injection E as ->.
destruct (IH t' eq_refl) as [P | (tr1 & lr & tr2 & R1 & -> & K)].
* left. now apply partial_tau with t'.
* right. exists tr1, lr, tr2. repeat split; [|exact K].
now apply runs_tau with t'.
- rewrite observe_bind in E; rewrite H in E.
destruct (observe t) as [[l|r'] | t' | Y e' h'] eqn:Ot; cbn in E;
try discriminate.
destruct (VisF_eq_answer x E) as (x' & Ex & Ek).
destruct (IH (h' x')) as [P | (tr1 & lr & tr2 & R1 & -> & K)].
{ now rewrite Ek. }
+ left. rewrite Ex. now apply partial_vis with h'.
+ right. exists (Ev e' x' :: tr1), lr, tr2. rewrite Ex.
repeat split; [|exact K]. now apply runs_vis with h'.
Qed.

Lemma partial_iter (i : I) tr :
partial (ITree.iter body i) tr <-> loops_partial body i tr.
Proof.
split.
- intros H. apply loops_partial_of_turn with (t := body i); [reflexivity|].
eapply partial_iter_elim; [exact H | apply observe_iter].
- induction 1 as [i tr H | i tr1 i' tr2 H H' IH].
+ apply partial_observe with (t := ITree.bind (body i) next);
[symmetry; apply observe_iter|].
now apply partial_bind_left.
+ apply partial_observe with (t := ITree.bind (body i) next);
[symmetry; apply observe_iter|].
eapply partial_bind_right; [exact H|]. simpl. now apply partial_Tau.
Qed.

End Iter.

(** *** The interactions a program may make *)

Lemma uses_Ret {R} (P : entry -> Prop) (v : R) : uses P (Ret v).
Proof. intros tr H. apply partial_Ret in H as ->. constructor. Qed.

Lemma uses_trigger {X} (P : entry -> Prop) (e : pageE X) :
(forall a, P (Ev e a)) -> uses P (ITree.trigger e).
Proof.
intros H tr K. unfold ITree.trigger in K.
apply partial_Vis in K as [-> | (a & tr' & -> & K)]; [constructor|].
apply partial_Ret in K as ->. constructor; [apply H | constructor].
Qed.

Lemma uses_bind {A R} (P : entry -> Prop) (t : itree pageE A)
  (k : A -> itree pageE R) :
uses P t -> (forall a, uses P (k a)) -> uses P (ITree.bind t k).
Proof.
intros Ht Hk tr H.
apply partial_bind in H as [H | (tr1 & a & tr2 & R1 & R2 & ->)].
- now apply Ht.
- apply Forall_app. split.
+ apply Ht. now apply runs_partial with a.
+ now apply (Hk a).
Qed.

Lemma uses_runs {R} (P : entry -> Prop) (t : itree pageE R) tr r :
uses P t -> runs t tr r -> Forall P tr.
Proof. intros U H. apply U. now apply runs_partial with r. Qed.

End Loops.

(* ===================================================================== *)
(** ** Proof steps for concrete programs *)
(* ===================================================================== *)

Lemma runs_andThen_await {A B} (e : pageE (outcome A)) (k : A -> async B) tr r :
  runs (andThen (await e) k) tr r <->
  exists a tr',
    tr = Ev e a :: tr' /\
    runs (match a with
          | Fulfilled v => k v
          | Rejected err => Ret (Rejected err)
          end) tr' r.
Proof. unfold andThen, await. apply runs_trigger_bind. Qed.

Lemma runs_andThen_perform {A B} (e : pageE A) (k : A -> async B) tr r :
  runs (andThen (perform e) k) tr r <->
  exists a tr', tr = Ev e a :: tr' /\ runs (k a) tr' r.
Proof.
  unfold andThen, perform. rewrite runs_bind. split.
  - intros (tr1 & a & tr2 & R1 & R2 & ->).
    apply runs_trigger_bind in R1 as (x & tr' & -> & R1).
    apply runs_Ret in R1 as [-> ->]. now exists x, tr2.
  - intros (a & tr' & -> & H). exists [Ev e a], (Fulfilled a), tr'.
    split; [|now split]. apply runs_trigger_bind. exists a, [].
    split; [reflexivity | now apply runs_Ret].
Qed.

Lemma runs_andThen {A B} (m : async A) (k : A -> async B) tr r :
  runs (andThen m k) tr r <->
  exists tr1 a tr2,
    runs m tr1 a /\ tr = tr1 ++ tr2 /\
    match a with
    | Fulfilled v => runs (k v) tr2 r
    | Rejected e => tr2 = [] /\ r = Rejected e
    end.
Proof.
  unfold andThen. rewrite runs_bind. split.
  - intros (tr1 & a & tr2 & R1 & R2 & ->). exists tr1, a, tr2.
    split; [exact R1|]. split; [reflexivity|].
    destruct a; [exact R2 | now apply runs_Ret in R2].
  - intros (tr1 & a & tr2 & R1 & -> & R2). exists tr1, a, tr2.
    split; [exact R1|]. split; [|reflexivity].
    destruct a; [exact R2 | now apply runs_Ret].
Qed.

Lemma runs_tryCatch {A} (m : async A) (h : JSError -> async A) tr r :
  runs (tryCatch m h) tr r <->
  exists tr1 a tr2,
    runs m tr1 a /\ tr = tr1 ++ tr2 /\
    match a with
    | Fulfilled v => tr2 = [] /\ r = Fulfilled v
    | Rejected e => runs (h e) tr2 r
    end.
Proof.
  unfold tryCatch. rewrite runs_bind. split.
  - intros (tr1 & a & tr2 & R1 & R2 & ->). exists tr1, a, tr2.
    split; [exact R1|]. split; [reflexivity|].
    destruct a; [now apply runs_Ret in R2 | exact R2].
  - intros (tr1 & a & tr2 & R1 & -> & R2). exists tr1, a, tr2.
    split; [exact R1|]. split; [|reflexivity].
    destruct a; [now apply runs_Ret | exact R2].
Qed.

Lemma runs_andThen_orElse {A B} (e : pageE (outcome A)) (d : A)
      (k : A -> async B) tr r :
  runs (andThen (orElse (await e) d) k) tr r <->
  exists a tr',
    tr = Ev e a :: tr' /\
    runs (k (match a with Fulfilled v => v | Rejected _ => d end)) tr' r.
Proof.
  rewrite runs_andThen. split.
  - intros (tr1 & a & tr2 & R1 & -> & H).
    unfold orElse in R1. apply runs_tryCatch in R1 as (tr3 & b & tr4 & R3 & -> & R4).
    apply runs_trigger in R3 as ->.
    destruct b as [v|err].
    + destruct R4 as [-> ->]. now exists (Fulfilled v), tr2.
    + apply runs_Ret in R4 as [-> ->]. now exists (Rejected err), tr2.
  - intros (a & tr' & -> & H).
    exists [Ev e a], (Fulfilled (match a with Fulfilled v => v | Rejected _ => d end)), tr'.
    split; [|now split].
    unfold orElse. apply runs_tryCatch. exists [Ev e a], a, [].
    split; [now apply runs_trigger|]. split; [reflexivity|].
    destruct a; [now split | now apply runs_Ret].
Qed.

Lemma runs_perform {A} (e : pageE A) tr r :
  runs (perform e) tr r <-> exists a, tr = [Ev e a] /\ r = Fulfilled a.
Proof.
  unfold perform. rewrite runs_trigger_bind. split.
  - intros (a & tr' & -> & H). apply runs_Ret in H as [-> ->]. now exists a.
  - intros (a & -> & ->). exists a, []. split; [reflexivity | now apply runs_Ret].
Qed.

(** Unfolds one step of a hypothesis [runs prog tr r] on a program built
    from the combinators above. *)
Ltac runs_step H :=
  let a := fresh "a" in
  let tr' := fresh "tr" in
  cbv beta iota in H;
  lazymatch type of H with
  | runs (andThen (orElse (await _) _) _) _ _ =>
      apply runs_andThen_orElse in H as (a & tr' & -> & H)
  | runs (andThen (await _) _) _ _ =>
      apply runs_andThen_await in H as (a & tr' & -> & H)
  | runs (andThen (perform _) _) _ _ =>
      apply runs_andThen_perform in H as (a & tr' & -> & H)
  | runs (ITree.bind (ITree.trigger _) _) _ _ =>
      apply runs_trigger_bind in H as (a & tr' & -> & H)
  | runs (ITree.trigger _) _ _ => apply runs_trigger in H as ->
  | runs (perform _) _ _ => apply runs_perform in H as (a & -> & H)
  | runs (Ret _) _ _ => apply runs_Ret in H as [-> H]
  | runs (ret _) _ _ => apply runs_Ret in H as [-> H]
  | runs (throw _) _ _ => apply runs_Ret in H as [-> H]
  | runs (Tau _) _ _ => apply runs_Tau in H
  end.

(** Computes the head of a closed program. *)
Ltac observe_head :=
  match goal with
  | |- observe ?t = _ =>
      let o := eval lazy head in (observe t) in
      change (observe t) with o
  end;
  reflexivity.

(** Builds a finished or unfinished execution of a closed program along a
    given trace. *)
Ltac run_along :=
  repeat first
    [ apply runs_ret; observe_head
    | apply partial_nil
    | eapply runs_vis; [observe_head | cbn beta]
    | eapply partial_vis; [observe_head | cbn beta]
    | eapply runs_tau; [observe_head | cbn beta]
    | eapply partial_tau; [observe_head | cbn beta] ].

Ltac uses_step :=
  lazymatch goal with
  | |- uses _ (Ret _) => apply uses_Ret
  | |- uses _ (ret _) => apply uses_Ret
  | |- uses _ (ITree.trigger _) => apply uses_trigger; intros; reflexivity
  | |- uses _ (await _) => apply uses_trigger; intros; reflexivity
  | |- uses _ (ITree.bind _ _) => apply uses_bind; [|intros ?]
  | |- uses _ (andThen _ _) => unfold andThen
  | |- uses _ (perform _) => unfold perform
  | |- uses _ (match ?x with _ => _ end) => destruct x
  end.

(* ===================================================================== *)
(** ** The availability poller *)
(* ===================================================================== *)

Section Poller.

Variable pollInterval : Q.

Lemma scanBuyButton_uses iterations sels :
uses notUrl (scanBuyButton iterations sels).
Proof.
induction sels as [|sel rest IH]; simpl.
- uses_step.
- apply uses_bind; [|intros [[b|]|e]; [uses_step | exact IH | exact IH]].
repeat uses_step.
Qed.

(** A scan that returns a button has just seen it enabled and visible. *)
Lemma scanBuyButton_found iterations sels tr r :
runs (scanBuyButton iterations sels) tr r ->
r = Fulfilled None \/
exists button sel mid,
r = Fulfilled (Some button) /\ In sel sels /\
tr = mid ++
     [Ev (Query None sel) (Fulfilled (Some button));
      Ev (IsDisabled button) (Fulfilled false);
      Ev (IsVisible button None) (Fulfilled true);
      Ev (Log logger.success
              [Str "Buy button found after "; Num iterations;
               Str " iterations!"]) tt].
Proof.
revert tr. induction sels as [|sel rest IH]; intros tr H; simpl in H.
- runs_step H. now left.
- apply runs_bind in H as (tr1 & a & tr2 & R1 & R2 & ->).
destruct a as [[b|]|e].
+ runs_step R2. subst r. right. exists b, sel, []. split; [reflexivity|].
  split; [now left|]. rewrite app_nil_r. simpl.
  runs_step R1. destruct a as [[b'|]|e]; [|runs_step R1; discriminate ..].
  runs_step R1. destruct a as [dis|e]; [|runs_step R1; discriminate].
  runs_step R1. destruct a as [vis|e]; [|runs_step R1; discriminate].
  destruct vis, dis; simpl in R1; try (runs_step R1; discriminate).
  runs_step R1. destruct a. runs_step R1. injection R1 as <-. reflexivity.
+ destruct (IH _ R2) as [-> | (b & s & mid & -> & Hin & ->)]; [now left|].
  right. exists b, s, (tr1 ++ mid). split; [reflexivity|].
  split; [now right | now rewrite app_assoc].
+ destruct (IH _ R2) as [-> | (b & s & mid & -> & Hin & ->)]; [now left|].
  right. exists b, s, (tr1 ++ mid). split; [reflexivity|].
  split; [now right | now rewrite app_assoc].
Qed.


Local Abbreviation body := (waitForBuyButton_body pollInterval).

Lemma queueLogs_notUrl logs : queueLogs logs -> Forall notUrl logs.
Proof.
intros [-> | [msg ->]]; [constructor | repeat constructor].
Qed.

(** The throttled message of a gated tick. *)
Lemma runs_queue_log (c : bool) (m : list piece) tr (r : unit) :
runs (if c then ITree.trigger (Log logger.queue m) else Ret tt) tr r ->
queueLogs tr.
Proof.
destruct c; intros H; runs_step H.
- right. exists m. now destruct r.
- now left.
Qed.

Lemma runs_info_log (c : bool) (m : list piece) tr (r : unit) :
runs (if c then ITree.trigger (Log logger.info m) else Ret tt) tr r ->
Forall notUrl tr.
Proof.
destruct c; intros H; runs_step H; repeat constructor.
Qed.

(** A finished turn of the loop: the URL is read first; on a gated URL the
rest of the turn is the throttled message and one sleep. *)
Lemma body_runs i tr res :
runs (body (false, i)) tr res ->
exists u rest,
tr = Ev Url u :: rest /\ Forall notUrl rest /\
(forall st, res = inl st -> st = (false, i + 1)) /\
(isWaitingRoom u = true ->
 exists logs x,
   queueLogs logs /\ rest = logs ++ [Ev (WaitForTimeout pollInterval) x] /\
   match x with
   | Fulfilled _ => res = inl (false, i + 1)
   | Rejected e => res = inr (Rejected e)
   end).
Proof.
intros H. unfold waitForBuyButton_body in H.
apply runs_trigger_bind in H as (u & rest & -> & H).
exists u, rest. split; [reflexivity|].
destruct (isWaitingRoom u) eqn:G.
- apply runs_bind in H as (logs & [] & tr2 & L & H & ->).
apply runs_queue_log in L.
apply runs_trigger_bind in H as (x & tr3 & -> & H).
destruct x as [[]|e]; runs_step H; subst res.
+ split; [|split].
  * apply Forall_app. split; [now apply queueLogs_notUrl | repeat constructor].
  * intros st E. now injection E as <-.
  * intros _. now exists logs, (Fulfilled tt).
+ split; [|split].
  * apply Forall_app. split; [now apply queueLogs_notUrl | repeat constructor].
  * discriminate.
  * intros _. now exists logs, (Rejected e).
- apply runs_bind in H as (tr1 & b & tr2 & S & H & ->).
assert (U1 : Forall notUrl tr1)
  by (eapply uses_runs; [apply scanBuyButton_uses | exact S]).
destruct b as [[button|]|e].
+ runs_step H. subst res. rewrite app_nil_r.
  split; [exact U1 | split; discriminate].
+ apply runs_bind in H as (logs & [] & tr3 & L & H & ->).
  apply runs_info_log in L.
  apply runs_trigger_bind in H as (x & tr4 & -> & H).
  split; [|split; [|discriminate]].
  * destruct x as [[]|e]; runs_step H;
      repeat (apply Forall_app; split); auto; repeat constructor.
  * intros st E. destruct x as [[]|e]; runs_step H; subst res;
      [now injection E as <- | discriminate].
+ runs_step H. subst res. rewrite app_nil_r.
  split; [exact U1 | split; discriminate].
Qed.

Lemma partial_queue_log (c : bool) (m : list piece) tr :
partial (if c then ITree.trigger (Log logger.queue m) else Ret tt) tr ->
queueLogs tr.
Proof.
destruct c; intros H.
- unfold ITree.trigger in H.
apply partial_Vis in H as [-> | ([] & tr' & -> & H)]; [now left|].
apply partial_Ret in H as ->. right. now exists m.
- apply partial_Ret in H as ->. now left.
Qed.

(** The beginning of a turn. *)
Lemma body_partial i tr :
partial (body (false, i)) tr ->
tr = [] \/
exists u rest,
tr = Ev Url u :: rest /\ Forall notUrl rest /\
(isWaitingRoom u = true ->
 exists logs,
   queueLogs logs /\
   (rest = logs \/
    exists x, rest = logs ++ [Ev (WaitForTimeout pollInterval) x])).
Proof.
intros H. unfold waitForBuyButton_body in H.
apply partial_trigger_bind in H as [-> | (u & rest & -> & H)]; [now left|].
right. exists u, rest. split; [reflexivity|].
destruct (isWaitingRoom u) eqn:G.
- apply partial_bind in H as [L | (logs & [] & tr2 & L & H & ->)].
+ apply partial_queue_log in L.
  split; [now apply queueLogs_notUrl|]. intros _. exists rest. auto.
+ apply runs_queue_log in L.
  apply partial_trigger_bind in H as [-> | (x & tr3 & -> & H)].
  * rewrite app_nil_r. split; [now apply queueLogs_notUrl|].
    intros _. exists logs. auto.
  * assert (tr3 = []) as ->.
    { destruct x as [[]|e]; now apply partial_Ret in H. }
    split.
    -- apply Forall_app. split; [now apply queueLogs_notUrl | repeat constructor].
    -- intros _. exists logs. split; [exact L|]. right. now exists x.
- split; [|discriminate].
revert H. apply uses_bind; [apply scanBuyButton_uses|].
intros [[b|]|e]; [uses_step | | uses_step].
apply uses_bind; [destruct (_ =? _); uses_step|]. intros [].
apply uses_bind; [uses_step|]. intros [[]|e]; uses_step.
Qed.

Lemma loops_partial_head i tr :
loops_partial body (false, i) tr ->
tr = [] \/ exists u rest, tr = Ev Url u :: rest.
Proof.
intros H. inversion H as [? ? P | ? tr1 i' tr2 R1 R2]; subst.
- apply body_partial in P as [-> | (u & rest & -> & _)]; eauto.
- apply body_runs in R1 as (u & rest & -> & _). right. simpl. eauto.
Qed.

(** Where a URL reading can sit in a trace that begins with readings-free
interactions. *)
Lemma split_after_notUrl (l1 l2 pre post : trace) (u : string) :
Forall notUrl l1 ->
l1 ++ l2 = pre ++ Ev Url u :: post ->
exists pre', pre = l1 ++ pre' /\ l2 = pre' ++ Ev Url u :: post.
Proof.
intros F. revert pre. induction F as [|en l1 N F IH]; intros pre E; simpl in E.
- now exists pre.
- destruct pre as [|en' pre]; simpl in E.
+ injection E as -> _. discriminate N.
+ injection E as -> E. destruct (IH _ E) as (pre' & -> & ->).
  now exists pre'.
Qed.

Lemma cons_Url_inj (u u' : string) (l l' : trace) :
Ev Url u :: l = Ev Url u' :: l' -> u = u' /\ l = l'.
Proof.
intros E. split.
- apply (f_equal (fun l => match l with en :: _ => urlOf en | [] => None end)) in E.
now injection E.
- now apply (f_equal (@tl entry)) in E.
Qed.

Lemma loop_gated st tr :
loops_partial body st tr ->
forall i pre u post,
st = (false, i) ->
tr = pre ++ Ev Url u :: post ->
isWaitingRoom u = true ->
exists logs,
  queueLogs logs /\
  (post = logs \/
   exists x rest,
     post = logs ++ Ev (WaitForTimeout pollInterval) x :: rest /\
     (rest = [] \/ exists u' rest', rest = Ev Url u' :: rest')).
Proof.
induction 1 as [st tr P | st tr1 st' tr2 R1 R2 IH];
intros i pre u post -> E G.
- apply body_partial in P as [-> | (u0 & rest & -> & N & K)].
{ destruct pre; discriminate. }
destruct pre as [|en pre]; simpl in E.
+ apply cons_Url_inj in E as [-> ->].
  destruct (K G) as (logs & L & [-> | (x & ->)]).
  * exists logs. auto.
  * exists logs. split; [exact L|]. right. exists x, []. auto.
+ injection E as _ ->. apply Forall_app in N as [_ N].
  inversion N as [|? ? N1 _]; subst. discriminate N1.
- apply body_runs in R1 as (u0 & rest & -> & N & St & K).
destruct pre as [|en pre]; simpl in E.
+ apply cons_Url_inj in E as [-> <-].
  destruct (K G) as (logs & x & L & -> & Hx).
  exists logs. split; [exact L|]. right. exists x, tr2.
  split; [now rewrite <- app_assoc|].
  destruct x as [[]|e]; [|discriminate Hx]. injection Hx as ->.
  now apply loops_partial_head with (i + 1).
+ injection E as _ E.
  destruct (@split_after_notUrl rest tr2 pre post u N E) as (pre' & -> & ->).
  rewrite (St st' eq_refl) in IH.
  now apply (IH (i + 1) pre' u post).
Qed.


(** A turn that leaves the function. *)
Lemma body_exit i tr r :
runs (body (false, i)) tr (inr r) ->
(exists button sel u mid,
  r = Fulfilled (Some button) /\
  In sel selectors.event.buyButton /\
  isWaitingRoom u = false /\
  Forall notUrl mid /\
  tr = Ev Url u :: mid ++
       [Ev (Query None sel) (Fulfilled (Some button));
        Ev (IsDisabled button) (Fulfilled false);
        Ev (IsVisible button None) (Fulfilled true);
        Ev (Log logger.success
                [Str "Buy button found after "; Num (i + 1);
                 Str " iterations!"]) tt])
\/
(exists e pre,
  r = Rejected e /\
  tr = pre ++ [Ev (WaitForTimeout pollInterval) (Rejected e)]).
Proof.
intros H. unfold waitForBuyButton_body in H.
apply runs_trigger_bind in H as (u & rest & -> & H).
destruct (isWaitingRoom u) eqn:G.
- apply runs_bind in H as (logs & [] & tr2 & L & H & ->).
apply runs_trigger_bind in H as (x & tr3 & -> & H).
destruct x as [[]|e]; runs_step H; [discriminate|].
injection H as ->. right. exists e, (Ev Url u :: logs). split; reflexivity.
- apply runs_bind in H as (tr1 & b & tr2 & S & H & ->).
pose proof (uses_runs (scanBuyButton_uses _ _) S) as U.
apply scanBuyButton_found in S as [-> | (button & sel & mid & -> & Hin & ->)].
+ apply runs_bind in H as (logs & [] & tr3 & L & H & ->).
  apply runs_trigger_bind in H as (x & tr4 & -> & H).
  destruct x as [[]|e]; runs_step H; [discriminate|].
  injection H as ->. right. exists e, (Ev Url u :: tr1 ++ logs).
  split; [reflexivity|]. simpl. now rewrite <- app_assoc.
+ runs_step H. injection H as ->. left.
  exists button, sel, u, mid. rewrite app_nil_r.
  apply Forall_app in U as [U _]. now repeat split.
Qed.

Lemma loop_returns st tr r :
loops body st tr r ->
forall i, st = (false, i) ->
(exists button sel u pre mid iterations,
  r = Fulfilled (Some button) /\
  In sel selectors.event.buyButton /\
  isWaitingRoom u = false /\
  Forall notUrl mid /\
  tr = pre ++ Ev Url u :: mid ++
       [Ev (Query None sel) (Fulfilled (Some button));
        Ev (IsDisabled button) (Fulfilled false);
        Ev (IsVisible button None) (Fulfilled true);
        Ev (Log logger.success
                [Str "Buy button found after "; Num iterations;
                 Str " iterations!"]) tt])
\/
(exists e pre,
  r = Rejected e /\
  tr = pre ++ [Ev (WaitForTimeout pollInterval) (Rejected e)]).
Proof.
induction 1 as [st tr r H | st tr1 st' tr2 r R1 R2 IH]; intros i ->.
- apply body_exit in H
  as [(button & sel & u & mid & -> & Hin & G & N & ->) | (e & pre & -> & ->)].
+ left. exists button, sel, u, [], mid, (i + 1). now repeat split.
+ right. now exists e, pre.
- apply body_runs in R1 as (u0 & rest & -> & _ & St & _).
destruct (IH (i + 1) (St st' eq_refl))
  as [(button & sel & u & pre & mid & it & -> & Hin & G & N & ->)
     | (e & pre & -> & ->)].
+ left. exists button, sel, u, ((Ev Url u0 :: rest) ++ pre), mid, it.
  repeat split; auto. now rewrite <- app_assoc.
+ right. exists e, ((Ev Url u0 :: rest) ++ pre).
  split; [reflexivity | now rewrite <- app_assoc].
Qed.

Lemma ticks_app (l1 l2 : trace) : ticks (l1 ++ l2) = ticks l1 + ticks l2.
Proof. unfold ticks. now rewrite filter_app, length_app. Qed.

(** A turn spent in the waiting room. *)
Lemma body_gated_turn i :
exists tr,
runs (body (false, i)) tr (inl (false, i + 1)) /\ ticks tr = 1.
Proof.
destruct ((i + 1) mod 50 =? 1) eqn:M.
- exists [Ev Url "https://www.loket.com/queue";
        Ev (Log logger.queue
                [Str "In waiting room - staying patient, NOT refreshing..."]) tt;
        Ev (WaitForTimeout pollInterval) (Fulfilled tt)].
split; [|reflexivity].
unfold waitForBuyButton_body. apply runs_trigger_bind.
eexists _, _. split; [reflexivity|].
change (isWaitingRoom "https://www.loket.com/queue") with true. cbv iota.
rewrite M. run_along.
- exists [Ev Url "https://www.loket.com/queue";
        Ev (WaitForTimeout pollInterval) (Fulfilled tt)].
split; [|reflexivity].
unfold waitForBuyButton_body. apply runs_trigger_bind.
eexists _, _. split; [reflexivity|].
change (isWaitingRoom "https://www.loket.com/queue") with true. cbv iota.
rewrite M. run_along.
Qed.

Lemma loop_unbounded n :
forall i, exists tr, loops_partial body (false, i) tr /\ ticks tr = n.
Proof.
induction n as [|n IH]; intros i.
- exists []. split; [apply loops_partial_turn; constructor | reflexivity].
- destruct (body_gated_turn i) as (tr1 & R1 & T1).
destruct (IH (i + 1)) as (tr2 & R2 & T2).
exists (tr1 ++ tr2). split.
+ now apply loops_partial_again with (false, i + 1).
+ rewrite ticks_app, T1, T2. reflexivity.
Qed.

End Poller.

(** C4: in every execution of the poller, finished or not, a reading of the
    URL that is classified as gated is followed by at most one message at the
    queue level and then by one sleep of the poll interval, after which the
    execution stops there or reads the URL again.  So a gated tick makes no
    reload, no navigation and no query for the buy button. *)
Theorem gated_tick_only_sleeps :
  forall (pollInterval : Q) (pre : trace) (u : string) (post : trace),
    partial (waitForBuyButton pollInterval) (pre ++ Ev Url u :: post) ->
    isWaitingRoom u = true ->
    exists logs,
      queueLogs logs /\
      (post = logs \/
       exists x rest,
         post = logs ++ Ev (WaitForTimeout pollInterval) x :: rest /\
         (rest = [] \/ exists u' rest', rest = Ev Url u' :: rest')).
Proof.
  intros p pre u post H G. unfold waitForBuyButton in H.
  apply partial_trigger_bind in H as [E | ([] & tr' & E & H)].
  { destruct pre; discriminate. }
  apply partial_iter in H.
  destruct pre as [|en pre]; simpl in E.
  { apply (f_equal (fun l => match l with en :: _ => urlOf en | [] => None end)) in E.
    discriminate. }
  injection E as _ <-.
  eapply loop_gated; [exact H | reflexivity | reflexivity | exact G].
Qed.

Lemma gated_tick_only_sleeps_witness :
  partial (waitForBuyButton (100 # 1))
          ([Ev (Log logger.war
                    [Str "WAR MODE ACTIVATED - Scanning for ticket button..."]) tt]
           ++ Ev Url "https://www.loket.com/Antrean/konser"
           :: [Ev (Log logger.queue
                     [Str "In waiting room - staying patient, NOT refreshing..."]) tt;
               Ev (WaitForTimeout (100 # 1)) (Fulfilled tt);
               Ev Url "https://www.loket.com/event/konser"]) /\
  isWaitingRoom "https://www.loket.com/Antrean/konser" = true /\
  exists logs,
    queueLogs logs /\
    ([Ev (Log logger.queue
             [Str "In waiting room - staying patient, NOT refreshing..."]) tt;
      Ev (WaitForTimeout (100 # 1)) (Fulfilled tt);
      Ev Url "https://www.loket.com/event/konser"] = logs \/
     exists x rest,
       [Ev (Log logger.queue
              [Str "In waiting room - staying patient, NOT refreshing..."]) tt;
        Ev (WaitForTimeout (100 # 1)) (Fulfilled tt);
        Ev Url "https://www.loket.com/event/konser"]
       = logs ++ Ev (WaitForTimeout (100 # 1)) x :: rest /\
       (rest = [] \/ exists u' rest', rest = Ev Url u' :: rest')).
Proof.
  assert (P : partial (waitForBuyButton (100 # 1))
          ([Ev (Log logger.war
                    [Str "WAR MODE ACTIVATED - Scanning for ticket button..."]) tt]
           ++ Ev Url "https://www.loket.com/Antrean/konser"
           :: [Ev (Log logger.queue
                     [Str "In waiting room - staying patient, NOT refreshing..."]) tt;
               Ev (WaitForTimeout (100 # 1)) (Fulfilled tt);
               Ev Url "https://www.loket.com/event/konser"])).
  { simpl. run_along. }
  split; [exact P|]. split; [reflexivity|].
  exact (@gated_tick_only_sleeps _ _ _ _ P eq_refl).
Defined.

(** C5: a finished run of the poller never returns null or undefined.  It
    either returns a button that, in the same tick, one of the buy-button
    selectors had just resolved to and that was reported not disabled and
    visible, the URL of that tick not being gated; or it is rejected by the
    sleep itself failing, which only happens when the page is taken away from
    outside.  And the loop has no bound: whatever the number [n], some
    execution goes through [n] ticks. *)
Theorem waitForBuyButton_returns_found_button :
  forall pollInterval : Q,
    (forall tr r,
        runs (waitForBuyButton pollInterval) tr r ->
        (exists button sel u pre mid iterations,
            r = Fulfilled (Some button) /\
            In sel selectors.event.buyButton /\
            isWaitingRoom u = false /\
            Forall notUrl mid /\
            tr = pre ++ Ev Url u :: mid ++
                 [Ev (Query None sel) (Fulfilled (Some button));
                  Ev (IsDisabled button) (Fulfilled false);
                  Ev (IsVisible button None) (Fulfilled true);
                  Ev (Log logger.success
                          [Str "Buy button found after "; Num iterations;
                           Str " iterations!"]) tt])
        \/
        (exists e pre,
            r = Rejected e /\
            tr = pre ++ [Ev (WaitForTimeout pollInterval) (Rejected e)])) /\
    (forall n, exists tr,
        partial (waitForBuyButton pollInterval) tr /\ ticks tr = n).
Proof.
  intros p. split.
  - intros tr r H. unfold waitForBuyButton in H.
    apply runs_trigger_bind in H as ([] & tr' & -> & H).
    apply runs_iter in H.
    destruct (@loop_returns _ _ _ _ H 0 eq_refl)
      as [(button & sel & u & pre & mid & it & -> & Hin & G & N & ->)
         | (e & pre & -> & ->)].
    + left. exists button, sel, u, (Ev (Log logger.war
        [Str "WAR MODE ACTIVATED - Scanning for ticket button..."]) tt :: pre),
        mid, it. now repeat split.
    + right. exists e, (Ev (Log logger.war
        [Str "WAR MODE ACTIVATED - Scanning for ticket button..."]) tt :: pre).
      now split.
  - intros n. destruct (loop_unbounded p n 0) as (tr & L & T).
    exists (Ev (Log logger.war
        [Str "WAR MODE ACTIVATED - Scanning for ticket button..."]) tt :: tr).
    split; [|exact T].
    unfold waitForBuyButton. apply partial_trigger_bind. right.
    exists tt, tr. split; [reflexivity|]. now apply partial_iter.
Qed.

Lemma waitForBuyButton_returns_found_button_witness :
  runs (waitForBuyButton (100 # 1))
       [Ev (Log logger.war
               [Str "WAR MODE ACTIVATED - Scanning for ticket button..."]) tt;
        Ev Url "https://www.loket.com/event/konser";
        Ev (Query None "button:has-text('Beli Tiket')") (Fulfilled None);
        Ev (Query None "a:has-text('Beli Tiket')") (Fulfilled (Some (Element 3)));
        Ev (IsDisabled (Element 3)) (Fulfilled false);
        Ev (IsVisible (Element 3) None) (Fulfilled true);
        Ev (Log logger.success
               [Str "Buy button found after "; Num 1; Str " iterations!"]) tt]
       (Fulfilled (Some (Element 3))) /\
  ((exists button sel u pre mid iterations,
       Fulfilled (Some (Element 3)) = Fulfilled (Some button) /\
       In sel selectors.event.buyButton /\
       isWaitingRoom u = false /\
       Forall notUrl mid /\
       [Ev (Log logger.war
               [Str "WAR MODE ACTIVATED - Scanning for ticket button..."]) tt;
        Ev Url "https://www.loket.com/event/konser";
        Ev (Query None "button:has-text('Beli Tiket')") (Fulfilled None);
        Ev (Query None "a:has-text('Beli Tiket')") (Fulfilled (Some (Element 3)));
        Ev (IsDisabled (Element 3)) (Fulfilled false);
        Ev (IsVisible (Element 3) None) (Fulfilled true);
        Ev (Log logger.success
               [Str "Buy button found after "; Num 1; Str " iterations!"]) tt]
       = pre ++ Ev Url u :: mid ++
         [Ev (Query None sel) (Fulfilled (Some button));
          Ev (IsDisabled button) (Fulfilled false);
          Ev (IsVisible button None) (Fulfilled true);
          Ev (Log logger.success
                  [Str "Buy button found after "; Num iterations;
                   Str " iterations!"]) tt])
   \/
   (exists e pre,
       Fulfilled (Some (Element 3)) = Rejected e /\
       [Ev (Log logger.war
               [Str "WAR MODE ACTIVATED - Scanning for ticket button..."]) tt;
        Ev Url "https://www.loket.com/event/konser";
        Ev (Query None "button:has-text('Beli Tiket')") (Fulfilled None);
        Ev (Query None "a:has-text('Beli Tiket')") (Fulfilled (Some (Element 3)));
        Ev (IsDisabled (Element 3)) (Fulfilled false);
        Ev (IsVisible (Element 3) None) (Fulfilled true);
        Ev (Log logger.success
               [Str "Buy button found after "; Num 1; Str " iterations!"]) tt]
       = pre ++ [Ev (WaitForTimeout (100 # 1)) (Rejected e)])).
Proof.
  assert (R : runs (waitForBuyButton (100 # 1))
       [Ev (Log logger.war
               [Str "WAR MODE ACTIVATED - Scanning for ticket button..."]) tt;
        Ev Url "https://www.loket.com/event/konser";
        Ev (Query None "button:has-text('Beli Tiket')") (Fulfilled None);
        Ev (Query None "a:has-text('Beli Tiket')") (Fulfilled (Some (Element 3)));
        Ev (IsDisabled (Element 3)) (Fulfilled false);
        Ev (IsVisible (Element 3) None) (Fulfilled true);
        Ev (Log logger.success
               [Str "Buy button found after "; Num 1; Str " iterations!"]) tt]
       (Fulfilled (Some (Element 3)))).
  { run_along. }
  split; [exact R|].
  exact (proj1 (waitForBuyButton_returns_found_button (100 # 1)) _ _ R).
Defined.

Example matchAll_tokens :
  matchAll false (Seq WordBoundary (Seq (Repeat Digit 10 16) WordBoundary))
           "VA 8870012345678901, ref 12345, tel:0812345678901 x12345678901234567890"
  = ["8870012345678901"; "0812345678901"].
Proof. vm_compute. reflexivity. Qed.

(* ===================================================================== *)
(** ** Postconditions *)
(* ===================================================================== *)

Section Settles.

Lemma settles_andThen {A B} (Q : outcome B -> Prop) (m : async A)
  (k : A -> async B) :
(forall e, Q (Rejected e)) ->
(forall a, settles Q (k a)) ->
settles Q (andThen m k).
Proof.
intros Qe Hk tr r H.
apply runs_andThen in H as (tr1 & a & tr2 & _ & _ & H).
destruct a as [v|e]; [now apply (Hk v tr2) | destruct H as [_ ->]; apply Qe].
Qed.

Lemma settles_ret {A} (Q : outcome A -> Prop) (a : A) :
Q (Fulfilled a) -> settles Q (ret a).
Proof. intros H tr r R. apply runs_Ret in R as [_ ->]. exact H. Qed.

End Settles.

(* ===================================================================== *)
(** ** [navigateToPayment]: the checkout loop *)
(* ===================================================================== *)

Section Checkout.

Lemma clicks_app (l1 l2 : trace) : clicks (l1 ++ l2) = clicks l1 + clicks l2.
Proof. unfold clicks. now rewrite filter_app, length_app. Qed.

(** A pass over a button list clicks once and reports it, or does not click
at all; it never throws. *)
Lemma clickButton_clicks msg sels tr r :
runs (clickButton msg sels) tr r ->
(r = Fulfilled true /\ clicks tr = 1) \/ (r = Fulfilled false /\ clicks tr = 0).
Proof.
revert tr. induction sels as [|sel rest IH]; intros tr H; simpl in H.
- runs_step H. subst r. now right.
- apply runs_bind in H as (tr1 & a & tr2 & R1 & R2 & ->).
rewrite clicks_app.
assert (K : (a = Fulfilled true /\ clicks tr1 = 1) \/
            (a <> Fulfilled true /\ clicks tr1 = 0)).
{ clear R2 IH. runs_step R1.
  destruct a0 as [[b|]|e]; [|runs_step R1; subst a; right; now split ..].
  runs_step R1.
  destruct a0 as [[]|e]; [|runs_step R1; subst a; right; now split ..].
  runs_step R1.
  destruct a0 as [[]|e]; simpl in R1;
    [runs_step R1; subst a; right; now split | |
     runs_step R1; subst a; right; now split].
  runs_step R1. destruct a0 as [[]|e].
  - runs_step R1. destruct a0. runs_step R1. subst a. now left.
  - runs_step R1. subst a. right. now split. }
destruct K as [[-> C] | [N C]]; rewrite C.
+ runs_step R2. subst r. now left.
+ destruct a as [[]|e]; [congruence | |]; exact (IH _ R2).
Qed.

Lemma checkout_turn_spec c tr r :
runs (checkout_turn c) tr r ->
if c <? maxClicks then
exists w rest,
  tr = Ev (WaitForTimeout (1000 # 1)) w :: rest /\
  match w with
  | Rejected e => r = Rejected e /\ rest = []
  | Fulfilled _ =>
      exists surface rest',
        rest = Ev (Query None paymentSurface) surface :: rest' /\
        match surface with
        | Rejected e => r = Rejected e /\ rest' = []
        | Fulfilled (Some _) =>
            r = Fulfilled (Return true) /\ clicks rest' = 0
        | Fulfilled None =>
            (r = Fulfilled (Continue (c + 1)) /\ clicks rest' = 1) \/
            (r = Fulfilled Break /\ clicks rest' = 0)
        end
  end
else tr = [] /\ r = Fulfilled Break.
Proof.
intros H. unfold checkout_turn in H.
destruct (c <? maxClicks); cbn [negb] in H; [|now runs_step H].
runs_step H. exists a, tr0. split; [reflexivity|].
destruct a as [[]|e]; [|now runs_step H].
runs_step H. exists a, tr. split; [reflexivity|].
destruct a as [[p|]|e]; [| |now runs_step H].
- runs_step H. runs_step H. now split.
- apply runs_andThen in H as (tr1 & a & tr2 & R1 & -> & H).
rewrite clicks_app.
apply clickButton_clicks in R1 as [[-> C1] | [-> C1]]; rewrite C1;
  cbn [negb] in H;
  apply runs_andThen in H as (tr3 & a & tr4 & R3 & -> & H);
  rewrite clicks_app.
+ runs_step R3. subst a. cbn [negb] in H. runs_step H. left. now split.
+ apply clickButton_clicks in R3 as [[-> C3] | [-> C3]]; rewrite C3;
    cbn [negb] in H.
  * runs_step H. left. now split.
  * runs_step H. runs_step H. right. now split.
Qed.


Local Abbreviation whileTurn :=
(fun s : nat =>
 r <- checkout_turn s ;;
 match r with
 | Fulfilled (Continue s') => Ret (inl s')
 | Fulfilled Break => Ret (inr (Fulfilled None))
 | Fulfilled (Return a) => Ret (inr (Fulfilled (Some a)))
 | Rejected e => Ret (inr (Rejected e))
 end).

Lemma clicks_turn_head (w : outcome unit) (surface : outcome (option handle))
  (rest : trace) :
clicks (Ev (WaitForTimeout (1000 # 1)) w
      :: Ev (Query None paymentSurface) surface :: rest) = clicks rest.
Proof. reflexivity. Qed.

(** A turn of the loop as [ITree.iter] sees it. *)
Lemma whileTurn_spec c tr res :
runs (whileTurn c) tr res ->
c <= maxClicks ->
match res with
| inl c' => c' = c + 1 /\ c < maxClicks /\ clicks tr = 1
| inr r =>
  clicks tr = 0 /\
  (r = Fulfilled None \/ r = Fulfilled (Some true) \/ exists e, r = Rejected e)
end.
Proof.
intros H Hc. apply runs_bind in H as (tr1 & a & tr2 & R1 & R2 & ->).
apply checkout_turn_spec in R1.
destruct (c <? maxClicks) eqn:Lt.
- apply Nat.ltb_lt in Lt.
destruct R1 as (w & rest & -> & R1). destruct w as [[]|e].
+ destruct R1 as (surface & rest' & -> & R1).
  destruct surface as [[p|]|e].
  * destruct R1 as [-> C]. runs_step R2. subst res.
    rewrite app_nil_r, clicks_turn_head. split; [exact C | auto].
  * destruct R1 as [[-> C] | [-> C]]; runs_step R2; subst res;
      rewrite app_nil_r, clicks_turn_head; auto.
  * destruct R1 as [-> ->]. runs_step R2. subst res. split; [reflexivity|].
    right. right. now exists e.
+ destruct R1 as [-> ->]. runs_step R2. subst res. split; [reflexivity|].
  right. right. now exists e.
- destruct R1 as [-> ->]. runs_step R2. subst res. split; [reflexivity | auto].
Qed.

Lemma checkout_loops c tr r :
loops whileTurn c tr r ->
c <= maxClicks ->
clicks tr + c <= maxClicks /\
(r = Fulfilled None \/ r = Fulfilled (Some true) \/ exists e, r = Rejected e).
Proof.
induction 1 as [c tr r H | c tr1 c' tr2 r R1 R2 IH]; intros Hc.
- apply whileTurn_spec in H as [C K]; [|exact Hc]. rewrite C. now split.
- apply whileTurn_spec in R1 as (-> & Lt & C); [|exact Hc].
destruct IH as [B K]; [lia|]. rewrite clicks_app, C. split; [lia | exact K].
Qed.

(** *** Termination *)

Lemma all_finite_observe {R} (t u : itree pageE R) :
observe t = observe u -> all_finite t -> all_finite u.
Proof.
intros E H. destruct H as [a t H | t v H H' | X e t k H H']; rewrite E in H.
- now apply all_finiteRet with a.
- now apply all_finiteTau with v.
- now apply all_finiteVis with (e := e) (k := k).
Qed.

Lemma Leaf_runs {R} (t : itree pageE R) (a : R) :
Leaf a t -> exists tr, runs t tr a.
Proof.
induction 1 as [t H | t u H H' [tr IH] | X e t k x H H' [tr IH]].
- exists []. now constructor.
- exists tr. now apply runs_tau with u.
- exists (Ev e x :: tr). now apply runs_vis with k.
Qed.

Lemma all_finite_andThen {A B} (m : async A) (k : A -> async B) :
all_finite m -> (forall a, all_finite (k a)) -> all_finite (andThen m k).
Proof.
intros Hm Hk. unfold andThen. apply all_finite_bind_weak; [exact Hm|].
intros [a|e]; [apply Hk | apply all_finite_Ret].
Qed.

Ltac finite_step :=
lazymatch goal with
| |- all_finite (Ret _) => apply all_finite_Ret
| |- all_finite (ret _) => apply all_finite_Ret
| |- all_finite (ITree.trigger _) => apply all_finite_trigger
| |- all_finite (await _) => apply all_finite_trigger
| |- all_finite (perform _) => unfold perform
| |- all_finite (andThen _ _) => apply all_finite_andThen; [|intros ?]
| |- all_finite (ITree.bind _ _) => apply all_finite_bind_weak; [|intros ?]
| |- all_finite (match ?x with _ => _ end) => destruct x
end.

Lemma clickButton_finite msg sels : all_finite (clickButton msg sels).
Proof.
induction sels as [|sel rest IH]; simpl.
- finite_step.
- apply all_finite_bind_weak; [repeat finite_step|].
intros [[]|e]; [finite_step | exact IH | exact IH].
Qed.

Lemma checkout_turn_finite c : all_finite (checkout_turn c).
Proof.
unfold checkout_turn.
repeat first [apply clickButton_finite | finite_step].
Qed.

Lemma checkoutLoop_finite_from n :
forall c, c <= maxClicks -> maxClicks - c <= n ->
        all_finite (ITree.iter whileTurn c).
Proof.
induction n as [|n IH]; intros c Hc Hn;
(eapply all_finite_observe; [symmetry; apply observe_iter|]);
(apply all_finite_bind;
 [apply all_finite_bind_weak;
  [apply checkout_turn_finite | intros [[| |]|]; apply all_finite_Ret]|]);
intros [c'|r] L; try apply all_finite_Ret;
apply Leaf_runs in L as [tr L];
apply whileTurn_spec in L as (-> & Lt & _); try exact Hc.
- lia.
- apply all_finite_Tau. apply IH; lia.
Qed.

End Checkout.

(** C8: every finished run of the checkout loop makes at most five clicks
    that go through, and the loop always finishes.  A turn first sleeps and
    then looks for the payment surface; if it is there the function returns
    true without a click; otherwise the turn makes one click and the loop
    goes round with the counter increased, or it makes none and the loop is
    left by [break].  The loop gives control on ([None]), has returned true,
    or was rejected by the sleep or the surface query; when it gives control
    on, [navigateToPayment] goes on with the payment selection. *)
Theorem checkout_loop_at_most_five_clicks :
  (forall tr r,
      runs checkoutLoop tr r ->
      clicks tr <= 5 /\
      (r = Fulfilled None \/ r = Fulfilled (Some true) \/
       exists e, r = Rejected e)) /\
  all_finite checkoutLoop /\
  (forall c tr r,
      runs (checkout_turn c) tr r ->
      if c <? 5 then
        exists w rest,
          tr = Ev (WaitForTimeout (1000 # 1)) w :: rest /\
          match w with
          | Rejected e => r = Rejected e /\ rest = []
          | Fulfilled _ =>
              exists surface rest',
                rest = Ev (Query None paymentSurface) surface :: rest' /\
                match surface with
                | Rejected e => r = Rejected e /\ rest' = []
                | Fulfilled (Some _) =>
                    r = Fulfilled (Return true) /\ clicks rest' = 0
                | Fulfilled None =>
                    (r = Fulfilled (Continue (c + 1)) /\ clicks rest' = 1) \/
                    (r = Fulfilled Break /\ clicks rest' = 0)
                end
          end
      else tr = [] /\ r = Fulfilled Break) /\
  (forall tr1 tr2 r,
      runs checkoutLoop tr1 (Fulfilled None) ->
      runs afterCheckout tr2 r ->
      runs navigateToPayment
           (Ev (Log logger.info [Str "Navigating to payment page..."]) tt
            :: tr1 ++ tr2) r).
Proof.
  split; [|split; [|split]].
  - intros tr r H. unfold checkoutLoop, while in H. apply runs_iter in H.
    apply checkout_loops in H; [|unfold maxClicks; lia].
    rewrite Nat.add_0_r in H. exact H.
  - unfold checkoutLoop, while.
    apply checkoutLoop_finite_from with (n := maxClicks); unfold maxClicks; lia.
  - exact checkout_turn_spec.
  - intros tr1 tr2 r R1 R2. unfold navigateToPayment.
    apply runs_andThen_perform. exists tt, (tr1 ++ tr2). split; [reflexivity|].
    apply runs_andThen. exists tr1, (Fulfilled None), tr2. now repeat split.
Qed.

(* ===================================================================== *)
(** ** [navigateToPayment]: the return value *)
(* ===================================================================== *)

Section ReturnValue.

Lemma settles_andThen_post {A B} (P : outcome A -> Prop) (Q : outcome B -> Prop)
  (m : async A) (k : A -> async B) :
settles P m ->
(forall e, Q (Rejected e)) ->
(forall a, P (Fulfilled a) -> settles Q (k a)) ->
settles Q (andThen m k).
Proof.
intros Hm Qe Hk tr r H.
apply runs_andThen in H as (tr1 & a & tr2 & R1 & _ & H).
apply Hm in R1.
destruct a as [v|e]; [now apply (Hk v R1 tr2) | destruct H as [_ ->]; apply Qe].
Qed.

Lemma trueOrThrown_Rejected e : trueOrThrown (Rejected e).
Proof. right. now exists e. Qed.

Lemma checkoutLoop_settles :
settles (fun r => r = Fulfilled None \/ r = Fulfilled (Some true) \/
                exists e, r = Rejected e) checkoutLoop.
Proof.
intros tr r H. unfold checkoutLoop, while in H. apply runs_iter in H.
apply checkout_loops in H; [|unfold maxClicks; lia]. apply H.
Qed.

Lemma afterCheckout_settles : settles trueOrThrown afterCheckout.
Proof.
unfold afterCheckout.
repeat (apply settles_andThen; [exact trueOrThrown_Rejected | intros ?]).
match goal with |- settles _ (let '(_, _) := ?c in _) => destruct c end.
repeat (apply settles_andThen; [exact trueOrThrown_Rejected | intros ?]).
apply settles_ret. now left.
Qed.

End ReturnValue.

(** Whatever the browser answers, a run of [navigateToPayment] that finishes
    without an exception returns true. *)
Lemma navigateToPayment_true_or_thrown :
  forall (tr : trace) (r : outcome bool),
    runs navigateToPayment tr r ->
    r = Fulfilled true \/ exists e, r = Rejected e.
Proof.
  intros tr r H. revert tr r H. change (settles trueOrThrown navigateToPayment).
  unfold navigateToPayment.
  apply settles_andThen; [exact trueOrThrown_Rejected | intros _].
  apply settles_andThen_post with (1 := checkoutLoop_settles);
    [exact trueOrThrown_Rejected|].
  intros [result|] P.
  - destruct P as [P | [P | [e P]]]; try discriminate.
    injection P as ->. apply settles_ret. now left.
  - apply afterCheckout_settles.
Qed.

(* ===================================================================== *)
(** ** Regular expressions: what a match looks like *)
(* ===================================================================== *)

Section RegExpFacts.

Lemma length_append (m rest : string) :
String.length (m ++ rest) = String.length m + String.length rest.
Proof. induction m as [|a m IH]; simpl; [reflexivity | now rewrite IH]. Qed.

Lemma substring0_app (m rest : string) :
substring0 (String.length (m ++ rest) - String.length rest) (m ++ rest) = m.
Proof.
rewrite length_append, Nat.add_sub.
induction m as [|a m IH]; simpl.
- now destruct rest.
- now rewrite IH.
Qed.

(** A greedy bounded repetition of [\d] consumes between [lo] and [hi]
digits before the rest of the expression goes on. *)
Lemma repeatClass_digits (ic : bool) (A : Type) (hi : nat) :
forall lo prev s (k : option ascii -> string -> option A) x,
repeatClass ic Digit lo hi prev s k = Some x ->
exists m rest prev',
  s = (m ++ rest)%string /\ allDigits m /\
  lo <= String.length m <= hi /\ k prev' rest = Some x.
Proof.
induction hi as [|hi IH]; intros lo prev s k x H; simpl in H.
- destruct (lo =? 0) eqn:L; [|discriminate]. apply Nat.eqb_eq in L.
exists EmptyString, s, prev. simpl. repeat split; [lia | lia | exact H].
- assert (Stop : (if lo =? 0 then k prev s else None) = Some x ->
               exists m rest prev',
                 s = (m ++ rest)%string /\ allDigits m /\
                 lo <= String.length m <= S hi /\ k prev' rest = Some x).
{ intros E. destruct (lo =? 0) eqn:L; [|discriminate]. apply Nat.eqb_eq in L.
  exists EmptyString, s, prev. simpl. repeat split; [lia | lia | exact E]. }
destruct s as [|a s]; [now apply Stop|].
destruct (isDigit a) eqn:D; [|now apply Stop].
destruct (repeatClass ic Digit (lo - 1) hi (Some a) s k) as [y|] eqn:R;
  [|now apply Stop].
injection H as ->.
destruct (IH _ _ _ _ _ R) as (m & rest & prev' & -> & Dm & Lm & K).
exists (String a m), rest, prev'. simpl.
repeat split; [exact D | exact Dm | lia | lia | exact K].
Qed.

Lemma matchAt_digitToken (ic : bool) lo hi prev s m :
matchAt ic (digitToken lo hi) prev s = Some m ->
allDigits m /\ lo <= String.length m <= hi /\
exists rest, s = (m ++ rest)%string.
Proof.
unfold matchAt, digitToken. simpl.
destruct (atBoundary prev s); [|discriminate].
destruct (repeatClass _ _ _ _ _ _ _) as [rest0|] eqn:R; [|discriminate].
intros E. injection E as <-.
apply repeatClass_digits in R as (m & rest & prev' & -> & Dm & Lm & K).
destruct (atBoundary prev' rest); [|discriminate]. injection K as <-.
rewrite substring0_app. split; [exact Dm|]. split; [exact Lm|]. now exists rest.
Qed.

Lemma matchAt_digits10to16 (ic : bool) prev s m :
matchAt ic digits10to16 prev s = Some m ->
allDigits m /\ 10 <= String.length m <= 16.
Proof.
unfold matchAt, digits10to16. cbn [matchHere].
destruct (repeatClass _ _ _ _ _ _ _) as [rest0|] eqn:R; [|discriminate].
intros E. injection E as <-.
apply repeatClass_digits in R as (m & rest & prev' & -> & Dm & Lm & K).
injection K as <-. rewrite substring0_app. now split.
Qed.

(** Every element of a global match is a match at some offset. *)
Lemma scanFrom_matchAt (ic : bool) (r : regex) (m : string) :
forall s prev skip,
In m (scanFrom ic r prev s skip) ->
exists pre prev' s',
  s = (pre ++ s')%string /\ matchAt ic r prev' s' = Some m.
Proof.
induction s as [|a s IH]; intros prev skip H.
- destruct skip; simpl in H; [|contradiction].
destruct (matchAt ic r prev "") as [m'|] eqn:M; [|contradiction].
destruct H as [<-|[]]. now exists EmptyString, prev, EmptyString.
- destruct skip as [|skip]; simpl in H.
+ destruct (matchAt ic r prev (String a s)) as [m'|] eqn:M.
  * destruct H as [<-|H]; [now exists EmptyString, prev, (String a s)|].
    destruct (IH _ _ H) as (pre & prev' & s' & -> & K).
    now exists (String a pre), prev', s'.
  * destruct (IH _ _ H) as (pre & prev' & s' & -> & K).
    now exists (String a pre), prev', s'.
+ destruct (IH _ _ H) as (pre & prev' & s' & -> & K).
  now exists (String a pre), prev', s'.
Qed.

Lemma searchFrom_matchAt (ic : bool) (r : regex) (m : string) :
forall s prev,
searchFrom ic r prev s = Some m ->
exists prev' s', matchAt ic r prev' s' = Some m.
Proof.
induction s as [|a s IH]; intros prev H; simpl in H.
- destruct (matchAt ic r prev "") as [m'|] eqn:M; [|discriminate].
injection H as ->. now exists prev, EmptyString.
- destruct (matchAt ic r prev (String a s)) as [m'|] eqn:M.
+ injection H as ->. now exists prev, (String a s).
+ exact (IH _ H).
Qed.

Lemma matchAll_digitToken (ic : bool) lo hi text num :
In num (matchAll ic (digitToken lo hi) text) ->
allDigits num /\ lo <= String.length num <= hi /\
exists pre post, text = (pre ++ num ++ post)%string.
Proof.
intros H. apply scanFrom_matchAt in H as (pre & prev' & s' & -> & M).
apply matchAt_digitToken in M as (D & L & rest & ->).
split; [exact D|]. split; [exact L|]. now exists pre, rest.
Qed.

Lemma matchFirst_digits10to16 (ic : bool) m num :
matchFirst ic digits10to16 m = Some num ->
allDigits num /\ 10 <= String.length num <= 16.
Proof.
intros H. apply searchFrom_matchAt in H as (prev' & s' & M).
now apply matchAt_digits10to16 in M.
Qed.

End RegExpFacts.

Example vaContextPattern_nomor :
  matchAll true vaContextPattern
           "Total Rp 150.000 Nomor VA: 8870012345678901 Salin"
  = ["Nomor VA: 8870012345678901"].
Proof. vm_compute. reflexivity. Qed.

Example vaContextPattern_digits :
  matchFirst false digits10to16 "Nomor VA: 8870012345678901"
  = Some "8870012345678901".
Proof. vm_compute. reflexivity. Qed.

(* ===================================================================== *)
(** ** [navigateToPayment]: reference extraction *)
(* ===================================================================== *)

Section Extraction.

Lemma arrayIncludes_In (arr : list string) (x : string) :
arrayIncludes arr x = true <-> In x arr.
Proof.
induction arr as [|y arr IH]; simpl.
- split; [discriminate | contradiction].
- rewrite orb_true_iff, String.eqb_eq, IH. reflexivity.
Qed.

(** What passes [isLikelyVA] is not on the exclusion list. *)
Lemma isLikelyVA_not_excluded (num : string) :
isLikelyVA num = true <-> ~ excluded num.
Proof.
unfold isLikelyVA, isTrackingId, excluded.
destruct (startsWith num "62") eqn:P1; cbn [orb].
{ split; [discriminate | intros N; exfalso; apply N; auto]. }
destruct (startsWith num "08") eqn:P2; cbn [orb].
{ split; [discriminate | intros N; exfalso; apply N; auto]. }
destruct (startsWith num "021") eqn:P3; cbn [orb].
{ split; [discriminate | intros N; exfalso; apply N; auto]. }
destruct (arrayIncludes TRACKING_IDS num) eqn:T.
- apply arrayIncludes_In in T.
split; [discriminate | intros N; exfalso; apply N; auto].
- split; [|reflexivity]. intros _ [I | [F | [F | F]]]; try discriminate.
apply arrayIncludes_In in I. congruence.
Qed.

Lemma firstLikelyVA_Some (matches : list string) (num : string) :
firstLikelyVA matches = Some num -> In num matches /\ isLikelyVA num = true.
Proof.
induction matches as [|m rest IH]; simpl; [discriminate|].
destruct (isLikelyVA m) eqn:L.
- intros E. injection E as <-. now split; [left|].
- intros E. destruct (IH E). now split; [right|].
Qed.

Lemma firstContextVA_Some (contextMatches : list string) (num : string) :
firstContextVA contextMatches = Some num ->
isLikelyVA num = true /\
exists m, In m contextMatches /\ matchFirst false digits10to16 m = Some num.
Proof.
induction contextMatches as [|m rest IH]; simpl; [discriminate|].
destruct (matchFirst false digits10to16 m) as [n|] eqn:M.
- destruct (isLikelyVA n) eqn:L.
+ intros E. injection E as <-. split; [exact L|]. exists m. now split; [left|].
+ intros E. destruct (IH E) as (L' & m' & I & M'). split; [exact L'|].
  exists m'. now split; [right|].
- intros E. destruct (IH E) as (L' & m' & I & M'). split; [exact L'|].
exists m'. now split; [right|].
Qed.

(** Step 1 never throws; a number it yields is a likely VA found as a digit
token in the text of a visible labelled element. *)
Lemma scanLabels_sound sels tr r :
runs (scanLabels sels) tr r ->
exists vaNumber,
r = Fulfilled vaNumber /\
forall num,
  vaNumber = Some num ->
  isLikelyVA num = true /\
  exists sel text,
    In sel sels /\
    In (Ev (IsVisible (First (Locator sel)) (Some (500 # 1)%Q)) (Fulfilled true)) tr /\
    In (Ev (TextContent (First (Locator sel))) (Fulfilled (Some text))) tr /\
    In num (matchAll false (digitToken 10 16) text).
Proof.
revert tr. induction sels as [|sel rest IH]; intros tr H; simpl in H.
- runs_step H. exists None. split; [exact H | discriminate].
- apply runs_bind in H as (tr1 & a & tr2 & R1 & R2 & ->).
assert (Next : runs (scanLabels rest) tr2 r ->
               exists vaNumber,
                 r = Fulfilled vaNumber /\
                 forall num,
                   vaNumber = Some num ->
                   isLikelyVA num = true /\
                   exists sel0 text,
                     In sel0 (sel :: rest) /\
                     In (Ev (IsVisible (First (Locator sel0)) (Some (500 # 1)%Q))
                            (Fulfilled true)) (tr1 ++ tr2) /\
                     In (Ev (TextContent (First (Locator sel0)))
                            (Fulfilled (Some text))) (tr1 ++ tr2) /\
                     In num (matchAll false (digitToken 10 16) text)).
{ intros K. destruct (IH _ K) as (v & -> & Hv). exists v. split; [reflexivity|].
  intros num E. destruct (Hv num E) as (L & s0 & text & I & V & T & M).
  split; [exact L|]. exists s0, text.
  rewrite !in_app_iff. split; [now right|]. auto. }
destruct a as [[num|]|e]; [|now apply Next ..].
runs_step R2. subst r. exists (Some num). split; [reflexivity|].
intros n E. injection E as <-. rewrite app_nil_r.
runs_step R1. destruct a as [[]|e]; [|runs_step R1; discriminate ..].
runs_step R1. destruct a as [[text|]|e]; [|runs_step R1; discriminate ..].
destruct (firstLikelyVA (matchAll false (digitToken 10 16) text)) as [n|] eqn:F;
  [|runs_step R1; discriminate].
runs_step R1. runs_step R1. injection R1 as <-.
apply firstLikelyVA_Some in F as [I L]. split; [exact L|].
exists sel, text. split; [now left|]. simpl. auto.
Qed.

(** Step 2 never throws; a number it yields is a likely VA found as a digit
token in the text of a container that mentions a payment keyword. *)
Lemma scanContainers_sound containers tr r :
runs (scanContainers containers) tr r ->
exists vaNumber,
r = Fulfilled vaNumber /\
forall num,
  vaNumber = Some num ->
  isLikelyVA num = true /\
  exists container text,
    In container containers /\
    In (Ev (TextContent container) (Fulfilled (Some text))) tr /\
    hasPaymentKeyword text = true /\
    In num (matchAll false (digitToken 12 16) text).
Proof.
revert tr. induction containers as [|c rest IH]; intros tr H; simpl in H.
- runs_step H. exists None. split; [exact H | discriminate].
- apply runs_bind in H as (tr1 & a & tr2 & R1 & R2 & ->).
assert (Next : runs (scanContainers rest) tr2 r ->
               exists vaNumber,
                 r = Fulfilled vaNumber /\
                 forall num,
                   vaNumber = Some num ->
                   isLikelyVA num = true /\
                   exists container text,
                     In container (c :: rest) /\
                     In (Ev (TextContent container) (Fulfilled (Some text)))
                        (tr1 ++ tr2) /\
                     hasPaymentKeyword text = true /\
                     In num (matchAll false (digitToken 12 16) text)).
{ intros K. destruct (IH _ K) as (v & -> & Hv). exists v. split; [reflexivity|].
  intros num E. destruct (Hv num E) as (L & c0 & text & I & T & P & M).
  split; [exact L|]. exists c0, text.
  rewrite !in_app_iff. split; [now right|]. auto. }
destruct a as [[num|]|e]; [|now apply Next ..].
runs_step R2. subst r. exists (Some num). split; [reflexivity|].
intros n E. injection E as <-. rewrite app_nil_r.
runs_step R1. destruct a as [[text|]|e]; [|runs_step R1; discriminate ..].
destruct (hasPaymentKeyword text) eqn:P; [|runs_step R1; discriminate].
destruct (firstLikelyVA (matchAll false (digitToken 12 16) text)) as [n|] eqn:F;
  [|runs_step R1; discriminate].
runs_step R1. runs_step R1. injection R1 as <-.
apply firstLikelyVA_Some in F as [I L]. split; [exact L|].
exists c, text. split; [now left|]. simpl. auto.
Qed.

(** Step 3: a number it yields is a likely VA among the digits of a keyword
match in the visible body text. *)
Lemma scanBodyText_sound tr r :
runs scanBodyText tr r ->
forall num,
r = Fulfilled (Some num) ->
isLikelyVA num = true /\ fromBodyText tr num.
Proof.
intros H num E. unfold scanBodyText in H. subst r.
runs_step H. runs_step H. destruct a0 as [nodes|e]; [|runs_step H; discriminate].
cbv zeta in H.
destruct (firstContextVA _) as [n|] eqn:F; [|runs_step H; discriminate].
runs_step H. runs_step H. injection H as <-.
apply firstContextVA_Some in F as (L & m & I & M). split; [exact L|].
exists nodes, m. split; [simpl; auto | now split].
Qed.


Lemma fromLabel_app_l tr1 tr2 num : fromLabel tr1 num -> fromLabel (tr1 ++ tr2) num.
Proof.
intros (sel & text & pre & post & I & V & T & M & E).
exists sel, text, pre, post. rewrite !in_app_iff. auto 6.
Qed.

Lemma fromContainer_app_r tr1 tr2 num :
fromContainer tr2 num -> fromContainer (tr1 ++ tr2) num.
Proof.
intros (cs & c & text & pre & post & A & I & T & P & M & E).
exists cs, c, text, pre, post. rewrite !in_app_iff. auto 7.
Qed.

Lemma fromBodyText_app_r tr1 tr2 num :
fromBodyText tr2 num -> fromBodyText (tr1 ++ tr2) num.
Proof.
intros (nodes & m & I & M & F). exists nodes, m. rewrite in_app_iff. auto.
Qed.

Lemma fromContainer_app_l tr1 tr2 num :
fromContainer tr1 num -> fromContainer (tr1 ++ tr2) num.
Proof.
intros (cs & c & text & pre & post & A & I & T & P & M & E).
exists cs, c, text, pre, post. rewrite !in_app_iff. auto 7.
Qed.

(** The steps after the first, inside the [try]. *)
Lemma laterSteps_sound tr a :
runs (vaNumber <~ (perform (Log logger.info
                   [Str "Looking for VA in visible containers..."]) ;;;
                 visibleContainers <~
                   await (LocatorAll (Locator visibleContainersSelector)) ;;;
                 scanContainers visibleContainers) ;;;
    match vaNumber with
    | Some _ => ret vaNumber
    | None => scanBodyText
    end) tr a ->
forall num,
a = Fulfilled (Some num) ->
isLikelyVA num = true /\ (fromContainer tr num \/ fromBodyText tr num).
Proof.
intros H num E. subst a.
apply runs_andThen in H as (tr1 & a & tr2 & R1 & -> & H).
runs_step R1. runs_step R1.
destruct a1 as [containers|e]; [|runs_step R1; subst a; now destruct H].
apply scanContainers_sound in R1 as (v & -> & Hv).
destruct v as [n|].
- runs_step H. injection H as <-.
destruct (Hv num eq_refl) as (L & c & text & I & T & P & M).
split; [exact L|]. left.
pose proof M as M'. apply matchAll_digitToken in M' as (_ & _ & pre & post & Et).
rewrite app_nil_r. exists containers, c, text, pre, post. simpl. auto 8.
- eapply scanBodyText_sound in H as [L B]; [|reflexivity]. split; [exact L|]. right.
now apply fromBodyText_app_r.
Qed.

Lemma extractVA_body_sound tr a :
runs (vaNumber <~ scanLabels vaLabelSelectors ;;;
    vaNumber <~ match vaNumber with
                | Some _ => ret vaNumber
                | None =>
                    perform (Log logger.info
                      [Str "Looking for VA in visible containers..."]) ;;;
                    visibleContainers <~
                      await (LocatorAll (Locator visibleContainersSelector)) ;;;
                    scanContainers visibleContainers
                end ;;;
    match vaNumber with
    | Some _ => ret vaNumber
    | None => scanBodyText
    end) tr a ->
forall num,
a = Fulfilled (Some num) ->
isLikelyVA num = true /\
(fromLabel tr num \/ fromContainer tr num \/ fromBodyText tr num).
Proof.
intros H num E.
apply runs_andThen in H as (tr1 & a1 & tr2 & R1 & -> & H).
apply scanLabels_sound in R1 as (v & -> & Hv).
destruct v as [n|].
- apply runs_andThen in H as (tr3 & a3 & tr4 & R3 & -> & H).
runs_step R3. subst a3. runs_step H. subst a. injection E as ->.
destruct (Hv num eq_refl) as (L & sel & text & I & V & T & M).
split; [exact L|]. left. rewrite !app_nil_r.
pose proof M as M'. apply matchAll_digitToken in M' as (_ & _ & pre & post & Et).
now exists sel, text, pre, post.
- eapply laterSteps_sound in H as [L [C | B]]; [| |exact E]; (split; [exact L|]).
+ right. left. now apply fromContainer_app_r.
+ right. right. now apply fromBodyText_app_r.
Qed.

Lemma visibleText_filter (nodes : list textNode) :
visibleText nodes = visibleText (filter acceptNode nodes).
Proof.
induction nodes as [|node rest IH]; simpl; [reflexivity|].
destruct (acceptNode node) eqn:Acc; simpl; [rewrite Acc, IH|]; auto.
Qed.

Lemma acceptNode_true (node : textNode) :
acceptNode node = true ->
exists parent,
node.(parentElement) = Some parent /\
toLowerCase parent.(tagName) <> "script" /\
toLowerCase parent.(tagName) <> "style" /\
toLowerCase parent.(tagName) <> "noscript" /\
parent.(display) <> "none" /\
parent.(visibility) <> "hidden".
Proof.
unfold acceptNode. destruct (parentElement node) as [parent|]; [|discriminate].
destruct (String.eqb (toLowerCase (tagName parent)) "script") eqn:E1;
[discriminate|].
destruct (String.eqb (toLowerCase (tagName parent)) "style") eqn:E2;
[discriminate|].
destruct (String.eqb (toLowerCase (tagName parent)) "noscript") eqn:E3;
[discriminate|].
destruct (String.eqb (display parent) "none") eqn:E4; [discriminate|].
destruct (String.eqb (visibility parent) "hidden") eqn:E5; [discriminate|].
intros _. exists parent. apply String.eqb_neq in E1, E2, E3, E4, E5. auto 6.
Qed.

End Extraction.

(** Reference extraction never throws, and a number it returns (a) is
    not on the exclusion list: it is none of the known tracking identifiers
    and does not begin with 62, 08 or 021; (b) consists of 10 to 16 decimal
    digits; (c) was found as a digit token in the text of an element that a
    VA label selector resolved to and the browser reported visible, or as a
    digit token in the text of one of the visible containers, that text
    mentioning a payment keyword, or as the digits of a match of the
    keyword pattern in the visible body text.  The visible body text is made
    of the text nodes whose parent is not a script, style or noscript element
    and has neither display none nor visibility hidden; the text of an
    element or container is what [textContent()] gives, whatever is in it. *)
Theorem extractVA_rejects_excluded_numbers :
  (forall tr r,
      runs extractVA tr r ->
      exists vaNumber,
        r = Fulfilled vaNumber /\
        forall num,
          vaNumber = Some num ->
          ~ excluded num /\
          allDigits num /\ 10 <= String.length num <= 16 /\
          (fromLabel tr num \/ fromContainer tr num \/ fromBodyText tr num)) /\
  (forall nodes, visibleText nodes = visibleText (filter acceptNode nodes)) /\
  (forall node,
      acceptNode node = true ->
      exists parent,
        node.(parentElement) = Some parent /\
        toLowerCase parent.(tagName) <> "script" /\
        toLowerCase parent.(tagName) <> "style" /\
        toLowerCase parent.(tagName) <> "noscript" /\
        parent.(display) <> "none" /\
        parent.(visibility) <> "hidden").
Proof.
  split; [|split; [exact visibleText_filter | exact acceptNode_true]].
  intros tr r H. unfold extractVA in H.
  apply runs_tryCatch in H as (tr1 & a & tr2 & R1 & -> & H).
  destruct a as [v|e].
  - destruct H as [-> ->]. exists v. split; [reflexivity|].
    intros num ->. rewrite app_nil_r.
    eapply extractVA_body_sound in R1 as [L P]; [|reflexivity].
    split; [now apply isLikelyVA_not_excluded|].
    destruct P as [F | [F | F]].
    + destruct F as (sel & text & pre & post & I & V & T & M & E).
      pose proof M as M'. apply matchAll_digitToken in M' as (D & Len & _).
      split; [exact D|]. split; [exact Len|]. left.
      now exists sel, text, pre, post.
    + destruct F as (cs & c & text & pre & post & A & I & T & P & M & E).
      pose proof M as M'. apply matchAll_digitToken in M' as (D & Len & _).
      split; [exact D|]. split; [lia|]. right. left.
      now exists cs, c, text, pre, post.
    + destruct F as (nodes & m & I & M & F).
      pose proof F as F'. apply matchFirst_digits10to16 in F' as [D Len].
      split; [exact D|]. split; [exact Len|]. right. right.
      now exists nodes, m.
  - runs_step H. runs_step H. exists None. split; [exact H | discriminate].
Qed.

Example visibleText_paymentNodes :
  visibleText paymentNodes
  = "Rekening 1234567890123456 Virtual Account: 88700123456789 ".
Proof. reflexivity. Qed.

Example isLikelyVA_examples :
  map isLikelyVA ["835386638306873"; "1234567890123456"; "6281234567890";
                  "081234567890"; "0215551234567"; "88700123456789"]
  = [false; false; false; false; false; true].
Proof. reflexivity. Qed.

Lemma extractVA_rejects_excluded_numbers_witness :
  runs extractVA bodyTextTrace (Fulfilled (Some "88700123456789")) /\
  ~ excluded "88700123456789" /\
  allDigits "88700123456789" /\
  10 <= String.length "88700123456789" <= 16 /\
  (fromLabel bodyTextTrace "88700123456789" \/
   fromContainer bodyTextTrace "88700123456789" \/
   fromBodyText bodyTextTrace "88700123456789").
Proof.
  assert (R : runs extractVA bodyTextTrace (Fulfilled (Some "88700123456789"))).
  { unfold bodyTextTrace. cbn [map app vaLabelSelectors]. run_along. }
  split; [exact R|].
  destruct (proj1 extractVA_rejects_excluded_numbers _ _ R) as (v & E & K).
  injection E as <-. exact (K _ eq_refl).
Defined.

(* ===================================================================== *)
(** ** [fillForm]: the phone value is verified after typing *)
(* ===================================================================== *)

Section Phone.

Variable phone : string.

Local Abbreviation verdict := (verdictOf phone).

(** Steps over an awaited call of [H]; the branch in which the call is
rejected is closed: nothing was read back and nothing reported. *)
Ltac await_through H :=
runs_step H;
lazymatch type of H with
| runs (match ?a with _ => _ end) _ _ =>
  destruct a as [?v|?err]; [|runs_step H; subst; reflexivity]
end.

Lemma fillPhone_for_spec i inputs tr r :
runs (fillPhone_for phone i inputs) tr r ->
match typedValue tr with
| Some newValue =>
  r = Fulfilled tt /\
  exists pre inp j,
    quiet pre = true /\
    tr = pre ++ [Ev (TypeText inp phone (30 # 1)) (Fulfilled tt);
                 Ev (WaitForTimeout (100 # 1)) (Fulfilled tt);
                 Ev (InputValue inp) (Fulfilled newValue);
                 verdict j newValue]
| None => quiet tr = true
end.
Proof.
revert i tr. induction inputs as [|inp rest IH]; intros i tr H;
cbn [fillPhone_for] in H.
- runs_step H. reflexivity.
- await_through H. await_through H.
destruct (falsy v && (falsy (Some v0) || String.eqb v0 "")).
+ await_through H. await_through H. await_through H. await_through H.
  await_through H. await_through H. await_through H.
  destruct v1, v2, v3, v4, v5, v6.
  assert (L : tr0 = [verdict i v7] /\ r = Fulfilled tt).
  { unfold verdictOf.
    destruct (String.eqb v7 phone || String.eqb v7 (stripLeadingZero phone));
      runs_step H; now destruct a. }
  destruct L as [-> ->]. cbn. split; [reflexivity|].
  exists [Ev (GetAttribute inp "name") (Fulfilled v);
          Ev (InputValue inp) (Fulfilled v0);
          Ev (Click inp None) (Fulfilled tt);
          Ev (WaitForTimeout (100 # 1)) (Fulfilled tt);
          Ev (Fill inp "") (Fulfilled tt);
          Ev (WaitForTimeout (50 # 1)) (Fulfilled tt)], inp, i.
  split; reflexivity.
+ specialize (IH _ _ H). cbn.
  destruct (typedValue tr) as [newValue|]; [|exact IH].
  destruct IH as (-> & pre & inp' & j & Q & ->). split; [reflexivity|].
  exists (Ev (GetAttribute inp "name") (Fulfilled v)
          :: Ev (InputValue inp) (Fulfilled v0) :: pre), inp', j.
  split; [exact Q | reflexivity].
Qed.

Lemma verdict_cases (i : nat) (newValue : string) :
((newValue = phone \/ newValue = stripLeadingZero phone) /\
verdict i newValue =
Ev (Log logger.success
      [Str "Filled Phone (input "; Num (i + 1); Str "): ";
       Str (substring0 8 newValue); Str "..."]) tt)
\/
(newValue <> phone /\ newValue <> stripLeadingZero phone /\
verdict i newValue =
Ev (Log logger.warn [Str "Phone value after type: "; Str newValue]) tt).
Proof.
unfold verdictOf.
destruct (String.eqb newValue phone) eqn:E1;
[apply String.eqb_eq in E1; left; auto|].
destruct (String.eqb newValue (stripLeadingZero phone)) eqn:E2;
[apply String.eqb_eq in E2; left; auto|].
apply String.eqb_neq in E1, E2. right. auto.
Qed.


Lemma typedValue_snoc (tr : trace) (en : entry) :
typedValue tr = None -> valueRead en = None -> typedValue (tr ++ [en]) = None.
Proof.
intros H V. induction tr as [|e1 rest IH]; simpl.
- now destruct (typedOk en).
- simpl in H. destruct (typedOk e1).
+ destruct rest as [|e2 [|e3 rest']]; simpl.
  * now destruct (typedOk en).
  * simpl in IH. destruct (sleptOk e2).
    -- rewrite V. now apply IH.
    -- now apply IH.
  * destruct (sleptOk e2).
    -- destruct (valueRead e3); [discriminate | now apply IH].
    -- now apply IH.
+ now apply IH.
Qed.

Lemma quiet_app (l1 l2 : trace) : quiet (l1 ++ l2) = quiet l1 && quiet l2.
Proof. apply forallb_app. Qed.

End Phone.

(** C7: a run of the phone block always completes without an exception.
    When the phone number was typed and the stored value read back, the
    block ends right there with one message: a success message if the value
    is the configured phone number or that number without its leading zero,
    and otherwise a warning that carries the value; nothing before it
    reported a success.  When no value was read back, no success is
    reported at all. *)
Theorem phone_fill_is_verified :
  forall (phone : string) (tr : trace) (r : outcome unit),
    runs (fillPhoneByPosition phone) tr r ->
    r = Fulfilled tt /\
    match typedValue tr with
    | Some newValue =>
        exists pre inp i,
          quiet pre = true /\
          (((newValue = phone \/ newValue = stripLeadingZero phone) /\
            tr = pre ++
                 [Ev (TypeText inp phone (30 # 1)) (Fulfilled tt);
                  Ev (WaitForTimeout (100 # 1)) (Fulfilled tt);
                  Ev (InputValue inp) (Fulfilled newValue);
                  Ev (Log logger.success
                         [Str "Filled Phone (input "; Num (i + 1); Str "): ";
                          Str (substring0 8 newValue); Str "..."]) tt])
           \/
           (newValue <> phone /\ newValue <> stripLeadingZero phone /\
            tr = pre ++
                 [Ev (TypeText inp phone (30 # 1)) (Fulfilled tt);
                  Ev (WaitForTimeout (100 # 1)) (Fulfilled tt);
                  Ev (InputValue inp) (Fulfilled newValue);
                  Ev (Log logger.warn
                         [Str "Phone value after type: "; Str newValue]) tt]))
    | None => quiet tr = true
    end.
Proof.
  intros phone tr r H. unfold fillPhoneByPosition in H.
  apply runs_tryCatch in H as (tr1 & a & tr2 & R1 & -> & H).
  runs_step R1. destruct a0 as [inputs|e].
  - runs_step R1. apply fillPhone_for_spec in R1.
    cbn [app typedValue typedOk]. 
    destruct a as [[]|e].
    + destruct H as [-> ->]. split; [reflexivity|]. rewrite app_nil_r.
      destruct (typedValue tr0) as [newValue|]; [|exact R1].
      destruct R1 as (_ & pre & inp & j & Q & ->).
      exists (Ev (LocatorAll (Locator "input[type='text']:visible")) (Fulfilled inputs)
              :: Ev (Log logger.info
                        [Str "Found "; Num (length inputs);
                         Str " visible text inputs for phone check"]) a0 :: pre),
             inp, j.
      split; [exact Q|].
      destruct (verdict_cases phone j newValue) as [[V ->] | (N1 & N2 & ->)];
        [left | right]; auto.
    + runs_step H. split; [now destruct a|].
      destruct (typedValue tr0) as [newValue|] eqn:T;
        [destruct R1 as [R1 _]; discriminate|].
      rewrite typedValue_snoc; [|exact T | reflexivity].
      change (quiet (tr0 ++ [Ev (Log logger.warn
                [Str "Phone position fill error: "; Str (let 'Error m := e in m)]) a])
              = true).
      rewrite quiet_app, R1. reflexivity.
  - runs_step R1. subst a. runs_step H. split; [now destruct a | reflexivity].
Qed.

Lemma phone_fill_is_verified_witness :
  runs (fillPhoneByPosition "08123456789")
       [Ev (LocatorAll (Locator "input[type='text']:visible"))
           (Fulfilled [Element 1; Element 2]);
        Ev (Log logger.info
               [Str "Found "; Num 2; Str " visible text inputs for phone check"]) tt;
        Ev (GetAttribute (Element 1) "name") (Fulfilled (Some "firstname"));
        Ev (InputValue (Element 1)) (Fulfilled "Budi");
        Ev (GetAttribute (Element 2) "name") (Fulfilled None);
        Ev (InputValue (Element 2)) (Fulfilled "");
        Ev (Click (Element 2) None) (Fulfilled tt);
        Ev (WaitForTimeout (100 # 1)) (Fulfilled tt);
        Ev (Fill (Element 2) "") (Fulfilled tt);
        Ev (WaitForTimeout (50 # 1)) (Fulfilled tt);
        Ev (TypeText (Element 2) "08123456789" (30 # 1)) (Fulfilled tt);
        Ev (WaitForTimeout (100 # 1)) (Fulfilled tt);
        Ev (InputValue (Element 2)) (Fulfilled "812");
        Ev (Log logger.warn [Str "Phone value after type: "; Str "812"]) tt]
       (Fulfilled tt) /\
  exists pre inp,
    quiet pre = true /\
    "812" <> "08123456789" /\ "812" <> stripLeadingZero "08123456789" /\
    [Ev (LocatorAll (Locator "input[type='text']:visible"))
        (Fulfilled [Element 1; Element 2]);
     Ev (Log logger.info
            [Str "Found "; Num 2; Str " visible text inputs for phone check"]) tt;
     Ev (GetAttribute (Element 1) "name") (Fulfilled (Some "firstname"));
     Ev (InputValue (Element 1)) (Fulfilled "Budi");
     Ev (GetAttribute (Element 2) "name") (Fulfilled None);
     Ev (InputValue (Element 2)) (Fulfilled "");
     Ev (Click (Element 2) None) (Fulfilled tt);
     Ev (WaitForTimeout (100 # 1)) (Fulfilled tt);
     Ev (Fill (Element 2) "") (Fulfilled tt);
     Ev (WaitForTimeout (50 # 1)) (Fulfilled tt);
     Ev (TypeText (Element 2) "08123456789" (30 # 1)) (Fulfilled tt);
     Ev (WaitForTimeout (100 # 1)) (Fulfilled tt);
     Ev (InputValue (Element 2)) (Fulfilled "812");
     Ev (Log logger.warn [Str "Phone value after type: "; Str "812"]) tt]
    = pre ++
      [Ev (TypeText inp "08123456789" (30 # 1)) (Fulfilled tt);
       Ev (WaitForTimeout (100 # 1)) (Fulfilled tt);
       Ev (InputValue inp) (Fulfilled "812");
       Ev (Log logger.warn [Str "Phone value after type: "; Str "812"]) tt].
Proof.
  assert (R : runs (fillPhoneByPosition "08123456789")
       [Ev (LocatorAll (Locator "input[type='text']:visible"))
           (Fulfilled [Element 1; Element 2]);
        Ev (Log logger.info
               [Str "Found "; Num 2; Str " visible text inputs for phone check"]) tt;
        Ev (GetAttribute (Element 1) "name") (Fulfilled (Some "firstname"));
        Ev (InputValue (Element 1)) (Fulfilled "Budi");
        Ev (GetAttribute (Element 2) "name") (Fulfilled None);
        Ev (InputValue (Element 2)) (Fulfilled "");
        Ev (Click (Element 2) None) (Fulfilled tt);
        Ev (WaitForTimeout (100 # 1)) (Fulfilled tt);
        Ev (Fill (Element 2) "") (Fulfilled tt);
        Ev (WaitForTimeout (50 # 1)) (Fulfilled tt);
        Ev (TypeText (Element 2) "08123456789" (30 # 1)) (Fulfilled tt);
        Ev (WaitForTimeout (100 # 1)) (Fulfilled tt);
        Ev (InputValue (Element 2)) (Fulfilled "812");
        Ev (Log logger.warn [Str "Phone value after type: "; Str "812"]) tt]
       (Fulfilled tt)).
  { run_along. }
  split; [exact R|].
  destruct (@phone_fill_is_verified _ _ _ R) as [_ K]. cbn in K.
  destruct K as (pre & inp & i & Q & [[[V | V] _] | (N1 & N2 & E)]);
    [discriminate V | discriminate V |].
  exists pre, inp. auto.
Defined.

(* ===================================================================== *)
(** ** Running against a browser *)
(* ===================================================================== *)

Lemma exec_runs {W R} (b : browser W) (fuel : nat) :
  forall (t : itree pageE R) (w : W) tr r w',
    exec b fuel t w = Some (tr, r, w') -> runs t tr r.
Proof.
  induction fuel as [|fuel IH]; intros t w tr r w' H; simpl in H; [discriminate|].
  destruct (observe t) as [r0 | u | X e k] eqn:O.
  - injection H as <- <- _. now constructor.
  - apply runs_tau with u; [exact O|]. now apply IH with w w'.
  - destruct (b X e w) as [a w1]. 
    destruct (exec b fuel (k a) w1) as [[[tr1 r1] w2]|] eqn:E; [|discriminate].
    injection H as <- <- _. apply runs_vis with k; [exact O|].
    now apply IH with w1 w2.
Qed.

(** On a blank page the whole payment phase still returns true ... *)
Example navigateToPayment_on_blank_page :
  resultOf blankPage 2000 navigateToPayment tt = Some (Fulfilled true).
Proof. vm_compute. reflexivity. Qed.

(** ... and category selection finds nothing to select. *)
Example selectCategory_on_blank_page :
  resultOf blankPage 2000 (selectCategory ["VIP"; "GOLD"] 2) tt
  = Some (Fulfilled false).
Proof. vm_compute. reflexivity. Qed.

Example findElement_on_blank_page :
  resultOf blankPage 100 (findElement (Many selectors.event.buyButton) noOptions) tt
  = Some (Fulfilled None).
Proof. vm_compute. reflexivity. Qed.

(* ===================================================================== *)
(** ** Reference extraction reads more than the visible text *)
(* ===================================================================== *)

(** C6 (the code departs from the claim): the container step reads
    [textContent()], which holds the text of scripts too.  On the page of
    [scriptedNodes] the only number is inside an inline script of the
    visible [main]; the visible text of the page, as the tree walker of the
    third step computes it, has no digit in it; and [extractVA] returns that
    number.  And the body text step cuts a number: on the page of
    [longRunNodes] the visible text holds no token of 10 to 16 digits, only
    a run of twenty, and [extractVA] returns its first sixteen. *)
Theorem extractVA_takes_script_text :
  (exec scriptedPage 500 extractVA tt
   = Some (scriptedTrace, Fulfilled (Some "9988776655443322"), tt) /\
   runs extractVA scriptedTrace (Fulfilled (Some "9988776655443322")) /\
   map acceptNode scriptedNodes = [true; false] /\
   visibleText scriptedNodes = "Pembayaran Virtual Account BCA " /\
   includes (visibleText scriptedNodes) "9988776655443322" = false) /\
  (resultOf longRunPage 500 extractVA tt
   = Some (Fulfilled (Some "9876543210987654")) /\
   visibleText longRunNodes = "Rekening 98765432109876543210 " /\
   matchAll false (digitToken 10 16) (visibleText longRunNodes) = []).
Proof.
  assert (E : exec scriptedPage 500 extractVA tt
              = Some (scriptedTrace, Fulfilled (Some "9988776655443322"), tt)).
  { vm_compute. reflexivity. }
  split.
  - split; [exact E|]. split; [exact (exec_runs _ _ _ _ E)|].
    repeat split; vm_compute; reflexivity.
  - repeat split; vm_compute; reflexivity.
Qed.

(* ===================================================================== *)
(** ** [selectCategory]: the first strategy does not look at the keywords *)
(* ===================================================================== *)

Example ofNat_12 : ofNat 12 = "12".
Proof. reflexivity. Qed.

(** The keyword strategy taken alone selects the preferred category. *)
Example selectByKeyword_selects_gold :
  exec ticketPage 3000 (selectByKeyword ["GOLD"] 1) None
  = Some
      ([ Ev (QueryAll selectButtonsSelector) (Fulfilled [silverButton; goldButton]);
         Ev (Log logger.info [Str "Found "; Num 2; Str " Select button(s)"]) tt;
         Ev (Log logger.info [Str "Searching for category: '"; Str "GOLD"; Str "'"]) tt;
         Ev (QueryAll ticketSectionsSelector)
            (Fulfilled [silverSection; goldSection]);
         Ev (TextContent silverSection) (Fulfilled (Some "SILVER Rp 350.000 Select"));
         Ev (TextContent goldSection) (Fulfilled (Some "GOLD Rp 750.000 Select"));
         Ev (Log logger.success
                [Str "Found available category: '"; Str "GOLD"; Str "'"]) tt;
         Ev (Query (Some goldSection)
                   "button:has-text('Select'), button:has-text('Pilih')")
            (Fulfilled (Some goldButton));
         Ev (Click goldButton None) (Fulfilled tt);
         Ev (Log logger.success [Str "Clicked Select button!"]) tt;
         Ev (WaitForTimeout (1000 # 1)) (Fulfilled tt);
         Ev (Log logger.info [Str "Setting quantity to "; Num 1; Str "..."]) tt;
         Ev (Query None
               "input[type='number'], .quantity-input, [class*='quantity'] input, input[name*='qty']")
            (Fulfilled None);
         Ev (Query None ".qty-plus, .btn-plus, [class*='plus'], button:has-text('+')")
            (Fulfilled None);
         Ev (Log logger.warn
                [Str "Could not find quantity selector, proceeding with default quantity"])
            tt ],
       Fulfilled (Some true), Some "GOLD").
Proof. vm_compute. reflexivity. Qed.

(** C1 (the code departs from the claim): on the ticket page that lists
    SILVER before GOLD, both on sale, [selectCategory] clicks the first
    visible button labelled Select, picks the quantity, proceeds and returns
    true, and the category selected is SILVER: this whatever the preferred
    keywords are, [GOLD] included.  The execution is the same for every
    keyword list; in it the ticket sections are never queried, so no keyword
    is tried and no sold-out marker is looked for. *)
Theorem selectCategory_clicks_first_select_button :
  forall categoryKeywords : list string,
    exec ticketPage 3000 (selectCategory categoryKeywords 1) None
    = Some (directClickTrace, Fulfilled true, Some "SILVER") /\
    runs (selectCategory categoryKeywords 1) directClickTrace (Fulfilled true) /\
    existsb readsCategories directClickTrace = false.
Proof.
  intros categoryKeywords.
  assert (E : exec ticketPage 3000 (selectCategory categoryKeywords 1) None
              = Some (directClickTrace, Fulfilled true, Some "SILVER")).
  { vm_compute. reflexivity. }
  split; [exact E|]. split; [|reflexivity].
  exact (exec_runs _ _ _ _ E).
Qed.

(* ===================================================================== *)
(** ** The probing resolver *)
(* ===================================================================== *)

Lemma elementExists_for_probed sels tr r :
  runs (elementExists_for sels) tr r <-> probed sels tr r.
Proof.
  revert tr r. induction sels as [|sel rest IH]; intros tr r; simpl.
  - unfold ret. rewrite runs_Ret. split.
    + intros [-> ->]. exists []. split; [constructor|]. left. now repeat split.
    + intros (misses & _ & [(L & -> & ->) | (s & el & N & _)]).
      * destruct misses; [now split | discriminate].
      * destruct (length misses); discriminate.
  - rewrite runs_trigger_bind. split.
    + intros (a & tr' & -> & H).
      destruct a as [[el|]|e].
      * apply runs_Ret in H as [-> ->]. exists []. split; [constructor|].
        right. exists sel, el. now repeat split.
      * apply IH in H as (misses & F & D).
        exists (Fulfilled None :: misses). split; [constructor; [exact I|exact F]|].
        destruct D as [(L & -> & ->) | (s & el & N & -> & ->)].
        -- left. simpl. now rewrite L.
        -- right. exists s, el. now repeat split.
      * apply IH in H as (misses & F & D).
        exists (Rejected e :: misses). split; [constructor; [exact I|exact F]|].
        destruct D as [(L & -> & ->) | (s & el & N & -> & ->)].
        -- left. simpl. now rewrite L.
        -- right. exists s, el. now repeat split.
    + intros (misses & F & D). destruct misses as [|a misses].
      * destruct D as [(L & _) | (s & el & N & -> & ->)]; [discriminate|].
        injection N as <-. exists (Fulfilled (Some el)), []. split; [reflexivity|].
        now apply runs_Ret.
      * inversion F as [|? ? Ma F']; subst.
        assert (K : runs (elementExists_for rest) (tl tr) r).
        { apply IH. exists misses. split; [exact F'|].
          destruct D as [(L & -> & ->) | (s & el & N & -> & ->)].
          - left. injection L as L. now repeat split.
          - right. exists s, el. now repeat split. }
        exists a, (tl tr). split.
        -- destruct D as [(_ & -> & _) | (s & el & _ & -> & _)]; reflexivity.
        -- destruct a as [[el|]|e]; [destruct Ma | exact K | exact K].
Qed.

(** X1: a finished run of [elementExists] asks [page.$] for the candidates
    in list order, passes over a candidate that yields nothing or throws,
    stops at the first candidate that yields an element and returns true
    then; when every candidate was passed over it returns false.  It is never
    rejected.  (A single selector is a list of one.) *)
Theorem elementExists_first_hit :
  forall (selectorArray : selectorArg) (tr : trace) (r : outcome bool),
    runs (elementExists selectorArray) tr r <->
    probed (toArray selectorArray) tr r.
Proof.
  intros selectorArray tr r. unfold elementExists.
  apply elementExists_for_probed.
Qed.

(* ===================================================================== *)
(** ** The poller only observes *)
(* ===================================================================== *)

Lemma uses_iter {I R} (P : entry -> Prop) (body : I -> itree pageE (I + R)) :
  (forall i, uses P (body i)) -> forall i, uses P (ITree.iter body i).
Proof.
  intros H i tr K. apply partial_iter in K.
  induction K as [i tr K | i tr1 i' tr2 K1 K2 IH].
  - now apply (H i).
  - apply Forall_app. split; [|exact IH].
    eapply uses_runs; [apply H | exact K1].
Qed.

Lemma uses_weaken {R} (P Q : entry -> Prop) (t : itree pageE R) :
  (forall en, P en -> Q en) -> uses P t -> uses Q t.
Proof.
  intros PQ U tr H. apply U in H. revert H. apply Forall_impl. exact PQ.
Qed.

Lemma scanBuyButton_observes pollInterval iterations sels :
  incl sels selectors.event.buyButton ->
  uses (observes pollInterval) (scanBuyButton iterations sels).
Proof.
  induction sels as [|sel rest IH]; intros Hin; simpl.
  - apply uses_Ret.
  - assert (Hrest : uses (observes pollInterval) (scanBuyButton iterations rest)).
    { apply IH. intros x Hx. apply Hin. now right. }
    apply uses_bind; [|intros [[b|]|e]; [apply uses_Ret | exact Hrest | exact Hrest]].
    unfold andThen. apply uses_bind.
    { apply uses_trigger. intros a. simpl. apply Hin. now left. }
    intros [[button|]|e]; [|apply uses_Ret ..].
    apply uses_bind; [apply uses_trigger; intros; exact I|].
    intros [isDisabled|e]; [|apply uses_Ret].
    apply uses_bind; [apply uses_trigger; intros; exact I|].
    intros [isVisible|e]; [|apply uses_Ret].
    destruct (isVisible && negb isDisabled); [|apply uses_Ret].
    unfold perform. apply uses_bind.
    { apply uses_bind; [apply uses_trigger; intros; exact I|].
      intros a. apply uses_Ret. }
    intros [a|e]; apply uses_Ret.
Qed.

Lemma waitForBuyButton_body_observes pollInterval st :
  uses (observes pollInterval) (waitForBuyButton_body pollInterval st).
Proof.
  destruct st as [found iterations]. unfold waitForBuyButton_body.
  destruct found; [apply uses_Ret|].
  apply uses_bind; [apply uses_trigger; intros; exact I|].
  intros currentUrl. destruct (isWaitingRoom currentUrl).
  - apply uses_bind.
    { destruct (_ =? _); [apply uses_trigger; intros; exact I | apply uses_Ret]. }
    intros _. apply uses_bind; [apply uses_trigger; intros; reflexivity|].
    intros [a|e]; apply uses_Ret.
  - apply uses_bind; [apply scanBuyButton_observes; apply incl_refl|].
    intros [[button|]|e]; [apply uses_Ret | | apply uses_Ret].
    apply uses_bind.
    { destruct (_ =? _); [apply uses_trigger; intros; exact I | apply uses_Ret]. }
    intros _. apply uses_bind; [apply uses_trigger; intros; reflexivity|].
    intros [a|e]; apply uses_Ret.
Qed.

(** X2: in every execution of the poller, finished or not, gated or not,
    each interaction is a reading of the URL, a [page.$] of one of the
    buy-button selectors, a question whether an element is disabled or
    visible, a log message, or a sleep of exactly the poll interval.  So the
    poller never reloads, navigates, clicks, fills or types. *)
Theorem waitForBuyButton_only_observes :
  forall (pollInterval : Q) (tr : trace),
    partial (waitForBuyButton pollInterval) tr ->
    Forall (observes pollInterval) tr.
Proof.
  intros pollInterval tr H. revert tr H.
  change (uses (observes pollInterval) (waitForBuyButton pollInterval)).
  unfold waitForBuyButton.
  apply uses_bind; [apply uses_trigger; intros; exact I|].
  intros _. apply uses_iter. apply waitForBuyButton_body_observes.
Qed.

Lemma waitForBuyButton_only_observes_witness :
  partial (waitForBuyButton (100 # 1))
          [ Ev (Log logger.war
                   [Str "WAR MODE ACTIVATED - Scanning for ticket button..."]) tt;
            Ev Url "https://www.loket.com/event/konser";
            Ev (Query None "button:has-text('Beli Tiket')") (Fulfilled None);
            Ev (Query None "a:has-text('Beli Tiket')")
               (Fulfilled (Some (Element 4)));
            Ev (IsDisabled (Element 4)) (Fulfilled true) ] /\
  Forall (observes (100 # 1))
         [ Ev (Log logger.war
                  [Str "WAR MODE ACTIVATED - Scanning for ticket button..."]) tt;
           Ev Url "https://www.loket.com/event/konser";
           Ev (Query None "button:has-text('Beli Tiket')") (Fulfilled None);
           Ev (Query None "a:has-text('Beli Tiket')")
              (Fulfilled (Some (Element 4)));
           Ev (IsDisabled (Element 4)) (Fulfilled true) ].
Proof.
  assert (P : partial (waitForBuyButton (100 # 1))
          [ Ev (Log logger.war
                   [Str "WAR MODE ACTIVATED - Scanning for ticket button..."]) tt;
            Ev Url "https://www.loket.com/event/konser";
            Ev (Query None "button:has-text('Beli Tiket')") (Fulfilled None);
            Ev (Query None "a:has-text('Beli Tiket')")
               (Fulfilled (Some (Element 4)));
            Ev (IsDisabled (Element 4)) (Fulfilled true) ]).
  { run_along. }
  split; [exact P|].
  exact (@waitForBuyButton_only_observes _ _ P).
Defined.
(* ===================================================================== *)
(** ** [setQuantity] *)
(* ===================================================================== *)

Lemma quiet_cons_click (h : handle) (t : option Q) (a : outcome unit) (tr : trace) :
  quiet (Ev (Click h t) a :: tr) = quiet tr.
Proof. reflexivity. Qed.

Lemma pressPlus_runs plusButton times tr r :
  runs (pressPlus plusButton times) tr r ->
  (r = Fulfilled tt /\ tr = presses plusButton times) \/
  (exists e, r = Rejected e /\ quiet tr = true /\ clicks tr <= times).
Proof.
  revert tr. induction times as [|times IH]; intros tr H; simpl in H.
  - runs_step H. subst r. now left.
  - runs_step H. destruct a as [[]|e].
    + runs_step H. destruct a as [[]|e].
      * destruct (IH _ H) as [[-> ->] | (e & -> & Q & C)]; [now left|].
        right. exists e. split; [reflexivity|]. split; [exact Q|].
        unfold clicks in *. simpl. lia.
      * runs_step H. subst r. right. exists e. repeat split. unfold clicks. simpl. lia.
    + runs_step H. subst r. right. exists e. repeat split. unfold clicks. simpl. lia.
Qed.

Lemma clicks_presses plusButton times : clicks (presses plusButton times) = times.
Proof.
  induction times as [|times IH]; [reflexivity|].
  unfold clicks in *. simpl. now rewrite IH.
Qed.

Lemma setQuantity_shape :
  forall (amount : nat) (tr : trace) (r : outcome unit),
    runs (setQuantity amount) tr r ->
    r = Fulfilled tt /\
    exists rest,
      tr = Ev (Log logger.info [Str "Setting quantity to "; Num amount; Str "..."]) tt
           :: rest /\
      quantitySet amount rest.
Proof.
  intros amount tr r H. unfold setQuantity in H.
  runs_step H. destruct a.
  apply runs_tryCatch in H as (tr1 & a & tr2 & R1 & -> & R2).
  assert (Err : forall e pre,
             quiet pre = true -> clicks pre <= amount - 1 ->
             runs (perform (Log logger.warn [Str "Error setting quantity: ";
                                             Str (let 'Error m := e in m)])) tr2 r ->
             r = Fulfilled tt /\
             exists rest,
               Ev (Log logger.info
                      [Str "Setting quantity to "; Num amount; Str "..."]) tt
               :: pre ++ tr2
               = Ev (Log logger.info
                        [Str "Setting quantity to "; Num amount; Str "..."]) tt
                 :: rest /\
               quantitySet amount rest).
  { intros e pre Q C K. runs_step K. destruct a0. subst r. split; [reflexivity|].
    eexists. split; [reflexivity|].
    right. right. right. exists pre, (let 'Error m := e in m). now repeat split. }
  runs_step R1. destruct a0 as [[quantityInput|]|e].
  - runs_step R1. destruct a0 as [[]|e].
    + runs_step R1. destruct a0 as [[]|e].
      * runs_step R1. destruct a0. subst a. destruct R2 as [-> ->].
        split; [reflexivity|]. eexists. split; [reflexivity|].
        left. exists quantityInput. reflexivity.
      * runs_step R1. subst a. apply (Err e); [reflexivity | apply Nat.le_0_l | exact R2].
    + runs_step R1. subst a. apply (Err e); [reflexivity | apply Nat.le_0_l | exact R2].
  - runs_step R1. destruct a0 as [[plusButton|]|e].
    + apply runs_andThen in R1 as (tr3 & b & tr4 & R3 & -> & R4).
      apply pressPlus_runs in R3 as [[-> ->] | (e & -> & Q & C)].
      * runs_step R4. destruct a0. subst a. destruct R2 as [-> ->].
        split; [reflexivity|]. eexists. split; [reflexivity|].
        right. left. exists plusButton. rewrite app_nil_r. reflexivity.
      * destruct R4 as [-> ->]. rewrite app_nil_r.
        apply (Err e); [exact Q | exact C | exact R2].
    + runs_step R1. destruct a0. subst a. destruct R2 as [-> ->].
      split; [reflexivity|]. eexists. split; [reflexivity|].
      right. right. left. reflexivity.
    + runs_step R1. subst a. apply (Err e); [reflexivity | apply Nat.le_0_l | exact R2].
  - runs_step R1. subst a. apply (Err e); [reflexivity | apply Nat.le_0_l | exact R2].
Qed.

(** X3: [setQuantity] never throws.  After its first message a finished run
    is one of four: the quantity input was found and filled, first with the
    empty string and then with the amount in decimal; or there was no input
    but a plus button, which was pressed [amount - 1] times, each press
    followed by a sleep of 100 ms (no press at all for an amount of 0 or 1);
    or neither was found and a warning says so; or one of the calls threw,
    after at most [amount - 1] presses and without any success message, and
    a warning carries the error. *)
Theorem setQuantity_sets_or_warns :
  forall (amount : nat) (tr : trace) (r : outcome unit),
    runs (setQuantity amount) tr r ->
    r = Fulfilled tt /\
    exists rest,
      tr = Ev (Log logger.info [Str "Setting quantity to "; Num amount; Str "..."]) tt
           :: rest /\
      quantitySet amount rest.
Proof. exact setQuantity_shape. Qed.


Lemma setQuantity_sets_or_warns_witness :
  runs (setQuantity 3)
       [ Ev (Log logger.info [Str "Setting quantity to "; Num 3; Str "..."]) tt;
         Ev (Query None quantityInputSelector) (Fulfilled None);
         Ev (Query None plusButtonSelector) (Fulfilled (Some (Element 7)));
         Ev (Click (Element 7) None) (Fulfilled tt);
         Ev (WaitForTimeout (100 # 1)) (Fulfilled tt);
         Ev (Click (Element 7) None) (Fulfilled tt);
         Ev (WaitForTimeout (100 # 1)) (Fulfilled tt);
         Ev (Log logger.success
                [Str "Quantity set to "; Num 3; Str " using plus button"]) tt ]
       (Fulfilled tt) /\
  quantitySet 3
       [ Ev (Query None quantityInputSelector) (Fulfilled None);
         Ev (Query None plusButtonSelector) (Fulfilled (Some (Element 7)));
         Ev (Click (Element 7) None) (Fulfilled tt);
         Ev (WaitForTimeout (100 # 1)) (Fulfilled tt);
         Ev (Click (Element 7) None) (Fulfilled tt);
         Ev (WaitForTimeout (100 # 1)) (Fulfilled tt);
         Ev (Log logger.success
                [Str "Quantity set to "; Num 3; Str " using plus button"]) tt ].
Proof.
  assert (R : runs (setQuantity 3)
       [ Ev (Log logger.info [Str "Setting quantity to "; Num 3; Str "..."]) tt;
         Ev (Query None quantityInputSelector) (Fulfilled None);
         Ev (Query None plusButtonSelector) (Fulfilled (Some (Element 7)));
         Ev (Click (Element 7) None) (Fulfilled tt);
         Ev (WaitForTimeout (100 # 1)) (Fulfilled tt);
         Ev (Click (Element 7) None) (Fulfilled tt);
         Ev (WaitForTimeout (100 # 1)) (Fulfilled tt);
         Ev (Log logger.success
                [Str "Quantity set to "; Num 3; Str " using plus button"]) tt ]
       (Fulfilled tt)).
  { run_along. }
  split; [exact R|].
  destruct (@setQuantity_sets_or_warns _ _ _ R) as (_ & rest & E & K).
  injection E as <-. exact K.
Defined.
(* ===================================================================== *)
(** ** [selectCategory]: what the strategies do *)
(* ===================================================================== *)

(** One step of a hypothesis [runs prog tr r], the answer of the browser
    being named. *)
Tactic Notation "step" hyp(H) "as" ident(a) :=
  cbv beta iota in H;
  let tr' := fresh "tr" in
  lazymatch type of H with
  | runs (andThen (orElse (await _) _) _) _ _ =>
      apply runs_andThen_orElse in H as (a & tr' & -> & H)
  | runs (andThen (await _) _) _ _ =>
      apply runs_andThen_await in H as (a & tr' & -> & H)
  | runs (andThen (perform _) _) _ _ =>
      apply runs_andThen_perform in H as (a & tr' & -> & H)
  | runs (ITree.bind (ITree.trigger _) _) _ _ =>
      apply runs_trigger_bind in H as (a & tr' & -> & H)
  | runs (ITree.bind (await _) _) _ _ =>
      apply runs_trigger_bind in H as (a & tr' & -> & H)
  end.

(** The end of a run: a returned value, a thrown exception or a last
    message. *)
Ltac finish H :=
  cbv beta iota in H;
  lazymatch type of H with
  | runs (perform _) _ _ =>
      let a := fresh "a" in
      apply runs_perform in H as (a & -> & ->);
      lazymatch type of a with unit => destruct a | _ => idtac end
  | runs (Ret _) _ _ => apply runs_Ret in H as [-> ->]
  | runs (ret _) _ _ => apply runs_Ret in H as [-> ->]
  | runs (throw _) _ _ => apply runs_Ret in H as [-> ->]
  | runs (await _) _ _ => apply runs_trigger in H as ->
  | runs (ITree.trigger _) _ _ => apply runs_trigger in H as ->
  end.

Ltac uses_steps :=
  repeat first
    [ uses_step
    | progress unfold tryCatch, orElse, when ].

Section Always.

Variable P : trace -> entry -> Prop.

(** [P] only looks at the end of what came before. *)
Hypothesis P_extends : forall pre0 pre en, P pre en -> P (pre0 ++ pre) en.

Lemma always_nil : always P [].
Proof. intros pre en post E. destruct pre; discriminate. Qed.

Lemma always_app tr1 tr2 : always P tr1 -> always P tr2 -> always P (tr1 ++ tr2).
Proof using P_extends.
  intros H1 H2 pre x post E.
  apply app_eq_app in E as [l [[E1 E2] | [E1 E2]]].
  - destruct l as [|y l].
    + simpl in E2. rewrite app_nil_r in E1. subst pre.
      rewrite <- (app_nil_r tr1). apply P_extends. now apply H2 with post.
    + injection E2 as <- E2. now apply H1 with l.
  - subst pre. apply P_extends. now apply H2 with post.
Qed.

Lemma always_one en : P [] en -> always P [en].
Proof.
  intros H pre x post E. destruct pre as [|y pre].
  - injection E as <-. exact H.
  - destruct pre; discriminate.
Qed.

Lemma always_cons en tr : P [] en -> always P tr -> always P (en :: tr).
Proof using P_extends.
  intros H K. change (always P ([en] ++ tr)).
  apply always_app; [now apply always_one | exact K].
Qed.

Lemma always_Forall tr : Forall (fun en => P [] en) tr -> always P tr.
Proof using P_extends.
  induction 1 as [|en tr H F IH]; [apply always_nil | now apply always_cons].
Qed.

End Always.

Lemma always_impl (P Q : trace -> entry -> Prop) tr :
  (forall pre en, P pre en -> Q pre en) -> always P tr -> always Q tr.
Proof. intros PQ H pre en post E. apply PQ. now apply H with post. Qed.

Lemma opensAvailable_extends categoryKeywords pre0 pre en :
  opensAvailable categoryKeywords pre en ->
  opensAvailable categoryKeywords (pre0 ++ pre) en.
Proof.
  destruct en as [X e a]. destruct e; simpl; try exact (fun H => H).
  destruct scope as [section|]; [|exact (fun H => H)].
  intros (pre1 & keyword & text & -> & H).
  exists (pre0 ++ pre1), keyword, text. split; [now rewrite app_assoc | exact H].
Qed.

Lemma opensAvailable_incl kws1 kws2 pre en :
  incl kws1 kws2 -> opensAvailable kws1 pre en -> opensAvailable kws2 pre en.
Proof.
  intros I. destruct en as [X e a]. destruct e; simpl; try exact (fun H => H).
  destruct scope as [section|]; [|exact (fun H => H)].
  intros (pre1 & keyword & text & -> & Hin & H).
  exists pre1, keyword, text. split; [reflexivity|]. split; [now apply I | exact H].
Qed.

Lemma scopedQuery_opens kws en :
  scopedQuery en = false -> opensAvailable kws [] en.
Proof.
  destruct en as [X e a]. destruct e; try (intros _; exact I).
  destruct scope; [discriminate | intros _; exact I].
Qed.

Lemma plain_opens kws tr : plain tr -> always (opensAvailable kws) tr.
Proof.
  intros (_ & _ & F). apply always_Forall; [apply opensAvailable_extends|].
  revert F. apply Forall_impl. apply scopedQuery_opens.
Qed.

Lemma searched_app tr1 tr2 : searched (tr1 ++ tr2) = searched tr1 ++ searched tr2.
Proof.
  induction tr1 as [|en tr1 IH]; [reflexivity|]. simpl.
  destruct (searchedKeyword en); simpl; now rewrite IH.
Qed.

Lemma plain_nil : plain [].
Proof. repeat split. constructor. Qed.

Lemma plain_app tr1 tr2 : plain tr1 -> plain tr2 -> plain (tr1 ++ tr2).
Proof.
  intros (S1 & A1 & F1) (S2 & A2 & F2). split; [|split].
  - now rewrite searched_app, S1, S2.
  - now rewrite existsb_app, A1, A2.
  - apply Forall_app. now split.
Qed.

Lemma plain_cons en tr :
  searchedKeyword en = None -> announcesFirstAvailable en = false ->
  scopedQuery en = false -> plain tr -> plain (en :: tr).
Proof.
  intros S A Q (S2 & A2 & F2). split; [|split].
  - simpl. now rewrite S.
  - simpl. now rewrite A.
  - now constructor.
Qed.

(** *** [setQuantity] inside the strategies *)

Lemma pressPlus_quantityStep plusButton times :
  uses (fun en => quantityStep en = true) (pressPlus plusButton times).
Proof. induction times as [|times IH]; simpl; [uses_steps | uses_steps; exact IH]. Qed.

Lemma setQuantity_quantityStep amount :
  uses (fun en => quantityStep en = true) (setQuantity amount).
Proof.
  unfold setQuantity. uses_steps; apply pressPlus_quantityStep.
Qed.

Lemma quantityStep_facts en :
  quantityStep en = true ->
  searchedKeyword en = None /\ announcesFirstAvailable en = false /\
  scopedQuery en = false.
Proof.
  destruct en as [X e a]. destruct e; try discriminate; try (intros _; now repeat split).
  - destruct scope; [discriminate | intros _; now repeat split].
  - destruct lvl; try discriminate;
      destruct msg as [|[] [|[] [|[] [|]]]]; try discriminate;
      try (intros _; now repeat split).
    simpl. intros E. apply String.eqb_eq in E. subst s. now repeat split.
Qed.

Lemma setQuantity_plain amount tr r :
  runs (setQuantity amount) tr r -> r = Fulfilled tt /\ plain tr.
Proof.
  intros H. split.
  - now apply setQuantity_shape in H.
  - eapply uses_runs in H; [|apply setQuantity_quantityStep].
    induction H as [|en tr E F IH]; [apply plain_nil|].
    apply quantityStep_facts in E as (S & A & Q). now apply plain_cons.
Qed.

(** *** Strategy 2: the keyword search *)

Lemma opens_found kws section text keyword sel (a : outcome (option handle)) :
  In keyword kws ->
  includes (toLowerCase text) (toLowerCase keyword) = true ->
  includes (toLowerCase text) "sold out" = false ->
  includes (toLowerCase text) "habis" = false ->
  always (opensAvailable kws)
         [ Ev (TextContent section) (Fulfilled (Some text));
           Ev (Log logger.success
                  [Str "Found available category: '"; Str keyword; Str "'"]) tt;
           Ev (Query (Some section) sel) a ].
Proof.
  intros Hin H1 H2 H3 pre en post E.
  destruct pre as [|x [|y [|z pre]]].
  - injection E as <- _. exact I.
  - injection E as _ <- _. exact I.
  - injection E as <- <- <- _. exists [], keyword, text. now repeat split.
  - destruct pre; discriminate.
Qed.

Lemma searchedFor_cons kws en tr r :
  scopedQuery en = false -> announcesFirstAvailable en = false ->
  searchedFor kws tr r -> searchedFor kws (en :: tr) r.
Proof.
  intros Q A (R & O & N). split; [|split].
  - destruct R as [-> | [[-> Act] | [e ->]]]; [now left | | right; right; now exists e].
    right. left. split; [reflexivity|]. simpl. rewrite Act. apply orb_true_r.
  - apply always_cons; [apply opensAvailable_extends | now apply scopedQuery_opens | exact O].
  - simpl. now rewrite A.
Qed.

Lemma trySections_runs keyword ticketAmount ticketSections tr r :
  runs (trySections keyword ticketAmount ticketSections) tr r ->
  searchedFor [keyword] tr r /\ searched tr = [].
Proof.
  revert tr. induction ticketSections as [|section rest IH]; intros tr H; simpl in H.
  - finish H. split; [|reflexivity]. split; [now left|]. split; [apply always_nil | reflexivity].
  - step H as text. destruct text as [[text|]|e].
    + destruct (negb (text =? "")%string
                && includes (toLowerCase text) (toLowerCase keyword)) eqn:C1.
      * apply andb_prop in C1 as [_ C1].
        destruct (includes (toLowerCase text) "sold out"
                  || includes (toLowerCase text) "habis") eqn:C2.
        -- step H as u. apply IH in H as [K S]. split; [|exact S].
           do 2 (apply searchedFor_cons; [reflexivity | reflexivity |]). exact K.
        -- apply orb_false_elim in C2 as [C2 C3].
           step H as u. step H as selectBtn.
           assert (O : forall a tl,
                      always (opensAvailable [keyword]) tl ->
                      always (opensAvailable [keyword])
                        (Ev (TextContent section) (Fulfilled (Some text))
                         :: Ev (Log logger.success
                                   [Str "Found available category: '"; Str keyword;
                                    Str "'"]) u
                         :: Ev (Query (Some section)
                                  "button:has-text('Select'), button:has-text('Pilih')") a
                         :: tl)).
           { intros a tl K. destruct u.
             change (always (opensAvailable [keyword])
                       ([ Ev (TextContent section) (Fulfilled (Some text));
                          Ev (Log logger.success
                                 [Str "Found available category: '"; Str keyword;
                                  Str "'"]) tt;
                          Ev (Query (Some section)
                                "button:has-text('Select'), button:has-text('Pilih')") a ]
                        ++ tl)).
             apply always_app; [apply opensAvailable_extends | | exact K].
             apply opens_found; [now left | exact C1 | exact C2 | exact C3]. }
           destruct selectBtn as [[selectBtn|]|e].
           ++ step H as c. destruct c as [[]|e].
              ** step H as u2. step H as w. destruct w as [[]|e].
                 --- apply runs_andThen in H as (tr1 & q & tr2 & R1 & -> & R2).
                     apply setQuantity_plain in R1 as [-> (S1 & A1 & F1)].
                     finish R2. rewrite app_nil_r.
                     split; [|exact S1]. split; [right; left; now split|].
                     split.
                     +++ apply O. do 3 (apply always_cons;
                           [apply opensAvailable_extends | exact I |]).
                         apply plain_opens. now repeat split.
                     +++ simpl. exact A1.
                 --- finish H. split; [|reflexivity].
                     split; [right; right; now exists e|]. split; [|reflexivity].
                     apply O. do 3 (apply always_cons;
                           [apply opensAvailable_extends | exact I |]).
                     apply always_nil.
              ** finish H. split; [|reflexivity].
                 split; [right; right; now exists e|]. split; [|reflexivity].
                 apply O. apply always_cons;
                           [apply opensAvailable_extends | exact I |].
                 apply always_nil.
           ++ apply IH in H as [(R & K & A) S]. split; [|exact S].
              split; [|split].
              ** destruct R as [-> | [[-> Act] | [e ->]]];
                   [now left | | right; right; now exists e].
                 right. left. split; [reflexivity|]. simpl. exact Act.
              ** now apply O.
              ** simpl. exact A.
           ++ finish H. split; [|reflexivity].
              split; [right; right; now exists e|]. split; [|reflexivity].
              apply O. apply always_nil.
      * apply IH in H as [K S]. split; [|exact S].
        apply searchedFor_cons; [reflexivity | reflexivity | exact K].
    + apply IH in H as [K S]. split; [|exact S].
      apply searchedFor_cons; [reflexivity | reflexivity | exact K].
    + finish H. split; [|reflexivity].
      split; [right; right; now exists e|]. split; [|reflexivity].
      apply always_one. exact I.
Qed.

Lemma searchedFor_incl kws1 kws2 tr r :
  incl kws1 kws2 -> searchedFor kws1 tr r -> searchedFor kws2 tr r.
Proof.
  intros I (R & O & N). split; [exact R|]. split; [|exact N].
  revert O. apply always_impl. intros pre en. now apply opensAvailable_incl.
Qed.

(** A search that found nothing, followed by another. *)
Lemma searchedFor_app kws tr1 tr2 r :
  searchedFor kws tr1 (Fulfilled None) -> searchedFor kws tr2 r ->
  searchedFor kws (tr1 ++ tr2) r.
Proof.
  intros (_ & O1 & N1) (R & O2 & N2). split; [|split].
  - destruct R as [-> | [[-> Act] | [e ->]]]; [now left | | right; right; now exists e].
    right. left. split; [reflexivity|]. rewrite existsb_app, Act. apply orb_true_r.
  - apply always_app; [apply opensAvailable_extends | exact O1 | exact O2].
  - now rewrite existsb_app, N1, N2.
Qed.

Lemma searchedFor_end kws tr r :
  searchedFor kws tr r -> searchedFor kws (tr ++ []) r.
Proof. now rewrite app_nil_r. Qed.

Lemma tryKeywords_runs ticketAmount categoryKeywords tr r :
  runs (tryKeywords ticketAmount categoryKeywords) tr r ->
  searchedFor categoryKeywords tr r /\
  (exists k, searched tr = firstn k categoryKeywords) /\
  (r = Fulfilled None -> searched tr = categoryKeywords).
Proof.
  revert tr. induction categoryKeywords as [|keyword rest IH]; intros tr H; simpl in H.
  - finish H. split; [|split].
    + split; [now left|]. split; [apply always_nil | reflexivity].
    + now exists 0.
    + reflexivity.
  - step H as u. step H as ticketSections.
    destruct ticketSections as [ticketSections|e].
    + apply runs_andThen in H as (tr1 & a & tr2 & R1 & -> & R2).
      apply trySections_runs in R1 as [K1 S1].
      apply (searchedFor_incl (kws2 := keyword :: rest)) in K1;
        [|intros x [<-|[]]; now left].
      destruct a as [[result|]|e].
      * finish R2. rewrite app_nil_r. split; [|split].
        -- do 2 (apply searchedFor_cons; [reflexivity | reflexivity |]). exact K1.
        -- exists 1. simpl. now rewrite S1.
        -- destruct K1 as ([E | [[E _] | [e E]]] & _); discriminate.
      * apply IH in R2 as (K2 & [k S2] & N2).
        apply (searchedFor_incl (kws2 := keyword :: rest)) in K2;
          [|intros x Hx; now right].
        split; [|split].
        -- do 2 (apply searchedFor_cons; [reflexivity | reflexivity |]).
           now apply searchedFor_app.
        -- exists (S k). simpl. now rewrite searched_app, S1, S2.
        -- intros E. simpl. now rewrite searched_app, S1, (N2 E).
      * destruct R2 as [-> ->]. rewrite app_nil_r. split; [|split].
        -- do 2 (apply searchedFor_cons; [reflexivity | reflexivity |]). exact K1.
        -- exists 1. simpl. now rewrite S1.
        -- discriminate.
    + finish H. split; [|split].
      * split; [right; right; now exists e|]. split; [|reflexivity].
        do 2 (apply always_cons; [apply opensAvailable_extends | exact I |]).
        apply always_nil.
      * now exists 1.
      * discriminate.
Qed.

Lemma selectByKeyword_runs categoryKeywords ticketAmount tr r :
  runs (selectByKeyword categoryKeywords ticketAmount) tr r ->
  keywordStrategy categoryKeywords tr r.
Proof.
  intros H. unfold selectByKeyword in H.
  apply runs_tryCatch in H as (tr1 & a & tr2 & R1 & -> & R2).
  assert (B : (a = Fulfilled None \/
               (a = Fulfilled (Some true) /\ existsb activated tr1 = true) \/
               exists e, a = Rejected e) /\
              always (opensAvailable categoryKeywords) tr1 /\
              (exists k, searched tr1 = firstn k categoryKeywords) /\
              (existsb announcesFirstAvailable tr1 = true ->
               searched tr1 = categoryKeywords)).
  { clear R2. step R1 as selectButtons.
    destruct selectButtons as [selectButtons|e].
    - destruct (0 <? length selectButtons).
      + step R1 as u.
        apply runs_andThen in R1 as (tr3 & b & tr4 & R3 & -> & R4).
        apply tryKeywords_runs in R3 as ((R & O & N) & [k S] & All).
        assert (O' : forall tl,
                   always (opensAvailable categoryKeywords) tl ->
                   always (opensAvailable categoryKeywords)
                     (Ev (QueryAll selectButtonsSelector) (Fulfilled selectButtons)
                      :: Ev (Log logger.info
                                [Str "Found "; Num (length selectButtons);
                                 Str " Select button(s)"]) u
                      :: tr3 ++ tl)).
        { intros tl K.
          do 2 (apply always_cons; [apply opensAvailable_extends | exact I |]).
          apply always_app; [apply opensAvailable_extends | exact O | exact K]. }
        destruct b as [[result|]|e].
        * finish R4. rewrite app_nil_r.
          destruct R as [E | [[E Act] | [e E]]]; try discriminate.
          injection E as ->.
          split; [right; left; split; [reflexivity | simpl; exact Act]|].
          split; [rewrite <- (app_nil_r tr3); apply O'; apply always_nil|].
          split; [exists k; exact S|].
          simpl. rewrite N. discriminate.
        * specialize (All eq_refl).
          step R4 as u2.
          assert (Fin : forall tl (c : outcome (option bool)),
                     plain tl ->
                     (c = Fulfilled None \/
                      (c = Fulfilled (Some true) /\ existsb activated tl = true) \/
                      exists e, c = Rejected e) ->
                     (c = Fulfilled None \/
                      (c = Fulfilled (Some true) /\
                       existsb activated
                         (Ev (QueryAll selectButtonsSelector) (Fulfilled selectButtons)
                          :: Ev (Log logger.info
                                    [Str "Found "; Num (length selectButtons);
                                     Str " Select button(s)"]) u
                          :: tr3 ++
                             Ev (Log logger.warn
                                    [Str "Keyword not matched, clicking first available Select button..."])
                                u2 :: tl) = true) \/
                      exists e, c = Rejected e) /\
                     always (opensAvailable categoryKeywords)
                       (Ev (QueryAll selectButtonsSelector) (Fulfilled selectButtons)
                        :: Ev (Log logger.info
                                  [Str "Found "; Num (length selectButtons);
                                   Str " Select button(s)"]) u
                        :: tr3 ++
                           Ev (Log logger.warn
                                  [Str "Keyword not matched, clicking first available Select button..."])
                              u2 :: tl) /\
                     (exists k,
                         searched
                           (Ev (QueryAll selectButtonsSelector) (Fulfilled selectButtons)
                            :: Ev (Log logger.info
                                      [Str "Found "; Num (length selectButtons);
                                       Str " Select button(s)"]) u
                            :: tr3 ++
                               Ev (Log logger.warn
                                      [Str "Keyword not matched, clicking first available Select button..."])
                                  u2 :: tl)
                         = firstn k categoryKeywords) /\
                     (existsb announcesFirstAvailable
                        (Ev (QueryAll selectButtonsSelector) (Fulfilled selectButtons)
                         :: Ev (Log logger.info
                                   [Str "Found "; Num (length selectButtons);
                                    Str " Select button(s)"]) u
                         :: tr3 ++
                            Ev (Log logger.warn
                                   [Str "Keyword not matched, clicking first available Select button..."])
                               u2 :: tl) = true ->
                      searched
                        (Ev (QueryAll selectButtonsSelector) (Fulfilled selectButtons)
                         :: Ev (Log logger.info
                                   [Str "Found "; Num (length selectButtons);
                                    Str " Select button(s)"]) u
                         :: tr3 ++
                            Ev (Log logger.warn
                                   [Str "Keyword not matched, clicking first available Select button..."])
                               u2 :: tl)
                      = categoryKeywords)).
          { intros tl c Pl C.
            assert (Sd : searched
                           (Ev (QueryAll selectButtonsSelector) (Fulfilled selectButtons)
                            :: Ev (Log logger.info
                                      [Str "Found "; Num (length selectButtons);
                                       Str " Select button(s)"]) u
                            :: tr3 ++
                               Ev (Log logger.warn
                                      [Str "Keyword not matched, clicking first available Select button..."])
                                  u2 :: tl)
                         = categoryKeywords).
            { simpl. rewrite searched_app. simpl.
              destruct Pl as (-> & _). now rewrite app_nil_r. }
            split; [|split; [|split]].
            - destruct C as [-> | [[-> Act] | [e ->]]];
                [now left | | right; right; now exists e].
              right. left. split; [reflexivity|]. simpl. rewrite existsb_app. simpl.
              rewrite Act. now rewrite !orb_true_r.
            - apply O'. apply always_cons;
                [apply opensAvailable_extends | exact I | now apply plain_opens].
            - exists (length categoryKeywords). rewrite Sd. symmetry. apply firstn_all.
            - intros _. exact Sd. }
          destruct selectButtons as [|firstSelect others].
          -- finish R4. apply Fin; [apply plain_nil | now left].
          -- step R4 as isVisible. destruct isVisible as [[|]|e].
             ++ step R4 as c. destruct c as [[]|e].
                ** step R4 as u3. step R4 as w. destruct w as [[]|e].
                   --- apply runs_andThen in R4 as (tr5 & q & tr6 & R5 & -> & R6).
                       apply setQuantity_plain in R5 as [-> Pl].
                       finish R6. rewrite app_nil_r.
                       apply Fin.
                       +++ do 4 (apply plain_cons; [reflexivity ..|]). exact Pl.
                       +++ right. left. split; reflexivity.
                   --- finish R4. apply Fin.
                       +++ do 4 (apply plain_cons; [reflexivity ..|]). apply plain_nil.
                       +++ right. right. now exists e.
                ** finish R4. apply Fin.
                   --- do 2 (apply plain_cons; [reflexivity ..|]). apply plain_nil.
                   --- right. right. now exists e.
             ++ finish R4. apply Fin.
                ** apply plain_cons; [reflexivity ..|]. apply plain_nil.
                ** now left.
             ++ finish R4. apply Fin.
                ** apply plain_cons; [reflexivity ..|]. apply plain_nil.
                ** right. right. now exists e.
        * destruct R4 as [-> ->]. rewrite app_nil_r.
          split; [right; right; now exists e|].
          split; [rewrite <- (app_nil_r tr3); apply O'; apply always_nil|].
          split; [exists k; exact S|].
          simpl. rewrite N. discriminate.
      + finish R1. split; [now left|]. split; [|split].
        * apply always_one. exact I.
        * now exists 0.
        * discriminate.
    - finish R1. split; [right; right; now exists e|]. split; [|split].
      + apply always_one. exact I.
      + now exists 0.
      + discriminate. }
  destruct B as (R & O & [k S] & All).
  destruct a as [v|e].
  - destruct R2 as [-> ->]. rewrite app_nil_r.
    split; [|split; [exact O | split; [exists k; exact S | exact All]]].
    destruct R as [E | [[E Act] | [e E]]]; [left; exact E | right; now split | discriminate].
  - step R2 as u. finish R2.
    assert (Sd : searched (tr1 ++ [Ev (Log logger.debug
                                         [Str "Error with Select button approach: ";
                                          Str (let 'Error m := e in m)]) u])
                 = searched tr1).
    { rewrite searched_app. simpl. apply app_nil_r. }
    split; [now left|]. split; [|split].
    + apply always_app; [apply opensAvailable_extends | exact O|].
      apply always_one. exact I.
    + exists k. now rewrite Sd.
    + rewrite Sd, existsb_app. simpl. rewrite !orb_false_r. exact All.
Qed.

(** X4: in the keyword strategy of [selectCategory], for keywords and
    section texts made of ASCII characters, the Select button of a ticket
    section is looked up only right after the text of that section was read
    and found to contain one of the configured keywords (letter case aside)
    and neither [sold out] nor [habis]. *)
Theorem keyword_strategy_skips_sold_out :
  forall (categoryKeywords : list string) (ticketAmount : nat)
         (tr : trace) (r : outcome (option bool)),
    forallb isAscii categoryKeywords = true ->
    forallb readsAscii tr = true ->
    runs (selectByKeyword categoryKeywords ticketAmount) tr r ->
    forall before section sel (a : outcome (option handle)) after,
      tr = before ++ Ev (Query (Some section) sel) a :: after ->
      exists pre keyword text,
        before = pre ++
                 [ Ev (TextContent section) (Fulfilled (Some text));
                   Ev (Log logger.success
                          [Str "Found available category: '"; Str keyword;
                           Str "'"]) tt ] /\
        In keyword categoryKeywords /\
        isAscii keyword = true /\ isAscii text = true /\
        includes (toLowerCase text) (toLowerCase keyword) = true /\
        includes (toLowerCase text) "sold out" = false /\
        includes (toLowerCase text) "habis" = false.
Proof.
  intros categoryKeywords ticketAmount tr r AK AT H before section sel a after E.
  apply selectByKeyword_runs in H as (_ & O & _).
  destruct (O _ _ _ E) as (pre & keyword & text & -> & I & C).
  exists pre, keyword, text. split; [reflexivity|]. split; [exact I|].
  split; [|split; [|exact C]].
  - rewrite forallb_forall in AK. now apply AK.
  - subst tr. rewrite forallb_forall in AT.
    apply (AT (Ev (TextContent section) (Fulfilled (Some text)))).
    apply in_or_app. left. apply in_or_app. right. now left.
Qed.

(** X5: the keyword strategy searches the configured keywords in their
    order: the keywords searched in a finished run are a beginning of the
    configured list; and the click on the first Select button of the page,
    whatever its category, is only announced after every keyword was
    searched. *)
Theorem keywords_searched_in_order :
  forall (categoryKeywords : list string) (ticketAmount : nat)
         (tr : trace) (r : outcome (option bool)),
    runs (selectByKeyword categoryKeywords ticketAmount) tr r ->
    (exists k, searched tr = firstn k categoryKeywords) /\
    (existsb announcesFirstAvailable tr = true -> searched tr = categoryKeywords).
Proof.
  intros categoryKeywords ticketAmount tr r H.
  apply selectByKeyword_runs in H as (_ & _ & K). exact K.
Qed.

(** *** Strategy 1, the fallback and the whole of [selectCategory] *)

Lemma listButtons_runs i buttons tr r :
  runs (listButtons i buttons) tr r -> r = Fulfilled tt.
Proof.
  revert i tr. induction buttons as [|button rest IH]; intros i tr H; simpl in H.
  - now finish H.
  - apply runs_bind in H as (tr1 & a & tr2 & _ & R2 & ->). now apply IH in R2.
Qed.

Lemma existsb_app_r {A} (f : A -> bool) (l1 l2 : list A) :
  existsb f l2 = true -> existsb f (l1 ++ l2) = true.
Proof. intros H. rewrite existsb_app, H. apply orb_true_r. Qed.

Lemma existsb_app_l {A} (f : A -> bool) (l1 l2 : list A) :
  existsb f l1 = true -> existsb f (l1 ++ l2) = true.
Proof. intros H. now rewrite existsb_app, H. Qed.

Lemma clickSelect_runs ticketAmount clicked sels tr r :
  runs (clickSelect ticketAmount clicked sels) tr r ->
  exists b, r = Fulfilled b /\
            (b = true -> clicked = true \/ existsb activated tr = true).
Proof.
  revert clicked tr. induction sels as [|selector rest IH]; intros clicked tr H; simpl in H.
  - finish H. exists clicked. split; [reflexivity | now left].
  - apply runs_bind in H as (tr1 & a & tr2 & R1 & R2 & ->).
    assert (T : exists c stop,
               a = Fulfilled (c, stop) /\
               (c = true -> clicked = true \/ existsb activated tr1 = true)).
    { clear R2. apply runs_tryCatch in R1 as (tr3 & b & tr4 & R3 & -> & R4).
      assert (B : (exists c stop,
                      b = Fulfilled (c, stop) /\
                      (c = true -> clicked = true \/ existsb activated tr3 = true)) \/
                  exists e, b = Rejected e).
      { clear R4. step R3 as isVis. destruct isVis as [[|]|e].
        - step R3 as u. step R3 as box. destruct box as [[box|]|e].
          + step R3 as u2. step R3 as c. destruct c as [[]|e].
            * step R3 as u3.
              apply runs_tryCatch in R3 as (tr5 & d & tr6 & R5 & -> & R6).
              left. destruct d as [v|e].
              -- destruct R6 as [-> ->].
                 apply runs_andThen in R5 as (tr7 & q & tr8 & _ & -> & R8).
                 destruct q as [[]|e]; [|destruct R8; discriminate].
                 finish R8.
                 exists true, true. split; [reflexivity|]. intros _. now right.
              -- finish R6. exists true, false. split; [reflexivity|].
                 intros _. now right.
            * finish R3. right. now exists e.
          + finish R3. left. exists clicked, false. split; [reflexivity | now left].
          + finish R3. right. now exists e.
        - finish R3. left. exists clicked, false. split; [reflexivity | now left].
        - finish R3. left. exists clicked, false. split; [reflexivity | now left]. }
      destruct B as [(c & stop & -> & K) | [e ->]].
      - destruct R4 as [-> ->]. rewrite app_nil_r. now exists c, stop.
      - finish R4. exists clicked, false. split; [reflexivity | now left]. }
    destruct T as (c & stop & -> & K). destruct stop.
    + finish R2. exists c. split; [reflexivity|]. rewrite app_nil_r. exact K.
    + apply IH in R2 as (b & -> & K2). exists b. split; [reflexivity|].
      intros E. destruct (K2 E) as [-> | Act].
      * destruct (K eq_refl) as [-> | Act]; [now left | right].
        now apply existsb_app_l.
      * right. now apply existsb_app_r.
Qed.

Lemma selectDirectly_runs ticketAmount tr r :
  runs (selectDirectly ticketAmount) tr r -> fellThroughOrClicked tr r.
Proof.
  intros H. unfold selectDirectly in H.
  apply runs_tryCatch in H as (tr1 & a & tr2 & R1 & -> & R2).
  assert (B : (a = Fulfilled None \/
               (a = Fulfilled (Some true) /\ existsb activated tr1 = true)) \/
              exists e, a = Rejected e).
  { clear R2. step R1 as w. destruct w as [[]|e]; [|finish R1; right; now exists e].
    step R1 as u.
    apply runs_andThen in R1 as (tr3 & b & tr4 & R3 & -> & R4).
    apply clickSelect_runs in R3 as (clicked & -> & K).
    apply runs_andThen in R4 as (tr5 & c & tr6 & R5 & -> & R6).
    assert (C : (exists clicked', c = Fulfilled clicked' /\
                   (clicked' = true -> existsb activated (tr3 ++ tr5) = true)) \/
                exists e, c = Rejected e).
    { clear R6. destruct clicked; simpl in R5.
      - finish R5. left. exists true. split; [reflexivity|]. intros _.
        destruct (K eq_refl) as [E | Act]; [discriminate|]. now apply existsb_app_l.
      - step R5 as u2. step R5 as jsClicked. destruct jsClicked as [[|]|e].
        + step R5 as u3. step R5 as w. destruct w as [[]|e].
          * finish R5. left. exists true. split; [reflexivity|]. intros _.
            apply existsb_app_r. reflexivity.
          * finish R5. right. now exists e.
        + finish R5. left. exists false. split; [reflexivity | discriminate].
        + finish R5. right. now exists e. }
    destruct C as [(clicked' & -> & K') | [e ->]].
    - destruct clicked'.
      + apply runs_andThen in R6 as (tr7 & q & tr8 & R7 & -> & R8).
        apply setQuantity_plain in R7 as [-> _]. finish R8.
        left. right. split; [reflexivity|].
        simpl. rewrite !app_assoc. do 2 apply existsb_app_l.
        now apply K'.
      + finish R6. left. now left.
    - destruct R6 as [-> ->]. right. now exists e. }
  destruct B as [B | [e ->]].
  - destruct a as [v|e]; [|destruct B as [E | [E _]]; discriminate].
    destruct R2 as [-> ->]. rewrite app_nil_r. exact B.
  - step R2 as u. finish R2. now left.
Qed.

Lemma tryFallback_runs ticketAmount sels tr r :
  runs (tryFallback ticketAmount sels) tr r -> fellThroughOrClicked tr r.
Proof.
  revert tr. induction sels as [|selector rest IH]; intros tr H; simpl in H.
  - finish H. now left.
  - apply runs_bind in H as (tr1 & a & tr2 & R1 & R2 & ->).
    assert (B : a = Fulfilled None \/
                (a = Fulfilled (Some true) /\ existsb activated tr1 = true) \/
                exists e, a = Rejected e).
    { clear R2. step R1 as btn. destruct btn as [[btn|]|e].
      - step R1 as isVisible. destruct isVisible as [[|]|e].
        + step R1 as c. destruct c as [[]|e].
          * step R1 as u. step R1 as w. destruct w as [[]|e].
            -- apply runs_andThen in R1 as (tr3 & q & tr4 & R3 & -> & R4).
               apply setQuantity_plain in R3 as [-> _]. finish R4.
               right. left. split; reflexivity.
            -- finish R1. right. right. now exists e.
          * finish R1. right. right. now exists e.
        + finish R1. now left.
        + finish R1. right. right. now exists e.
      - finish R1. now left.
      - finish R1. right. right. now exists e. }
    destruct B as [-> | [[-> Act] | [e ->]]].
    + apply IH in R2 as [-> | [-> Act]]; [now left | right].
      split; [reflexivity | now apply existsb_app_r].
    + finish R2. right. split; [reflexivity|]. now rewrite app_nil_r.
    + apply IH in R2 as [-> | [-> Act]]; [now left | right].
      split; [reflexivity | now apply existsb_app_r].
Qed.

Lemma selectCategory_runs categoryKeywords ticketAmount tr r :
  runs (selectCategory categoryKeywords ticketAmount) tr r ->
  categoryOutcome tr r.
Proof.
  intros H. unfold selectCategory in H.
  step H as u. step H as w. destruct w as [[]|e].
  2:{ finish H. destruct u. now left. }
  step H as currentUrl. step H as u2. step H as allButtons.
  destruct allButtons as [allButtons|e].
  2:{ finish H. destruct u, u2. right. now exists currentUrl. }
  step H as u3.
  apply runs_andThen in H as (tr1 & a & tr2 & R1 & -> & R2).
  apply listButtons_runs in R1 as ->.
  apply runs_andThen in R2 as (tr3 & b & tr4 & R3 & -> & R4).
  apply selectDirectly_runs in R3 as [-> | [-> Act]].
  2:{ finish R4. simpl. apply existsb_app_r. now apply existsb_app_l. }
  apply runs_andThen in R4 as (tr5 & c & tr6 & R5 & -> & R6).
  apply selectByKeyword_runs in R5 as ([-> | [-> Act]] & _).
  2:{ finish R6. simpl. do 2 apply existsb_app_r. now apply existsb_app_l. }
  step R6 as u4.
  apply runs_andThen in R6 as (tr7 & d & tr8 & R7 & -> & R8).
  apply tryFallback_runs in R7 as [-> | [-> Act]].
  2:{ finish R8. simpl. do 3 apply existsb_app_r. simpl. now apply existsb_app_l. }
  step R8 as u5. finish R8. destruct u5.
  eexists. unfold noCategoriesFound.
  repeat rewrite app_comm_cons. repeat rewrite app_assoc. reflexivity.
Qed.

(** X6: [selectCategory] returns true only when a control was activated in
    the run (a click went through, or the in-page JavaScript click reported a
    click); it returns false only with the message that no category was
    found as its last step; and it throws only when its first sleep or the
    listing of the buttons throws, every later failure being caught. *)
Theorem selectCategory_true_only_after_click :
  forall (categoryKeywords : list string) (ticketAmount : nat)
         (tr : trace) (r : outcome bool),
    runs (selectCategory categoryKeywords ticketAmount) tr r ->
    categoryOutcome tr r.
Proof. exact selectCategory_runs. Qed.

Lemma selectCategory_true_only_after_click_witness :
  runs (selectCategory ["GOLD"] 1) directClickTrace (Fulfilled true) /\
  categoryOutcome directClickTrace (Fulfilled true).
Proof.
  assert (E : exec ticketPage 3000 (selectCategory ["GOLD"] 1) None
              = Some (directClickTrace, Fulfilled true, Some "SILVER")).
  { vm_compute. reflexivity. }
  pose proof (exec_runs _ _ _ _ E) as R.
  split; [exact R|].
  exact (@selectCategory_true_only_after_click _ _ _ _ R).
Defined.

Lemma keyword_strategy_skips_sold_out_witness :
  forallb isAscii ["VIP"; "GOLD"] = true /\
  forallb readsAscii keywordTrace = true /\
  runs (selectByKeyword ["VIP"; "GOLD"] 1) keywordTrace (Fulfilled (Some true)) /\
  keywordTrace
  = firstn 11 keywordTrace ++
    Ev (Query (Some goldSection)
              "button:has-text('Select'), button:has-text('Pilih')")
       (Fulfilled (Some goldButton))
    :: skipn 12 keywordTrace /\
  exists pre keyword text,
    firstn 11 keywordTrace
    = pre ++
      [ Ev (TextContent goldSection) (Fulfilled (Some text));
        Ev (Log logger.success
               [Str "Found available category: '"; Str keyword; Str "'"]) tt ] /\
    In keyword ["VIP"; "GOLD"] /\
    isAscii keyword = true /\ isAscii text = true /\
    includes (toLowerCase text) (toLowerCase keyword) = true /\
    includes (toLowerCase text) "sold out" = false /\
    includes (toLowerCase text) "habis" = false.
Proof.
  assert (E : exec ticketPage 3000 (selectByKeyword ["VIP"; "GOLD"] 1) None
              = Some (keywordTrace, Fulfilled (Some true), Some "GOLD")).
  { vm_compute. reflexivity. }
  pose proof (exec_runs _ _ _ _ E) as R.
  assert (S : keywordTrace
              = firstn 11 keywordTrace ++
                Ev (Query (Some goldSection)
                          "button:has-text('Select'), button:has-text('Pilih')")
                   (Fulfilled (Some goldButton))
                :: skipn 12 keywordTrace).
  { vm_compute. reflexivity. }
  assert (AK : forallb isAscii ["VIP"; "GOLD"] = true) by reflexivity.
  assert (AT : forallb readsAscii keywordTrace = true) by (vm_compute; reflexivity).
  split; [exact AK|]. split; [exact AT|].
  split; [exact R|]. split; [exact S|].
  exact (@keyword_strategy_skips_sold_out _ _ _ _ AK AT R _ _ _ _ _ S).
Defined.

Lemma keywords_searched_in_order_witness :
  runs (selectByKeyword ["VIP"; "GOLD"] 1) keywordTrace (Fulfilled (Some true)) /\
  (exists k, searched keywordTrace = firstn k ["VIP"; "GOLD"]) /\
  (existsb announcesFirstAvailable keywordTrace = true ->
   searched keywordTrace = ["VIP"; "GOLD"]).
Proof.
  assert (E : exec ticketPage 3000 (selectByKeyword ["VIP"; "GOLD"] 1) None
              = Some (keywordTrace, Fulfilled (Some true), Some "GOLD")).
  { vm_compute. reflexivity. }
  pose proof (exec_runs _ _ _ _ E) as R.
  split; [exact R|].
  exact (@keywords_searched_in_order _ _ _ _ R).
Defined.

(* ===================================================================== *)
(** ** [navigateToPayment]: the checkboxes, the pay button, the result file *)
(* ===================================================================== *)

Lemma checksUnchecked_extends pre0 pre en :
  checksUnchecked pre en -> checksUnchecked (pre0 ++ pre) en.
Proof.
  destruct en as [X e a]. destruct e; simpl; try exact (fun H => H).
  intros [pre1 ->]. exists (pre0 ++ pre1). now rewrite app_assoc.
Qed.

Lemma checkAll_runs i checkboxes tr r :
  runs (checkAll i checkboxes) tr r ->
  r = Fulfilled tt /\ always checksUnchecked tr.
Proof.
  revert i tr. induction checkboxes as [|checkbox rest IH]; intros i tr H; simpl in H.
  - finish H. split; [reflexivity | apply always_nil].
  - apply runs_bind in H as (tr1 & a & tr2 & R1 & R2 & ->).
    apply IH in R2 as [-> K]. split; [reflexivity|].
    apply always_app; [apply checksUnchecked_extends | | exact K].
    clear K. step R1 as isChecked. destruct isChecked as [[|]|e]; cbn [negb] in R1.
    + finish R1. apply always_one. exact I.
    + assert (O : forall c tl,
                 always checksUnchecked tl ->
                 always checksUnchecked
                   (Ev (IsChecked checkbox) (Fulfilled false)
                    :: Ev (Click checkbox None) c :: tl)).
      { intros c tl K.
        change (always checksUnchecked
                  ([Ev (IsChecked checkbox) (Fulfilled false);
                    Ev (Click checkbox None) c] ++ tl)).
        apply always_app; [apply checksUnchecked_extends | | exact K].
        intros pre en post E. destruct pre as [|x [|y pre]].
        - injection E as <- _. exact I.
        - injection E as <- <- _. now exists [].
        - destruct pre; discriminate. }
      step R1 as c. destruct c as [[]|e].
      * step R1 as u. finish R1. apply O.
        apply always_cons; [apply checksUnchecked_extends | exact I |].
        apply always_one. exact I.
      * finish R1. apply O. apply always_nil.
    + finish R1. apply always_one. exact I.
Qed.

Lemma checkCheckboxes_runs tr r :
  runs checkCheckboxes tr r -> r = Fulfilled tt /\ always checksUnchecked tr.
Proof.
  intros H. unfold checkCheckboxes in H. step H as u.
  apply runs_tryCatch in H as (tr1 & a & tr2 & R1 & -> & R2).
  assert (B : (a = Fulfilled tt \/ exists e, a = Rejected e) /\
              always checksUnchecked tr1).
  { clear R2. step R1 as checkboxes. destruct checkboxes as [checkboxes|e].
    - step R1 as u2. apply checkAll_runs in R1 as [-> K].
      split; [now left|].
      do 2 (apply always_cons; [apply checksUnchecked_extends | exact I |]). exact K.
    - finish R1. split; [right; now exists e|]. apply always_one. exact I. }
  destruct B as [[-> | [e ->]] K].
  - destruct R2 as [-> ->]. split; [reflexivity|]. rewrite app_nil_r.
    apply always_cons; [apply checksUnchecked_extends | exact I | exact K].
  - finish R2. split; [reflexivity|].
    apply always_cons; [apply checksUnchecked_extends | exact I |].
    apply always_app; [apply checksUnchecked_extends | exact K|].
    apply always_one. exact I.
Qed.

(** X7: the checkbox step of [navigateToPayment] never throws, and it clicks
    a checkbox only right after that checkbox answered that it is not
    checked: a box reported checked, or whose state could not be read, is
    left alone. *)
Theorem checkboxes_only_checked_when_unchecked :
  forall (tr : trace) (r : outcome unit),
    runs checkCheckboxes tr r ->
    r = Fulfilled tt /\
    forall before checkbox timeout (a : outcome unit) after,
      tr = before ++ Ev (Click checkbox timeout) a :: after ->
      exists pre, before = pre ++ [Ev (IsChecked checkbox) (Fulfilled false)].
Proof.
  intros tr r H. apply checkCheckboxes_runs in H as [-> K].
  split; [reflexivity|].
  intros before checkbox timeout a after E. exact (K _ _ _ E).
Qed.

Lemma paysEnabled_extends pre0 pre en :
  paysEnabled pre en -> paysEnabled (pre0 ++ pre) en.
Proof.
  destruct en as [X e a]. destruct e; simpl; try exact (fun H => H).
  intros (pre1 & sel & d & E & Hin & -> & N).
  exists (pre0 ++ pre1), sel, d. now rewrite app_assoc.
Qed.

Lemma clicks_cons_other (en : entry) (tr : trace) :
  isClick en = false -> clicks (en :: tr) = clicks tr.
Proof. intros H. unfold clicks. simpl. now rewrite H. Qed.

Lemma clickPayNow_runs payNowClicked sels tr r :
  incl sels payNowSelectors ->
  runs (clickPayNow payNowClicked sels) tr r ->
  exists b,
    r = Fulfilled b /\
    (b = true <-> payNowClicked = true \/ 0 < clicks tr) /\
    always paysEnabled tr.
Proof.
  revert payNowClicked tr.
  induction sels as [|sel rest IH]; intros payNowClicked tr Hin H; simpl in H.
  - finish H. exists payNowClicked. split; [reflexivity|]. split.
    + split; [now left | intros [E | L]; [exact E | inversion L]].
    + apply always_nil.
  - assert (Hrest : incl rest payNowSelectors).
    { intros x Hx. apply Hin. now right. }
    assert (Hsel : In sel payNowSelectors) by (apply Hin; now left).
    apply runs_bind in H as (tr1 & a & tr2 & R1 & R2 & ->).
    assert (B : always paysEnabled tr1 /\
                ((exists stop, a = Fulfilled (true, stop) /\ 0 < clicks tr1) \/
                 ((a = Fulfilled (payNowClicked, false) \/ exists e, a = Rejected e) /\
                  clicks tr1 = 0))).
    { clear R2. step R1 as isVisible. destruct isVisible as [[|]|e].
      - step R1 as isDisabled.
        destruct isDisabled as [[|]|e]; cbn [negb] in R1.
        + finish R1. split; [|right; split; [now left | reflexivity]].
          do 2 (apply always_cons; [apply paysEnabled_extends | exact I |]).
          apply always_nil.
        + step R1 as u. step R1 as c. destruct u.
          assert (O : forall tl,
                     always paysEnabled tl ->
                     always paysEnabled
                       (Ev (IsVisible (First (Locator sel)) (Some (1000 # 1)%Q))
                           (Fulfilled true)
                        :: Ev (IsDisabled (First (Locator sel))) (Fulfilled false)
                        :: Ev (Log logger.info [Str "Found Pay button: "; Str sel]) tt
                        :: Ev (Click (First (Locator sel)) None) c :: tl)).
          { intros tl K.
            change (always paysEnabled
                      ([ Ev (IsVisible (First (Locator sel)) (Some (1000 # 1)%Q))
                            (Fulfilled true);
                         Ev (IsDisabled (First (Locator sel))) (Fulfilled false);
                         Ev (Log logger.info [Str "Found Pay button: "; Str sel]) tt;
                         Ev (Click (First (Locator sel)) None) c ] ++ tl)).
            apply always_app; [apply paysEnabled_extends | | exact K].
            intros pre en post E. destruct pre as [|x [|y [|z [|v pre]]]].
            - injection E as <- _. exact I.
            - injection E as _ <- _. exact I.
            - injection E as _ _ <- _. exact I.
            - injection E as <- <- <- <- _.
              exists [], sel, (Fulfilled false). repeat split; [exact Hsel | discriminate].
            - destruct pre; discriminate. }
          destruct c as [[]|e].
          * step R1 as u. step R1 as w. split.
            -- apply O. do 2 (apply always_cons; [apply paysEnabled_extends | exact I |]).
               destruct w; finish R1; apply always_nil.
            -- left. destruct w as [[]|e]; finish R1;
                 [exists true | exists false]; (split; [reflexivity|]);
                 unfold clicks; simpl; lia.
          * finish R1. split; [apply O; apply always_nil|].
            right. split; [right; now exists e | reflexivity].
        + step R1 as u. step R1 as c. destruct u.
          assert (O : forall tl,
                     always paysEnabled tl ->
                     always paysEnabled
                       (Ev (IsVisible (First (Locator sel)) (Some (1000 # 1)%Q))
                           (Fulfilled true)
                        :: Ev (IsDisabled (First (Locator sel))) (Rejected e)
                        :: Ev (Log logger.info [Str "Found Pay button: "; Str sel]) tt
                        :: Ev (Click (First (Locator sel)) None) c :: tl)).
          { intros tl K.
            change (always paysEnabled
                      ([ Ev (IsVisible (First (Locator sel)) (Some (1000 # 1)%Q))
                            (Fulfilled true);
                         Ev (IsDisabled (First (Locator sel))) (Rejected e);
                         Ev (Log logger.info [Str "Found Pay button: "; Str sel]) tt;
                         Ev (Click (First (Locator sel)) None) c ] ++ tl)).
            apply always_app; [apply paysEnabled_extends | | exact K].
            intros pre en post E. destruct pre as [|x [|y [|z [|v pre]]]].
            - injection E as <- _. exact I.
            - injection E as _ <- _. exact I.
            - injection E as _ _ <- _. exact I.
            - injection E as <- <- <- <- _.
              exists [], sel, (Rejected e). repeat split; [exact Hsel | discriminate].
            - destruct pre; discriminate. }
          destruct c as [[]|e'].
          * step R1 as u. step R1 as w. split.
            -- apply O. do 2 (apply always_cons; [apply paysEnabled_extends | exact I |]).
               destruct w; finish R1; apply always_nil.
            -- left. destruct w as [[]|e']; finish R1;
                 [exists true | exists false]; (split; [reflexivity|]);
                 unfold clicks; simpl; lia.
          * finish R1. split; [apply O; apply always_nil|].
            right. split; [right; now exists e' | reflexivity].
      - finish R1. split; [apply always_one; exact I|].
        right. split; [now left | reflexivity].
      - finish R1. split; [apply always_one; exact I|].
        right. split; [now left | reflexivity]. }
    destruct B as [K [(stop & -> & C) | [[-> | [e ->]] C]]].
    + destruct stop.
      * finish R2. exists true. split; [reflexivity|]. rewrite app_nil_r.
        split; [|exact K]. split; [intros _; now right | reflexivity].
      * apply (IH _ _ Hrest) in R2 as (b & -> & [_ F] & K2).
        exists b. split; [reflexivity|]. split.
        -- split; [intros _; right; rewrite clicks_app; lia|].
           intros _. apply F. now left.
        -- apply always_app; [apply paysEnabled_extends | exact K | exact K2].
    + apply (IH _ _ Hrest) in R2 as (b & -> & F & K2).
      exists b. split; [reflexivity|]. split.
      * rewrite clicks_app, C. exact F.
      * apply always_app; [apply paysEnabled_extends | exact K | exact K2].
    + apply (IH _ _ Hrest) in R2 as (b & -> & F & K2).
      exists b. split; [reflexivity|]. split.
      * rewrite clicks_app, C. exact F.
      * apply always_app; [apply paysEnabled_extends | exact K | exact K2].
Qed.

(** X8: the Pay Now step never throws; its flag [payNowClicked] is true
    exactly when a click went through (so the warning that no Pay Now button
    was found is logged exactly when none did); and a button is clicked only
    right after it was seen visible and was not reported disabled (an error
    of the disabled check counts as enabled). *)
Theorem payNow_flag_is_truthful :
  forall (tr : trace) (r : outcome bool),
    runs (clickPayNow false payNowSelectors) tr r ->
    exists payNowClicked,
      r = Fulfilled payNowClicked /\
      (payNowClicked = true <-> 0 < clicks tr) /\
      forall before payBtn timeout (a : outcome unit) after,
        tr = before ++ Ev (Click payBtn timeout) a :: after ->
        exists pre sel isDisabled,
          payBtn = First (Locator sel) /\
          In sel payNowSelectors /\
          before = pre ++
                   [ Ev (IsVisible payBtn (Some (1000 # 1)%Q)) (Fulfilled true);
                     Ev (IsDisabled payBtn) isDisabled;
                     Ev (Log logger.info [Str "Found Pay button: "; Str sel]) tt ] /\
          isDisabled <> Fulfilled true.
Proof.
  intros tr r H.
  apply clickPayNow_runs in H as (b & -> & F & K); [|apply incl_refl].
  exists b. split; [reflexivity|]. split.
  - rewrite F. split; [intros [E | L]; [discriminate | exact L] | now right].
  - intros before payBtn timeout a after E. exact (K _ _ _ E).
Qed.

(** *** The result file *)

Local Abbreviation noWrite := (fun en : entry => isWrite en = false).

Lemma clickButton_noWrite msg sels : uses noWrite (clickButton msg sels).
Proof.
  induction sels as [|sel rest IH]; simpl; [uses_steps|].
  apply uses_bind; [uses_steps | intros [[|]|e]; [uses_steps | exact IH | exact IH]].
Qed.

Lemma checkoutLoop_noWrite : uses noWrite checkoutLoop.
Proof.
  unfold checkoutLoop, while. apply uses_iter. intros c.
  apply uses_bind.
  - unfold checkout_turn. uses_steps; apply clickButton_noWrite.
  - intros [[| |]|e]; apply uses_Ret.
Qed.

Lemma clickCentre_noWrite foundMsg clickedMsg settle clicked sels :
  uses noWrite (clickCentre foundMsg clickedMsg settle clicked sels).
Proof.
  revert clicked. induction sels as [|sel rest IH]; intros clicked; simpl; [uses_steps|].
  apply uses_bind; [uses_steps|].
  intros [[c []]|e]; [uses_steps | apply IH | apply IH].
Qed.

Lemma selectPaymentMethod_noWrite : uses noWrite selectPaymentMethod.
Proof.
  unfold selectPaymentMethod, clickVAText, clickBCARadio.
  uses_steps; apply clickCentre_noWrite.
Qed.

Lemma checkAll_noWrite i checkboxes : uses noWrite (checkAll i checkboxes).
Proof.
  revert i. induction checkboxes as [|checkbox rest IH]; intros i; simpl; [uses_steps|].
  apply uses_bind; [uses_steps | intros _; apply IH].
Qed.

Lemma checkCheckboxes_noWrite : uses noWrite checkCheckboxes.
Proof. unfold checkCheckboxes. uses_steps. apply checkAll_noWrite. Qed.

Lemma clickPayNow_noWrite payNowClicked sels :
  uses noWrite (clickPayNow payNowClicked sels).
Proof.
  revert payNowClicked.
  induction sels as [|sel rest IH]; intros payNowClicked; simpl; [uses_steps|].
  apply uses_bind; [uses_steps|].
  intros [[c []]|e]; [uses_steps | apply IH | apply IH].
Qed.

Lemma scanLabels_noWrite sels : uses noWrite (scanLabels sels).
Proof.
  induction sels as [|sel rest IH]; simpl; [uses_steps|].
  apply uses_bind; [uses_steps; unfold throw; uses_steps|].
  intros [[num|]|e]; [uses_steps | exact IH | exact IH].
Qed.

Lemma scanContainers_noWrite containers : uses noWrite (scanContainers containers).
Proof.
  induction containers as [|container rest IH]; simpl; [uses_steps|].
  apply uses_bind; [uses_steps; unfold throw; uses_steps|].
  intros [[num|]|e]; [uses_steps | exact IH | exact IH].
Qed.

Lemma extractVA_noWrite : uses noWrite extractVA.
Proof.
  unfold extractVA, scanBodyText.
  uses_steps; first [apply scanLabels_noWrite | apply scanContainers_noWrite].
Qed.

Lemma noWrite_saves (tr : trace) : Forall noWrite tr -> Forall savesReference tr.
Proof.
  apply Forall_impl. intros [X e a]. destruct e; try (intros _; exact I). discriminate.
Qed.

(** A reference that reference extraction returns passed the filter. *)
Lemma extractVA_number tr r :
  runs extractVA tr r ->
  exists vaNumber,
    r = Fulfilled vaNumber /\
    forall num,
      vaNumber = Some num ->
      ~ excluded num /\ allDigits num /\ 10 <= String.length num <= 16.
Proof.
  intros H. unfold extractVA in H.
  apply runs_tryCatch in H as (tr1 & a & tr2 & R1 & -> & H).
  destruct a as [v|e].
  - destruct H as [-> ->]. exists v. split; [reflexivity|].
    intros num ->.
    eapply extractVA_body_sound in R1 as [L P]; [|reflexivity].
    split; [now apply isLikelyVA_not_excluded|].
    destruct P as [F | [F | F]].
    + destruct F as (sel & text & pre & post & I & V & T & M & E).
      apply matchAll_digitToken in M as (D & Len & _). now split.
    + destruct F as (cs & c & text & pre & post & A & I & T & P & M & E).
      apply matchAll_digitToken in M as (D & Len & _). split; [exact D | lia].
    + destruct F as (nodes & m & I & M & F).
      apply matchFirst_digits10to16 in F as [D Len]. now split.
  - step H as u. finish H. exists None. split; [reflexivity | discriminate].
Qed.

Lemma report_saves vaNumber vaClicked bcaClicked tr r :
  (forall num, vaNumber = Some num ->
               ~ excluded num /\ allDigits num /\ 10 <= String.length num <= 16) ->
  runs (report vaNumber vaClicked bcaClicked) tr r ->
  Forall savesReference tr.
Proof.
  intros V H. unfold report in H. destruct vaNumber as [num|].
  - step H as u1. step H as u2. step H as u3. step H as u4.
    step H as now. step H as url. step H as w.
    repeat (apply Forall_cons; [exact I|]).
    apply Forall_cons.
    + split; [reflexivity|]. exists num, now, url. split; [reflexivity|]. now apply V.
    + destruct w as [[]|e]; finish H; repeat constructor.
  - destruct (vaClicked && bcaClicked).
    + step H as u1. finish H. repeat constructor.
    + finish H. repeat constructor.
Qed.

Lemma afterCheckout_saves tr r :
  runs afterCheckout tr r -> Forall savesReference tr.
Proof.
  intros H. unfold afterCheckout in H.
  step H as u1. apply Forall_cons; [exact I|].
  step H as w1. apply Forall_cons; [exact I|].
  destruct w1 as [[]|e]; [|finish H; constructor].
  step H as currentUrl. apply Forall_cons; [exact I|].
  step H as u2. apply Forall_cons; [exact I|].
  apply runs_andThen in H as (tr1 & a1 & tr2 & R1 & -> & H).
  apply Forall_app. split.
  { apply noWrite_saves. eapply uses_runs; [|exact R1]. uses_steps. }
  destruct a1 as [[]|e]; [|destruct H as [-> _]; constructor].
  step H as u3. apply Forall_cons; [exact I|].
  apply runs_andThen in H as (tr3 & a3 & tr4 & R3 & -> & H).
  apply Forall_app. split.
  { apply noWrite_saves. eapply uses_runs; [apply selectPaymentMethod_noWrite | exact R3]. }
  destruct a3 as [[vaClicked bcaClicked]|e]; [|destruct H as [-> _]; constructor].
  step H as w2. apply Forall_cons; [exact I|].
  destruct w2 as [[]|e]; [|finish H; constructor].
  apply runs_andThen in H as (tr5 & a5 & tr6 & R5 & -> & H).
  apply Forall_app. split.
  { apply noWrite_saves. eapply uses_runs; [apply checkCheckboxes_noWrite | exact R5]. }
  destruct a5 as [[]|e]; [|destruct H as [-> _]; constructor].
  step H as w3. apply Forall_cons; [exact I|].
  destruct w3 as [[]|e]; [|finish H; constructor].
  step H as u4. apply Forall_cons; [exact I|].
  apply runs_andThen in H as (tr7 & a7 & tr8 & R7 & -> & H).
  apply Forall_app. split.
  { apply noWrite_saves. eapply uses_runs; [apply clickPayNow_noWrite | exact R7]. }
  destruct a7 as [payNowClicked|e]; [|destruct H as [-> _]; constructor].
  apply runs_andThen in H as (tr9 & a9 & tr10 & R9 & -> & H).
  apply Forall_app. split.
  { apply noWrite_saves. eapply uses_runs; [|exact R9].
    destruct payNowClicked; unfold when; cbn [negb]; uses_steps. }
  destruct a9 as [[]|e]; [|destruct H as [-> _]; constructor].
  step H as u5. apply Forall_cons; [exact I|].
  step H as w4. apply Forall_cons; [exact I|].
  destruct w4 as [[]|e]; [|finish H; constructor].
  apply runs_andThen in H as (tr11 & a11 & tr12 & R11 & -> & H).
  apply Forall_app. split.
  { apply noWrite_saves. eapply uses_runs; [apply extractVA_noWrite | exact R11]. }
  apply extractVA_number in R11 as (vaNumber & -> & V).
  apply runs_andThen in H as (tr13 & a13 & tr14 & R13 & -> & H).
  apply Forall_app. split.
  { now apply report_saves in R13. }
  destruct a13 as [[]|e]; [finish H | destruct H as [-> _]]; constructor.
Qed.


(** On the payment page: the unchecked box is checked, the pay button is
    clicked and the reference found in the body text is saved. *)
Lemma traceOn_runs {W R} (b : browser W) (w : W) (t : itree pageE R) (r : R) :
  resultOf b 3000 t w = Some r -> runs t (traceOn b w t) r.
Proof.
  unfold resultOf, traceOn.
  destruct (exec b 3000 t w) as [[[tr r'] w']|] eqn:E; [|discriminate].
  intros K. injection K as <-. exact (exec_runs _ _ _ _ E).
Qed.

Lemma checkboxes_only_checked_when_unchecked_witness :
  runs checkCheckboxes (onPaymentPage checkCheckboxes) (Fulfilled tt) /\
  onPaymentPage checkCheckboxes
  = firstn 5 (onPaymentPage checkCheckboxes) ++
    Ev (Click (Element 22) None) (Fulfilled tt)
    :: skipn 6 (onPaymentPage checkCheckboxes) /\
  exists pre,
    firstn 5 (onPaymentPage checkCheckboxes)
    = pre ++ [Ev (IsChecked (Element 22)) (Fulfilled false)].
Proof.
  assert (R : runs checkCheckboxes (onPaymentPage checkCheckboxes) (Fulfilled tt)).
  { apply traceOn_runs. vm_compute. reflexivity. }
  assert (S : onPaymentPage checkCheckboxes
              = firstn 5 (onPaymentPage checkCheckboxes) ++
                Ev (Click (Element 22) None) (Fulfilled tt)
                :: skipn 6 (onPaymentPage checkCheckboxes)).
  { vm_compute. reflexivity. }
  split; [exact R|]. split; [exact S|].
  exact (proj2 (@checkboxes_only_checked_when_unchecked _ _ R) _ _ _ _ _ S).
Defined.

Lemma payNow_flag_is_truthful_witness :
  runs (clickPayNow false payNowSelectors)
       (onPaymentPage (clickPayNow false payNowSelectors)) (Fulfilled true) /\
  0 < clicks (onPaymentPage (clickPayNow false payNowSelectors)).
Proof.
  assert (R : runs (clickPayNow false payNowSelectors)
                   (onPaymentPage (clickPayNow false payNowSelectors))
                   (Fulfilled true)).
  { apply traceOn_runs. vm_compute. reflexivity. }
  split; [exact R|].
  destruct (@payNow_flag_is_truthful _ _ R) as (b & E & F & _).
  injection E as <-. now apply F.
Defined.


(* ===================================================================== *)
(** ** [auth.js]: the login wait is bounded *)
(* ===================================================================== *)

Local Abbreviation notPoll := (fun en : entry => isPoll en = false).

Lemma polls_app tr1 tr2 : polls (tr1 ++ tr2) = polls tr1 + polls tr2.
Proof. unfold polls. now rewrite filter_app, length_app. Qed.

Lemma polls_notPoll tr : Forall notPoll tr -> polls tr = 0.
Proof.
  unfold polls. induction 1 as [|en tr H F IH]; [reflexivity|].
  simpl. now rewrite H.
Qed.

Lemma findIndicator_notPoll isLoggedIn sels :
  uses notPoll (findIndicator isLoggedIn sels).
Proof. induction sels as [|sel rest IH]; simpl; [uses_steps | uses_steps; exact IH]. Qed.

Lemma detectLogin_notPoll currentUrl isLoggedIn :
  uses notPoll (detectLogin currentUrl isLoggedIn).
Proof.
  unfold detectLogin. apply uses_bind; [apply findIndicator_notPoll|].
  intros [b|e]; [|uses_steps].
  destruct (_ && _); uses_steps.
Qed.

Lemma findIndicator_runs isLoggedIn sels tr r :
  runs (findIndicator isLoggedIn sels) tr r ->
  (exists b, r = Fulfilled b /\
             (b = true ->
              isLoggedIn = true \/
              exists selector element,
                In selector sels /\
                In (Ev (Query None selector) (Fulfilled (Some element))) tr)) \/
  exists e, r = Rejected e.
Proof.
  revert tr. induction sels as [|sel rest IH]; intros tr H; simpl in H.
  - finish H. left. exists isLoggedIn. split; [reflexivity | now left].
  - step H as element. destruct element as [[element|]|e].
    + finish H. left. exists true. split; [reflexivity|]. intros _. right.
      exists sel, element. split; now left.
    + apply IH in H as [(b & -> & K) | [e ->]]; [left | right; now exists e].
      exists b. split; [reflexivity|]. intros E.
      destruct (K E) as [L | (s & el & I1 & I2)]; [now left | right].
      exists s, el. split; now right.
    + finish H. right. now exists e.
Qed.

Lemma detectLogin_runs currentUrl isLoggedIn tr r :
  runs (detectLogin currentUrl isLoggedIn) tr r ->
  exists b,
    r = Fulfilled b /\
    (b = true ->
     isLoggedIn = true \/
     (exists selector element,
         In selector userIndicators /\
         In (Ev (Query None selector) (Fulfilled (Some element))) tr) \/
     (includes currentUrl "loket.com" = true /\
      includes currentUrl "login" = false /\
      includes currentUrl "register" = false)).
Proof.
  intros H. unfold detectLogin in H.
  apply runs_bind in H as (tr1 & a & tr2 & R1 & R2 & ->).
  apply findIndicator_runs in R1 as [(b & -> & K) | [e ->]].
  - assert (K' : b = true ->
                 isLoggedIn = true \/
                 (exists selector element,
                     In selector userIndicators /\
                     In (Ev (Query None selector) (Fulfilled (Some element)))
                        (tr1 ++ tr2)) \/
                 (includes currentUrl "loket.com" = true /\
                  includes currentUrl "login" = false /\
                  includes currentUrl "register" = false)).
    { intros E. destruct (K E) as [L | (s & el & I1 & I2)]; [now left | right; left].
      exists s, el. split; [exact I1|]. apply in_or_app. now left. }
    destruct (includes currentUrl "loket.com"
              && negb (includes currentUrl "login")
              && negb (includes currentUrl "register")) eqn:C.
    + apply andb_prop in C as [C C3]. apply andb_prop in C as [C1 C2].
      apply negb_true_iff in C2, C3.
      step R2 as w. destruct w as [[]|e]; finish R2.
      * exists true. split; [reflexivity|]. intros _. right. right. now repeat split.
      * exists b. now split.
    + finish R2. exists b. now split.
  - finish R2. exists isLoggedIn. split; [reflexivity | now left].
Qed.

(** A finished turn: it is rejected by its first sleep, or it counts one
    attempt and makes one poll. *)
Lemma loginTurn_runs isLoggedIn attempts tr r :
  runs (loginTurn (isLoggedIn, attempts)) tr r ->
  (exists e, r = Rejected e /\ tr = [Ev (WaitForTimeout (500 # 1)) (Rejected e)]) \/
  (exists b rest,
      r = Fulfilled (b, attempts + 1) /\
      tr = Ev (WaitForTimeout (500 # 1)) (Fulfilled tt) :: rest /\
      Forall notPoll rest /\
      (b = true -> isLoggedIn = true \/ loginSeen rest)).
Proof.
  intros H. unfold loginTurn in H.
  step H as w. destruct w as [[]|e]; [|finish H; left; now exists e].
  right. step H as currentUrl.
  apply runs_andThen in H as (tr1 & a & tr2 & R1 & -> & R2).
  assert (B : exists b,
             a = Fulfilled b /\ Forall notPoll tr1 /\
             (b = true ->
              isLoggedIn = true \/
              (includes currentUrl "/login" = false /\
               ((exists selector element,
                    In selector userIndicators /\
                    In (Ev (Query None selector) (Fulfilled (Some element))) tr1) \/
                (includes currentUrl "loket.com" = true /\
                 includes currentUrl "login" = false /\
                 includes currentUrl "register" = false))))).
  { clear R2.
    destruct (negb (includes currentUrl "/auth/login")
              && negb (includes currentUrl "/login")) eqn:C.
    - apply andb_prop in C as [_ C]. apply negb_true_iff in C.
      pose proof R1 as F. eapply uses_runs in F; [|apply detectLogin_notPoll].
      apply detectLogin_runs in R1 as (b & -> & K).
      exists b. split; [reflexivity|]. split; [exact F|].
      intros E. destruct (K E) as [L | D]; [now left | right; now split].
    - finish R1. exists isLoggedIn. split; [reflexivity|]. split; [constructor | now left]. }
  destruct B as (b & -> & F & K).
  apply runs_andThen in R2 as (tr3 & c & tr4 & R3 & -> & R4).
  assert (W : c = Fulfilled tt /\ Forall notPoll tr3).
  { unfold when in R3. destruct (_ =? _); finish R3; split; repeat constructor. }
  destruct W as [-> F3]. finish R4.
  exists b. eexists. split; [reflexivity|]. split; [reflexivity|]. split.
  - apply Forall_cons; [reflexivity|]. apply Forall_app. split; [exact F|].
    apply Forall_app. split; [exact F3 | constructor].
  - intros E. destruct (K E) as [L | (N & D)]; [now left | right].
    exists currentUrl. split; [now left|]. split; [exact N|].
    destruct D as [(s & el & I1 & I2) | D]; [left | now right].
    exists s, el. split; [exact I1|]. right. apply in_or_app. now left.
Qed.

Lemma loginTurn_notPoll_after isLoggedIn attempts :
  forall tr,
    partial (loginTurn (isLoggedIn, attempts)) tr ->
    tr = [] \/
    exists a rest, tr = Ev (WaitForTimeout (500 # 1)) a :: rest /\ Forall notPoll rest.
Proof.
  intros tr H. unfold loginTurn, andThen at 1 in H.
  apply partial_trigger_bind in H as [-> | (a & rest & -> & K)]; [now left|].
  right. exists a, rest. split; [reflexivity|].
  revert rest K.
  change (uses notPoll
            (match a with
             | Fulfilled _ =>
                 let attempts0 := attempts + 1 in
                 currentUrl <~ perform Url ;;;
                 isLoggedIn0 <~
                   (if negb (includes currentUrl "/auth/login")
                       && negb (includes currentUrl "/login")
                    then detectLogin currentUrl isLoggedIn
                    else ret isLoggedIn) ;;;
                 when (attempts0 mod 20 =? 0)
                      (perform (Log logger.queue
                         [Str "Waiting for login... ("; Num (attempts0 / 2);
                          Str "s elapsed)"])) ;;;
                 ret (isLoggedIn0, attempts0)
             | Rejected err => Ret (Rejected err)
             end)).
  destruct a as [[]|e]; [|apply uses_Ret].
  cbv zeta. unfold andThen at 1. apply uses_bind; [uses_steps|].
  intros [currentUrl|e]; [|apply uses_Ret].
  unfold andThen at 1. apply uses_bind.
  { destruct (_ && _); [apply detectLogin_notPoll | apply uses_Ret]. }
  intros [b|e]; [|apply uses_Ret].
  unfold when. destruct (_ =? _); uses_steps.
Qed.

Lemma polls_turn (a : outcome unit) rest :
  Forall notPoll rest -> polls (Ev (WaitForTimeout (500 # 1)) a :: rest) = 1.
Proof. intros F. unfold polls. simpl. f_equal. now apply polls_notPoll. Qed.

(** A turn of the loop that goes round again. *)
Lemma loginLoop_again isLoggedIn attempts tr st' :
  runs (loginLoop (isLoggedIn, attempts)) tr (inl st') ->
  isLoggedIn = false /\ attempts < maxAttempts /\
  snd st' = attempts + 1 /\ polls tr = 1 /\
  (fst st' = true -> loginSeen tr).
Proof.
  unfold loginLoop. simpl fst. simpl snd.
  destruct isLoggedIn; simpl negb; cbn [andb].
  { intros H. apply runs_Ret in H as [_ H]. discriminate. }
  destruct (attempts <? maxAttempts) eqn:L.
  2:{ intros H. apply runs_Ret in H as [_ H]. discriminate. }
  apply Nat.ltb_lt in L. intros H.
  apply runs_bind in H as (tr1 & a & tr2 & R1 & R2 & ->).
  apply loginTurn_runs in R1 as [(e & -> & ->) | (b & rest & -> & -> & F & K)].
  - apply runs_Ret in R2 as [_ R2]. discriminate.
  - apply runs_Ret in R2 as [-> E]. injection E as ->.
    rewrite app_nil_r. repeat split; [exact L | now apply polls_turn|].
    simpl. intros E. destruct (K E) as [D | (u & I1 & D)]; [discriminate|].
    exists u. split; [now right|]. destruct D as [N [(s & el & I2 & I3) | D]].
    + split; [exact N|]. left. exists s, el. split; [exact I2 | now right].
    + split; [exact N | now right].
Qed.

Lemma loginLoop_exit isLoggedIn attempts tr r :
  attempts <= maxAttempts ->
  runs (loginLoop (isLoggedIn, attempts)) tr (inr r) ->
  (r = Fulfilled isLoggedIn /\ tr = [] /\
   (isLoggedIn = false -> attempts = maxAttempts)) \/
  (exists e, r = Rejected e /\ tr = [Ev (WaitForTimeout (500 # 1)) (Rejected e)]).
Proof.
  intros Le. unfold loginLoop. simpl fst. simpl snd.
  destruct isLoggedIn; simpl negb; cbn [andb].
  { intros H. apply runs_Ret in H as [-> E]. injection E as ->.
    left. repeat split. discriminate. }
  destruct (attempts <? maxAttempts) eqn:L.
  2:{ intros H. apply runs_Ret in H as [-> E]. injection E as ->.
      apply Nat.ltb_ge in L. left. repeat split. intros _. lia. }
  intros H.
  apply runs_bind in H as (tr1 & a & tr2 & R1 & R2 & ->).
  apply loginTurn_runs in R1 as [(e & -> & ->) | (b & rest & -> & -> & F & K)].
  - apply runs_Ret in R2 as [-> E]. injection E as ->. right. now exists e.
  - apply runs_Ret in R2 as [_ R2]. discriminate.
Qed.

Lemma loginLoop_partial isLoggedIn attempts tr :
  partial (loginLoop (isLoggedIn, attempts)) tr ->
  polls tr <= 1 /\ (maxAttempts <= attempts -> polls tr = 0).
Proof.
  unfold loginLoop. simpl fst. simpl snd.
  destruct isLoggedIn; simpl negb; cbn [andb].
  { intros H. apply partial_Ret in H as ->. split; [auto | reflexivity]. }
  destruct (attempts <? maxAttempts) eqn:L.
  2:{ intros H. apply partial_Ret in H as ->. split; [auto | reflexivity]. }
  apply Nat.ltb_lt in L. intros H.
  assert (P : partial (loginTurn (false, attempts)) tr).
  { apply partial_bind in H as [H | (tr1 & a & tr2 & R1 & R2 & ->)]; [exact H|].
    assert (tr2 = []) as ->.
    { destruct a; now apply partial_Ret in R2. }
    rewrite app_nil_r. now apply runs_partial with a. }
  apply loginTurn_notPoll_after in P as [-> | (a & rest & -> & F)].
  - split; [auto | reflexivity].
  - rewrite polls_turn by exact F. split; [auto | lia].
Qed.

Lemma waitForLogin_polls st tr :
  loops_partial loginLoop st tr ->
  snd st <= maxAttempts -> polls tr + snd st <= maxAttempts.
Proof.
  induction 1 as [[b n] tr H | [b n] tr1 st' tr2 H1 H2 IH]; simpl; intros Le.
  - apply loginLoop_partial in H as [H1 H0].
    destruct (Nat.eq_dec n maxAttempts) as [->|N]; [rewrite H0; lia | lia].
  - apply loginLoop_again in H1 as (_ & L & S & P & _).
    rewrite polls_app, P. rewrite S in IH. lia.
Qed.

Lemma waitForLogin_ends st tr r :
  loops loginLoop st tr r ->
  snd st <= maxAttempts ->
  match r with
  | Fulfilled false => polls tr + snd st = maxAttempts
  | Fulfilled true => fst st = true \/ loginSeen tr
  | Rejected e => exists pre, tr = pre ++ [Ev (WaitForTimeout (500 # 1)) (Rejected e)]
  end.
Proof.
  induction 1 as [[b n] tr r H | [b n] tr1 st' tr2 r H1 H2 IH]; simpl; intros Le.
  - apply loginLoop_exit in H as [(-> & -> & K) | (e & -> & ->)]; [| |exact Le].
    + destruct b; [now left|]. simpl. now apply K.
    + now exists [].
  - apply loginLoop_again in H1 as (_ & L & S & P & K).
    assert (Le' : snd st' <= maxAttempts) by lia.
    specialize (IH Le'). destruct r as [[|]|e].
    + right. destruct IH as [E | (u & I1 & D)].
      * destruct (K E) as (u & I1 & D). exists u. split; [apply in_or_app; now left|].
        destruct D as [N [(s & el & I2 & I3) | D]]; (split; [exact N|]); [left | now right].
        exists s, el. split; [exact I2 | apply in_or_app; now left].
      * exists u. split; [apply in_or_app; now right|].
        destruct D as [N [(s & el & I2 & I3) | D]]; (split; [exact N|]); [left | now right].
        exists s, el. split; [exact I2 | apply in_or_app; now right].
    + rewrite polls_app, P. lia.
    + destruct IH as [pre ->]. exists (tr1 ++ pre). now rewrite app_assoc.
Qed.

Ltac finite_steps :=
  repeat
    lazymatch goal with
    | |- all_finite (Ret _) => apply all_finite_Ret
    | |- all_finite (ret _) => apply all_finite_Ret
    | |- all_finite (ITree.trigger _) => apply all_finite_trigger
    | |- all_finite (await _) => apply all_finite_trigger
    | |- all_finite (perform _) => unfold perform
    | |- all_finite (when _ _) => unfold when
    | |- all_finite (andThen _ _) => apply all_finite_andThen; [|intros ?]
    | |- all_finite (ITree.bind _ _) => apply all_finite_bind_weak; [|intros ?]
    | |- all_finite (match ?x with _ => _ end) => destruct x
    end.

Lemma findIndicator_finite isLoggedIn sels : all_finite (findIndicator isLoggedIn sels).
Proof.
  induction sels as [|sel rest IH]; simpl; [finite_steps | finite_steps; exact IH].
Qed.

Lemma loginLoop_finite st : all_finite (loginLoop st).
Proof.
  destruct st as [b n]. unfold loginLoop, loginTurn, detectLogin.
  finite_steps; apply findIndicator_finite.
Qed.

Lemma waitForLogin_finite_from k :
  forall b n, n <= maxAttempts -> maxAttempts - n <= k ->
              all_finite (ITree.iter loginLoop (b, n)).
Proof.
  induction k as [|k IH]; intros b n Le Hk;
    (eapply all_finite_observe; [symmetry; apply observe_iter|]);
    (apply all_finite_bind; [apply loginLoop_finite|]);
    intros [st'|r] L; try apply all_finite_Ret;
    apply Leaf_runs in L as [tr L];
    apply loginLoop_again in L as (_ & Lt & S & _).
  - lia.
  - apply all_finite_Tau. destruct st' as [b' n']. simpl in S. subst n'.
    apply IH; lia.
Qed.

(** X10: the wait for the manual login in [auth.js] is bounded.  No
    execution, finished or not, makes more than 600 polls (sleeps of
    500 ms), and every execution is finite.  A finished run that reports no
    login made exactly 600 polls; one that reports a login has read a URL
    without [/login] and either found a user element or that URL was on
    loket.com and mentioned neither login nor register; and the loop throws
    only when its sleep of 500 ms throws. *)
Theorem login_wait_is_bounded :
  (forall tr, partial waitForLogin tr -> polls tr <= maxAttempts) /\
  all_finite waitForLogin /\
  (forall tr r,
      runs waitForLogin tr r ->
      match r with
      | Fulfilled false => polls tr = maxAttempts
      | Fulfilled true => loginSeen tr
      | Rejected e =>
          exists pre, tr = pre ++ [Ev (WaitForTimeout (500 # 1)) (Rejected e)]
      end).
Proof.
  split; [|split].
  - intros tr H. apply partial_iter in H. apply waitForLogin_polls in H.
    + simpl in H. lia.
    + apply Nat.le_0_l.
  - apply waitForLogin_finite_from with maxAttempts; [apply Nat.le_0_l | lia].
  - intros tr r H. apply runs_iter in H.
    apply waitForLogin_ends in H; [|apply Nat.le_0_l].
    destruct r as [[|]|e]; [|simpl in H; lia|exact H].
    destruct H as [E | H]; [discriminate | exact H].
Qed.

Lemma append_assoc (a b c : string) : ((a ++ b) ++ c = a ++ b ++ c)%string.
Proof. induction a as [|x a IH]; simpl; [reflexivity | now rewrite IH]. Qed.

Lemma includes_login (s : string) :
  includes s "login" = false -> includes s "/login" = false /\ includes s "/auth/login" = false.
Proof.
  intros H. split.
  - destruct (includes s "/login") eqn:E; [|reflexivity].
    apply includes_spec in E as (pre & post & ->).
    assert (K : includes (pre ++ "/login" ++ post) "login" = true).
    { apply includes_spec. exists (pre ++ "/")%string, post.
      now rewrite append_assoc. }
    congruence.
  - destruct (includes s "/auth/login") eqn:E; [|reflexivity].
    apply includes_spec in E as (pre & post & ->).
    assert (K : includes (pre ++ "/auth/login" ++ post) "login" = true).
    { apply includes_spec. exists (pre ++ "/auth/")%string, post.
      now rewrite append_assoc. }
    congruence.
Qed.

(** X11: the loop of [auth.js] declares the login without any user element
    on the page.  Whenever the URL is on loket.com and mentions neither
    login nor register, the run in which the first poll reads that URL,
    every indicator selector resolves to nothing and the sleep of two
    seconds goes through is a run of the loop, and it reports a login. *)
Theorem login_declared_without_user_element :
  forall currentUrl : string,
    includes currentUrl "loket.com" = true ->
    includes currentUrl "login" = false ->
    includes currentUrl "register" = false ->
    runs waitForLogin (noIndicatorTrace currentUrl) (Fulfilled true).
Proof.
  intros currentUrl H1 H2 H3.
  destruct (includes_login _ H2) as [N1 N2].
  apply runs_iter.
  rewrite <- (app_nil_r (noIndicatorTrace currentUrl)).
  apply loops_again with (true, 1).
  2:{ apply loops_exit. apply runs_Ret. now split. }
  unfold loginLoop. cbn [fst snd negb andb Nat.ltb Nat.leb maxAttempts].
  apply runs_bind.
  exists (noIndicatorTrace currentUrl), (Fulfilled (true, 1)), [].
  split; [|split; [apply runs_Ret; now split | now rewrite app_nil_r]].
  unfold loginTurn, noIndicatorTrace.
  apply runs_andThen_await. eexists (Fulfilled tt), _. split; [reflexivity|].
  cbv zeta.
  apply runs_andThen_perform. eexists currentUrl, _. split; [reflexivity|].
  rewrite N1, N2. cbn [negb andb].
  apply runs_andThen.
  eexists _, (Fulfilled true), []. split; [|split; [now rewrite app_nil_r|]].
  - unfold detectLogin. rewrite H1, H2, H3. cbn [negb andb].
    apply runs_bind.
    eexists _, (Fulfilled false), _. split; [|split; [|reflexivity]].
    + cbn [map userIndicators]. run_along.
    + apply runs_trigger_bind. exists (Fulfilled tt), []. split; [reflexivity|].
      apply runs_Ret. now split.
  - apply runs_andThen. exists [], (Fulfilled tt), [].
    split; [apply runs_Ret; now split|]. split; [reflexivity|].
    apply runs_Ret. now split.
Qed.

Lemma login_declared_without_user_element_witness :
  includes "https://www.loket.com/" "loket.com" = true /\
  includes "https://www.loket.com/" "login" = false /\
  includes "https://www.loket.com/" "register" = false /\
  runs waitForLogin (noIndicatorTrace "https://www.loket.com/") (Fulfilled true).
Proof.
  split; [reflexivity|]. split; [reflexivity|]. split; [reflexivity|].
  apply login_declared_without_user_element; reflexivity.
Defined.

(* ===================================================================== *)
(** ** [fillForm]: the fields filled by selector, and the gender *)
(* ===================================================================== *)

Lemma fills_app tr1 tr2 : fills (tr1 ++ tr2) = fills tr1 + fills tr2.
Proof. unfold fills. now rewrite filter_app, length_app. Qed.

(** A finished attempt on one selector: nothing filled and nothing
    reported, or the fill and its report at the end. *)
Lemma fillField_runs mapping sels tr r :
  runs (fillField mapping sels) tr r ->
  exists pre,
    fills pre = 0 /\ quiet pre = true /\
    ((r = Fulfilled true /\
      exists selector,
        In selector sels /\
        tr = pre ++
             [ Ev (Fill (First (Locator selector)) mapping.(fieldMapping.value))
                  (Fulfilled tt);
               Ev (Log logger.success
                      [Str "Filled "; Str mapping.(fieldMapping.name); Str ": ";
                       Str (substring0 10 mapping.(fieldMapping.value));
                       Str "..."]) tt ])
     \/
     (r = Fulfilled false /\ tr = pre)).
Proof.
  revert tr. induction sels as [|selector rest IH]; intros tr H; simpl in H.
  - finish H. exists []. repeat split. now right.
  - apply runs_bind in H as (tr1 & a & tr2 & R1 & R2 & ->).
    assert (B : (a = Fulfilled true /\
                 tr1 = [ Ev (IsVisible (First (Locator selector)) (Some (500 # 1)%Q))
                            (Fulfilled true);
                         Ev (Fill (First (Locator selector))
                                  mapping.(fieldMapping.value)) (Fulfilled tt);
                         Ev (Log logger.success
                                [Str "Filled "; Str mapping.(fieldMapping.name);
                                 Str ": ";
                                 Str (substring0 10 mapping.(fieldMapping.value));
                                 Str "..."]) tt ]) \/
                ((a = Fulfilled false \/ exists e, a = Rejected e) /\
                 fills tr1 = 0 /\ quiet tr1 = true)).
    { clear R2. step R1 as isVisible. destruct isVisible as [[|]|e].
      - step R1 as f. destruct f as [[]|e].
        + step R1 as u. finish R1. destruct u. now left.
        + finish R1. right. split; [right; now exists e | now split].
      - finish R1. right. split; [now left | now split].
      - finish R1. right. split; [now left | now split]. }
    destruct B as [[-> ->] | [A [F Q]]].
    + finish R2. exists [Ev (IsVisible (First (Locator selector)) (Some (500 # 1)%Q))
                            (Fulfilled true)].
      repeat split. left. split; [reflexivity|]. exists selector. split; [now left|].
      reflexivity.
    + assert (R : runs (fillField mapping rest) tr2 r).
      { destruct A as [-> | [e ->]]; exact R2. }
      apply IH in R as (pre & F2 & Q2 & D).
      exists (tr1 ++ pre). split; [now rewrite fills_app, F, F2|].
      split; [now rewrite quiet_app, Q, Q2|].
      destruct D as [(-> & s & I & ->) | (-> & ->)].
      * left. split; [reflexivity|]. exists s. split; [now right|].
        now rewrite app_assoc.
      * now right.
Qed.

Lemma fillFields_runs mappings tr r :
  runs (fillFields mappings) tr r ->
  r = Fulfilled tt /\
  exists trs, tr = concat trs /\ Forall2 fieldDone mappings trs.
Proof.
  revert tr. induction mappings as [|mapping rest IH]; intros tr H; simpl in H.
  - finish H. split; [reflexivity|]. exists []. split; [reflexivity | constructor].
  - apply runs_andThen in H as (tr1 & a & tr2 & R1 & -> & R2).
    apply fillField_runs in R1 as (pre & F & Q & D).
    destruct D as [(-> & s & I & ->) | (-> & ->)].
    + apply runs_andThen in R2 as (tr3 & b & tr4 & R3 & -> & R4).
      unfold when in R3. cbn [negb] in R3. finish R3.
      apply IH in R4 as (-> & trs & -> & K). split; [reflexivity|].
      eexists (_ :: trs). split; [reflexivity|]. constructor; [|exact K].
      exists pre. split; [exact F|]. split; [exact Q|]. left. now exists s.
    + apply runs_andThen in R2 as (tr3 & b & tr4 & R3 & -> & R4).
      unfold when in R3. cbn [negb] in R3. finish R3.
      apply IH in R4 as (-> & trs & -> & K). split; [reflexivity|].
      exists ((pre ++ [Ev (Log logger.warn
                             [Str "Could not find field for: ";
                              Str mapping.(fieldMapping.name)]) tt]) :: trs).
      split; [simpl; now rewrite <- app_assoc|]. constructor; [|exact K].
      exists pre. split; [exact F|]. split; [exact Q|]. now right.
Qed.

(** X12: the loop of [fillForm] over the field mappings never throws, and
    it deals with the four fields in turn, Name, NIK, Email and Phone.  For
    each field the execution is a stretch in which nothing is filled and no
    success is reported, ended either by one fill that went through, of the
    field's configured value into the element one of the field's selectors
    resolved to, followed by the success message, or by the warning that no
    field was found.  So each field is filled at most once, and a success is
    reported only for a fill that went through. *)
Theorem fields_filled_at_most_once :
  forall (data : personalData.t) (tr : trace) (r : outcome unit),
    runs (fillFields (fieldMappings data)) tr r ->
    r = Fulfilled tt /\
    exists trs, tr = concat trs /\ Forall2 fieldDone (fieldMappings data) trs.
Proof. intros data tr r. apply fillFields_runs. Qed.

Lemma fields_filled_at_most_once_witness :
  runs (fillFields (fieldMappings sampleData))
       (traceOn formPage tt (fillFields (fieldMappings sampleData)))
       (Fulfilled tt) /\
  fills (traceOn formPage tt (fillFields (fieldMappings sampleData))) = 2 /\
  exists trs,
    traceOn formPage tt (fillFields (fieldMappings sampleData)) = concat trs /\
    Forall2 fieldDone (fieldMappings sampleData) trs.
Proof.
  assert (R : runs (fillFields (fieldMappings sampleData))
                   (traceOn formPage tt (fillFields (fieldMappings sampleData)))
                   (Fulfilled tt)).
  { apply traceOn_runs. vm_compute. reflexivity. }
  split; [exact R|]. split; [vm_compute; reflexivity|].
  exact (proj2 (@fields_filled_at_most_once _ _ _ R)).
Defined.

(** *** The gender *)

Lemma clickGender_runs genderValue sels tr r :
  runs (clickGender genderValue sels) tr r ->
  (r = Fulfilled true /\ clicks tr = 1) \/
  (r = Fulfilled false /\ clicks tr = 0 /\ quiet tr = true).
Proof.
  revert tr. induction sels as [|sel rest IH]; intros tr H; simpl in H.
  - finish H. right. now repeat split.
  - apply runs_bind in H as (tr1 & a & tr2 & R1 & R2 & ->).
    assert (B : (a = Fulfilled true /\ clicks tr1 = 1) \/
                ((a = Fulfilled false \/ exists e, a = Rejected e) /\
                 clicks tr1 = 0 /\ quiet tr1 = true)).
    { clear R2. step R1 as isVisible. destruct isVisible as [[|]|e].
      - step R1 as c. destruct c as [[]|e].
        + step R1 as u. finish R1. now left.
        + finish R1. right. split; [right; now exists e | now split].
      - finish R1. right. split; [now left | now split].
      - finish R1. right. split; [now left | now split]. }
    destruct B as [[-> C] | [A [C Q]]].
    + finish R2. left. split; [reflexivity|]. now rewrite app_nil_r.
    + assert (R : runs (clickGender genderValue rest) tr2 r).
      { destruct A as [-> | [e ->]]; exact R2. }
      apply IH in R as [[-> C2] | (-> & C2 & Q2)].
      * left. split; [reflexivity|]. rewrite clicks_app. lia.
      * right. split; [reflexivity|]. split; [rewrite clicks_app; lia|].
        now rewrite quiet_app, Q, Q2.
Qed.

Lemma clicks_cons en tr : clicks (en :: tr) = (if isClick en then 1 else 0) + clicks tr.
Proof. unfold clicks. simpl. now destruct (isClick en). Qed.

Lemma quiet_cons en tr : quiet (en :: tr) = negb (isSuccessLog en) && quiet tr.
Proof. reflexivity. Qed.

(** Counts the clicks and the success messages of a trace made of known
    interactions and of stretches with known counts. *)
Ltac tally :=
  repeat rewrite ?app_nil_r, ?clicks_cons, ?clicks_app, ?quiet_cons, ?quiet_app;
  repeat match goal with
         | C : clicks _ = _ |- _ => rewrite C
         | Q : quiet _ = _ |- _ => rewrite Q
         end;
  cbn.

Lemma fillGender_runs gender tr r :
  runs (fillGender gender) tr r ->
  r = Fulfilled tt /\ clicks tr <= 1 /\
  (quiet tr = false -> clicks tr = 1) /\
  (falsy gender = true -> tr = []).
Proof.
  intros H. unfold fillGender in H. destruct (falsy gender) eqn:G.
  { finish H. repeat split; auto. discriminate. }
  apply runs_tryCatch in H as (tr1 & a & tr2 & R1 & -> & R2).
  assert (B : (a = Fulfilled tt \/ exists e, a = Rejected e) /\
              clicks tr1 <= 1 /\ (quiet tr1 = false -> clicks tr1 = 1)).
  { clear R2. cbv zeta in R1. step R1 as u. step R1 as allRadios.
    destruct allRadios as [allRadios|e].
    2:{ finish R1. split; [right; now exists e|]. tally. split; [auto | discriminate]. }
    step R1 as u2.
    apply runs_andThen in R1 as (tr3 & b & tr4 & R3 & -> & R4).
    apply clickGender_runs in R3 as [[-> C] | (-> & C & Q)].
    - apply runs_andThen in R4 as (tr5 & c & tr6 & R5 & -> & R6).
      cbn [negb andb] in R5. finish R5.
      unfold when in R6. cbn [negb] in R6. finish R6.
      split; [now left|]. tally. split; [lia | reflexivity].
    - apply runs_andThen in R4 as (tr5 & c & tr6 & R5 & -> & R6).
      cbn [negb andb] in R5.
      destruct (2 <=? length allRadios).
      + step R5 as u3.
        destruct (nth_error allRadios
                    (if (toLowerCase (orDefault gender "") =? "male")%string
                     then 0 else 1)) as [radio|].
        * step R5 as k. destruct k as [[]|e].
          -- step R5 as u4. finish R5.
             unfold when in R6. cbn [negb] in R6. finish R6.
             split; [now left|]. tally. split; [lia | reflexivity].
          -- finish R5. destruct R6 as [-> ->].
             split; [right; now exists e|]. tally. split; [lia | discriminate].
        * finish R5. unfold when in R6. cbn [negb] in R6. finish R6.
          split; [now left|]. tally. split; [lia | discriminate].
      + finish R5. unfold when in R6. cbn [negb] in R6. finish R6.
        split; [now left|]. tally. split; [lia | discriminate]. }
  destruct B as ([-> | [e ->]] & C & Q).
  - destruct R2 as [-> ->]. rewrite app_nil_r. repeat split; auto. discriminate.
  - finish R2. split; [reflexivity|].
    rewrite clicks_app, quiet_app. unfold clicks at 2. cbn. 
    rewrite Nat.add_0_r, andb_true_r.
    repeat split; auto. discriminate.
Qed.

(** X13: the gender step of [fillForm] never throws, does nothing at all
    when no gender is configured, and otherwise makes at most one click that
    goes through, whether on a radio button found by selector or on the one
    chosen by position; a success is reported only when a click went
    through. *)
Theorem gender_clicked_at_most_once :
  forall (gender : option string) (tr : trace) (r : outcome unit),
    runs (fillGender gender) tr r ->
    r = Fulfilled tt /\ clicks tr <= 1 /\
    (quiet tr = false -> clicks tr = 1) /\
    (falsy gender = true -> tr = []).
Proof. intros gender tr r. apply fillGender_runs. Qed.

Lemma gender_clicked_at_most_once_witness :
  runs (fillGender (Some "Female")) (traceOn formPage tt (fillGender (Some "Female")))
       (Fulfilled tt) /\
  clicks (traceOn formPage tt (fillGender (Some "Female"))) = 1.
Proof.
  assert (R : runs (fillGender (Some "Female"))
                   (traceOn formPage tt (fillGender (Some "Female")))
                   (Fulfilled tt)).
  { apply traceOn_runs. vm_compute. reflexivity. }
  split; [exact R|].
  destruct (@gender_clicked_at_most_once _ _ _ R) as (_ & _ & K & _).
  apply K. vm_compute. reflexivity.
Defined.

(* ===================================================================== *)
(** ** Reference extraction: a digit token is a whole token *)
(* ===================================================================== *)

Lemma repeatClass_digits_last (ic : bool) (A : Type) (hi : nat) :
  forall lo prev s (k : option ascii -> string -> option A) x,
    repeatClass ic Digit lo hi prev s k = Some x ->
    exists m rest,
      s = (m ++ rest)%string /\ allDigits m /\
      lo <= String.length m <= hi /\ k (lastChar prev m) rest = Some x.
Proof.
  induction hi as [|hi IH]; intros lo prev s k x H; simpl in H.
  - destruct (lo =? 0) eqn:L; [|discriminate]. apply Nat.eqb_eq in L.
    exists EmptyString, s. simpl. repeat split; [lia | lia | exact H].
  - assert (Stop : (if lo =? 0 then k prev s else None) = Some x ->
                   exists m rest,
                     s = (m ++ rest)%string /\ allDigits m /\
                     lo <= String.length m <= S hi /\
                     k (lastChar prev m) rest = Some x).
    { intros E. destruct (lo =? 0) eqn:L; [|discriminate]. apply Nat.eqb_eq in L.
      exists EmptyString, s. simpl. repeat split; [lia | lia | exact E]. }
    destruct s as [|a s]; [now apply Stop|].
    destruct (isDigit a) eqn:D; [|now apply Stop].
    destruct (repeatClass ic Digit (lo - 1) hi (Some a) s k) as [y|] eqn:R;
      [|now apply Stop].
    injection H as ->.
    destruct (IH _ _ _ _ _ R) as (m & rest & -> & Dm & Lm & K).
    exists (String a m), rest. simpl.
    repeat split; [exact D | exact Dm | lia | lia | exact K].
Qed.

Lemma lastChar_digits prev m :
  allDigits m -> m <> EmptyString ->
  exists d, lastChar prev m = Some d /\ isDigit d = true.
Proof.
  revert prev. induction m as [|a m IH]; intros prev D N; [contradiction|].
  destruct D as [Da Dm]. destruct m as [|b m].
  - exists a. now split.
  - apply (IH (Some a)); [exact Dm | discriminate].
Qed.

Lemma isDigit_isWord a : isDigit a = true -> isWord a = true.
Proof. intros H. unfold isWord. now rewrite H. Qed.

Lemma matchAt_digitToken_delimited (ic : bool) lo hi prev s m :
  0 < lo ->
  matchAt ic (digitToken lo hi) prev s = Some m ->
  allDigits m /\ lo <= String.length m <= hi /\
  match prev with Some a => isWord a | None => false end = false /\
  exists rest, s = (m ++ rest)%string /\ beginsWithWord rest = false.
Proof.
  intros Hlo. unfold matchAt, digitToken. simpl.
  destruct (atBoundary prev s) eqn:B1; [|discriminate].
  destruct (repeatClass _ _ _ _ _ _ _) as [rest0|] eqn:R; [|discriminate].
  intros E. injection E as <-.
  apply repeatClass_digits_last in R as (m & rest & -> & Dm & Lm & K).
  destruct (atBoundary (lastChar prev m) rest) eqn:B2; [|discriminate].
  injection K as <-. rewrite substring0_app.
  split; [exact Dm|]. split; [exact Lm|].
  assert (Nm : m <> EmptyString).
  { intros ->. simpl in Lm. lia. }
  split.
  - destruct m as [|a m]; [contradiction|]. destruct Dm as [Da _].
    unfold atBoundary in B1. simpl in B1. rewrite (isDigit_isWord _ Da) in B1.
    destruct prev as [p|]; [|reflexivity]. now destruct (isWord p).
  - exists rest. split; [reflexivity|].
    destruct (lastChar_digits prev Dm Nm) as (d & Ld & Dd).
    unfold atBoundary in B2. rewrite Ld, (isDigit_isWord _ Dd) in B2.
    unfold beginsWithWord. destruct rest as [|b rest]; [reflexivity|].
    now destruct (isWord b).
Qed.

Lemma scanFrom_matchAt_last (ic : bool) (r : regex) (m : string) :
  forall s prev skip,
    In m (scanFrom ic r prev s skip) ->
    exists pre s',
      s = (pre ++ s')%string /\ matchAt ic r (lastChar prev pre) s' = Some m.
Proof.
  induction s as [|a s IH]; intros prev skip H.
  - destruct skip; simpl in H; [|contradiction].
    destruct (matchAt ic r prev "") as [m'|] eqn:M; [|contradiction].
    destruct H as [<-|[]]. now exists EmptyString, EmptyString.
  - destruct skip as [|skip]; simpl in H.
    + destruct (matchAt ic r prev (String a s)) as [m'|] eqn:M.
      * destruct H as [<-|H]; [now exists EmptyString, (String a s)|].
        destruct (IH _ _ H) as (pre & s' & -> & K).
        now exists (String a pre), s'.
      * destruct (IH _ _ H) as (pre & s' & -> & K).
        now exists (String a pre), s'.
    + destruct (IH _ _ H) as (pre & s' & -> & K).
      now exists (String a pre), s'.
Qed.

(** X14: a number that the label and container steps of reference
    extraction take from a text ([/\b(\d{lo,hi})\b/g] with [lo] positive) is
    a whole token of that text: it consists of [lo] to [hi] digits and is
    neither preceded nor followed by a letter, a digit or an underscore.  So
    a run of more than [hi] digits, or digits glued to a word, yield no
    candidate.  Hence the number the label step returns is a whole token of
    10 to 16 digits of the text of an element it read, and the number the
    container step returns a whole token of 12 to 16 digits of the text of a
    container it read. *)
Theorem digit_tokens_are_whole :
  (forall (lo hi : nat) (text num : string),
      0 < lo ->
      In num (matchAll false (digitToken lo hi) text) ->
      allDigits num /\ lo <= String.length num <= hi /\
      exists pre post,
        text = (pre ++ num ++ post)%string /\
        endsInWord pre = false /\ beginsWithWord post = false) /\
  (forall (sels : list string) (tr : trace) (num : string),
      runs (scanLabels sels) tr (Fulfilled (Some num)) ->
      wholeTokenRead 10 tr num) /\
  (forall (containers : list handle) (tr : trace) (num : string),
      runs (scanContainers containers) tr (Fulfilled (Some num)) ->
      wholeTokenRead 12 tr num).
Proof.
  assert (W : forall (lo hi : nat) (text num : string),
             0 < lo ->
             In num (matchAll false (digitToken lo hi) text) ->
             allDigits num /\ lo <= String.length num <= hi /\
             exists pre post,
               text = (pre ++ num ++ post)%string /\
               endsInWord pre = false /\ beginsWithWord post = false).
  { intros lo hi text num Hlo H.
    apply scanFrom_matchAt_last in H as (pre & s' & -> & M).
    apply matchAt_digitToken_delimited in M as (D & L & B & rest & -> & E);
      [|exact Hlo].
    split; [exact D|]. split; [exact L|]. now exists pre, rest. }
  split; [exact W|]. split.
  - intros sels tr num H.
    apply scanLabels_sound in H as (v & E & K). injection E as <-.
    destruct (K num eq_refl) as (_ & sel & text & _ & _ & T & M).
    apply W in M as (D & L & pre & post & -> & B1 & B2); [|lia].
    exists (First (Locator sel)), (pre ++ num ++ post)%string, pre, post.
    now repeat split.
  - intros containers tr num H.
    apply scanContainers_sound in H as (v & E & K). injection E as <-.
    destruct (K num eq_refl) as (_ & c & text & _ & T & _ & M).
    apply W in M as (D & L & pre & post & -> & B1 & B2); [|lia].
    exists c, (pre ++ num ++ post)%string, pre, post.
    now repeat split.
Qed.

Lemma digit_tokens_are_whole_witness :
  0 < 10 /\
  In "88700123456789"
     (matchAll false (digitToken 10 16)
               "Nomor VA 88700123456789, ref 123456789012345678") /\
  matchAll false (digitToken 10 16)
           "Nomor VA 88700123456789, ref 123456789012345678"
  = ["88700123456789"] /\
  exists pre post,
    "Nomor VA 88700123456789, ref 123456789012345678"
    = (pre ++ "88700123456789" ++ post)%string /\
    endsInWord pre = false /\ beginsWithWord post = false.
Proof.
  assert (M : In "88700123456789"
                 (matchAll false (digitToken 10 16)
                           "Nomor VA 88700123456789, ref 123456789012345678")).
  { vm_compute. now left. }
  split; [repeat constructor|]. split; [exact M|]. split; [vm_compute; reflexivity|].
  exact (proj2 (proj2 (proj1 digit_tokens_are_whole 10 16 _ _ (Nat.lt_0_succ 9) M))).
Defined.

(* ===================================================================== *)
(** ** Reference extraction: the body text step cuts long numbers *)
(* ===================================================================== *)

(** A greedy repetition of [\d] takes all of [hi] digits when what follows
    can go on from there. *)
Lemma repeatClass_takes_all (ic : bool) (A : Type) :
  forall m lo hi prev rest (k : option ascii -> string -> option A) x,
    allDigits m -> String.length m = hi -> lo <= hi ->
    k (lastChar prev m) rest = Some x ->
    repeatClass ic Digit lo hi prev (m ++ rest) k = Some x.
Proof.
  induction m as [|a m IH]; intros lo hi prev rest k x D L Le K; simpl in L; subst hi.
  - simpl. assert (lo = 0) as -> by lia. exact K.
  - destruct D as [Da Dm]. simpl.
    change (inClass ic Digit a) with (isDigit a). rewrite Da.
    rewrite (IH (lo - 1) (String.length m) (Some a) rest k x Dm eq_refl); [reflexivity | lia|].
    exact K.
Qed.

Lemma digit_not_separator a :
  isDigit a = true -> inClass true (Either (Lit ":"%char) Space) a = false.
Proof.
  destruct a as [[] [] [] [] [] [] [] []]; try discriminate; intros _; reflexivity.
Qed.

(** The keyword alternatives of the pattern on a text that begins with
    [rekening]. *)
Lemma keyword_rekening (A : Type) (tail : string)
      (k : option ascii -> string -> option A) :
  matchHere true
    (Alt (Seq (word "virtual") (Seq (Star Space) (word "account")))
    (Alt (Seq (word "va") (Seq (Star Space) (word "bca")))
    (Alt (Seq (word "nomor") (Seq (Star Space) (word "va")))
    (Alt (Seq (word "no")
              (Seq (Opt (Lit "."%char)) (Seq (Star Space) (word "va"))))
         (word "rekening")))))
    None ("rekening" ++ tail) k
  = k (Some "g"%char) tail.
Proof. reflexivity. Qed.

(** [[:\s]*] on one space followed by something else. *)
Lemma separator_then (A : Type) (hi : nat) (prev : option ascii) (a : ascii)
      (s : string) (k : option ascii -> string -> option A) (x : A) :
  inClass true (Either (Lit ":"%char) Space) a = false ->
  k (Some " "%char) (String a s) = Some x ->
  repeatClass true (Either (Lit ":"%char) Space) 0 (S (S hi)) prev
              (String " " (String a s)) k = Some x.
Proof.
  intros H K. cbn [repeatClass].
  change (inClass true (Either (Lit ":"%char) Space) " "%char) with true.
  cbv iota. rewrite H. cbn [Nat.sub Nat.eqb]. now rewrite K.
Qed.

Lemma matchAt_rekening (d rest : string) :
  allDigits d -> String.length d = 16 ->
  matchAt true vaContextPattern None ("rekening " ++ d ++ rest)
  = Some ("rekening " ++ d)%string.
Proof.
  intros D L.
  assert (M : matchHere true vaContextPattern None ("rekening " ++ d ++ rest)
                        (fun _ rest0 => Some rest0) = Some rest).
  { destruct d as [|a d']; [discriminate|]. pose proof D as [Da _].
    change (matchHere true vaContextPattern None
                      ("rekening " ++ String a d' ++ rest)
                      (fun _ rest0 => Some rest0))
      with (matchHere true
              (Alt (Seq (word "virtual") (Seq (Star Space) (word "account")))
              (Alt (Seq (word "va") (Seq (Star Space) (word "bca")))
              (Alt (Seq (word "nomor") (Seq (Star Space) (word "va")))
              (Alt (Seq (word "no")
                        (Seq (Opt (Lit "."%char)) (Seq (Star Space) (word "va"))))
                   (word "rekening")))))
              None ("rekening" ++ String " " (String a (d' ++ rest)))
              (fun prev' s' =>
                 repeatClass true (Either (Lit ":"%char) Space) 0
                             (String.length s') prev' s'
                             (fun prev'' s'' =>
                                repeatClass true Digit 10 16 prev'' s''
                                            (fun _ rest0 => Some rest0)))).
    rewrite keyword_rekening. cbn [String.length].
    apply separator_then; [now apply digit_not_separator|].
    change (String a (d' ++ rest)) with (String a d' ++ rest)%string.
    apply repeatClass_takes_all; [exact D | exact L | lia | reflexivity]. }
  unfold matchAt. rewrite M.
  replace ("rekening " ++ d ++ rest)%string with (("rekening " ++ d) ++ rest)%string
    by (now rewrite append_assoc).
  now rewrite substring0_app.
Qed.

Lemma matchAt_nondigit (prev : option ascii) (a : ascii) (s : string) :
  isDigit a = false -> matchAt false digits10to16 prev (String a s) = None.
Proof.
  intros H. unfold matchAt, digits10to16. cbn [matchHere repeatClass].
  change (inClass false Digit a) with (isDigit a). now rewrite H.
Qed.

Lemma searchFrom_hit (ic : bool) (r : regex) prev s m :
  matchAt ic r prev s = Some m -> searchFrom ic r prev s = Some m.
Proof. intros H. destruct s; simpl; now rewrite H. Qed.

Lemma append_nil_r (s : string) : (s ++ "")%string = s.
Proof. induction s as [|a s IH]; simpl; [reflexivity | now rewrite IH]. Qed.

Lemma substring0_all (s : string) : substring0 (String.length s) s = s.
Proof. induction s as [|a s IH]; simpl; [reflexivity | now rewrite IH]. Qed.

Lemma matchAt_sixteen_digits (prev : option ascii) (d : string) :
  allDigits d -> String.length d = 16 ->
  matchAt false digits10to16 prev d = Some d.
Proof.
  intros D L. unfold matchAt, digits10to16. cbn [matchHere].
  assert (K : repeatClass false Digit 10 16 prev (d ++ "")
                          (fun _ rest0 => Some rest0) = Some ""%string).
  { apply repeatClass_takes_all; [exact D | exact L | lia | reflexivity]. }
  rewrite append_nil_r in K. rewrite K. cbn [String.length].
  now rewrite Nat.sub_0_r, substring0_all.
Qed.

Lemma matchFirst_after_rekening (d : string) :
  allDigits d -> String.length d = 16 ->
  matchFirst false digits10to16 ("rekening " ++ d) = Some d.
Proof.
  intros D L. unfold matchFirst. cbn [append].
  repeat (cbn [searchFrom]; rewrite matchAt_nondigit by reflexivity).
  apply searchFrom_hit. now apply matchAt_sixteen_digits.
Qed.

(** X15: the body text step of reference extraction has no word boundary
    after the digits, so it cuts a longer number: in a visible text that
    begins with [rekening], a space and sixteen digits, those sixteen digits
    are the reference (when they pass the filter), whatever follows them,
    more digits included. *)
Theorem body_text_reference_is_cut_at_16_digits :
  forall d rest : string,
    allDigits d -> String.length d = 16 -> isLikelyVA d = true ->
    firstContextVA (matchAll true vaContextPattern ("rekening " ++ d ++ rest))
    = Some d.
Proof.
  intros d rest D L V.
  assert (M : exists more,
             matchAll true vaContextPattern ("rekening " ++ d ++ rest)
             = ("rekening " ++ d)%string :: more).
  { unfold matchAll. cbn [append]. cbn [scanFrom].
    pose proof (@matchAt_rekening d rest D L) as K. cbn [append] in K.
    rewrite K. eexists. reflexivity. }
  destruct M as [more ->]. cbn [firstContextVA].
  now rewrite (@matchFirst_after_rekening d D L), V.
Qed.

Lemma body_text_reference_is_cut_at_16_digits_witness :
  allDigits "8870012345678901" /\
  String.length "8870012345678901" = 16 /\
  isLikelyVA "8870012345678901" = true /\
  firstContextVA
    (matchAll true vaContextPattern ("rekening " ++ "8870012345678901" ++ "2345 lunas"))
  = Some "8870012345678901".
Proof.
  assert (D : allDigits "8870012345678901") by (repeat split).
  split; [exact D|]. split; [reflexivity|]. split; [reflexivity|].
  exact (@body_text_reference_is_cut_at_16_digits _ "2345 lunas" D eq_refl eq_refl).
Defined.

(* ===================================================================== *)
(** ** [fillForm]: where the phone number is typed *)
(* ===================================================================== *)

Lemma typesIntoEmpty_extends phone pre0 pre en :
  typesIntoEmpty phone pre en -> typesIntoEmpty phone (pre0 ++ pre) en.
Proof.
  destruct en as [X e a]. destruct e; simpl; try exact (fun H => H).
  intros (T & D & pre1 & nameAttr & F & ->). split; [exact T|]. split; [exact D|].
  exists (pre0 ++ pre1), nameAttr. split; [exact F | now rewrite app_assoc].
Qed.

Lemma typings_app tr1 tr2 : typings (tr1 ++ tr2) = typings tr1 + typings tr2.
Proof. unfold typings. now rewrite filter_app, length_app. Qed.

(** An execution without any [type()]. *)
Lemma untyped phone tr :
  Forall (fun en => isType en = false) tr ->
  typings tr = 0 /\ always (typesIntoEmpty phone) tr.
Proof.
  intros F. split.
  - unfold typings. induction F as [|en tr H F IH]; [reflexivity|]. simpl. now rewrite H.
  - apply always_Forall; [apply typesIntoEmpty_extends|].
    revert F. apply Forall_impl. intros [X e a] H. destruct e; try exact I. discriminate.
Qed.

Lemma fillPhone_for_typing phone i inputs tr r :
  runs (fillPhone_for phone i inputs) tr r ->
  typings tr <= 1 /\ always (typesIntoEmpty phone) tr.
Proof.
  revert i tr. induction inputs as [|inp rest IH]; intros i tr H; cbn [fillPhone_for] in H.
  - finish H. split; [auto | apply always_nil].
  - assert (U : forall l, Forall (fun en => isType en = false) l ->
                          typings l <= 1 /\ always (typesIntoEmpty phone) l).
    { intros l F. destruct (untyped phone F) as [-> K]. split; [auto | exact K]. }
    step H as nameAttr. destruct nameAttr as [nameAttr|e];
      [|finish H; apply U; repeat constructor].
    step H as currentValue. destruct currentValue as [currentValue|e];
      [|finish H; apply U; repeat constructor].
    destruct (falsy nameAttr
              && (falsy (Some currentValue) || (currentValue =? "")%string)) eqn:C.
    + apply andb_prop in C as [C1 C2].
      assert (currentValue = "") as ->.
      { simpl in C2. rewrite orb_diag in C2. now apply String.eqb_eq. }
      step H as c. destruct c as [[]|e]; [|finish H; apply U; repeat constructor].
      step H as w1. destruct w1 as [[]|e]; [|finish H; apply U; repeat constructor].
      step H as f. destruct f as [[]|e]; [|finish H; apply U; repeat constructor].
      step H as w2. destruct w2 as [[]|e]; [|finish H; apply U; repeat constructor].
      step H as t.
      assert (T : forall tl,
                 Forall (fun en => isType en = false) tl ->
                 typings
                   (Ev (GetAttribute inp "name") (Fulfilled nameAttr)
                    :: Ev (InputValue inp) (Fulfilled "")
                    :: Ev (Click inp None) (Fulfilled tt)
                    :: Ev (WaitForTimeout (100 # 1)) (Fulfilled tt)
                    :: Ev (Fill inp "") (Fulfilled tt)
                    :: Ev (WaitForTimeout (50 # 1)) (Fulfilled tt)
                    :: Ev (TypeText inp phone (30 # 1)) t :: tl) <= 1 /\
                 always (typesIntoEmpty phone)
                   (Ev (GetAttribute inp "name") (Fulfilled nameAttr)
                    :: Ev (InputValue inp) (Fulfilled "")
                    :: Ev (Click inp None) (Fulfilled tt)
                    :: Ev (WaitForTimeout (100 # 1)) (Fulfilled tt)
                    :: Ev (Fill inp "") (Fulfilled tt)
                    :: Ev (WaitForTimeout (50 # 1)) (Fulfilled tt)
                    :: Ev (TypeText inp phone (30 # 1)) t :: tl)).
      { intros tl F. destruct (untyped phone F) as [Z K]. split.
        - unfold typings in *. simpl. rewrite Z. auto.
        - change (always (typesIntoEmpty phone)
                    ([ Ev (GetAttribute inp "name") (Fulfilled nameAttr);
                       Ev (InputValue inp) (Fulfilled "");
                       Ev (Click inp None) (Fulfilled tt);
                       Ev (WaitForTimeout (100 # 1)) (Fulfilled tt);
                       Ev (Fill inp "") (Fulfilled tt);
                       Ev (WaitForTimeout (50 # 1)) (Fulfilled tt);
                       Ev (TypeText inp phone (30 # 1)) t ] ++ tl)).
          apply always_app; [apply typesIntoEmpty_extends | | exact K].
          intros pre en post E.
          destruct pre as [|x1 [|x2 [|x3 [|x4 [|x5 [|x6 [|x7 pre]]]]]]].
          + injection E as <- _. exact I.
          + injection E as _ <- _. exact I.
          + injection E as _ _ <- _. exact I.
          + injection E as _ _ _ <- _. exact I.
          + injection E as _ _ _ _ <- _. exact I.
          + injection E as _ _ _ _ _ <- _. exact I.
          + injection E as <- <- <- <- <- <- <- _.
            split; [reflexivity|]. split; [reflexivity|].
            exists [], nameAttr. now split.
          + destruct pre; discriminate. }
      destruct t as [[]|e]; [|finish H; apply T; constructor].
      step H as w3. destruct w3 as [[]|e]; [|finish H; apply T; repeat constructor].
      step H as newValue. destruct newValue as [newValue|e];
        [|finish H; apply T; repeat constructor].
      destruct ((newValue =? phone)%string
                || (newValue =? stripLeadingZero phone)%string);
        finish H; apply T; repeat constructor.
    + apply IH in H as [Z K]. split.
      * unfold typings in *. simpl. exact Z.
      * do 2 (apply always_cons; [apply typesIntoEmpty_extends | exact I |]). exact K.
Qed.

Lemma fillPhoneByPosition_typing phone tr r :
  runs (fillPhoneByPosition phone) tr r ->
  typings tr <= 1 /\ always (typesIntoEmpty phone) tr.
Proof.
  intros H. unfold fillPhoneByPosition in H.
  apply runs_tryCatch in H as (tr1 & a & tr2 & R1 & -> & R2).
  assert (B : typings tr1 <= 1 /\ always (typesIntoEmpty phone) tr1).
  { clear R2. step R1 as allTextInputs. destruct allTextInputs as [allTextInputs|e].
    - step R1 as u. apply fillPhone_for_typing in R1 as [Z K]. split.
      + unfold typings in *. simpl. exact Z.
      + do 2 (apply always_cons; [apply typesIntoEmpty_extends | exact I |]). exact K.
    - finish R1. split; [auto|]. apply always_one. exact I. }
  destruct B as [Z K]. destruct a as [v|e].
  - destruct R2 as [-> _]. now rewrite app_nil_r.
  - finish R2. split.
    + rewrite typings_app. unfold typings at 2. simpl. lia.
    + apply always_app; [apply typesIntoEmpty_extends | exact K|].
      apply always_one. exact I.
Qed.

(** X16: the phone step of [fillForm] types at most once, and what it types
    is the configured phone number, with a delay of 30 ms, into an input
    that had just been seen without a name attribute and with an empty
    value, and was then clicked and cleared.  An input that has a name or
    already holds a value is never typed into. *)
Theorem phone_typed_into_empty_unnamed_input :
  forall (phone : string) (tr : trace) (r : outcome unit),
    runs (fillPhoneByPosition phone) tr r ->
    typings tr <= 1 /\
    forall before inp text delay (a : outcome unit) after,
      tr = before ++ Ev (TypeText inp text delay) a :: after ->
      text = phone /\ delay = (30 # 1)%Q /\
      exists pre nameAttr,
        falsy nameAttr = true /\
        before = pre ++
                 [ Ev (GetAttribute inp "name") (Fulfilled nameAttr);
                   Ev (InputValue inp) (Fulfilled "");
                   Ev (Click inp None) (Fulfilled tt);
                   Ev (WaitForTimeout (100 # 1)) (Fulfilled tt);
                   Ev (Fill inp "") (Fulfilled tt);
                   Ev (WaitForTimeout (50 # 1)) (Fulfilled tt) ].
Proof.
  intros phone tr r H. apply fillPhoneByPosition_typing in H as [Z K].
  split; [exact Z|].
  intros before inp text delay a after E. exact (K _ _ _ E).
Qed.

Lemma phone_typed_into_empty_unnamed_input_witness :
  runs (fillPhoneByPosition "08123456789")
       (traceOn phonePage "" (fillPhoneByPosition "08123456789")) (Fulfilled tt) /\
  traceOn phonePage "" (fillPhoneByPosition "08123456789")
  = firstn 10 (traceOn phonePage "" (fillPhoneByPosition "08123456789")) ++
    Ev (TypeText (Element 2) "08123456789" (30 # 1)) (Fulfilled tt)
    :: skipn 11 (traceOn phonePage "" (fillPhoneByPosition "08123456789")) /\
  exists pre nameAttr,
    falsy nameAttr = true /\
    firstn 10 (traceOn phonePage "" (fillPhoneByPosition "08123456789"))
    = pre ++
      [ Ev (GetAttribute (Element 2) "name") (Fulfilled nameAttr);
        Ev (InputValue (Element 2)) (Fulfilled "");
        Ev (Click (Element 2) None) (Fulfilled tt);
        Ev (WaitForTimeout (100 # 1)) (Fulfilled tt);
        Ev (Fill (Element 2) "") (Fulfilled tt);
        Ev (WaitForTimeout (50 # 1)) (Fulfilled tt) ].
Proof.
  assert (R : runs (fillPhoneByPosition "08123456789")
                   (traceOn phonePage "" (fillPhoneByPosition "08123456789"))
                   (Fulfilled tt)).
  { apply traceOn_runs. vm_compute. reflexivity. }
  assert (S : traceOn phonePage "" (fillPhoneByPosition "08123456789")
              = firstn 10 (traceOn phonePage "" (fillPhoneByPosition "08123456789")) ++
                Ev (TypeText (Element 2) "08123456789" (30 # 1)) (Fulfilled tt)
                :: skipn 11 (traceOn phonePage "" (fillPhoneByPosition "08123456789"))).
  { vm_compute. reflexivity. }
  split; [exact R|]. split; [exact S|].
  exact (proj2 (proj2 (proj2 (@phone_typed_into_empty_unnamed_input _ _ _ R)
                             _ _ _ _ _ _ S))).
Defined.

(* ===================================================================== *)
(** ** [navigateToPayment]: the flags of the payment selection *)
(* ===================================================================== *)

Lemma pointers_app tr1 tr2 : pointers (tr1 ++ tr2) = pointers tr1 + pointers tr2.
Proof. unfold pointers. now rewrite filter_app, length_app. Qed.

Lemma pointers_cons en tr :
  pointers (en :: tr) = (if isPointer en then 1 else 0) + pointers tr.
Proof. unfold pointers. simpl. now destruct (isPointer en). Qed.

Ltac count_pointers :=
  repeat rewrite ?app_nil_r, ?pointers_cons, ?pointers_app;
  repeat match goal with
         | C : pointers _ = _ |- _ => rewrite C
         end;
  cbn.

Lemma flag_iff (clicked : bool) (n : nat) :
  (true = true <-> clicked = true \/ 0 < S n).
Proof. split; [intros _; right; lia | reflexivity]. Qed.

Lemma clickCentre_runs foundMsg clickedMsg settle clicked sels tr r :
  runs (clickCentre foundMsg clickedMsg settle clicked sels) tr r ->
  exists b, r = Fulfilled b /\ (b = true <-> clicked = true \/ 0 < pointers tr).
Proof.
  revert clicked tr. induction sels as [|sel rest IH]; intros clicked tr H; simpl in H.
  - finish H. exists clicked. split; [reflexivity|]. split; [now left|].
    intros [E | L]; [exact E | inversion L].
  - apply runs_bind in H as (tr1 & a & tr2 & R1 & R2 & ->).
    assert (B : (exists stop, a = Fulfilled (true, stop) /\ pointers tr1 = 1) \/
                ((a = Fulfilled (clicked, false) \/ exists e, a = Rejected e) /\
                 pointers tr1 = 0)).
    { clear R2. step R1 as isVisible. destruct isVisible as [[|]|e].
      - step R1 as u. step R1 as box. destruct box as [[box|]|e].
        + step R1 as m. destruct m as [[]|e].
          * step R1 as u2. step R1 as w. left.
            destruct w as [[]|e]; finish R1; eexists; split; reflexivity.
          * finish R1. right. split; [right; now exists e | reflexivity].
        + finish R1. right. split; [now left | reflexivity].
        + finish R1. right. split; [right; now exists e | reflexivity].
      - finish R1. right. split; [now left | reflexivity].
      - finish R1. right. split; [now left | reflexivity]. }
    destruct B as [(stop & -> & C) | [A C]].
    + destruct stop.
      * finish R2. exists true. split; [reflexivity|]. count_pointers. apply flag_iff.
      * apply IH in R2 as (b & -> & [_ F]). exists b. split; [reflexivity|].
        assert (b = true) as -> by (apply F; now left).
        count_pointers. apply flag_iff.
    + assert (R : runs (clickCentre foundMsg clickedMsg settle clicked rest) tr2 r).
      { destruct A as [-> | [e ->]]; exact R2. }
      apply IH in R as (b & -> & F). exists b. split; [reflexivity|].
      rewrite pointers_app, C. exact F.
Qed.

Lemma clickVAText_runs vaClicked tr r :
  runs (clickVAText vaClicked) tr r ->
  exists b, r = Fulfilled b /\ (b = true <-> vaClicked = true \/ 0 < pointers tr).
Proof.
  intros H. unfold clickVAText in H. destruct vaClicked; cbn [negb] in H.
  - finish H. exists true. split; [reflexivity|]. split; [now left | reflexivity].
  - step H as c. destruct c as [[]|e].
    + step H as u. step H as w. destruct w as [[]|e].
      * finish H. exists true. split; [reflexivity|]. count_pointers. apply flag_iff.
      * step H as u2. finish H. exists true. split; [reflexivity|].
        count_pointers. apply flag_iff.
    + step H as u. finish H. exists false. split; [reflexivity|]. count_pointers.
      split; [discriminate | intros [E | L]; [discriminate | inversion L]].
Qed.

Lemma clickBCARadio_runs bcaClicked tr r :
  runs (clickBCARadio bcaClicked) tr r ->
  exists b, r = Fulfilled b /\ (b = true <-> bcaClicked = true \/ 0 < pointers tr).
Proof.
  intros H. unfold clickBCARadio in H. destruct bcaClicked; cbn [negb] in H.
  - finish H. exists true. split; [reflexivity|]. split; [now left | reflexivity].
  - apply runs_bind in H as (tr1 & a & tr2 & R1 & R2 & ->).
    assert (No : forall l : trace,
               pointers l = 0 ->
               (false = true <-> false = true \/ 0 < pointers l)).
    { intros l ->. split; [discriminate | intros [E | L]; [discriminate | inversion L]]. }
    step R1 as radios. destruct radios as [radios|e].
    + destruct (2 <=? length radios).
      * destruct (nth_error radios 1) as [radio|].
        -- step R1 as c. destruct c as [[]|e].
           ++ step R1 as u. finish R1. finish R2. exists true. split; [reflexivity|].
              count_pointers. apply flag_iff.
           ++ finish R1. step R2 as u. finish R2. exists false. split; [reflexivity|].
              apply No. reflexivity.
        -- finish R1. finish R2. exists false. split; [reflexivity|].
           apply No. reflexivity.
      * finish R1. finish R2. exists false. split; [reflexivity|].
        apply No. reflexivity.
    + finish R1. step R2 as u. finish R2. exists false. split; [reflexivity|].
      apply No. reflexivity.
Qed.

Lemma clickCentre_centreStep all foundMsg clickedMsg settle clicked sels :
  incl sels all ->
  uses (centreStep all) (clickCentre foundMsg clickedMsg settle clicked sels).
Proof.
  revert clicked. induction sels as [|sel rest IH]; intros clicked Hin; simpl.
  - apply uses_Ret.
  - assert (Here : exists s, In s all /\ First (Locator sel) = First (Locator s)).
    { exists sel. split; [apply Hin; now left | reflexivity]. }
    assert (Hrest : forall c,
               uses (centreStep all) (clickCentre foundMsg clickedMsg settle c rest)).
    { intros c. apply IH. intros x Hx. apply Hin. now right. }
    apply uses_bind; [|intros [[c []]|e]; [apply uses_Ret | apply Hrest | apply Hrest]].
    unfold andThen, orElse, perform.
    apply uses_bind.
    { apply uses_bind; [apply uses_trigger; intros a; exact Here|].
      intros [b|e]; apply uses_Ret. }
    intros [[|]|e]; [|apply uses_Ret ..].
    apply uses_bind.
    { apply uses_bind; [apply uses_trigger; intros; exact I|]. intros a. apply uses_Ret. }
    intros [[]|e]; [|apply uses_Ret].
    apply uses_bind; [apply uses_trigger; intros a; exact Here|].
    intros [[box|]|e]; [|apply uses_Ret ..].
    apply uses_bind; [apply uses_trigger; intros; exact I|].
    intros [[]|e]; [|apply uses_Ret].
    apply uses_bind.
    { apply uses_bind; [apply uses_trigger; intros; exact I|]. intros a. apply uses_Ret. }
    intros [[]|e]; [|apply uses_Ret].
    apply uses_bind; [apply uses_trigger; intros; exact I|].
    intros [[]|e]; apply uses_Ret.
Qed.

Lemma uses_log {R} (P : entry -> Prop) level message (k : outcome unit -> itree pageE R) :
  (forall a, P (Ev (Log level message) a)) ->
  (forall a, uses P (k a)) ->
  uses P (ITree.bind (perform (Log level message)) k).
Proof.
  intros HP Hk. apply uses_bind; [|exact Hk].
  unfold perform. apply uses_bind; [apply uses_trigger; exact HP|].
  intros a. apply uses_Ret.
Qed.

Lemma clickVAText_vaStep vaClicked : uses vaStep (clickVAText vaClicked).
Proof.
  unfold clickVAText. destruct (negb vaClicked); [|apply uses_Ret].
  apply uses_bind; [apply uses_trigger; intros a; right; now exists a|].
  intros [[]|e]; unfold andThen.
  - apply uses_log; [intros a; left; exact I|].
    intros [[]|e]; [|apply uses_Ret].
    apply uses_bind; [apply uses_trigger; intros a; left; exact I|].
    intros [[]|e]; [apply uses_Ret|].
    apply uses_log; [intros a; left; exact I|].
    intros [[]|e']; apply uses_Ret.
  - apply uses_log; [intros a; left; exact I|].
    intros [[]|e']; apply uses_Ret.
Qed.

Lemma clickBCARadio_bcaStep bcaClicked : uses bcaStep (clickBCARadio bcaClicked).
Proof.
  unfold clickBCARadio. destruct (negb bcaClicked); [|apply uses_Ret].
  apply uses_bind.
  - unfold andThen.
    apply uses_bind; [apply uses_trigger; intros a; right; left; now exists a|].
    intros [radios|e]; [|apply uses_Ret].
    destruct (2 <=? length radios); [|apply uses_Ret].
    destruct (nth_error radios 1) as [radio|]; [|apply uses_Ret].
    apply uses_bind; [apply uses_trigger; intros a; right; right; now exists radio, a|].
    intros [[]|e]; [|apply uses_Ret].
    apply uses_log; [intros a; left; exact I|].
    intros [[]|e]; apply uses_Ret.
  - intros [b|e]; [apply uses_Ret|]. unfold andThen.
    apply uses_log; [intros a; left; exact I|].
    intros [[]|e']; apply uses_Ret.
Qed.

(** An execution of a program is cut out of a longer sequence of
    interactions in one way only. *)
Lemma runs_cut_unique {R} (t : itree pageE R) tr1 r1 :
  runs t tr1 r1 ->
  forall tr2 r2 rest1 rest2,
    runs t tr2 r2 -> tr1 ++ rest1 = tr2 ++ rest2 -> tr1 = tr2 /\ r1 = r2.
Proof.
  induction 1 as [t r O | t u tr r O H IH | t X e k a tr r O H IH];
    intros tr2 r2 rest1 rest2 H2 E; apply runs_inv in H2; rewrite O in H2.
  - destruct H2 as [-> ->]. now split.
  - now apply IH with rest1 rest2.
  - destruct H2 as (a' & tr' & -> & H2). simpl in E.
    injection E as Ea Et. apply Eqdep.EqdepTheory.inj_pair2 in Ea. subst a'.
    destruct (IH _ _ _ _ H2 Et) as [-> ->]. now split.
Qed.

Lemma runs_andThen_intro {A B} (m : async A) (k : A -> async B) tr1 a tr2 r :
  runs m tr1 (Fulfilled a) -> runs (k a) tr2 r -> runs (andThen m k) (tr1 ++ tr2) r.
Proof.
  intros H1 H2. apply runs_andThen. exists tr1, (Fulfilled a), tr2.
  split; [exact H1|]. split; [reflexivity | exact H2].
Qed.

(** X17: the selection of the payment method never throws, and its two
    flags are truthful.  A finished run is a run of the Virtual Account
    step (the loop over [vaSelectors] and the click on the text) followed
    by a run of the BCA step (the loop over [bcaSelectors] and the click on
    the second radio button), and it is so in one way only: [vaClicked] is
    what the first step returns and is true exactly when a click went
    through in it, [bcaClicked] is what the second returns and is true
    exactly when a click went through in it.  So the closing message that
    VA BCA was selected stands for two clicks that went through, one in
    each step. *)
Theorem payment_flags_are_truthful :
  forall (tr : trace) (r : outcome (bool * bool)),
    runs selectPaymentMethod tr r ->
    exists vaClicked bcaClicked trVA trBCA,
      r = Fulfilled (vaClicked, bcaClicked) /\
      tr = trVA ++ trBCA /\
      runs selectVA trVA (Fulfilled vaClicked) /\
      runs selectBCA trBCA (Fulfilled bcaClicked) /\
      (forall cut rest v,
          tr = cut ++ rest -> runs selectVA cut v ->
          cut = trVA /\ rest = trBCA /\ v = Fulfilled vaClicked) /\
      Forall vaStep trVA /\ Forall bcaStep trBCA /\
      (vaClicked = true <-> 0 < pointers trVA) /\
      (bcaClicked = true <-> 0 < pointers trBCA).
Proof.
  intros tr r H. unfold selectPaymentMethod in H.
  apply runs_tryCatch in H as (tr0 & a & tr' & R0 & -> & R').
  apply runs_andThen in R0 as (tr1 & a1 & tr2 & R1 & -> & R2).
  pose proof R1 as K1.
  pose proof (uses_runs (@clickCentre_centreStep _ _ _ _ _ _ (incl_refl vaSelectors)) R1) as S1.
  apply clickCentre_runs in R1 as (va1 & -> & F1).
  apply runs_andThen in R2 as (tr3 & a3 & tr4 & R3 & -> & R4).
  pose proof R3 as K3.
  pose proof (uses_runs (clickVAText_vaStep _) R3) as S3.
  apply clickVAText_runs in R3 as (va & -> & F3).
  apply runs_andThen in R4 as (tr5 & a5 & tr6 & R5 & -> & R6).
  pose proof R5 as K5.
  pose proof (uses_runs (@clickCentre_centreStep _ _ _ _ _ _ (incl_refl bcaSelectors)) R5) as S5.
  apply clickCentre_runs in R5 as (bca1 & -> & F5).
  apply runs_andThen in R6 as (tr7 & a7 & tr8 & R7 & -> & R8).
  pose proof R7 as K7.
  pose proof (uses_runs (clickBCARadio_bcaStep _) R7) as S7.
  apply clickBCARadio_runs in R7 as (bca & -> & F7).
  finish R8. destruct R' as [-> ->].
  assert (RV : runs selectVA (tr1 ++ tr3) (Fulfilled va))
    by (unfold selectVA; now apply runs_andThen_intro with va1).
  assert (RB : runs selectBCA (tr5 ++ tr7) (Fulfilled bca))
    by (unfold selectBCA; now apply runs_andThen_intro with bca1).
  assert (Etr : (tr1 ++ tr3 ++ tr5 ++ tr7 ++ []) ++ [] = (tr1 ++ tr3) ++ tr5 ++ tr7)
    by now rewrite !app_nil_r, app_assoc.
  exists va, bca, (tr1 ++ tr3), (tr5 ++ tr7).
  split; [reflexivity|]. split; [exact Etr|].
  split; [exact RV|]. split; [exact RB|].
  split.
  { intros cut rest v Ecut Rcut. rewrite Etr in Ecut.
    destruct (@runs_cut_unique _ _ _ _ RV _ _ _ _ Rcut Ecut) as [<- <-].
    split; [reflexivity|]. split; [|reflexivity].
    now apply app_inv_head in Ecut. }
  split.
  { apply Forall_app. split; [|exact S3].
    eapply Forall_impl; [|exact S1]. intros en Hen. now left. }
  split.
  { apply Forall_app. split; [|exact S7].
    eapply Forall_impl; [|exact S5]. intros en Hen. now left. }
  rewrite !pointers_app. split.
  - rewrite F3, F1. split.
    + intros [[E | L] | L]; [discriminate | lia ..].
    + intros L. destruct (pointers tr3); [left; right; lia | right; lia].
  - rewrite F7, F5. split.
    + intros [[E | L] | L]; [discriminate | lia ..].
    + intros L. destruct (pointers tr7); [left; right; lia | right; lia].
Qed.

Lemma payment_flags_are_truthful_witness :
  runs selectPaymentMethod (traceOn methodPage tt selectPaymentMethod)
       (Fulfilled (true, true)) /\
  exists trVA trBCA,
    traceOn methodPage tt selectPaymentMethod = trVA ++ trBCA /\
    runs selectVA trVA (Fulfilled true) /\
    runs selectBCA trBCA (Fulfilled true) /\
    Forall vaStep trVA /\ Forall bcaStep trBCA /\
    0 < pointers trVA /\ 0 < pointers trBCA.
Proof.
  assert (R : runs selectPaymentMethod (traceOn methodPage tt selectPaymentMethod)
                   (Fulfilled (true, true))).
  { apply traceOn_runs. vm_compute. reflexivity. }
  split; [exact R|].
  destruct (@payment_flags_are_truthful _ _ R)
    as (va & bca & trVA & trBCA & E & S & RV & RB & _ & SV & SB & FV & FB).
  injection E as <- <-. exists trVA, trBCA.
  split; [exact S|]. split; [exact RV|]. split; [exact RB|].
  split; [exact SV|]. split; [exact SB|].
  split; [now apply FV | now apply FB].
Defined.

(* ===================================================================== *)
(** ** [navigateToPayment]: every execution finishes *)
(* ===================================================================== *)

Lemma clickCentre_finite foundMsg clickedMsg settle clicked sels :
  all_finite (clickCentre foundMsg clickedMsg settle clicked sels).
Proof.
  revert clicked. induction sels as [|sel rest IH]; intros clicked; simpl.
  - finite_steps.
  - apply all_finite_bind_weak.
    + unfold orElse, tryCatch. finite_steps.
    + intros [[c []]|e]; [finite_steps | apply IH | apply IH].
Qed.

Lemma selectPaymentMethod_finite : all_finite selectPaymentMethod.
Proof.
  unfold selectPaymentMethod, tryCatch, clickVAText, clickBCARadio.
  apply all_finite_bind_weak.
  - apply all_finite_andThen; [apply clickCentre_finite | intros va1].
    apply all_finite_andThen; [finite_steps | intros va].
    apply all_finite_andThen; [apply clickCentre_finite | intros bca1].
    finite_steps.
  - intros [v|e]; finite_steps.
Qed.

Lemma checkAll_finite i checkboxes : all_finite (checkAll i checkboxes).
Proof.
  revert i. induction checkboxes as [|checkbox rest IH]; intros i; simpl.
  - finite_steps.
  - apply all_finite_bind_weak; [finite_steps | intros _; apply IH].
Qed.

Lemma checkCheckboxes_finite : all_finite checkCheckboxes.
Proof.
  unfold checkCheckboxes, tryCatch.
  apply all_finite_andThen; [finite_steps | intros _].
  apply all_finite_bind_weak.
  - apply all_finite_andThen; [finite_steps | intros checkboxes].
    apply all_finite_andThen; [finite_steps | intros _].
    apply checkAll_finite.
  - intros [v|e]; finite_steps.
Qed.

Lemma clickPayNow_finite payNowClicked sels :
  all_finite (clickPayNow payNowClicked sels).
Proof.
  revert payNowClicked. induction sels as [|sel rest IH]; intros payNowClicked; simpl.
  - finite_steps.
  - apply all_finite_bind_weak.
    + unfold orElse, tryCatch. finite_steps.
    + intros [[c []]|e]; [finite_steps | apply IH | apply IH].
Qed.

Lemma scanLabels_finite sels : all_finite (scanLabels sels).
Proof.
  induction sels as [|sel rest IH]; simpl.
  - finite_steps.
  - apply all_finite_bind_weak.
    + unfold orElse, tryCatch, throw. finite_steps.
    + intros [[num|]|e]; [finite_steps | apply IH | apply IH].
Qed.

Lemma scanContainers_finite containers : all_finite (scanContainers containers).
Proof.
  induction containers as [|container rest IH]; simpl.
  - finite_steps.
  - apply all_finite_bind_weak.
    + unfold throw. finite_steps.
    + intros [[num|]|e]; [finite_steps | apply IH | apply IH].
Qed.

Lemma extractVA_finite : all_finite extractVA.
Proof.
  unfold extractVA, tryCatch, scanBodyText.
  apply all_finite_bind_weak.
  - apply all_finite_andThen; [apply scanLabels_finite | intros [num|]].
    + finite_steps.
    + apply all_finite_andThen.
      * apply all_finite_andThen; [finite_steps | intros _].
        apply all_finite_andThen; [finite_steps | intros containers].
        apply scanContainers_finite.
      * intros [num|]; finite_steps.
  - intros [v|e]; finite_steps.
Qed.

Lemma report_finite vaNumber vaClicked bcaClicked :
  all_finite (report vaNumber vaClicked bcaClicked).
Proof. unfold report. finite_steps. Qed.

Lemma afterCheckout_finite : all_finite afterCheckout.
Proof.
  unfold afterCheckout.
  do 4 (apply all_finite_andThen; [finite_steps | intros ?]).
  apply all_finite_andThen; [unfold tryCatch; finite_steps | intros _].
  apply all_finite_andThen; [finite_steps | intros _].
  apply all_finite_andThen; [apply selectPaymentMethod_finite | intros [va bca]].
  apply all_finite_andThen; [finite_steps | intros _].
  apply all_finite_andThen; [apply checkCheckboxes_finite | intros _].
  apply all_finite_andThen; [finite_steps | intros _].
  apply all_finite_andThen; [finite_steps | intros _].
  apply all_finite_andThen; [apply clickPayNow_finite | intros payNowClicked].
  apply all_finite_andThen; [finite_steps | intros _].
  apply all_finite_andThen; [finite_steps | intros _].
  apply all_finite_andThen; [finite_steps | intros _].
  apply all_finite_andThen; [apply extractVA_finite | intros vaNumber].
  apply all_finite_andThen; [apply report_finite | intros _].
  finite_steps.
Qed.

Lemma navigateToPayment_finite : all_finite navigateToPayment.
Proof.
  unfold navigateToPayment.
  apply all_finite_andThen; [finite_steps | intros _].
  apply all_finite_andThen.
  - unfold checkoutLoop, while.
    apply checkoutLoop_finite_from with (n := maxClicks); unfold maxClicks; lia.
  - intros [result|]; [finite_steps | apply afterCheckout_finite].
Qed.

(** A program all of whose executions are finite settles against every
    browser. *)
Lemma all_finite_exec {W R} (b : browser W) (t : itree pageE R) :
  all_finite t ->
  forall w, exists fuel tr r w', exec b fuel t w = Some (tr, r, w').
Proof.
  induction 1 as [a t O | t u O F IH | X e u k O F IH]; intros w.
  - exists 1, [], a, w. simpl. now rewrite O.
  - destruct (IH w) as (fuel & tr & r & w' & E).
    exists (S fuel), tr, r, w'. simpl. now rewrite O.
  - destruct (b X e w) as [a w1] eqn:B.
    destruct (IH a w1) as (fuel & tr & r & w' & E).
    exists (S fuel), (Ev e a :: tr), r, w'. simpl. rewrite O, B, E. reflexivity.
Qed.

(** C10: [navigateToPayment] returns true on every path.  Every execution
    is finite, so against every browser the function settles; and whatever
    the browser answers (a payment surface found or not, buttons, payment
    options, checkboxes and the Pay Now button clicked or not, a reference
    extracted or not), it settles with true unless an exception escapes
    it: there is no path on which it returns false or nothing. *)
Theorem navigateToPayment_returns_true :
  all_finite navigateToPayment /\
  (forall (W : Type) (b : browser W) (w : W),
      exists fuel tr r w',
        exec b fuel navigateToPayment w = Some (tr, r, w') /\
        (r = Fulfilled true \/ exists e, r = Rejected e)) /\
  (forall (tr : trace) (r : outcome bool),
      runs navigateToPayment tr r ->
      r = Fulfilled true \/ exists e, r = Rejected e).
Proof.
  split; [exact navigateToPayment_finite|]. split.
  - intros W b w.
    destruct (all_finite_exec b navigateToPayment_finite w)
      as (fuel & tr & r & w' & E).
    exists fuel, tr, r, w'. split; [exact E|].
    apply navigateToPayment_true_or_thrown with tr.
    now apply exec_runs with b fuel w w'.
  - exact navigateToPayment_true_or_thrown.
Qed.

Lemma navigateToPayment_returns_true_witness :
  exists tr,
    exec checkoutPage 3000 navigateToPayment tt = Some (tr, Fulfilled true, tt) /\
    runs navigateToPayment tr (Fulfilled true) /\
    In (Ev (Log logger.warn
               [Str "No clickable buttons found, checking if on payment page..."]) tt)
       tr /\
    In (Ev (Log logger.success [Str "Clicked on Virtual Account header"]) tt) tr /\
    In (Ev (Click (Element 32) None) (Fulfilled tt)) tr /\
    In (Ev (Click (Element 22) None) (Fulfilled tt)) tr /\
    In (Ev (Click (First (Locator "button:has-text('Bayar Sekarang')")) None)
           (Fulfilled tt)) tr /\
    In (Ev (WriteFile resultFile
               [ Str "VA BCA: "; Str "88700123456789"; Str newline;
                 Str "Time: "; Str "2026-01-01T00:00:00.000Z"; Str newline;
                 Str "Event: "; Str "about:blank" ])
           (Fulfilled tt)) tr /\
    clicks tr = 3 /\
    (Fulfilled true = Fulfilled true \/ exists e, Fulfilled true = Rejected e).
Proof.
  destruct (exec checkoutPage 3000 navigateToPayment tt) as [[[tr r] w]|] eqn:E;
    [|vm_compute in E; discriminate].
  assert (R : runs navigateToPayment tr r)
    by now apply exec_runs with checkoutPage 3000 tt w.
  vm_compute in E. injection E as <- <- <-.
  eexists. split; [reflexivity|]. split; [exact R|].
  do 6 (split; [repeat (first [left; reflexivity | right])|]).
  split; [vm_compute; reflexivity|].
  exact (proj2 (proj2 navigateToPayment_returns_true) _ _ R).
Defined.
